(* ===== verification/_CoqProject ===== *)
-Q . S2P
Prelude.v
Ragel.v
Cstdlib.v
Node.v
Defend.v
NodeFormat.v
Stackish.v
NodeRep.v
NodeOpen.v
NodeFormatProps.v
StackishDfa.v
StackishRt.v
StackishProps.v
StackishTyped.v
Heap.v
Message.v
Routing.v
RoutingProps.v
RoutingEnd.v
Members.v
Commands.v
CommandsProps.v
Connection.v
Hub.v
ConnectionProps.v
Tasks.v
TasksProps.v
TasksRuns.v
Crypto.v
Signing.v
Frame.v
Peer.v
FrameProps.v
CryptoProps.v
PeerProps.v
PeerAttacks.v
SigningProps.v
ClientIo.v
ClientIoProps.v
Proxy.v
ProxyProps.v
ProxyRelay.v
ProxyConnect.v
ProxyFaults.v
Client.v
ClientProps.v
Session.v
Server.v
BString.v
BStringProps.v
BStringSearch.v
BStringMake.v
BStringList.v
BStringListProps.v
BStringFormat.v
BStringReplace.v
BStringReplaceProps.v
BStringStream.v
BStringStreamProps.v
BStringQueue.v
BStringSplit.v
BStringMacros.v
