(* ===== verification/Prelude.v ===== *)
(** * Utu: a verification development (root file)

    Utu is a chat and message hub written in C.  Peers exchange trees of values, written in
    a small stack language ("stackish"), in encrypted frames; a hub accepts connections, lets members
    register on routes and delivers messages to them.  The sources are under [src/src/].

    ** The parts, and where they are modelled

    - [Prelude]: outcomes ([res], with [Fault] for what C does not survive), machine
      integers, bytes, decimal notation, lists.  [Cstdlib]: [strtoull], [strtod], ["%f"].
    - [Node], [NodeFormat] ([stackish/node.c], [node_algo.h]): nodes in an explicit store with
      [errno]; creation, linking, naming, printing, the traversal macro with its path arrays,
      destruction, the printf-like [Node_cons] and [Node_decons].
    - [Ragel] ([stackish/stackish.c], shared driver): the table-driven execution that Ragel
      generates, with both binary searches.  [Stackish]: the parser's tables, token
      handlers, actions, the loop over blobs, [Node_parse_seq].
    - [Heap] ([hub/heap.c]), [Message] ([hub/queue.c], [protocol/message.c]), [Routing] and [Members]
      ([hub/routing.c], [hub/member.c]), [Commands] ([hub/commands.c], [hub/info.c]).
    - [Connection], [Hub] ([hub/connection.c], [connection_state.c], [hub.c], [hub_state.c]): the two
      generated state machines with their actions; [Tasks]: the incoming and the outgoing task of a
      connection as step functions between the points where libtask can switch.
    - [Crypto], [Signing] ([protocol/crypto.c]): the channel, the key exchange, packets, signatures, the
      hate challenge.  [Frame] ([protocol/frame.c]) and [Peer] ([protocol/peer.c]): frames on a socket, and
      the two sides of a connection.
    - [ClientIo] ([client/io.c]): descriptors that are read and written in pieces, frames, addresses and sockets.
      [Proxy] ([client/proxy.c], [errors.h]): configuration, key exchange with a hub, verification and the [select] loop that
      passes messages between a listener and the hub.  [Client] ([client/client.c]) and [Server] ([server/server.c]):
      the two programs, from the command line on.
    - [BString], [BStringList], [BStringReplace], [BStringFormat], [BStringStream], [BStringMacros] ([myriad/bstring/bstrlib.c], [bstrlib.h]): the
      string library on its own representation of capacity, length and buffer.  The other files take strings as the byte
      sequences that [BStringProps] shows it implements, and print with the [bformata] that [BStringFormat] shows it implements.
    - [Defend] ([myriad/defend.h]): the checks that jump to the end of a function; the other files have them written out.

    A C function is a Rocq function of the same name: state is passed
    explicitly, a failed [check] takes the failure path with what it returns there, [assert] and
    undefined behaviour are a [Fault].  Shared and freed memory is visible: nodes and messages live in
    stores, a string that is freed while a node still points to it becomes [VFreed].

    ** What is outside

    LibTomCrypt, the buffers and sockets of Myriad, the system's resolver, sockets and descriptors, [qsort] and the
    file system are not in the repository: they are parameters (the classes [Crypto.Ltc], [Frame.Sbuf], [ClientIo.Net], and
    arguments that say what each call does: what a descriptor delivers, what [select] reports, whether memory is there).  Where a theorem
    needs their documented behaviour it is a hypothesis ([CryptoProps.LtcLaws], [FrameProps.SbufLaws]), and the
    witnesses instantiate them.  The red-black tree of sglib is modelled as the sequence its in-order
    walk gives.  libtask is cooperative: a task runs until it blocks or yields.

    ** What is proved

    - The tree and its text: printing and parsing are inverse ([StackishProps.parse_seq_print],
      [bstr_parse]), construction and deconstruction are inverse ([NodeFormatProps]), destruction frees
      exactly the tree ([NodeRep]), the generated tables are the grammar's machine
      ([StackishDfa], [StackishProps]); for arbitrary input the store stays well typed
      ([StackishTyped]); where hostile input crashes, hangs or is accepted wrongly.
    - The hub: heaps refine multisets and queues refine bounded FIFOs ([Heap], [Message]); reference
      counting; routes and members are found after registration and login ([RoutingProps], [Members]), and destroying a table frees each
      route once ([RoutingEnd]); the
      commands are registered in any table and dispatched to their callbacks, and answer ([CommandsProps]); the generated machines implement
      the state charts ([Hub]); the life of a connection, up to the reuse of its structure, under every interleaving of its two
      tasks with the network and the rest of the hub ([ConnectionProps], [TasksProps]); that the structure can be reused too early
      ([TasksProps.reuse_while_running]), that a client that hangs up has a message freed twice, and more runs that go wrong ([TasksRuns]).
    - The protocol: frames survive any fragmentation ([FrameProps]); the handshake makes both
      sides agree ([CryptoProps], [PeerProps]) and keeps them in step through the session; what a peer
      that breaks the rules gets away with ([PeerAttacks]); signing and verifying, and what a signature covers ([SigningProps]).
    - The client: every way a read of a given length ends, and nodes survive any fragmentation ([ClientIoProps]);
      [Proxy_connect] and the hub's [Peer_establish_receiver] complete the key exchange with each other ([ProxyConnect]); the event
      loop, for accurate reports of [select], is two one-message buffers and delivers every message ([ProxyProps], [ProxyRelay]); a whole session of
      the program from its arguments to the last message ([ClientProps]), and, put together with the hub's side, every message of
      either one given to the other in order ([Session.chat_session]); what goes wrong when a call is interrupted, the hub
      has another name or key, or stops half way ([ProxyFaults]).  The server's key and pid files ([Server]).
    - The string library: any sequence of operations is the same sequence on bytes, inside the buffers ([BStringProps]);
      nobody writes to a protected string ([BStringMacros]); searches find the first or last occurrence ([BStringSearch]), and find-and-replace replaces all
      occurrences in all three of its ways ([BStringReplaceProps]); the formatting functions print the whole text ([BStringFormat]); splitting and joining are
      inverse ([BStringListProps]); a buffered stream is a queue of bytes under any sequence of operations ([BStringStreamProps], [BStringQueue]), and splitting it gives the
      pieces of its content, while an empty set never ends ([BStringSplit]); streams are read to their end, and where the library leaves its
      buffer or overflows ([BStringMake]).

    ** Bounds and fuel

    Integers have the width of the C types, with [u16], [u32], [u64] and [i32] written out.  Loops that
    are not structural take fuel: [parse_fuel] is one more than the bytes of the buffer, and the round
    trips show it is enough, while [wrapped_blob_diverges] shows an input for which no fuel is; traversals
    take one step per allocated node; [io_ensure_sbuf] one per byte asked for, because a read brings at
    least one; the binary searches one per element; [readn] one per event of the descriptor and two more, and where that is not enough, reads being interrupted for ever, no fuel is; the string searches one per
    position and byte of the pattern; [breada], the readers of a [bStream] and find-and-replace one per byte; [format_loop] more than an [int] can be doubled, of which the
    proof needs three; [bssplitscb] takes its fuel as an argument, since its callback can use the stream.  The theorems on strings are about sizes below
    2^28 ([BStringProps.LIMIT]), where no product or doubling of a length leaves an [int].

    ** Not modelled

    What is printed to a log or to the terminal, which nothing reads back, and how [vsnprintf] makes a text of a format and its arguments: the text is an
    argument.  A string argument may be the string itself but not a pointer into the middle of its buffer.  Outside the string library
    memory allocation does not fail.  The other lines of the headers are declarations and comments. *)

From Stdlib Require Import ZArith Lia List Bool.
From Stdlib Require Strings.Byte.
From Stdlib Require Import Strings.String.
Export Strings.String.StringSyntax.
From stdpp Require Export base tactics list gmap numbers.

#[export] Set Default Goal Selector "!".
#[export] Set Warnings "-clear-no-such-hyp".

Declare Scope utu_scope.
Delimit Scope utu_scope with utu.

(** ** Outcomes of C code

    [Fault] is what the C program does not survive or does not define: a failed
    [assert], a NULL or dangling dereference, an out-of-bounds access, signed
    overflow, a va_arg of the wrong kind, the use of what was never set.  [NoFuel] marks a loop that was cut off
    by the fuel of its model. *)
Inductive fault : Type :=
  | AssertFail
  | NullDeref
  | BadPointer
  | OutOfBounds
  | SignedOverflow
  | BadVarArg
  | Uninitialised
  | NoFuel.

Inductive res (A : Type) : Type :=
  | Ok (a : A)
  | Fault (f : fault).
Arguments Ok {A} a.
Arguments Fault {A} f.

Definition res_bind {A B} (f : A -> res B) (m : res A) : res B :=
  match m with
  | Ok a => f a
  | Fault e => Fault e
  end.
Arguments res_bind {A B} f !m /.

#[global] Instance res_mret : MRet res := @Ok.
#[global] Instance res_mbind : MBind res := @res_bind.
#[global] Instance res_fmap : FMap res := fun A B f m => res_bind (fun a => Ok (f a)) m.

#[global] Instance fault_eq_dec : EqDecision fault.
Proof. solve_decision. Defined.

#[global] Instance res_eq_dec {A} `{EqDecision A} : EqDecision (res A).
Proof. solve_decision. Defined.

(** [assert(b)] *)
Definition assert_ (b : bool) : res unit :=
  if b then Ok tt else Fault AssertFail.

(** Reading a value that has to be there, faulting with [e] otherwise. *)
Definition need {A} (e : fault) (o : option A) : res A :=
  match o with
  | Some a => Ok a
  | None => Fault e
  end.
Arguments need {A} e !o /.

Lemma bind_Ok {A B} (m : res A) (f : A -> res B) b :
  m ≫= f = Ok b <-> exists a, m = Ok a /\ f a = Ok b.
Proof.
  destruct m; split; simpl.
  - eauto.
  - intros (a' & [= <-] & H); exact H.
  - discriminate.
  - intros (a' & ? & _); discriminate.
Qed.

Lemma bind_ret {A B} (a : A) (f : A -> res B) : Ok a ≫= f = f a.
Proof. done. Qed.

Lemma bind_fault {A B} e (f : A -> res B) : (Fault e : res A) ≫= f = Fault e.
Proof. done. Qed.

Lemma bind_assoc {A B C} (m : res A) (f : A -> res B) (g : B -> res C) :
  (m ≫= f) ≫= g = m ≫= (fun a => f a ≫= g).
Proof. by destruct m. Qed.

Lemma assert_true b : b = true -> assert_ b = Ok tt.
Proof. by intros ->. Qed.

(** ** Arrays: [a[i]] and [a[i] = x], bounds-checked *)

Definition index {A} (l : list A) (i : Z) : res A :=
  if (i <? 0)%Z then Fault OutOfBounds else need OutOfBounds (l !! Z.to_nat i).

Definition index_set {A} (l : list A) (i : Z) (x : A) : res (list A) :=
  if (i <? 0)%Z || (Z.of_nat (length l) <=? i)%Z then Fault OutOfBounds
  else Ok (<[Z.to_nat i := x]> l).

Lemma index_Some {A} (l : list A) i x :
  (0 <= i)%Z -> l !! Z.to_nat i = Some x -> index l i = Ok x.
Proof. intros Hi H. unfold index. by rewrite (proj2 (Z.ltb_ge _ _)), H by lia. Qed.

Lemma index_set_in {A} (l : list A) i x :
  (0 <= i < Z.of_nat (length l))%Z -> index_set l i x = Ok (<[Z.to_nat i := x]> l).
Proof.
  intros Hi. unfold index_set. by rewrite (proj2 (Z.ltb_ge _ _)), (proj2 (Z.leb_gt _ _)) by lia.
Qed.

(** [res_simpl] runs the binds whose left side is known. *)
Ltac res_simpl := repeat (rewrite ?bind_ret, ?bind_fault; cbv beta iota).

(** ** Machine integers: a w-bit value is a [Z] in its range, wrap-around written out *)

Definition u16 (z : Z) : Z := z mod 2 ^ 16.
Definition u32 (z : Z) : Z := z mod 2 ^ 32.
Definition u64 (z : Z) : Z := z mod 2 ^ 64.
Definition i16 (z : Z) : Z := (z + 2 ^ 15) mod 2 ^ 16 - 2 ^ 15.
Definition i32 (z : Z) : Z := (z + 2 ^ 31) mod 2 ^ 32 - 2 ^ 31.

Definition INT_MAX : Z := 2 ^ 31 - 1.
Definition INT_MIN : Z := - 2 ^ 31.

(** [a + b] on [int]: signed overflow is undefined. *)
Definition int_ok (z : Z) : bool := (INT_MIN <=? z)%Z && (z <=? INT_MAX)%Z.
Definition iadd (a b : Z) : res Z :=
  if int_ok (a + b)%Z then Ok (a + b)%Z else Fault SignedOverflow.

Lemma u64_small z : (0 <= z < 2 ^ 64)%Z -> u64 z = z.
Proof. intros; by apply Z.mod_small. Qed.

Lemma u64_range z : (0 <= u64 z < 2 ^ 64)%Z.
Proof. by apply Z.mod_pos_bound. Qed.

Lemma i32_small z : (- 2 ^ 31 <= z < 2 ^ 31)%Z -> i32 z = z.
Proof. intros; unfold i32; rewrite Z.mod_small; lia. Qed.

Lemma u16_small z : (0 <= z < 2 ^ 16)%Z -> u16 z = z.
Proof. intros; by apply Z.mod_small. Qed.

(** ** Bytes, C strings, decimal notation *)

Abbreviation byte := Byte.byte.
Abbreviation bytes := (list Byte.byte).

#[global] Instance byte_eq_dec : EqDecision byte := Byte.byte_eq_dec.

(** the value of an [unsigned char] and of a (signed) [char] *)
Definition bv (b : byte) : Z := Z.of_N (Byte.to_N b).
Definition sv (b : byte) : Z := if (bv b <? 128)%Z then bv b else (bv b - 256)%Z.

(** conversion of an integer to [unsigned char] *)
Definition uchar (z : Z) : byte :=
  match Byte.of_N (Z.to_N (z mod 256)) with
  | Some b => b
  | None => Byte.x00
  end.

Definition lit (s : string) : bytes := list_byte_of_string s.
Arguments lit s%_string.

Definition zlen {A} (l : list A) : Z := Z.of_nat (length l).

Lemma zlen_app {A} (a b : list A) : zlen (a ++ b) = (zlen a + zlen b)%Z.
Proof. unfold zlen. rewrite length_app. lia. Qed.

Lemma zlen_cons {A} (x : A) (l : list A) : zlen (x :: l) = (1 + zlen l)%Z.
Proof. unfold zlen. cbn [length]. lia. Qed.

Lemma zlen_nonneg {A} (l : list A) : (0 <= zlen l)%Z.
Proof. unfold zlen; lia. Qed.

(** what a NUL-terminated reader sees of a buffer *)
Fixpoint cstr (l : bytes) : bytes :=
  match l with
  | [] => []
  | b :: l' => if bool_decide (b = Byte.x00) then [] else b :: cstr l'
  end.

Definition byte_eqb (a b : byte) : bool := Byte.eqb a b.

Definition is_digit (b : byte) : bool := (48 <=? bv b)%Z && (bv b <=? 57)%Z.
Definition is_alpha (b : byte) : bool :=
  ((65 <=? bv b)%Z && (bv b <=? 90)%Z) || ((97 <=? bv b)%Z && (bv b <=? 122)%Z).
(** [isspace] in the "C" locale *)
Definition is_space (b : byte) : bool :=
  (bv b =? 32)%Z || ((9 <=? bv b)%Z && (bv b <=? 13)%Z).

Definition digit (d : Z) : byte := uchar (48 + d).

Fixpoint dec_digits (fuel : nat) (n : Z) : bytes :=
  match fuel with
  | O => []
  | S f => if (n <? 10)%Z then [digit n]
           else dec_digits f (n / 10)%Z ++ [digit (n mod 10)%Z]
  end.

(** [printf("%llu", n)] *)
Definition print_dec (n : Z) : bytes := dec_digits (S (Z.to_nat (Z.log2 n))) n.

Definition dec_step (a : Z) (b : byte) : Z := (a * 10 + (bv b - 48))%Z.
Definition dec_value (l : bytes) : Z := foldl dec_step 0%Z l.

Fixpoint span (p : byte -> bool) (l : bytes) : bytes :=
  match l with
  | [] => []
  | b :: l' => if p b then b :: span p l' else []
  end.

Lemma bv_range b : (0 <= bv b < 256)%Z.
Proof. unfold bv. pose proof (Byte.to_N_bounded b). lia. Qed.

Lemma bv_inj a b : bv a = bv b -> a = b.
Proof.
  unfold bv; intros H%N2Z.inj.
  pose proof (Byte.of_to_N a) as Ha; pose proof (Byte.of_to_N b) as Hb.
  rewrite H in Ha; congruence.
Qed.

Lemma bv_uchar z : bv (uchar z) = (z mod 256)%Z.
Proof.
  unfold uchar. pose proof (Z.mod_pos_bound z 256 eq_refl) as Hb.
  destruct (Byte.of_N (Z.to_N (z mod 256))) as [b|] eqn:E.
  - apply Byte.to_of_N in E. unfold bv; rewrite E; lia.
  - apply Byte.of_N_None_iff in E; lia.
Qed.

Lemma uchar_bv b : uchar (bv b) = b.
Proof. apply bv_inj. rewrite bv_uchar, Z.mod_small; [done | apply bv_range]. Qed.

Lemma bv_digit d : (0 <= d < 10)%Z -> bv (digit d) = (48 + d)%Z.
Proof. intros; unfold digit; rewrite bv_uchar, Z.mod_small; lia. Qed.

Lemma is_digit_digit d : (0 <= d < 10)%Z -> is_digit (digit d) = true.
Proof. intros H; unfold is_digit; rewrite bv_digit; [lia | done]. Qed.

Lemma dec_value_snoc l b : dec_value (l ++ [b]) = dec_step (dec_value l) b.
Proof. unfold dec_value. by rewrite foldl_app. Qed.

Lemma dec_digits_spec fuel n :
  (0 <= n < 2 ^ Z.of_nat fuel)%Z -> fuel <> O ->
  dec_value (dec_digits fuel n) = n /\
  Forall (fun b => is_digit b = true) (dec_digits fuel n) /\
  dec_digits fuel n <> [].
Proof.
  revert n; induction fuel as [|f IH]; intros n Hn Hf; [done|].
  cbn [dec_digits]. destruct (Z.ltb_spec n 10).
  - split_and!; [| apply Forall_singleton, is_digit_digit; lia |done].
    unfold dec_value, dec_step; cbn. rewrite bv_digit; lia.
  - assert (f <> O) by (intros ->; cbn in Hn; lia).
    assert (0 <= n / 10 < 2 ^ Z.of_nat f)%Z as Hd.
    { rewrite Nat2Z.inj_succ, Z.pow_succ_r in Hn by lia.
      split; [apply Z.div_pos; lia | apply Z.div_lt_upper_bound; lia]. }
    pose proof (Z.mod_pos_bound n 10 eq_refl).
    destruct (IH (n / 10)%Z Hd) as (Hv & Hall & Hne); [done|].
    split_and!.
    + rewrite dec_value_snoc, Hv. unfold dec_step. rewrite bv_digit by lia.
      pose proof (Z.div_mod n 10). lia.
    + apply Forall_app; split; [done|]. apply Forall_singleton, is_digit_digit; lia.
    + by destruct (dec_digits f (n / 10)).
Qed.

Lemma print_dec_spec n :
  (0 <= n)%Z ->
  dec_value (print_dec n) = n /\
  Forall (fun b => is_digit b = true) (print_dec n) /\
  print_dec n <> [].
Proof.
  intros Hn. apply dec_digits_spec; [|done]. split; [done|].
  rewrite Nat2Z.inj_succ, Z2Nat.id by apply Z.log2_nonneg.
  destruct (Z.eq_dec n 0%Z) as [->|]; [cbn; lia|].
  apply Z.log2_spec; lia.
Qed.

Lemma span_app (p : byte -> bool) l b r :
  Forall (fun c => p c = true) l -> p b = false -> span p (l ++ b :: r) = l.
Proof.
  intros Hl Hb. induction Hl as [|c l Hc _ IH]; cbn.
  - by rewrite Hb.
  - by rewrite Hc, IH.
Qed.

Lemma dec_value_app_bound l :
  Forall (fun b => is_digit b = true) l -> (0 <= dec_value l < 10 ^ zlen l)%Z.
Proof.
  unfold zlen. induction l as [|b l IH] using rev_ind; intros Hl.
  - cbn; lia.
  - apply Forall_app in Hl as [Hl [Hb _]%Forall_cons_1].
    specialize (IH Hl). rewrite dec_value_snoc, length_app, Nat2Z.inj_add, Z.pow_add_r by lia.
    change (10 ^ Z.of_nat (length [b]))%Z with 10%Z.
    unfold is_digit in Hb. unfold dec_step. lia.
Qed.

Lemma cstr_id l : Byte.x00 ∉ l -> cstr l = l.
Proof.
  induction l as [|b l IH]; [done|]. rewrite not_elem_of_cons; intros [Hb Hl]; cbn.
  rewrite bool_decide_eq_false_2 by done. by rewrite IH.
Qed.
