(* ===== verification/Ragel.v ===== *)
(** * Ragel: the table-driven engine of the three generated state machines

    [stackish.c], [hub.c] and [connection.c] contain the same generated driver: two
    binary searches over the keys of the current state, a target and an action list
    for the transition found, and a loop over the input.  The driver is modelled once,
    over the tables as data; every table access is bounds-checked by [rd]. *)

From Stdlib Require Import ZArith Lia.
From S2P Require Import Prelude.
Local Open Scope Z_scope.

Module Ragel.

(** The arrays of a generated machine; [t_indicies] is present only in [connection.c]. *)
Record tables := Tables {
  t_actions : list Z;
  t_key_offsets : list Z;
  t_trans_keys : list Z;
  t_single_lengths : list Z;
  t_range_lengths : list Z;
  t_index_offsets : list Z;
  t_indicies : option (list Z);
  t_trans_targs : list Z;
  t_trans_actions : list Z
}.

(** [l[i]] *)
Definition rd (l : list Z) (i : Z) : res Z :=
  if i <? 0 then Fault OutOfBounds else need OutOfBounds (l !! Z.to_nat i).

(** Binary search among single keys: the index of [c] between [lower] and [upper]. *)
Fixpoint single_search (fuel : nat) (keys : list Z) (c lower upper : Z) : res (option Z) :=
  match fuel with
  | O => Fault NoFuel
  | S f =>
    if upper <? lower then Ok None
    else
      let mid := lower + Z.shiftr (upper - lower) 1 in
      k ← rd keys mid;
      if c <? k then single_search f keys c lower (mid - 1)
      else if k <? c then single_search f keys c (mid + 1) upper
      else Ok (Some mid)
  end.

(** Binary search among ranges, two keys each. *)
Fixpoint range_search (fuel : nat) (keys : list Z) (c lower upper : Z) : res (option Z) :=
  match fuel with
  | O => Fault NoFuel
  | S f =>
    if upper <? lower then Ok None
    else
      let mid := lower + Z.land (Z.shiftr (upper - lower) 1) (Z.lnot 1) in
      lo ← rd keys mid;
      hi ← rd keys (mid + 1);
      if c <? lo then range_search f keys c lower (mid - 2)
      else if hi <? c then range_search f keys c (mid + 2) upper
      else Ok (Some mid)
  end.

(** The [_resume] part of the driver: the transition taken on [c] in state [cs]. *)
Definition find_trans (T : tables) (cs c : Z) : res Z :=
  keys ← rd (t_key_offsets T) cs;
  trans ← rd (t_index_offsets T) cs;
  klen ← rd (t_single_lengths T) cs;
  found ← (if 0 <? klen
           then single_search (S (Z.to_nat klen)) (t_trans_keys T) c keys (keys + klen - 1)
           else Ok None);
  match found with
  | Some mid => Ok (trans + (mid - keys))
  | None =>
    let keys' := if 0 <? klen then keys + klen else keys in
    let trans' := if 0 <? klen then trans + klen else trans in
    rlen ← rd (t_range_lengths T) cs;
    if 0 <? rlen
    then
      rfound ← range_search (S (Z.to_nat rlen)) (t_trans_keys T) c
                 keys' (keys' + Z.shiftl rlen 1 - 2);
      match rfound with
      | Some mid => Ok (trans' + Z.shiftr (mid - keys') 1)
      | None => Ok (trans' + rlen)
      end
    else Ok trans'
  end.

(** [n] consecutive entries of the action array from [i]. *)
Fixpoint rd_acts (l : list Z) (i : Z) (n : nat) : res (list Z) :=
  match n with
  | O => Ok []
  | S n' => a ← rd l i; r ← rd_acts l (i + 1) n'; Ok (a :: r)
  end.

(** The [_match] part: the new state and the actions of the transition, in order. *)
Definition transition (T : tables) (cs c : Z) : res (Z * list Z) :=
  tr ← find_trans T cs c;
  tr' ← match t_indicies T with
        | Some ix => rd ix tr
        | None => Ok tr
        end;
  targ ← rd (t_trans_targs T) tr';
  a ← rd (t_trans_actions T) tr';
  if a =? 0 then Ok (targ, [])
  else
    nacts ← rd (t_actions T) a;
    acts ← rd_acts (t_actions T) (a + 1) (Z.to_nat nacts);
    Ok (targ, acts).

(** What the code of an action does with the control flow: fall through to the next
    action, [goto _out] (fbreak), or set the state and [goto _again] (fgoto). *)
Inductive ctl := CNext | COut | CGoto (cs : Z).

Section Exec.
Context {S : Type} (T : tables) (act : Z -> Z -> S -> res (S * ctl)).

(** The loop over the actions of one transition: final state, and whether to leave. *)
Fixpoint run_acts (ids : list Z) (p cs : Z) (s : S) : res (Z * S * bool) :=
  match ids with
  | [] => Ok (cs, s, false)
  | a :: r =>
    '(s', c) ← act a p s;
    match c with
    | CNext => run_acts r p cs s'
    | COut => Ok (cs, s', true)
    | CGoto cs' => Ok (cs', s', false)
    end
  end.

(** The driver on the input from [p] on: where it stopped, in which state. *)
Fixpoint exec (input : bytes) (p cs : Z) (s : S) : res (Z * Z * S) :=
  match input with
  | [] => Ok (p, cs, s)
  | c :: rest =>
    if cs =? 0 then Ok (p, cs, s)
    else
      '(cs1, ids) ← transition T cs (sv c);
      '(cs2, s', out) ← run_acts ids p cs1 s;
      if (out : bool) then Ok (p, cs2, s')
      else if cs2 =? 0 then Ok (p, cs2, s')
      else exec rest (p + 1) cs2 s'
  end.

Lemma exec_step c rest p cs s cs1 ids cs2 s' :
  cs <> 0 -> transition T cs (sv c) = Ok (cs1, ids) ->
  run_acts ids p cs1 s = Ok (cs2, s', false) -> cs2 <> 0 ->
  exec (c :: rest) p cs s = exec rest (p + 1) cs2 s'.
Proof.
  intros Hcs Ht Hr H2; cbn [exec].
  rewrite (proj2 (Z.eqb_neq _ _) Hcs), Ht; cbn. rewrite Hr; cbn.
  by rewrite (proj2 (Z.eqb_neq _ _) H2).
Qed.

Lemma exec_break c rest p cs s cs1 ids cs2 s' :
  cs <> 0 -> transition T cs (sv c) = Ok (cs1, ids) ->
  run_acts ids p cs1 s = Ok (cs2, s', true) ->
  exec (c :: rest) p cs s = Ok (p, cs2, s').
Proof.
  intros Hcs Ht Hr; cbn [exec].
  rewrite (proj2 (Z.eqb_neq _ _) Hcs), Ht; cbn. by rewrite Hr.
Qed.

(** The position the driver stops at is between its start and the end of the input. *)
Lemma exec_pos input p cs s p' cs' s' :
  exec input p cs s = Ok (p', cs', s') -> p <= p' <= p + zlen input.
Proof.
  unfold zlen. revert p cs s; induction input as [|c rest IH]; intros p cs s; cbn [exec].
  - intros [= <- <- <-]; cbn; lia.
  - rewrite length_cons. destruct (cs =? 0); [intros [= <- _ _]; lia|].
    intros ([cs1 ids] & _ & ([[cs2 s2] out] & _ & H)%bind_Ok)%bind_Ok.
    destruct out; [simplify_eq; lia|].
    destruct (cs2 =? 0); [simplify_eq; lia|].
    apply IH in H; lia.
Qed.
End Exec.

End Ragel.
