(* ===== verification/Cstdlib.v ===== *)
(** * Cstdlib: the number conversions of the C library that stackish uses

    [strtoull], [strtoul] and [strtod] read from a position of a buffer and report how
    much they consumed and whether they set [errno] to ERANGE; ["%f"] prints a double.
    A double is a [spec_float] of binary64; decimal conversion is exact integer
    arithmetic followed by one rounding, as IEEE 754 and C ask for.  The inputs are
    decimal: the hexadecimal, "inf" and "nan" forms of [strtod] cannot start at a
    stackish number token and are not modelled. *)

From Stdlib Require Import ZArith Lia Floats.SpecFloat.
From S2P Require Import Prelude.
Local Open Scope Z_scope.

Module Cstdlib.

Definition ERANGE : Z := 34.

Record conv (A : Type) := Conv { c_value : A; c_used : Z; c_errno : Z }.
Arguments Conv {A}.
Arguments c_value {A}.
Arguments c_used {A}.
Arguments c_errno {A}.

(** leading white space, then an optional sign: what is left, length skipped, negative? *)
Fixpoint skip_space (l : bytes) : bytes * Z :=
  match l with
  | [] => ([], 0)
  | b :: r => if is_space b then let '(r', n) := skip_space r in (r', n + 1) else (l, 0)
  end.

Definition skip_sign (l : bytes) : bytes * Z * bool :=
  match l with
  | Byte.x2b :: r => (r, 1, false)
  | Byte.x2d :: r => (r, 1, true)
  | _ => (l, 0, false)
  end.

(** [strtoull(s, &end, 10)], and [strtoul] where [unsigned long] has 64 bits *)
Definition strtoull (s : bytes) : conv Z :=
  let '(s1, n1) := skip_space s in
  let '(s2, n2, neg) := skip_sign s1 in
  let ds := span is_digit s2 in
  let v := dec_value ds in
  match ds with
  | [] => Conv 0 0 0
  | _ :: _ =>
    if 2 ^ 64 <=? v then Conv (2 ^ 64 - 1) (n1 + n2 + zlen ds) ERANGE
    else Conv (if neg then u64 (- v) else v) (n1 + n2 + zlen ds) 0
  end.

Definition prec : Z := 53.
Definition emax : Z := 1024.

(** the double nearest to (-1)^s * n * 10^k *)
Definition of_decimal (s : bool) (n k : Z) : spec_float :=
  match n with
  | Zpos m =>
    if 0 <=? k
    then binary_round prec emax s (m * Z.to_pos (10 ^ k)) 0
    else let '(q, e, l) := SFdiv_core_binary prec emax n 0 (10 ^ (- k)) 0 in
         binary_round_aux prec emax s q e l
  | _ => S754_zero s
  end.

(** did the conversion of a non-zero decimal leave the range of normal doubles? *)
Definition out_of_range (n : Z) (f : spec_float) : bool :=
  negb (n =? 0) &&
  match f with
  | S754_finite _ m _ => Z.pos m <? 2 ^ 52
  | _ => true
  end.

(** an exponent part: [e] or [E], an optional sign, at least one digit *)
Definition exponent (l : bytes) : Z * Z :=
  match l with
  | (Byte.x65 | Byte.x45) :: r =>
    let '(r2, n2, neg) := skip_sign r in
    let ds := span is_digit r2 in
    match ds with
    | [] => (0, 0)
    | _ :: _ => ((if neg then - dec_value ds else dec_value ds), 1 + n2 + zlen ds)
    end
  | _ => (0, 0)
  end.

Definition strtod (s : bytes) : conv spec_float :=
  let '(s1, n1) := skip_space s in
  let '(s2, n2, neg) := skip_sign s1 in
  let ip := span is_digit s2 in
  let s3 := drop (length ip) s2 in
  let '(fp, n3) :=
    match s3 with
    | Byte.x2e :: r => let f := span is_digit r in (f, 1 + zlen f)
    | _ => ([], 0)
    end in
  let s4 := drop (Z.to_nat n3) s3 in
  match ip ++ fp with
  | [] => Conv (S754_zero false) 0 0
  | ds =>
    let '(e, n4) := exponent s4 in
    let n := dec_value ds in
    let f := of_decimal neg n (e - zlen fp) in
    Conv f (n1 + n2 + zlen ip + n3 + n4) (if out_of_range n f then ERANGE else 0)
  end.

(** n / d rounded to the nearest integer, ties to even *)
Definition div_even (n d : Z) : Z :=
  let q := n / d in
  let r := n mod d in
  if 2 * r <? d then q
  else if d <? 2 * r then q + 1
  else if Z.even q then q else q + 1.

(** millionths of the magnitude *)
Definition micros (m : positive) (e : Z) : Z :=
  if 0 <=? e then Z.pos m * 2 ^ e * 10 ^ 6
  else div_even (Z.pos m * 10 ^ 6) (2 ^ (- e)).

Definition pad6 (n : Z) : bytes :=
  [digit (n / 100000 mod 10); digit (n / 10000 mod 10); digit (n / 1000 mod 10);
   digit (n / 100 mod 10); digit (n / 10 mod 10); digit (n mod 10)].

Definition sign_str (s : bool) : bytes := if s then lit "-" else [].

(** [printf("%f", f)] *)
Definition fmt_f (f : spec_float) : bytes :=
  match f with
  | S754_zero s => sign_str s ++ lit "0.000000"
  | S754_infinity s => sign_str s ++ lit "inf"
  | S754_nan => lit "nan"
  | S754_finite s m e =>
    let n := micros m e in
    sign_str s ++ print_dec (n / 10 ^ 6) ++ lit "." ++ pad6 (n mod 10 ^ 6)
  end.

#[global] Instance spec_float_eq_dec : EqDecision spec_float.
Proof. solve_decision. Defined.

Example strtoull_ex : strtoull (lit "567 x") = Conv 567 3 0.
Proof. reflexivity. Qed.
Example strtoull_big : strtoull (lit "99999999999999999999 ") = Conv (2 ^ 64 - 1) 20 ERANGE.
Proof. reflexivity. Qed.
Example strtod_ex : strtod (lit "0.5 ") = Conv (S754_finite false 4503599627370496 (-53)) 3 0.
Proof. reflexivity. Qed.
Example fmt_f_ex : fmt_f (c_value (strtod (lit "345.78 "))) = lit "345.780000".
Proof. vm_compute. reflexivity. Qed.
Example strtod_exp : c_used (strtod (lit "1.5e3x ")) = 5.
Proof. vm_compute. reflexivity. Qed.

(** ** [getopt] *)

(** whether the option string has the letter, and whether it takes an argument *)
Fixpoint opt_spec (optstring : bytes) (c : byte) : option bool :=
  match optstring with
  | [] => None
  | x :: rest => if bool_decide (x = c) && negb (bool_decide (c = Byte.x3a)) then Some (bool_decide (head rest = Some Byte.x3a)) else opt_spec rest c
  end.

(** the letters of one word, with the words behind it: what is reported and what is left; "?" for a letter that is not
    in the option string or has no argument *)
Fixpoint opt_word (optstring cs : bytes) (rest : list bytes) : list (byte * bytes) * list bytes :=
  match cs with
  | [] => ([], rest)
  | c :: cs' =>
    match opt_spec optstring c with
    | None => let '(os, rest) := opt_word optstring cs' rest in ((Byte.x3f, []) :: os, rest)
    | Some false => let '(os, rest) := opt_word optstring cs' rest in ((c, []) :: os, rest)
    | Some true =>
      match cs', rest with
      | _ :: _, _ => ([(c, cs')], rest)
      | [], a :: rest' => ([(c, a)], rest')
      | [], [] => ([(Byte.x3f, [])], [])
      end
    end
  end.

Fixpoint getopt_loop (fuel : nat) (optstring : bytes) (argv : list bytes) : list (byte * bytes) :=
  match fuel, argv with
  | S f, a :: rest =>
    match a with
    | [Byte.x2d; Byte.x2d] => []
    | Byte.x2d :: (_ :: _) as cs => let '(os, rest) := opt_word optstring cs rest in os ++ getopt_loop f optstring rest
    | _ => getopt_loop f optstring rest
    end
  | _, _ => []
  end.

(** what the calls report, up to -1; words that are no options are passed over, as the GNU library does *)
Definition getopt (optstring : bytes) (argv : list bytes) : list (byte * bytes) := getopt_loop (length argv) optstring argv.

Example getopt_cluster : getopt (lit "ab:c") [lit "-ab"; lit "x"; lit "y"; lit "-c"] = [(Byte.x61, []); (Byte.x62, lit "x"); (Byte.x63, [])].
Proof. reflexivity. Qed.

End Cstdlib.
