(* ===== verification/Node.v ===== *)
(** * Node: the stackish tree of [src/src/stackish/node.c] over an explicit store

    A [struct Node] lives at an address of the store and is linked by its parent,
    sibling and child pointers, as in the code.  The bstrings a node owns are modelled by
    their contents.  [errno] is part of the state because the [check] macro of
    [defend.h] tests it.  Allocation succeeds (the code asserts it). *)

From Stdlib Require Import ZArith Lia Floats.SpecFloat.
From S2P Require Import Prelude Cstdlib.
Import Cstdlib.
Local Open Scope Z_scope.

Module Node.

Inductive NodeType :=
  | TYPE_NUMBER | TYPE_STRING | TYPE_BLOB | TYPE_FLOAT | TYPE_INVALID | TYPE_GROUP.

(** The union of [struct Node].  [VZero] is the zeroed memory of a fresh node;
    [VString None] a NULL bstring; [VFreed] a bstring pointer whose target was freed. *)
Inductive NodeValue :=
  | VNumber (n : Z)
  | VString (s : option bytes)
  | VFloat (f : spec_float)
  | VZero
  | VFreed.

Definition loc := positive.

Record Node := mkNode {
  name : option bytes;
  type : NodeType;
  value : NodeValue;
  parent : option loc;
  sibling : option loc;
  child : option loc
}.

Record store := Store {
  nodes : gmap loc Node;
  next : loc;
  errno : Z
}.

#[global] Instance NodeType_eq_dec : EqDecision NodeType.
Proof. solve_decision. Defined.
#[global] Instance NodeValue_eq_dec : EqDecision NodeValue.
Proof. solve_decision. Defined.
#[global] Instance Node_eq_dec : EqDecision Node.
Proof. solve_decision. Defined.

Definition empty_store : store := Store ∅ 1%positive 0.

Definition set_nodes (ns : gmap loc Node) (st : store) : store := Store ns (next st) (errno st).
Definition set_errno (e : Z) (st : store) : store := Store (nodes st) (next st) e.

Definition set_name (n : option bytes) (d : Node) : Node :=
  mkNode n (type d) (value d) (parent d) (sibling d) (child d).
Definition set_value (v : NodeValue) (d : Node) : Node :=
  mkNode (name d) (type d) v (parent d) (sibling d) (child d).
Definition set_parent (p : option loc) (d : Node) : Node :=
  mkNode (name d) (type d) (value d) p (sibling d) (child d).
Definition set_sibling (s : option loc) (d : Node) : Node :=
  mkNode (name d) (type d) (value d) (parent d) s (child d).
Definition set_child (c : option loc) (d : Node) : Node :=
  mkNode (name d) (type d) (value d) (parent d) (sibling d) c.

(** dereference *)
Definition load (st : store) (p : option loc) : res Node :=
  l ← need NullDeref p;
  need BadPointer (nodes st !! l).

Lemma load_Some st l n : nodes st !! l = Some n -> load st (Some l) = Ok n.
Proof. intros H. unfold load, need. by rewrite bind_ret, H. Qed.

(** assignment to a field of [*p] *)
Definition update (st : store) (p : option loc) (f : Node -> Node) : res store :=
  l ← need NullDeref p;
  n ← need BadPointer (nodes st !! l);
  Ok (set_nodes (<[l := f n]> (nodes st)) st).

Lemma update_Some st l n f :
  nodes st !! l = Some n -> update st (Some l) f = Ok (set_nodes (<[l := f n]> (nodes st)) st).
Proof. intros H. unfold update, need. by rewrite bind_ret, H. Qed.

(** [check(t, msg)]: go on, or clear errno and take the failure path *)
Definition check (st : store) (t : bool) : bool * store :=
  if t && (errno st =? 0) then (true, st) else (false, set_errno 0 st).

(** [LIST_ADD(Node, parent->child, elem, sibling)] *)
Definition list_add_child (st : store) (par elem : option loc) : res store :=
  p ← load st par;
  st ← update st elem (set_sibling (child p));
  update st par (set_child elem).

(** [Node_create]: calloc, set the type, and link under [parent] if there is one *)
Definition Node_create (st : store) (par : option loc) (ty : NodeType) : res (loc * store) :=
  let l := next st in
  let n := mkNode None ty VZero None None None in
  let st1 := Store (<[l := n]> (nodes st)) (Pos.succ l) (errno st) in
  match par with
  | None => Ok (l, st1)
  | Some _ =>
    st2 ← update st1 (Some l) (set_parent par);
    st3 ← list_add_child st2 par (Some l);
    Ok (l, st3)
  end.

(** [DEFINE_NEW_NODE_FUNC]: create, then store the value in the union *)
Definition new_node (st : store) (par : option loc) (ty : NodeType) (v : NodeValue)
  : res (loc * store) :=
  '(l, st1) ← Node_create st par ty;
  st2 ← update st1 (Some l) (set_value v);
  Ok (l, st2).

Definition Node_new_string (st : store) (par : option loc) (data : option bytes) :=
  new_node st par TYPE_STRING (VString data).
Definition Node_new_blob (st : store) (par : option loc) (data : option bytes) :=
  new_node st par TYPE_BLOB (VString data).
Definition Node_new_number (st : store) (par : option loc) (data : Z) :=
  new_node st par TYPE_NUMBER (VNumber data).
Definition Node_new_float (st : store) (par : option loc) (data : spec_float) :=
  new_node st par TYPE_FLOAT (VFloat data).
Definition Node_new_group (st : store) (par : option loc) :=
  Node_create st par TYPE_GROUP.

(** [Node_name]: both arguments are asserted non-NULL *)
Definition Node_name (st : store) (node : option loc) (nm : option bytes) : res store :=
  _ ← assert_ (bool_decide (node <> None));
  _ ← assert_ (bool_decide (nm <> None));
  update st node (set_name nm).

Definition Node_add_child (st : store) (par ch : option loc) : res store :=
  _ ← assert_ (bool_decide (par <> None));
  _ ← assert_ (bool_decide (ch <> None));
  st ← list_add_child st par ch;
  update st ch (set_parent par).

(** [Node_add_sib]: LIST_ADD rebinds the parameter [sib1] itself, so the last line
    reads the parent of [sib2]. *)
Definition Node_add_sib (st : store) (sib1 sib2 : option loc) : res store :=
  _ ← assert_ (bool_decide (sib1 <> None));
  _ ← assert_ (bool_decide (sib2 <> None));
  st ← update st sib2 (set_sibling sib1);
  let sib1 := sib2 in
  n ← load st sib1;
  update st sib2 (set_parent (parent n)).

(** ** Printing *)

(** [bformata] appends the output up to the first NUL byte *)
Definition bformata (str out : bytes) : bytes := str ++ cstr out.

Definition blength (s : option bytes) : Z :=
  match s with Some l => zlen l | None => 0 end.

Definition bchar (s : option bytes) (p : Z) : byte :=
  match s with
  | Some l => if (0 <=? p) && (p <? zlen l) then default Byte.x00 (l !! Z.to_nat p) else Byte.x00
  | None => Byte.x00
  end.

(** the [switch] of [Node_catbstr]; ["%s"] of a NULL pointer is undefined *)
Definition cat_value (d : Node) (str : bytes) (sep : byte) : res bytes :=
  match type d with
  | TYPE_BLOB =>
    match value d with
    | VString s =>
      let str := bformata str (lit "'" ++ print_dec (blength s) ++ lit ":") in
      let str := str ++ default [] s in
      Ok (bformata str (lit "'" ++ [sep]))
    | _ => Fault BadPointer
    end
  | TYPE_STRING =>
    match value d with
    | VString (Some s) => Ok (bformata str ([Byte.x22] ++ cstr s ++ [Byte.x22; sep]))
    | VString None => Fault NullDeref
    | _ => Fault BadPointer
    end
  | TYPE_NUMBER =>
    match value d with
    | VNumber n => Ok (bformata str (print_dec n ++ [sep]))
    | _ => Fault BadPointer
    end
  | TYPE_FLOAT =>
    match value d with
    | VFloat f => Ok (bformata str (fmt_f f ++ [sep]))
    | _ => Fault BadPointer
    end
  | TYPE_GROUP =>
    if bool_decide (name d = None) || bool_decide (bchar (name d) 0 = Byte.x40)
    then Ok (bformata str (lit "]" ++ [sep]))
    else Ok str
  | TYPE_INVALID => Fault AssertFail
  end.

Fixpoint Node_catbstr (fuel : nat) (st : store) (str : bytes) (d : option loc)
  (sep : byte) (follow_sibs : bool) : res bytes :=
  match fuel with
  | O => Fault NoFuel
  | S f =>
    match d with
    | None => Ok str
    | Some _ =>
      n ← load st d;
      str ← (if bool_decide (sibling n <> None) && follow_sibs
             then Node_catbstr f st str (sibling n) sep follow_sibs else Ok str);
      let str := if bool_decide (type n = TYPE_GROUP)
                 then bformata str (lit "[" ++ [sep]) else str in
      str ← (if bool_decide (child n <> None)
             then Node_catbstr f st str (child n) sep true else Ok str);
      str ← cat_value n str sep;
      match name n with
      | Some nm => Ok (bformata str (cstr nm ++ [sep]))
      | None => Ok str
      end
    end
  end.

(** Enough fuel for any tree held in the store: no path visits a node twice. *)
Definition cat_fuel (st : store) : nat := S (S (size (nodes st))).

Definition Node_bstr (st : store) (d : option loc) (follow_sibs : bool) : res bytes :=
  _ ← assert_ (bool_decide (d <> None));
  temp ← Node_catbstr (cat_fuel st) st [] d Byte.x20 follow_sibs;
  Ok (temp ++ [Byte.x0a]).

(** what [Node_dump] writes to stderr: [Node_bstr] ends in a newline, which stays *)
Definition dump_byte (b : byte) : byte :=
  if (32 <=? bv b) && (bv b <=? 126) then b else uchar (bv b mod (126 - 32) + 32).

Definition Node_dump (st : store) (d : option loc) (follow_sibs : bool) : res bytes :=
  str ← Node_bstr st d follow_sibs;
  let n := pred (length str) in
  Ok (map dump_byte (take n str) ++ drop n str).

(** ** Destroying *)

Definition MAX_TREE_DEEP : Z := 128.

(** [free(d)] of a node, with its strings; freeing what is not allocated, or a string
    that is already gone, is a fault. *)
Definition Node_intern_destroy (st : store) (d : loc) : res store :=
  n ← need BadPointer (nodes st !! d);
  match type n, value n with
  | (TYPE_BLOB | TYPE_STRING), VFreed => Fault BadPointer
  | _, _ => Ok (set_nodes (delete d (nodes st)) st)
  end.

(** One entry of the [_path_], [_right_] and [_pass_] arrays of the traversal macro. *)
Record frame := Frame { f_path : loc; f_right : option loc; f_pass : Z }.

(** the inner [while]: follow the siblings, recording the path *)
Fixpoint push_down (fuel : nat) (st : store) (cn : option loc) (path : list frame)
  : res (list frame) :=
  match fuel with
  | O => Fault NoFuel
  | S f =>
    match cn with
    | None => Ok path
    | Some l =>
      n ← load st cn;
      let path' := Frame l (child n) 0 :: path in
      if MAX_TREE_DEEP <=? zlen path' then Fault AssertFail
      else push_down f st (sibling n) path'
    end
  end.

(** the [do ... while]: leave finished entries, destroying them (order 2) *)
Fixpoint pop_up (st : store) (path : list frame) : res (store * option loc * list frame) :=
  match path with
  | [] => Fault OutOfBounds
  | Frame l r pass :: below =>
    st ← (if (pass =? 1) || bool_decide (r = None) then Node_intern_destroy st l else Ok st);
    match below, r with
    | _ :: _, None => pop_up st below
    | _, _ => Ok (st, r, Frame l None (pass + 1) :: below)
    end
  end.

(** the outer [while] *)
Fixpoint map_postorder (fuel : nat) (st : store) (cn : option loc) (path : list frame)
  : res store :=
  match fuel with
  | O => Fault NoFuel
  | S f =>
    match cn with
    | None => Ok st
    | Some _ =>
      path ← push_down (S (S (size (nodes st)))) st cn path;
      '(st', cn', path') ← pop_up st path;
      map_postorder f st' cn' path'
    end
  end.

(** Each turn of the outer loop enters at least one node that was not entered before. *)
Definition Node_destroy (st : store) (root : option loc) : res store :=
  map_postorder (S (S (size (nodes st)))) st root [].

End Node.
