(* ===== verification/Defend.v ===== *)
(** * Defend: the checks of [src/src/myriad/defend.h]

    The macros jump to a label at the end of the function.  Here a piece of a function either goes on with a value or has jumped, and
    [errno] goes along; [Node.check] and the functions that use it are this control flow written out. *)

From Stdlib Require Import ZArith Lia.
From S2P Require Import Prelude Node.
Local Open Scope Z_scope.

Module Defend.

Inductive flow (A : Type) := Next (a : A) | Jump.
Arguments Next {A} a.
Arguments Jump {A}.

(** a piece of a function on a state [S] and [errno] *)
Section Macros.
Context {S : Type}.
Definition part (A : Type) : Type := S * Z -> flow A * (S * Z).

Definition go {A} (a : A) : part A := fun w => (Next a, w).
Definition seq {A B} (p : part A) (k : A -> part B) : part B := fun w => match p w with (Next a, w) => k a w | (Jump, w) => (Jump, w) end.
(** a statement that cannot jump *)
Definition effect (c : S * Z -> S * Z) : part unit := fun w => (Next tt, c w).

(** the message with [errno] in it is printed *)
Definition fail {A} : part A := fun '(s, _) => (Jump, (s, 0)).
Definition check (t : bool) : part unit := fun w => if negb t || negb (w.2 =? 0) then fail w else (Next tt, w).
Definition check_then (t : bool) (c : S * Z -> S * Z) : part unit := fun w => if negb t || negb (w.2 =? 0) then seq (effect c) (fun _ => fail) w else (Next tt, w).
Definition check_errno (t : bool) (e : Z) : part unit := check_then t (fun '(s, _) => (s, e)).
Definition precond (t : bool) : part unit := check t.
Definition postcond (t : bool) : part unit := check t.

(** the label: the statement behind it is reached by the jump and from above *)
Definition ensure {A B} (p : part A) (c : part B) : part B := fun w => c (p w).2.
Definition on_fail {A B} (p : part A) (c : part B) : part B := ensure p c.

Definition assert_not {V} `{EqDecision V} (v n : V) : res unit := assert_ (bool_decide (v <> n)).
Definition assert_mem {V} (v : option V) : res unit := assert_ (match v with Some _ => true | None => false end).
End Macros.

(** ** What they do *)

(** the checks of the other files *)
Lemma check_is_check st t : let '(f, (st', e)) := check t (st, Node.errno st) in
  Node.check st t = (match f with Next _ => true | Jump => false end, Node.set_errno e st').
Proof.
  unfold check, Node.check, fail. cbn [snd]. destruct t, (Node.errno st =? 0) eqn:E; cbn [negb orb andb]; try done. by destruct st.
Qed.

(** whatever jumps, [errno] is 0 at the label, also after [check_errno], whose number is lost *)
Lemma jumps_clear {S} t (c : S * Z -> S * Z) w :
  ((check t w).1 = Jump -> (check t w).2.2 = 0) /\ ((check_then t c w).1 = Jump -> (check_then t c w).2.2 = 0) /\ (forall e, (check_errno t e w).1 = Jump -> (check_errno t e w).2.2 = 0).
Proof.
  assert (H : forall c : S * Z -> S * Z, (check_then t c w).1 = Jump -> (check_then t c w).2.2 = 0).
  { intros c'. unfold check_then. destruct (negb t || negb (w.2 =? 0)); [|done]. unfold seq, effect, fail. by destruct (c' w). }
  split_and!; [|apply H|intros e; apply H]. unfold check, fail. destruct w as [s e]. by destruct (negb t || _).
Qed.

(** a true condition is not enough: an old [errno] is a failure too *)
Lemma stale_errno {S} (s : S) e : e <> 0 -> check true (s, e) = (Jump, (s, 0)).
Proof. intros He. unfold check, fail. cbn [snd negb orb]. by rewrite (proj2 (Z.eqb_neq e 0)). Qed.

(** what is behind the label is done exactly once on both ways *)
Lemma ensure_both {S A} (p : part (S := S) A) (c : S * Z -> S * Z) w :
  ensure p (effect c) w = (Next tt, c (p w).2) /\ (forall k : A -> part (S := S) A, (p w).1 = Jump -> ensure (seq p k) (effect c) w = ensure p (effect c) w).
Proof. split; [done|]. intros k Hp. unfold ensure, seq. destruct (p w) as [[a|] w']; [done|done]. Qed.

(** [assert_not (v, NULL)] *)
Lemma assert_mem_ok {V} (v : option V) `{EqDecision V} : assert_mem v = assert_not v None.
Proof. unfold assert_mem, assert_not. destruct v; by case_bool_decide. Qed.
End Defend.
