(* ===== verification/NodeFormat.v ===== *)
(** * NodeFormat: [Node_cons] and [Node_decons] of [src/src/stackish/node.c]

    The two variadic functions that build and take apart trees by a format string.  The
    variable arguments are a list; an argument of the wrong kind is a fault. *)

From Stdlib Require Import ZArith Lia Floats.SpecFloat.
From S2P Require Import Prelude Cstdlib Node.
Import Cstdlib Node.
Local Open Scope Z_scope.

Module NodeFormat.

(** ** Construction *)

(** the values fetched by [va_arg]; pointers may be NULL *)
Inductive cons_arg :=
  | CANum (n : Z)
  | CAFloat (f : spec_float)
  | CABstr (s : option bytes)
  | CACstr (s : option bytes)
  | CANode (p : option loc).

(** [bfromcstr] *)
Definition bfromcstr (s : bytes) : option bytes := Some (cstr s).

(** The loop over the format: [None] when a [check] fails, otherwise [root] and
    [cur_node] at the end.  [UP()] leaves the [switch], not the loop. *)
Fixpoint cons_loop (fmt : bytes) (args : list cons_arg) (root cur : option loc) (st : store)
  : res (option (option loc * option loc) * store) :=
  match fmt with
  | [] => Ok (Some (root, cur), st)
  | c :: fmt' =>
    match c with
    | Byte.x5b (* '[' *) =>
      '(l, st) ← Node_new_group st cur;
      cons_loop fmt' args (if bool_decide (root = None) then Some l else root) (Some l) st
    | Byte.x6e (* 'n' *) =>
      match args with
      | CANum n :: args' =>
        '(_, st) ← Node_new_number st cur (u64 n);
        cons_loop fmt' args' root cur st
      | _ => Fault BadVarArg
      end
    | Byte.x66 (* 'f' *) =>
      match args with
      | CAFloat x :: args' =>
        '(_, st) ← Node_new_float st cur x;
        cons_loop fmt' args' root cur st
      | _ => Fault BadVarArg
      end
    | Byte.x62 (* 'b' *) =>
      match args with
      | CABstr b :: args' =>
        let '(ok, st) := check st (bool_decide (b <> None)) in
        if ok : bool then
          '(_, st) ← Node_new_blob st cur b;
          cons_loop fmt' args' root cur st
        else Ok (None, st)
      | _ => Fault BadVarArg
      end
    | Byte.x73 (* 's' *) =>
      match args with
      | CABstr s :: args' =>
        let '(ok, st) := check st (bool_decide (s <> None)) in
        if ok : bool then
          '(_, st) ← Node_new_string st cur s;
          let '(ok, st) := check st true in
          if ok : bool then cons_loop fmt' args' root cur st else Ok (None, st)
        else Ok (None, st)
      | _ => Fault BadVarArg
      end
    | Byte.x5d (* ']' *) =>
      n ← load st cur;
      cons_loop fmt' args root (parent n) st
    | Byte.x40 (* '@' *) =>
      match args with
      | CACstr a :: args' =>
        let '(ok, st) := check st (bool_decide (a <> None)) in
        if ok : bool then
          n ← load st cur;
          st ← Node_name st (child n) (a ≫= bfromcstr);
          cons_loop fmt' args' root cur st
        else Ok (None, st)
      | _ => Fault BadVarArg
      end
    | Byte.x77 (* 'w' *) =>
      match args with
      | CACstr w :: args' =>
        let '(ok, st) := check st (bool_decide (w <> None)) in
        if ok : bool then
          st ← Node_name st cur (w ≫= bfromcstr);
          n ← load st cur;
          cons_loop fmt' args' root (parent n) st
        else Ok (None, st)
      | _ => Fault BadVarArg
      end
    | Byte.x47 (* 'G' *) =>
      match args with
      | CANode g :: args' =>
        let '(ok, st) := check st (bool_decide (g <> None)) in
        if ok : bool then
          st ← list_add_child st cur g;
          cons_loop fmt' args' root cur st
        else Ok (None, st)
      | _ => Fault BadVarArg
      end
    | Byte.x20 | Byte.x09 | Byte.x0a => cons_loop fmt' args root cur st
    | _ => Ok (None, set_errno 0 st)
    end
  end.

Definition Node_cons (st : store) (format : bytes) (args : list cons_arg)
  : res (option loc * store) :=
  '(r, st) ← cons_loop (cstr format) args None None st;
  match r with
  | None => Ok (None, st)
  | Some (root, cur) =>
    _ ← assert_ (bool_decide (cur = None));
    Ok (root, st)
  end.

(** ** Deconstruction *)

(** an argument: a pointer to write through ([DNull] when NULL), a [Node **] with its
    current content, or a name to compare with *)
Inductive decons_arg :=
  | DOut
  | DNull
  | DNode (old : option loc)
  | DName (s : option bytes).

(** What is written through the pointers.  A string keeps the node it aliases when
    [copy] is 0.  [DVPun] is the union read at the wrong type. *)
Inductive decons_val :=
  | DVNum (n : Z)
  | DVFloat (f : spec_float)
  | DVStr (alias : option loc) (s : option bytes)
  | DVNode (l : loc)
  | DVPun.

Definition non_null (a : decons_arg) : bool :=
  match a with DNull => false | _ => true end.

(** [biseqcstr(name, s)] for a possibly NULL name *)
Definition name_is (nm : option bytes) (s : option bytes) : bool :=
  match nm, s with
  | Some a, Some b => bool_decide (a = cstr b)
  | _, _ => false
  end.

(** [NEXT()]: stay on the last sibling *)
Definition next_sib (n : Node) (cur : option loc) : option loc :=
  match sibling n with Some s => Some s | None => cur end.

(** The loop: rest of the format when it stops (a failed check gives [None]), and the
    values written, oldest first. *)
Fixpoint decons_loop (st : store) (copy : bool) (fmt : bytes) (args : list decons_arg)
  (cur : option loc) (outs : list decons_val)
  : res (option bytes * list decons_val * store) :=
  match fmt with
  | [] => Ok (Some [], outs, st)
  | c :: fmt' =>
    match cur with
    | None => Ok (Some fmt, outs, st)
    | Some l =>
      n ← load st cur;
      let str_case ty :=
        match args with
        | (DOut | DNull) as a :: args' =>
          let '(ok, st) := check st (non_null a) in
          if ok : bool then
            if bool_decide (type n = ty) then
              match value n with
              | VString s =>
                decons_loop st copy fmt' args' (next_sib n cur)
                  (outs ++ [DVStr (if copy then None else Some l) s])
              | _ => Fault BadPointer
              end
            else Ok (None, outs, set_errno 0 st)
          else Ok (None, outs, st)
        | _ => Fault BadVarArg
        end in
      match c with
      | Byte.x5b (* '[' *) => decons_loop st copy fmt' args (child n) outs
      | Byte.x6e (* 'n' *) =>
        match args with
        | (DOut | DNull) as a :: args' =>
          let '(ok, st) := check st (non_null a) in
          if ok : bool then
            match type n, value n with
            | TYPE_NUMBER, VNumber v =>
              decons_loop st copy fmt' args' (next_sib n cur) (outs ++ [DVNum v])
            | TYPE_NUMBER, _ => Fault BadPointer
            | _, _ => Ok (None, outs, set_errno 0 st)
            end
          else Ok (None, outs, st)
        | _ => Fault BadVarArg
        end
      | Byte.x66 (* 'f' *) =>
        match args with
        | DOut :: args' =>
          let v := match value n with VFloat f => DVFloat f | _ => DVPun end in
          let outs := outs ++ [v] in
          let '(ok, st) := check st true in
          if ok : bool then
            if bool_decide (type n = TYPE_FLOAT)
            then decons_loop st copy fmt' args' (next_sib n cur) outs
            else Ok (None, outs, set_errno 0 st)
          else Ok (None, outs, st)
        | DNull :: _ => Fault NullDeref
        | _ => Fault BadVarArg
        end
      | Byte.x73 (* 's' *) => str_case TYPE_STRING
      | Byte.x62 (* 'b' *) => str_case TYPE_BLOB
      | Byte.x5d (* ']' *) =>
        match parent n with
        | None => decons_loop st copy fmt' args None outs
        | Some p =>
          n' ← load st (Some p);
          decons_loop st copy fmt' args (next_sib n' (Some p)) outs
        end
      | Byte.x40 (* '@' *) =>
        match args with
        | DName a :: args' =>
          let '(ok, st) := check st (bool_decide (a <> None)) in
          if ok : bool then
            let '(ok, st) := check st (name_is (name n) a) in
            if ok : bool then decons_loop st copy fmt' args' cur outs
            else Ok (None, outs, st)
          else Ok (None, outs, st)
        | _ => Fault BadVarArg
        end
      | Byte.x77 (* 'w' *) =>
        match parent n with
        | None => decons_loop st copy fmt' args None outs
        | Some p =>
          match args with
          | DName w :: args' =>
            let '(ok, st) := check st (bool_decide (w <> None)) in
            if ok : bool then
              n' ← load st (Some p);
              let '(ok, st) := check st (name_is (name n') w) in
              if ok : bool then decons_loop st copy fmt' args' (next_sib n' (Some p)) outs
              else Ok (None, outs, st)
            else Ok (None, outs, st)
          | _ => Fault BadVarArg
          end
        end
      | Byte.x47 (* 'G' *) =>
        match args with
        | (DNode _ | DNull) as a :: args' =>
          let '(ok, st) := check st (non_null a) in
          if ok : bool then
            let '(ok, st) :=
              check st (match a with DNode (Some _) => false | _ => true end) in
            if ok : bool
            then decons_loop st copy fmt' args' (next_sib n cur) (outs ++ [DVNode l])
            else Ok (None, outs, st)
          else Ok (None, outs, st)
        | _ => Fault BadVarArg
        end
      | Byte.x2e (* '.' *) => decons_loop st copy fmt' args (next_sib n cur) outs
      | _ => Ok (None, outs, set_errno 0 st)
      end
    end
  end.

(** The return value, and what was written even when it is 0. *)
Definition Node_decons (st : store) (root : option loc) (copy : bool) (format : bytes)
  (args : list decons_arg) : res (bool * list decons_val * store) :=
  _ ← assert_ (bool_decide (root <> None));
  '(rest, outs, st) ← decons_loop st copy (cstr format) args root [];
  match rest with
  | None => Ok (false, outs, st)
  | Some rest =>
    let '(ok, st) := check st (bool_decide (rest = [])) in
    Ok (ok, outs, st)
  end.

Example cons_print :
  ('(r, st) ← Node_cons empty_store (lit "[[bbw[sn@ww")
     [CABstr (Some (lit "hello")); CABstr (Some []); CACstr (Some (lit "a"));
      CABstr (Some (lit "x y")); CANum 7; CACstr (Some (lit "@n")); CACstr (Some (lit "b"));
      CACstr (Some (lit "root"))];
   Node_bstr st r true)
  = Ok (lit "[ [ '5:hello' '0:' a [ " ++ [Byte.x22] ++ lit "x y" ++ [Byte.x22]
        ++ lit " 7 @n b root " ++ [Byte.x0a]).
Proof. vm_compute. reflexivity. Qed.

Example cons_destroy :
  ('(r, st) ← Node_cons empty_store (lit "[[bbw[sn@ww")
     [CABstr (Some (lit "hello")); CABstr (Some []); CACstr (Some (lit "a"));
      CABstr (Some (lit "x y")); CANum 7; CACstr (Some (lit "@n")); CACstr (Some (lit "b"));
      CACstr (Some (lit "root"))];
   st' ← Node_destroy st r; Ok (map_to_list (nodes st'))) = Ok [].
Proof. vm_compute. reflexivity. Qed.

Example cons_decons_ex :
  ('(r, st) ← Node_cons empty_store (lit "[nbw")
     [CANum 7; CABstr (Some (lit "key")); CACstr (Some (lit "header"))];
   '(ok, outs, _) ← Node_decons st r true (lit "[bnw") [DOut; DOut; DName (Some (lit "header"))];
   Ok (ok, outs)) = Ok (true, [DVStr None (Some (lit "key")); DVNum 7]).
Proof. vm_compute. reflexivity. Qed.

End NodeFormat.
