(* ===== verification/Stackish.v ===== *)
(** * Stackish: the parser of [src/src/stackish/stackish.c] and its driver in [node.c]

    The generated tables, the five token handlers, the ten actions and the Ragel driver,
    then [Node_parse_seq], which restarts the machine after each blob. *)

From Stdlib Require Import ZArith Lia Floats.SpecFloat.
From S2P Require Import Prelude Cstdlib Ragel Node.
Import Cstdlib Ragel Node.
Local Open Scope Z_scope.

Module Stackish.

(** ** The generated tables *)

Definition stackish_tables : tables := {|
  t_actions := [
    0; 1; 0; 1; 1; 1; 2; 1;
    3; 1; 4; 1; 5; 1; 6; 1;
    7; 1; 8; 1; 9; 2; 0; 3;
    2; 1; 0; 2; 1; 4; 2; 1;
    7; 2; 2; 0; 2; 2; 4; 2;
    2; 7; 2; 6; 0; 2; 6; 4;
    2; 6; 7; 2; 9; 0; 2; 9;
    4; 2; 9; 7];
  t_key_offsets := [
    0; 0; 1; 2; 4; 7; 8; 10;
    13; 15; 19; 35; 51; 69; 87];
  t_trans_keys := [
    34; 34; 48; 57; 58; 48; 57; 39;
    48; 57; 46; 48; 57; 48; 57; 65;
    90; 97; 122; 32; 34; 39; 43; 45;
    64; 91; 93; 9; 13; 48; 57; 65;
    90; 97; 122; 32; 34; 39; 43; 45;
    64; 91; 93; 9; 13; 48; 57; 65;
    90; 97; 122; 32; 34; 39; 43; 64;
    91; 93; 95; 9; 13; 45; 46; 48;
    58; 65; 90; 97; 122; 32; 34; 39;
    43; 64; 91; 93; 95; 9; 13; 45;
    46; 48; 58; 65; 90; 97; 122; 32;
    34; 39; 43; 45; 46; 64; 91; 93;
    9; 13; 48; 57; 65; 90; 97; 122;
    0];
  t_single_lengths := [
    0; 1; 1; 0; 1; 1; 0; 1;
    0; 0; 8; 8; 8; 8; 9];
  t_range_lengths := [
    0; 0; 0; 1; 1; 0; 1; 1;
    1; 2; 4; 4; 5; 5; 4];
  t_index_offsets := [
    0; 0; 2; 4; 6; 9; 11; 13;
    16; 18; 21; 34; 47; 61; 75];
  t_indicies := None;
  t_trans_targs := [
    10; 2; 10; 2; 4; 0; 5; 4;
    0; 10; 0; 7; 0; 8; 7; 0;
    11; 0; 12; 12; 0; 10; 1; 3;
    6; 6; 9; 10; 10; 10; 14; 13;
    13; 0; 10; 1; 3; 6; 6; 9;
    10; 10; 10; 11; 13; 13; 0; 10;
    1; 3; 6; 9; 10; 10; 12; 10;
    12; 12; 12; 12; 0; 10; 1; 3;
    6; 9; 10; 10; 13; 10; 13; 13;
    13; 13; 0; 10; 1; 3; 6; 6;
    8; 9; 10; 10; 10; 14; 13; 13;
    0; 0];
  t_trans_actions := [
    21; 1; 7; 0; 1; 0; 17; 0;
    0; 11; 0; 0; 0; 0; 0; 0;
    0; 0; 0; 0; 0; 0; 0; 0;
    1; 1; 1; 9; 15; 0; 1; 1;
    1; 0; 5; 5; 5; 33; 33; 33;
    36; 39; 5; 0; 33; 33; 0; 19;
    19; 19; 51; 51; 54; 57; 0; 19;
    0; 0; 0; 0; 0; 13; 13; 13;
    42; 42; 45; 48; 0; 13; 0; 0;
    0; 0; 0; 3; 3; 3; 24; 24;
    0; 24; 27; 30; 3; 0; 24; 24;
    0; 0]
|}.

Definition stackish_parser_start : Z := 10.
Definition stackish_parser_first_final : Z := 10.
Definition stackish_parser_error : Z := 0.

(** ** The parser state *)

Record stackish_parser := mkParser {
  cs : Z;
  more : Z;
  nread : Z;
  mark : Z;
  root : option loc;
  current : option loc
}.

Definition stackish_parser_init : stackish_parser :=
  mkParser stackish_parser_start 0 0 0 None None.

Definition set_more (m : Z) (P : stackish_parser) : stackish_parser :=
  mkParser (cs P) m (nread P) (mark P) (root P) (current P).
Definition set_mark (m : Z) (P : stackish_parser) : stackish_parser :=
  mkParser (cs P) (more P) (nread P) m (root P) (current P).
Definition set_current (c : option loc) (P : stackish_parser) : stackish_parser :=
  mkParser (cs P) (more P) (nread P) (mark P) (root P) c.
Definition set_root (r : option loc) (P : stackish_parser) : stackish_parser :=
  mkParser (cs P) (more P) (nread P) (mark P) r (current P).
Definition set_pos (c n : Z) (P : stackish_parser) : stackish_parser :=
  mkParser c (more P) n (mark P) (root P) (current P).

(** [stackish_node_clear], called when a parse fails *)
Definition stackish_node_clear (P : stackish_parser) (st : store)
  : res (stackish_parser * store) :=
  match root P with
  | Some _ =>
    st ← Node_destroy st (root P);
    Ok (set_current None (set_root None P), st)
  | None => Ok (P, st)
  end.

Definition stackish_node_destroy (P : stackish_parser) (st : store) : res store :=
  match root P with
  | Some _ => Node_destroy st (root P)
  | None => Ok st
  end.

(** the memory from [start] on, and [length] bytes of it *)
Definition from_pos (buffer : bytes) (start : Z) : bytes := drop (Z.to_nat start) buffer.
Definition slice (buffer : bytes) (start len : Z) : bytes :=
  take (Z.to_nat len) (from_pos buffer start).

(** [blk2bstr(start, length)]: the length is converted to [int] *)
Definition blk2bstr (buffer : bytes) (start length : Z) : option bytes :=
  let len := i32 length in
  if len <? 0 then None else Some (slice buffer start len).

(** [Node_from_str]: the node, or NULL, for the [length] bytes at [start] *)
Definition Node_from_str (st : store) (par : option loc) (ty : NodeType)
  (buffer : bytes) (start length : Z) : res (option loc * store) :=
  match ty with
  | TYPE_BLOB =>
    '(l, st) ← Node_new_blob st par (blk2bstr buffer start length);
    Ok (Some l, st)
  | TYPE_STRING =>
    '(l, st) ← Node_new_string st par (blk2bstr buffer start length);
    Ok (Some l, st)
  | TYPE_NUMBER =>
    let c := strtoull (from_pos buffer start) in
    let st := if c_errno c =? 0 then st else set_errno (c_errno c) st in
    let '(ok, st) := check st (u64 (c_used c) =? length) in
    if ok : bool then
      '(l, st) ← Node_new_number st par (c_value c);
      Ok (Some l, st)
    else Ok (None, st)
  | TYPE_FLOAT =>
    let c := strtod (from_pos buffer start) in
    let st := if c_errno c =? 0 then st else set_errno (c_errno c) st in
    let '(ok, st) := check st (u64 (c_used c) =? length) in
    if ok : bool then
      '(l, st) ← Node_new_float st par (c_value c);
      Ok (Some l, st)
    else Ok (None, st)
  | _ => Ok (None, set_errno 0 st)
  end.

(** ** The token handlers *)

Definition handle_push (P : stackish_parser) (ty : NodeType) (buffer : bytes)
  (start length : Z) (st : store) : res (bool * store) :=
  let cur := current P in
  let '(ok, st) := check st (bool_decide (cur <> None)) in
  if negb ok then Ok (false, st) else
  let '(ok, st) := check st (bool_decide (root P <> None)) in
  if negb ok then Ok (false, st) else
  n ← load st cur;
  let '(ok, st) := check st (bool_decide (type n = TYPE_GROUP)) in
  if negb ok then Ok (false, st) else
  '(node, st) ← Node_from_str st cur ty buffer start length;
  Ok (bool_decide (node <> None), st).

(** 1 when the document is done, 0 when not, -1 on failure; [nm] is [None] for "]" *)
Definition handle_word (P : stackish_parser) (nm : option (option bytes)) (st : store)
  : res (Z * stackish_parser * store) :=
  let cur := current P in
  let '(ok, st) := check st (bool_decide (root P <> None)) in
  if negb ok then Ok (-1, P, st) else
  let '(ok, st) := check st (bool_decide (cur <> None)) in
  if negb ok then Ok (-1, P, st) else
  st ← match nm with
       | None => update st cur (set_name None)
       | Some s => Node_name st cur s
       end;
  if bool_decide (cur = root P) then Ok (1, P, st)
  else
    n ← load st cur;
    Ok (0, set_current (parent n) P, st).

Definition handle_group (P : stackish_parser) (st : store) : res (Z * stackish_parser * store) :=
  handle_word P None st.

Definition handle_attr (P : stackish_parser) (s : option bytes) (st : store)
  : res (bool * store) :=
  c ← load st (current P);
  let cur := child c in
  let '(ok, st) := check st (bool_decide (cur <> None)) in
  if negb ok then Ok (false, st) else
  st ← Node_name st cur s;
  Ok (true, st).

Definition handle_start (P : stackish_parser) (st : store) : res (stackish_parser * store) :=
  '(m, st) ← Node_new_group st (current P);
  let P := if bool_decide (root P = None) then set_root (Some m) P else P in
  Ok (set_current (Some m) P, st).

(** ** The actions of the machine, at position [p] of [buffer] *)

(** [LEN(mark, p)], a [size_t] *)
Definition LEN (P : stackish_parser) (p : Z) : Z := u64 (p - mark P).

Definition push (P : stackish_parser) (ty : NodeType) (buffer : bytes) (p : Z) (st : store) :=
  handle_push P ty buffer (mark P) (LEN P p) st.

Definition stackish_action (buffer : bytes) (a p : Z) (s : stackish_parser * store)
  : res ((stackish_parser * store) * ctl) :=
  let '(P, st) := s in
  match a with
  | 0 => Ok ((set_mark p P, st), CNext)
  | 1 =>
    '(ok, st) ← push P TYPE_NUMBER buffer p st;
    Ok ((P, st), if (ok : bool) then CNext else COut)
  | 2 =>
    '(ok, st) ← push P TYPE_FLOAT buffer p st;
    Ok ((P, st), if (ok : bool) then CNext else COut)
  | 3 =>
    '(ok, st) ← push P TYPE_STRING buffer p st;
    Ok ((P, st), if (ok : bool) then CNext else COut)
  | 4 =>
    '(P, st) ← handle_start P st;
    Ok ((P, st), CNext)
  | 5 =>
    '(ok, st) ← push P TYPE_BLOB buffer p st;
    if ok : bool then Ok ((set_more 0 P, st), CNext) else Ok ((P, st), COut)
  | 6 =>
    '(r, P, st) ← handle_word P (Some (blk2bstr buffer (mark P) (LEN P p))) st;
    Ok ((P, st), if r =? 0 then CNext else COut)
  | 7 =>
    '(r, P, st) ← handle_group P st;
    Ok ((P, st), if r =? 0 then CNext else COut)
  | 8 =>
    let c := strtoull (from_pos buffer (mark P)) in
    let st := if c_errno c =? 0 then st else set_errno (c_errno c) st in
    let P := set_more (c_value c) P in
    _ ← assert_ (mark P + c_used c =? p);
    let P := set_mark (p + 1) P in
    Ok ((P, st), if 0 <? more P then COut else CNext)
  | 9 =>
    '(ok, st) ← handle_attr P (blk2bstr buffer (mark P) (LEN P p)) st;
    Ok ((P, st), if (ok : bool) then CNext else COut)
  | _ => Ok ((P, st), CNext)
  end.

(** [stackish_parser_execute(parser, buffer, len, off)] on a NUL-terminated buffer *)
Definition stackish_parser_execute (P : stackish_parser) (buffer : bytes) (off : Z) (st : store)
  : res (stackish_parser * store) :=
  _ ← assert_ (off <=? zlen buffer);
  '(p, c, (P, st)) ←
     exec stackish_tables (stackish_action buffer) (from_pos buffer off) off (cs P) (P, st);
  _ ← assert_ (p <=? zlen buffer);
  Ok (set_pos c p P, st).

Definition stackish_parser_has_error (P : stackish_parser) : bool :=
  cs P =? stackish_parser_error.
Definition stackish_parser_is_finished (P : stackish_parser) : bool :=
  cs P =? stackish_parser_first_final.

(** ** [Node_parse_seq] and [Node_parse] *)

(** The [while] that steps over blobs.  [nread + more + 1] is [size_t] arithmetic.
    [None]: a check failed. *)
Fixpoint blob_loop (fuel : nat) (P : stackish_parser) (buffer : bytes) (st : store)
  : res (option unit * stackish_parser * store) :=
  match fuel with
  | O => Fault NoFuel
  | S f =>
    if negb (more P =? 0) && negb (stackish_parser_is_finished P) && (nread P <? zlen buffer)
    then
      let off := u64 (nread P + more P + 1) in
      _ ← assert_ (off <? zlen buffer);
      '(P, st) ← stackish_parser_execute P buffer off st;
      let '(ok, st) := check st (negb (stackish_parser_has_error P)) in
      if ok : bool then blob_loop f P buffer st else Ok (None, P, st)
    else Ok (Some tt, P, st)
  end.

(** [while(bchar(buf, *from) == '\n') ( *from)++] *)
Fixpoint skip_nl (l : bytes) : Z :=
  match l with
  | Byte.x0a :: r => 1 + skip_nl r
  | _ => 0
  end.

Definition ends_in_space (buf : bytes) : bool :=
  match bchar (Some buf) (zlen buf - 1) with
  | Byte.x20 | Byte.x0a | Byte.x09 => true
  | _ => false
  end.

(** The root of the structure at [from] (NULL on failure), the new [from], the store. *)
Definition Node_parse_seq (fuel : nat) (buf : bytes) (from : Z) (st : store)
  : res (option loc * Z * store) :=
  let P := stackish_parser_init in
  let fail_path P st n :=
    '(_, st) ← stackish_node_clear P st;
    Ok (None, n + 1, st) in
  let '(ok, st) := check st (ends_in_space buf) in
  if negb ok then fail_path P st from else
  '(P, st) ← stackish_parser_execute P buf from st;
  let '(ok, st) := check st (negb (stackish_parser_has_error P)) in
  if negb ok then fail_path P st (nread P) else
  '(r, P, st) ← blob_loop fuel P buf st;
  match r with
  | None => fail_path P st (nread P)
  | Some _ =>
    let from' := nread P + 1 in
    Ok (root P, from' + skip_nl (from_pos buf from'), st)
  end.

(** one restart per byte is more than a terminating parse can make *)
Definition parse_fuel (buf : bytes) : nat := S (length buf).

Definition Node_parse (buf : bytes) (st : store) : res (option loc * store) :=
  '(r, _, st) ← Node_parse_seq (parse_fuel buf) buf 0 st;
  Ok (r, st).

Definition reprint (s : bytes) : res bytes :=
  '(r, st) ← Node_parse s empty_store; Node_bstr st r true.

Example parse_print_ex :
  reprint (lit "[[ 12 @x good [ 1234 @an:integer 345.78 @a-float test [ '5:he'l:' 6 ] doc ")
   = Ok (lit "[ [ 12 @x good [ 1234 @an:integer 345.780000 @a-float test [ '5:he'l:' 6 ] doc " ++ [Byte.x0a]).
Proof. vm_compute. reflexivity. Qed.

End Stackish.
