(* ===== verification/NodeRep.v ===== *)
(** * NodeRep: trees held in the store

    [forest] is the abstract view of a child list: first child and following siblings,
    newest first, as the [child] and [sibling] pointers give them.  [rep] relates it to
    the store with the exact set of nodes it occupies.  On top of it: printing is a pure
    function of the forest, and destroying frees exactly the forest's nodes. *)

From Stdlib Require Import ZArith Lia Floats.SpecFloat.
From S2P Require Import Prelude Cstdlib Node.
Import Cstdlib Node.
Local Open Scope Z_scope.

Module NodeRep.

Inductive fval :=
  | FNum (n : Z)
  | FStr (s : bytes)
  | FBlob (s : bytes)
  | FFlt (f : spec_float)
  | FGrp.

Inductive forest :=
  | FNil
  | FCons (nm : option bytes) (v : fval) (kids rest : forest).

#[global] Instance fval_eq_dec : EqDecision fval.
Proof. solve_decision. Defined.
#[global] Instance forest_eq_dec : EqDecision forest.
Proof. solve_decision. Defined.

Definition type_of (v : fval) : NodeType :=
  match v with
  | FNum _ => TYPE_NUMBER
  | FStr _ => TYPE_STRING
  | FBlob _ => TYPE_BLOB
  | FFlt _ => TYPE_FLOAT
  | FGrp => TYPE_GROUP
  end.

Definition value_of (v : fval) : NodeValue :=
  match v with
  | FNum n => VNumber n
  | FStr s | FBlob s => VString (Some s)
  | FFlt f => VFloat f
  | FGrp => VZero
  end.

(** [rep lk ns par p f F]: the list starting at [p] is the forest [f], on the nodes [F];
    with [lk] every node's parent pointer is the node it hangs under. *)
Inductive rep (lk : bool) (ns : gmap loc Node)
  : option loc -> option loc -> forest -> gset loc -> Prop :=
  | rep_nil par : rep lk ns par None FNil ∅
  | rep_cons par l n v kids rest Fk Fr :
      ns !! l = Some n ->
      type n = type_of v ->
      value n = value_of v ->
      (lk = true -> parent n = par) ->
      rep lk ns (Some l) (child n) kids Fk ->
      rep lk ns par (sibling n) rest Fr ->
      l ∉ Fk -> l ∉ Fr -> Fk ## Fr ->
      rep lk ns par (Some l) (FCons (name n) v kids rest) ({[l]} ∪ Fk ∪ Fr).

Fixpoint fsize (f : forest) : nat :=
  match f with
  | FNil => 0
  | FCons _ _ kids rest => S (fsize kids + fsize rest)
  end.

(** the length of the top-level list *)
Fixpoint flen (f : forest) : nat :=
  match f with
  | FNil => 0
  | FCons _ _ _ rest => S (flen rest)
  end.

(** the height of the binary tree of child and sibling links *)
Fixpoint height (f : forest) : nat :=
  match f with
  | FNil => 0
  | FCons _ _ kids rest => S (Nat.max (height kids) (height rest))
  end.

Lemma rep_frame lk ns ns' par p f F :
  rep lk ns par p f F -> (forall l, l ∈ F -> ns' !! l = ns !! l) -> rep lk ns' par p f F.
Proof.
  induction 1 as [|par l n v kids rest Fk Fr Hl]; intros Hag; [constructor|].
  econstructor; eauto.
  - rewrite Hag; [done | set_solver].
  - auto with set_solver.
  - auto with set_solver.
Qed.

Lemma rep_weaken lk ns par p f F : rep true ns par p f F -> rep lk ns par p f F.
Proof. induction 1; econstructor; eauto. Qed.

Lemma rep_size lk ns par p f F : rep lk ns par p f F -> size F = fsize f.
Proof.
  induction 1 as [|par l n v kids rest Fk Fr ???? _ IHk _ IHr]; [done|].
  rewrite size_union by set_solver. rewrite size_union by set_solver.
  rewrite size_singleton, IHk, IHr. cbn; lia.
Qed.

Lemma rep_dom lk ns par p f F : rep lk ns par p f F -> F ⊆ dom ns.
Proof.
  induction 1 as [|par l n v kids rest Fk Fr Hl]; [set_solver|].
  assert (l ∈ dom ns) by (by apply elem_of_dom_2 in Hl). set_solver.
Qed.

Lemma rep_fsize_le lk ns par p f F : rep lk ns par p f F -> (fsize f <= size ns)%nat.
Proof.
  intros H. rewrite <- (rep_size _ _ _ _ _ _ H), <- (size_dom (D:=gset loc) ns).
  apply subseteq_size, (rep_dom _ _ _ _ _ _ H).
Qed.

Lemma rep_None lk ns par f F : rep lk ns par None f F -> f = FNil /\ F = ∅.
Proof. by inversion 1. Qed.

(** The abstraction is a function of the store. *)
Lemma rep_inj lk lk' ns par par' p f g F G :
  rep lk ns par p f F -> rep lk' ns par' p g G -> f = g /\ F = G.
Proof.
  intros H; revert lk' par' g G.
  induction H as [par|par l n v kids rest Fk Fr Hl Ht Hv Hp _ IHk _ IHr]; intros lk' par' g G Hg.
  - by apply rep_None in Hg as [-> ->].
  - inversion Hg as [|? l' n' v' kids' rest' Fk' Fr' Hl' Ht' Hv' ?? Hr']; subst.
    rewrite Hl in Hl'; injection Hl' as <-.
    destruct (IHk _ _ _ _ ltac:(eassumption)) as [-> ->].
    destruct (IHr _ _ _ _ Hr') as [-> ->].
    split; [|done]. f_equal. rewrite Ht in Ht'. rewrite Hv in Hv'.
    destruct v, v'; cbn in *; congruence.
Qed.

(** ** Printing *)

Definition starts_at (nm : option bytes) : bool :=
  bool_decide (bchar nm 0 = Byte.x40).

Definition print_value (sep : byte) (nm : option bytes) (v : fval) : bytes :=
  match v with
  | FNum n => print_dec n ++ [sep]
  | FStr s => [Byte.x22] ++ cstr s ++ [Byte.x22; sep]
  | FBlob s => lit "'" ++ print_dec (zlen s) ++ lit ":" ++ s ++ lit "'" ++ [sep]
  | FFlt f => fmt_f f ++ [sep]
  | FGrp => if bool_decide (nm = None) || starts_at nm then lit "]" ++ [sep] else []
  end.

Definition print_name (sep : byte) (nm : option bytes) : bytes :=
  match nm with Some s => cstr s ++ [sep] | None => [] end.

(** The canonical text: oldest sibling first, children before the name. *)
Fixpoint print_forest (sep : byte) (f : forest) : bytes :=
  match f with
  | FNil => []
  | FCons nm v kids rest =>
    print_forest sep rest
      ++ (match v with FGrp => lit "[" ++ [sep] | _ => [] end)
      ++ print_forest sep kids ++ print_value sep nm v ++ print_name sep nm
  end.

Lemma cstr_app_nul_free a b : Byte.x00 ∉ a -> cstr (a ++ b) = a ++ cstr b.
Proof.
  induction a as [|c a IH]; [done|]. rewrite not_elem_of_cons; intros [Hc Ha]; cbn.
  rewrite bool_decide_eq_false_2 by done. by rewrite IH.
Qed.

Lemma cstr_nul_free l : Byte.x00 ∉ cstr l.
Proof.
  induction l as [|c l IH]; cbn; [set_solver|].
  case_bool_decide; [set_solver|]. apply not_elem_of_cons; split; congruence.
Qed.

Lemma digits_nul_free l : Forall (fun b => is_digit b = true) l -> Byte.x00 ∉ l.
Proof.
  induction 1 as [|b l Hb _ IH]; [set_solver|].
  apply not_elem_of_cons; split; [by intros <- | done].
Qed.

Lemma print_dec_nul_free n : 0 <= n -> Byte.x00 ∉ print_dec n.
Proof. intros; by apply digits_nul_free, print_dec_spec. Qed.

Lemma pad6_digits n : Forall (fun b => is_digit b = true) (pad6 n).
Proof.
  unfold pad6; repeat constructor; apply is_digit_digit; apply Z.mod_pos_bound; lia.
Qed.

Lemma div_even_nonneg n d : 0 <= n -> 0 < d -> 0 <= div_even n d.
Proof.
  intros. unfold div_even. pose proof (Z.div_pos n d). repeat case_match; lia.
Qed.

Lemma micros_nonneg m e : 0 <= micros m e.
Proof.
  unfold micros. destruct (Z.leb_spec 0 e).
  - apply Z.mul_nonneg_nonneg; [|lia]. apply Z.mul_nonneg_nonneg; [lia|].
    by apply Z.pow_nonneg.
  - apply div_even_nonneg; [lia|]. apply Z.pow_pos_nonneg; lia.
Qed.

Lemma fmt_f_nul_free f : Byte.x00 ∉ fmt_f f.
Proof.
  assert (Hs : forall s, Byte.x00 ∉ sign_str s) by (intros []; cbn; set_solver).
  destruct f as [s|s| |s m e]; cbn [fmt_f]; rewrite ?not_elem_of_app.
  - split; [done|]. cbn; set_solver.
  - split; [done|]. cbn; set_solver.
  - cbn; set_solver.
  - split_and!; [done | | cbn; set_solver | apply digits_nul_free, pad6_digits].
    apply print_dec_nul_free, Z.div_pos; [apply micros_nonneg | lia].
Qed.

(** numbers are unsigned: what [print_dec] can print *)
Definition val_ok (v : fval) : Prop :=
  match v with FNum n => 0 <= n | _ => True end.

Fixpoint vals_ok (f : forest) : Prop :=
  match f with
  | FNil => True
  | FCons _ v kids rest => val_ok v /\ vals_ok kids /\ vals_ok rest
  end.

Lemma bformata_nul_free str a sep :
  Byte.x00 ∉ a -> sep <> Byte.x00 -> bformata str (a ++ [sep]) = str ++ a ++ [sep].
Proof.
  intros Ha Hs. unfold bformata. rewrite cstr_id; [done|].
  rewrite not_elem_of_app, not_elem_of_cons. set_solver.
Qed.

Lemma cat_value_spec n v sep str :
  sep <> Byte.x00 -> val_ok v -> type n = type_of v -> value n = value_of v ->
  cat_value n str sep = Ok (str ++ print_value sep (name n) v).
Proof.
  intros Hs Hv Ht Hval. unfold cat_value. rewrite Ht, Hval.
  destruct v as [x|s|s|x|]; cbn [type_of value_of print_value].
  - by rewrite bformata_nul_free by auto using print_dec_nul_free.
  - apply (f_equal Ok).
    replace ([Byte.x22] ++ cstr s ++ [Byte.x22; sep])
      with (([Byte.x22] ++ cstr s ++ [Byte.x22]) ++ [sep]) by (by rewrite <- !app_assoc).
    rewrite bformata_nul_free; [done | | done].
    rewrite !not_elem_of_app. split_and!; [cbn; set_solver | apply cstr_nul_free | set_solver].
  - apply (f_equal Ok). rewrite bformata_nul_free by (cbn; set_solver).
    unfold blength. change (lit ":") with [Byte.x3a]. rewrite (app_assoc (lit "'")).
    rewrite bformata_nul_free; [by rewrite <- !app_assoc | | discriminate].
    rewrite not_elem_of_app. split; [cbn; set_solver|].
    apply print_dec_nul_free. unfold zlen; lia.
  - by rewrite bformata_nul_free by auto using fmt_f_nul_free.
  - unfold starts_at. destruct (_ || _); [|by rewrite app_nil_r].
    by rewrite bformata_nul_free by (cbn; set_solver).
Qed.

Lemma catbstr_spec lk st sep par p f F :
  sep <> Byte.x00 -> rep lk (nodes st) par p f F -> vals_ok f ->
  forall fuel str, (fsize f < fuel)%nat ->
  Node_catbstr fuel st str p sep true = Ok (str ++ print_forest sep f).
Proof.
  intros Hsep H.
  induction H as [par|par l n v kids rest Fk Fr Hl Ht Hv Hp Hk IHk Hr IHr]; intros Hok fuel str Hf.
  - destruct fuel; [lia|]. by rewrite app_nil_r.
  - destruct Hok as (Hvo & Hko & Hro). destruct fuel as [|fuel]; [lia|]; cbn in Hf.
    cbn [Node_catbstr]. rewrite (load_Some _ _ _ Hl), bind_ret.
    assert (forall b str', (if b && true then Node_catbstr fuel st str' (sibling n) sep true else Ok str')
              = if b then Ok (str' ++ print_forest sep rest) else Ok str') as Esib.
    { intros [] ?; cbn; [|done]. apply IHr; [done|lia]. }
    rewrite Esib.
    replace (if bool_decide (sibling n <> None) then Ok (str ++ print_forest sep rest) else Ok str)
      with (Ok (str ++ print_forest sep rest)).
    2:{ case_bool_decide as E; [done|]. rewrite E in Hr.
        apply rep_None in Hr as [-> _]. by rewrite app_nil_r. }
    rewrite bind_ret.
    set (str1 := if bool_decide (type n = TYPE_GROUP) then _ else _).
    assert (str1 = str ++ print_forest sep rest
                   ++ (match v with FGrp => lit "[" ++ [sep] | _ => [] end)) as ->.
    { subst str1. rewrite Ht. destruct v; cbn [type_of]; rewrite ?app_nil_r; try done.
      rewrite bool_decide_eq_true_2 by done.
      rewrite bformata_nul_free by (cbn; set_solver). by rewrite <- !app_assoc. }
    set (str2 := str ++ _ ++ _).
    replace (if bool_decide (child n <> None) then Node_catbstr fuel st str2 (child n) sep true
             else Ok str2) with (Ok (str2 ++ print_forest sep kids)).
    2:{ case_bool_decide as E; [symmetry; apply IHk; [done|lia]|].
        rewrite E in Hk. apply rep_None in Hk as [-> _]. by rewrite app_nil_r. }
    rewrite bind_ret, (cat_value_spec n v), bind_ret by done. cbn [print_forest].
    subst str2. unfold print_name.
    destruct (name n); [rewrite bformata_nul_free by auto using cstr_nul_free|];
      f_equal; by rewrite <- ?app_assoc, ?app_nil_r, <- ?app_assoc.
Qed.

Lemma Node_bstr_spec lk st par l f F :
  rep lk (nodes st) par (Some l) f F -> vals_ok f ->
  Node_bstr st (Some l) true = Ok (print_forest Byte.x20 f ++ [Byte.x0a]).
Proof.
  intros H Hok. unfold Node_bstr. rewrite (catbstr_spec lk st Byte.x20 par (Some l) f F).
  - done.
  - done.
  - done.
  - done.
  - unfold cat_fuel. pose proof (rep_fsize_le _ _ _ _ _ _ H). lia.
Qed.

(** ** Destroying *)

(** the store without the nodes [F] *)
Definition drop_nodes (F : gset loc) (ns : gmap loc Node) : gmap loc Node :=
  filter (fun kv => kv.1 ∉ F) ns.

Lemma lookup_drop_nodes F ns l :
  drop_nodes F ns !! l = if decide (l ∈ F) then None else ns !! l.
Proof.
  unfold drop_nodes. destruct (decide (l ∈ F)) as [Hin|Hout].
  - apply map_lookup_filter_None_2. right. naive_solver.
  - destruct (ns !! l) as [n|] eqn:E.
    + by apply map_lookup_filter_Some_2.
    + apply map_lookup_filter_None_2. by left.
Qed.

Lemma drop_nodes_empty ns : drop_nodes ∅ ns = ns.
Proof. apply map_eq; intros l. rewrite lookup_drop_nodes. by rewrite decide_False by set_solver. Qed.

Lemma drop_nodes_union F G ns : drop_nodes F (drop_nodes G ns) = drop_nodes (F ∪ G) ns.
Proof.
  apply map_eq; intros l. rewrite !lookup_drop_nodes.
  repeat case_decide; set_solver.
Qed.

Lemma delete_drop_nodes l F ns : delete l (drop_nodes F ns) = drop_nodes ({[l]} ∪ F) ns.
Proof.
  apply map_eq; intros k. rewrite lookup_drop_nodes, lookup_delete, lookup_drop_nodes.
  repeat case_decide; set_solver.
Qed.

Lemma rep_drop lk ns par p f F G :
  rep lk ns par p f F -> F ## G -> rep lk (drop_nodes G ns) par p f F.
Proof.
  intros H Hd. eapply rep_frame; [done|]. intros l Hl.
  rewrite lookup_drop_nodes, decide_False; [done | set_solver].
Qed.

(** the path entries the inner loop pushes for a list, last sibling on top *)
Fixpoint chain (ns : gmap loc Node) (p : option loc) (f : forest) : list frame :=
  match f, p with
  | FCons _ _ _ rest, Some l =>
    match ns !! l with
    | Some n => chain ns (sibling n) rest ++ [Frame l (child n) 0]
    | None => []
    end
  | _, _ => []
  end.

Lemma push_down_spec lk st par p f F :
  rep lk (nodes st) par p f F -> forall fuel path, (flen f < fuel)%nat ->
  push_down fuel st p path =
    if 128 <=? Z.of_nat (length path + flen f) then
      (if (flen f =? 0)%nat then Ok path else Fault AssertFail)
    else Ok (chain (nodes st) p f ++ path).
Proof.
  induction 1 as [par|par l n v kids rest Fk Fr Hl Ht Hv Hp Hk IHk Hr IHr];
    intros fuel path Hf; (destruct fuel as [|fuel]; [lia|]); cbn [flen push_down] in *.
  - cbn. by case_match.
  - rewrite (load_Some _ _ _ Hl), bind_ret. unfold MAX_TREE_DEEP, zlen. cbn [length].
    destruct (Z.leb_spec 128 (Z.of_nat (S (length path)))).
    + by rewrite (proj2 (Z.leb_le _ _)) by lia.
    + rewrite IHr by lia. cbn [length Nat.eqb].
      replace (S (length path) + flen rest)%nat with (length path + S (flen rest))%nat by lia.
      destruct (Z.leb_spec 128 (Z.of_nat (length path + S (flen rest)))).
      * destruct rest; cbn in *; [lia | done].
      * cbn [chain]. by rewrite Hl, <- app_assoc.
Qed.

(** what the outer loop does next, once the current list is pushed *)
Definition resume (fuel : nat) (st : store) (path : list frame) : res store :=
  match path with
  | [] => Ok st
  | _ => '(st', cn', path') ← pop_up st path; map_postorder fuel st' cn' path'
  end.

(** restarts of the outer loop caused by a list: one for each node with children *)
Fixpoint restarts (f : forest) : nat :=
  match f with
  | FNil => 0
  | FCons _ _ FNil rest => restarts rest
  | FCons _ _ kids rest => S (restarts kids + restarts rest)
  end.

Lemma restarts_le f : (restarts f <= fsize f)%nat.
Proof. induction f as [|nm v kids IHk rest IHr]; cbn; [lia|]. destruct kids; cbn in *; lia. Qed.

Lemma height_flen f : (flen f <= height f)%nat.
Proof. induction f; cbn; lia. Qed.

Lemma destroy_rep_node st l n v :
  nodes st !! l = Some n -> type n = type_of v -> value n = value_of v ->
  Node_intern_destroy st l = Ok (set_nodes (delete l (nodes st)) st).
Proof.
  intros Hl Ht Hv. unfold Node_intern_destroy, need. rewrite Hl, bind_ret, Ht, Hv.
  by destruct v.
Qed.

(** leaving the entry of a node whose children are gone *)
Lemma resume_visit fuel st l n v pass path :
  nodes st !! l = Some n -> type n = type_of v -> value n = value_of v -> (0 < fuel)%nat ->
  resume fuel st (Frame l None pass :: path)
  = resume fuel (set_nodes (delete l (nodes st)) st) path.
Proof.
  intros Hl Ht Hv Hf. unfold resume at 1. cbn [pop_up].
  rewrite bool_decide_eq_true_2, orb_true_r by done.
  rewrite (destroy_rep_node _ _ _ _ Hl Ht Hv), bind_ret.
  destruct path; [|done]. destruct fuel; [lia|]. done.
Qed.

(** the pushed entries depend on the list's own nodes only *)
Lemma chain_agree lk ns ns' par p f F :
  rep lk ns par p f F -> (forall l, l ∈ F -> ns' !! l = ns !! l) -> chain ns' p f = chain ns p f.
Proof.
  induction 1 as [|par l n v kids rest Fk Fr Hl Ht Hv Hp Hk IHk Hr IHr]; intros Hag; [done|].
  cbn. rewrite Hag, Hl by set_solver. by rewrite IHr by set_solver.
Qed.

Lemma flen_fsize f : (flen f <= fsize f)%nat.
Proof. induction f; cbn; lia. Qed.

(** entering a list: it is pushed whole, then popped *)
Lemma map_postorder_enter lk m st par c f F path :
  rep lk (nodes st) par (Some c) f F -> (length path + flen f < 128)%nat ->
  map_postorder (S m) st (Some c) path = resume m st (chain (nodes st) (Some c) f ++ path).
Proof.
  intros H Hlen. cbn [map_postorder]. rewrite (push_down_spec _ _ _ _ _ _ H); cycle 1.
  { pose proof (rep_fsize_le _ _ _ _ _ _ H). pose proof (flen_fsize f). lia. }
  rewrite (proj2 (Z.leb_gt _ _)) by lia. rewrite bind_ret.
  inversion H as [|? l n v kids rest Fk Fr Hl]; subst. cbn [chain]. rewrite Hl.
  unfold resume. by destruct (chain (nodes st) (sibling n) rest).
Qed.

(** leaving the entry of a node that has children: they are entered, its own entry kept *)
Lemma resume_descend lk m st l c f F path :
  rep lk (nodes st) (Some l) (Some c) f F -> (S (length path) + flen f < 128)%nat ->
  resume (S m) st (Frame l (Some c) 0 :: path)
  = resume m st (chain (nodes st) (Some c) f ++ Frame l None 1 :: path).
Proof.
  intros H Hlen. rewrite <- (map_postorder_enter lk m st (Some l) c f F); [|done|done].
  unfold resume. cbn [pop_up]. rewrite bool_decide_eq_false_2 by done.
  change ((0 =? 1) || false) with false. cbv iota. rewrite bind_ret. by destruct path.
Qed.

Lemma set_nodes_twice a b st : set_nodes a (set_nodes b st) = set_nodes a st.
Proof. done. Qed.

(** Popping a pushed list destroys it and its descendants, and nothing else. *)
Lemma resume_chain lk ns par p f F :
  rep lk ns par p f F ->
  forall st path k, (forall l, l ∈ F -> nodes st !! l = ns !! l) -> (0 < k)%nat ->
  (length path + height f < 128)%nat ->
  resume (k + restarts f) st (chain ns p f ++ path)
  = resume k (set_nodes (drop_nodes F (nodes st)) st) path.
Proof.
  induction 1 as [par|par l n v kids rest Fk Fr Hl Ht Hv Hp Hk IHk Hr IHr Hlk Hlr Hkr];
    intros st path k Hag Hk0 Hlen.
  - cbn. rewrite Nat.add_0_r, drop_nodes_empty. by destruct st.
  - cbn [chain]. rewrite Hl, <- app_assoc. cbn [app].
    replace (k + restarts (FCons (name n) v kids rest))%nat
      with (k + match kids with FNil => O | _ => S (restarts kids) end + restarts rest)%nat
      by (cbn; destruct kids; cbn; lia).
    cbn [height] in Hlen.
    rewrite IHr; [| set_solver | lia | cbn [length]; lia].
    set (st1 := set_nodes _ st).
    assert (Hl1 : nodes st1 !! l = Some n).
    { cbn. rewrite lookup_drop_nodes, decide_False, Hag by set_solver. done. }
    assert (Hag1 : forall l', l' ∈ Fk -> nodes st1 !! l' = ns !! l').
    { intros l' ?. cbn. rewrite lookup_drop_nodes, decide_False, Hag by set_solver. done. }
    destruct (child n) as [c|] eqn:Ec.
    + destruct kids as [|knm kv kkids krest] eqn:Ek; [by inversion Hk|]. rewrite <- Ek in *.
      rewrite Nat.add_succ_r, (resume_descend lk _ st1 l c kids Fk);
        [| by eapply rep_frame | pose proof (height_flen kids); lia].
      rewrite (chain_agree lk ns _ _ _ _ _ Hk Hag1).
      rewrite IHk; [| done | done | cbn [length]; lia].
      rewrite (resume_visit _ _ l n v); [| | done | done | done].
      * cbn [nodes set_nodes st1]. rewrite !set_nodes_twice, delete_drop_nodes, drop_nodes_union.
        done.
      * cbn [nodes set_nodes]. by rewrite lookup_drop_nodes, decide_False.
    + apply rep_None in Hk as [-> ->].
      rewrite Nat.add_0_r, (resume_visit _ _ l n v); [| done | done | done | done].
      unfold st1; cbn [nodes set_nodes next errno]. rewrite delete_drop_nodes.
      by rewrite (right_id_L ∅ (∪) {[l]}).
Qed.

Lemma Node_destroy_rep lk st par p f F :
  rep lk (nodes st) par p f F -> (height f < 128)%nat ->
  Node_destroy st p = Ok (set_nodes (drop_nodes F (nodes st)) st).
Proof.
  intros H Hh. unfold Node_destroy. destruct p as [c|].
  - rewrite (map_postorder_enter lk _ st par c f F);
      [| done | pose proof (height_flen f); cbn; lia].
    pose proof (rep_fsize_le _ _ _ _ _ _ H). pose proof (restarts_le f).
    replace (S (size (nodes st)))%nat
      with (S (size (nodes st)) - restarts f + restarts f)%nat by lia.
    by rewrite (resume_chain lk (nodes st) par (Some c) f F); [| | | lia | cbn; lia].
  - apply rep_None in H as [-> ->]. cbn. rewrite drop_nodes_empty. by destruct st.
Qed.

(** A list of 128 siblings does not fit the path array. *)
Lemma Node_destroy_wide lk st par p f F :
  rep lk (nodes st) par p f F -> (128 <= flen f)%nat -> Node_destroy st p = Fault AssertFail.
Proof.
  intros H Hw. unfold Node_destroy. destruct p as [c|].
  - cbn [map_postorder]. rewrite (push_down_spec _ _ _ _ _ _ H); cycle 1.
    { pose proof (rep_fsize_le _ _ _ _ _ _ H). pose proof (flen_fsize f). lia. }
    rewrite (proj2 (Z.leb_le _ _)) by (cbn; lia).
    by rewrite (proj2 (Nat.eqb_neq _ _)) by lia.
  - apply rep_None in H as [-> ->]. cbn in Hw; lia.
Qed.

(** a small tree in a store *)
Definition sample_store : store :=
  Store {[1%positive := mkNode (Some (lit "doc")) TYPE_GROUP VZero None None (Some 2%positive);
          2%positive := mkNode (Some (lit "@n")) TYPE_NUMBER (VNumber 7) (Some 1%positive) None None]}
        3%positive 0.

Lemma sample_rep :
  rep true (nodes sample_store) None (Some 1%positive)
    (FCons (Some (lit "doc")) FGrp (FCons (Some (lit "@n")) (FNum 7) FNil FNil) FNil)
    ({[1%positive]} ∪ ({[2%positive]} ∪ ∅ ∪ ∅) ∪ ∅).
Proof.
  refine (rep_cons true (nodes sample_store) _ 1%positive (mkNode (Some (lit "doc")) TYPE_GROUP VZero None None (Some 2%positive))
            FGrp _ _ _ _ eq_refl eq_refl eq_refl (fun _ => eq_refl) _ (rep_nil _ _ _) _ _ _);
    [|set_solver..].
  refine (rep_cons true (nodes sample_store) _ 2%positive (mkNode (Some (lit "@n")) TYPE_NUMBER (VNumber 7) (Some 1%positive) None None)
            (FNum 7) _ _ _ _ eq_refl eq_refl eq_refl (fun _ => eq_refl) (rep_nil _ _ _) (rep_nil _ _ _) _ _ _);
    set_solver.
Qed.

(** ** Properties *)

(** [Node_bstr] on a tree held in the store returns its canonical text: for every node
    the older siblings first, a group's children between its bracket and its name, numbers
    in decimal, blobs with their length, and nothing else of the store is read. *)
Theorem bstr_prints lk st par l f F :
  rep lk (nodes st) par (Some l) f F -> vals_ok f ->
  Node_bstr st (Some l) true = Ok (print_forest Byte.x20 f ++ [Byte.x0a]).
Proof. apply Node_bstr_spec. Qed.

Lemma bstr_prints_witness :
  Node_bstr sample_store (Some 1%positive) true = Ok (lit "[ 7 @n doc " ++ [Byte.x0a]).
Proof. apply (bstr_prints _ _ _ _ _ _ sample_rep). cbn. repeat split; lia. Defined.

(** C19: [Node_destroy] frees exactly the nodes of the tree: it terminates, touches no freed
    node, visits every node of a tree whose child/sibling height is below
    [MAX_TREE_DEEP], and leaves every other node of the store unchanged. *)
Theorem destroy_frees lk st par p f F :
  rep lk (nodes st) par p f F -> (height f < 128)%nat ->
  Node_destroy st p = Ok (set_nodes (drop_nodes F (nodes st)) st) /\
  (forall l, (set_nodes (drop_nodes F (nodes st)) st).(nodes) !! l
             = if decide (l ∈ F) then None else nodes st !! l).
Proof.
  intros H Hh. split; [by eapply Node_destroy_rep | intros l; apply lookup_drop_nodes].
Qed.

Lemma destroy_frees_witness :
  Node_destroy sample_store (Some 1%positive) = Ok (Store ∅ 3%positive 0).
Proof.
  rewrite (proj1 (destroy_frees _ _ _ _ _ _ sample_rep ltac:(cbn; lia))).
  vm_compute. reflexivity.
Defined.

(** the traversal's path array holds 127 entries: destroying a list of 128 siblings (a
    group with 128 children is one) aborts instead of freeing. *)
Theorem destroy_wide_aborts lk st par p f F :
  rep lk (nodes st) par p f F -> (128 <= flen f)%nat -> Node_destroy st p = Fault AssertFail.
Proof. apply Node_destroy_wide. Qed.

(** a list of [k] numbers at the addresses [k], ..., 1 *)
Definition wide_head (k : nat) : option loc :=
  match k with O => None | S k' => Some (Pos.of_succ_nat k') end.

Fixpoint wide_nodes (k : nat) : gmap loc Node :=
  match k with
  | O => ∅
  | S k' => <[Pos.of_succ_nat k' := mkNode None TYPE_NUMBER (VNumber 0) None (wide_head k') None]>
              (wide_nodes k')
  end.

Fixpoint wide_forest (k : nat) : forest :=
  match k with O => FNil | S k' => FCons None (FNum 0) FNil (wide_forest k') end.

Fixpoint wide_set (k : nat) : gset loc :=
  match k with O => ∅ | S k' => {[Pos.of_succ_nat k']} ∪ ∅ ∪ wide_set k' end.

Lemma wide_set_lt k l : l ∈ wide_set k -> (l < Pos.of_succ_nat k)%positive.
Proof.
  induction k as [|k IH]; cbn [wide_set]; [set_solver|].
  rewrite !elem_of_union, elem_of_singleton. intros [[->|Hl]|Hl]; [lia|set_solver|].
  specialize (IH Hl). lia.
Qed.

Lemma wide_rep k : rep false (wide_nodes k) None (wide_head k) (wide_forest k) (wide_set k).
Proof.
  induction k as [|k IH]; [constructor|]. cbn [wide_nodes wide_forest wide_set].
  change (wide_head (S k)) with (Some (Pos.of_succ_nat k)).
  change (@None bytes) with (name (mkNode None TYPE_NUMBER (VNumber 0) None (wide_head k) None)) at 2.
  assert (Hlt : forall l, l ∈ wide_set k -> l <> Pos.of_succ_nat k)
    by (intros l Hl%wide_set_lt; lia).
  eapply rep_cons; [apply lookup_insert_eq | done | done | done | constructor | | set_solver | set_solver | set_solver].
  eapply rep_frame; [exact IH|]. intros l Hl. rewrite lookup_insert_ne; [done|]. by apply not_eq_sym, Hlt.
Qed.

Lemma destroy_wide_aborts_witness :
  Node_destroy (Store (wide_nodes 128) 129%positive 0) (Some 128%positive) = Fault AssertFail.
Proof.
  apply (destroy_wide_aborts false (Store (wide_nodes 128) 129%positive 0) None _ _ _ (wide_rep 128)).
  vm_compute. lia.
Defined.

End NodeRep.
