(* ===== verification/NodeOpen.v ===== *)
(** * NodeOpen: adding nodes to a group that is being built

    [opened] describes a group whose children so far are known, in a store where every
    address from [next] on is free; the parser and [Node_cons] both keep it.  Creating,
    naming and closing nodes change it as the code does. *)

From Stdlib Require Import ZArith Lia Floats.SpecFloat.
From S2P Require Import Prelude Cstdlib Node NodeRep.
Import Cstdlib Node NodeRep.
Local Open Scope Z_scope.

Module NodeOpen.

(** ** Adding to an open group *)

Definition fresh (st : store) : Prop := forall l, (next st <= l)%positive -> nodes st !! l = None.

Record opened (st : store) (c : loc) (n : Node) (f : forest) (F : gset loc) : Prop := Opened {
  op_errno : errno st = 0;
  op_fresh : fresh st;
  op_node : nodes st !! c = Some n;
  op_group : type n = TYPE_GROUP;
  op_rep : rep true (nodes st) (Some c) (child n) f F;
  op_notin : c ∉ F
}.

(** nothing that existed changed, [c] apart *)
Definition keeps (c : loc) (st st' : store) : Prop :=
  (next st <= next st')%positive /\
  forall l, (l < next st)%positive -> l <> c -> nodes st' !! l = nodes st !! l.

Lemma keeps_refl c st : keeps c st st.
Proof. by split; [lia|]. Qed.

Lemma keeps_trans c s1 s2 s3 : keeps c s1 s2 -> keeps c s2 s3 -> keeps c s1 s3.
Proof.
  intros [H1 E1] [H2 E2]. split; [lia|]. intros l Hl Hc. rewrite E2, E1; [done..|lia|done].
Qed.

Lemma fresh_lt st l n : fresh st -> nodes st !! l = Some n -> (l < next st)%positive.
Proof.
  intros Hf Hl. destruct (Pos.ltb_spec l (next st)); [done|]. rewrite Hf in Hl; done.
Qed.

Lemma rep_lt lk st par p f F l :
  fresh st -> rep lk (nodes st) par p f F -> l ∈ F -> (l < next st)%positive.
Proof.
  intros Hf H Hl. apply (rep_dom _ _ _ _ _ _ H), elem_of_dom in Hl as [n Hn].
  eapply fresh_lt; eauto.
Qed.

(** what creating a node under [c] does to the store *)
Definition add_node (st : store) (c : loc) (n : Node) (ty : NodeType) (v : NodeValue) : store :=
  Store (<[c := set_child (Some (next st)) n]>
           (<[next st := mkNode None ty v (Some c) (child n) None]> (nodes st)))
        (Pos.succ (next st)) (errno st).

Lemma Node_create_spec st c n ty :
  nodes st !! c = Some n -> fresh st ->
  Node_create st (Some c) ty = Ok (next st, add_node st c n ty VZero).
Proof.
  intros Hc Hf. pose proof (fresh_lt _ _ _ Hf Hc).
  unfold Node_create, list_add_child.
  erewrite update_Some by (cbn; apply lookup_insert_eq). rewrite bind_ret; cbn [nodes set_nodes].
  erewrite load_Some by (cbn; rewrite !lookup_insert_ne by lia; done). rewrite bind_ret.
  erewrite update_Some by (cbn; apply lookup_insert_eq). rewrite bind_ret; cbn [nodes set_nodes].
  erewrite update_Some by (cbn; rewrite !lookup_insert_ne by lia; done). rewrite bind_ret.
  unfold set_nodes, add_node; cbn. by rewrite !insert_insert_eq.
Qed.

Lemma new_node_spec st c n ty v :
  nodes st !! c = Some n -> fresh st ->
  new_node st (Some c) ty v = Ok (next st, add_node st c n ty v).
Proof.
  intros Hc Hf. pose proof (fresh_lt _ _ _ Hf Hc).
  unfold new_node. rewrite (Node_create_spec _ _ _ _ Hc Hf), bind_ret.
  erewrite update_Some by (cbn; rewrite lookup_insert_ne by lia; apply lookup_insert_eq).
  rewrite bind_ret. unfold set_nodes, add_node; cbn.
  rewrite insert_insert_ne by lia. by rewrite insert_insert_eq.
Qed.

Lemma add_node_fresh st c n ty v : fresh st -> nodes st !! c = Some n -> fresh (add_node st c n ty v).
Proof.
  intros Hf Hc l Hl; cbn in *. pose proof (fresh_lt _ _ _ Hf Hc).
  rewrite !lookup_insert_ne by lia. apply Hf; lia.
Qed.

Lemma add_node_keeps st c n ty v : keeps c st (add_node st c n ty v).
Proof.
  split; cbn; [lia|]. intros l Hl Hc. rewrite !lookup_insert_ne by lia. done.
Qed.

Lemma add_node_new st c n ty v :
  fresh st -> nodes st !! c = Some n ->
  nodes (add_node st c n ty v) !! next st = Some (mkNode None ty v (Some c) (child n) None).
Proof.
  intros Hf Hc. pose proof (fresh_lt _ _ _ Hf Hc). cbn.
  by rewrite lookup_insert_ne, lookup_insert_eq by lia.
Qed.

(** the older children are where they were *)
Lemma add_node_rep st c n ty v f F :
  opened st c n f F -> rep true (nodes (add_node st c n ty v)) (Some c) (child n) f F.
Proof.
  intros [_ Hf Hc _ Hr Hn]. eapply rep_frame; [done|]. intros l Hl.
  pose proof (rep_lt _ _ _ _ _ _ _ Hf Hr Hl). cbn.
  assert (l <> c) by set_solver. by rewrite !lookup_insert_ne by lia.
Qed.

Lemma opened_leaf st c n f F v :
  opened st c n f F ->
  opened (add_node st c n (type_of v) (value_of v)) c (set_child (Some (next st)) n)
    (FCons None v FNil f) ({[next st]} ∪ ∅ ∪ F).
Proof.
  intros Ho. pose proof Ho as [He Hf Hc Hg Hr Hn].
  pose proof (fresh_lt _ _ _ Hf Hc).
  assert (next st ∉ F) by (intros Hin; pose proof (rep_lt _ _ _ _ _ _ _ Hf Hr Hin); lia).
  constructor; try done.
  - by apply add_node_fresh.
  - cbn. by rewrite lookup_insert_eq.
  - cbn [child set_child].
    change (@None bytes) with (name (mkNode None (type_of v) (value_of v) (Some c) (child n) None)).
    eapply rep_cons; [by apply add_node_new| done..| | | set_solver | done | set_solver].
    + constructor.
    + by apply add_node_rep.
  - assert (c <> next st) by lia. set_solver.
Qed.

(** a new root *)
Definition add_root (st : store) : store :=
  Store (<[next st := mkNode None TYPE_GROUP VZero None None None]> (nodes st))
        (Pos.succ (next st)) (errno st).

Lemma add_root_opened st :
  errno st = 0 -> fresh st ->
  opened (add_root st) (next st) (mkNode None TYPE_GROUP VZero None None None) FNil ∅.
Proof.
  intros He Hf. constructor; [done | | | done | constructor | set_solver].
  - intros l Hl; cbn in *. rewrite lookup_insert_ne by lia. apply Hf; lia.
  - cbn. by rewrite lookup_insert_eq.
Qed.

(** the new set holds only older members and new addresses *)
Definition newer (st : store) (F F' : gset loc) : Prop :=
  forall l, l ∈ F' -> l ∈ F \/ (next st <= l)%positive.

(** naming a node *)
Definition rename (st : store) (l : loc) (nl : Node) (nm : option bytes) : store :=
  set_nodes (<[l := set_name nm nl]> (nodes st)) st.

Lemma rename_fresh st l nl nm : fresh st -> nodes st !! l = Some nl -> fresh (rename st l nl nm).
Proof.
  intros Hf Hl k Hk; cbn in *. pose proof (fresh_lt _ _ _ Hf Hl).
  rewrite lookup_insert_ne by lia. by apply Hf.
Qed.

(** The newest child takes an attribute name. *)
Lemma opened_attr st c n nm v kids f F a :
  opened st c n (FCons nm v kids f) F ->
  exists l nl, child n = Some l /\ nodes st !! l = Some nl /\ l ∈ F /\
    opened (rename st l nl a) c n (FCons a v kids f) F.
Proof.
  intros [He Hf Hc Hg Hr Hn]. inversion Hr as [|? l nl ? ? ? Fk Fr Hl Ht Hv Hp Hk Hrest]; subst.
  exists l, nl. split_and!; [done..|set_solver|]. constructor; try done.
  - by apply rename_fresh.
  - cbn. by rewrite lookup_insert_ne by set_solver.
  - change a with (name (set_name a nl)) at 2. unfold rename; cbn [nodes set_nodes].
    match goal with H : Some l = child n |- _ => rewrite <- H end.
    eapply rep_cons; [apply lookup_insert_eq | done.. | | | done | done | done].
    + eapply rep_frame; [done|]. intros k Hin. by rewrite lookup_insert_ne by set_solver.
    + eapply rep_frame; [done|]. intros k Hin. by rewrite lookup_insert_ne by set_solver.
Qed.

(** A group opened under [c], filled, and named: it is the newest child of [c]. *)
Lemma opened_close st c n f F s2 p' kids Fk a :
  let m := next st in
  let s1 := add_node st c n TYPE_GROUP VZero in
  let gm := set_child p' (mkNode None TYPE_GROUP VZero (Some c) (child n) None) in
  opened st c n f F -> opened s2 m gm kids Fk -> keeps m s1 s2 -> newer s1 ∅ Fk ->
  opened (rename s2 m gm a) c (set_child (Some m) n) (FCons a FGrp kids f) ({[m]} ∪ Fk ∪ F) /\
  keeps c st (rename s2 m gm a).
Proof.
  intros m s1 gm Ho [He2 Hf2 Hm2 _ Hr2 Hn2] [Hnx Hk] Hnew.
  pose proof Ho as [He Hf Hc Hg Hr Hn]. cbn in Hnx.
  pose proof (fresh_lt _ _ _ Hf Hc) as Hcm.
  assert (HF : forall l, l ∈ F -> (l < m)%positive) by (intros l Hl; eapply rep_lt; eauto).
  assert (HFk : forall l, l ∈ Fk -> (m < l)%positive).
  { intros l Hl. destruct (Hnew l Hl) as [|H]; [set_solver|]. cbn in H. lia. }
  assert (HnF : m ∉ F) by (intros H%HF; lia).
  assert (HnFk : m ∉ Fk) by (intros H%HFk; lia).
  split.
  - constructor; try done.
    + by apply rename_fresh.
    + cbn. rewrite lookup_insert_ne, Hk by (cbn; lia). cbn. by rewrite lookup_insert_eq.
    + cbn [child set_child]. change a with (name (set_name a gm)) at 2.
      unfold rename; cbn [nodes set_nodes].
      eapply rep_cons; [apply lookup_insert_eq | done.. | | | done | done |].
      * eapply rep_frame; [done|]. intros k Hin. by rewrite lookup_insert_ne by set_solver.
      * eapply rep_frame; [apply (add_node_rep _ _ _ TYPE_GROUP VZero _ _ Ho)|].
        intros k Hin. pose proof (HF k Hin).
        rewrite lookup_insert_ne by lia. apply Hk; cbn; lia.
      * intros k H1%HFk H2%HF; lia.
    + assert (c ∉ Fk) by (intros H%HFk; lia). assert (c <> m) by lia. set_solver.
  - split; cbn; [lia|]. intros l Hl Hlc. fold m in Hl. rewrite lookup_insert_ne by lia.
    rewrite Hk by (cbn; lia). cbn. by rewrite !lookup_insert_ne by lia.
Qed.

End NodeOpen.
