(* ===== verification/NodeFormatProps.v ===== *)
(** * NodeFormatProps: building and taking apart flat groups by format

    The formats of the protocol code are "[", one letter per value, and "w".  Building one
    with [Node_cons] gives the group, [Node_decons] with the reversed letters gives the
    values back; a wrong letter or a wrong name is refused; a letter too many is not. *)

From Stdlib Require Import ZArith Lia Floats.SpecFloat.
From S2P Require Import Prelude Cstdlib Node NodeFormat NodeRep NodeOpen.
Import Cstdlib Node NodeFormat NodeRep NodeOpen.
Local Open Scope Z_scope.

Module NodeFormatProps.

(** ** The letters and arguments of a list of values *)

Definition code (v : fval) : byte :=
  match v with
  | FNum _ => Byte.x6e
  | FStr _ => Byte.x73
  | FBlob _ => Byte.x62
  | FFlt _ => Byte.x66
  | FGrp => Byte.x5b
  end.

Definition cons_arg_of (v : fval) : cons_arg :=
  match v with
  | FNum n => CANum n
  | FStr s | FBlob s => CABstr (Some s)
  | FFlt f => CAFloat f
  | FGrp => CANode None
  end.

Definition out_of (v : fval) : decons_val :=
  match v with
  | FNum n => DVNum n
  | FStr s | FBlob s => DVStr None (Some s)
  | FFlt f => DVFloat f
  | FGrp => DVPun
  end.

(** a value, not a group, that fits its C type *)
Definition leaf (v : fval) : Prop :=
  match v with FNum n => 0 <= n < 2 ^ 64 | FGrp => False | _ => True end.

(** the child list that holds [vs], newest first *)
Fixpoint flat (vs : list fval) : forest :=
  match vs with [] => FNil | v :: vs' => FCons None v FNil (flat vs') end.

(** ** Construction *)

Lemma cons_loop_leaf v fmt args rt st c n f F :
  leaf v -> opened st c n f F ->
  cons_loop (code v :: fmt) (cons_arg_of v :: args) rt (Some c) st
  = cons_loop fmt args rt (Some c) (add_node st c n (type_of v) (value_of v)).
Proof.
  intros Hv [He Hf Hn _ _ _].
  assert (Hck : forall st b, errno st = 0 -> b = true -> check st b = (true, st)).
  { intros s b Hs ->. unfold check. by rewrite Hs. }
  destruct v as [x|s|s|x|]; cbn [cons_loop code cons_arg_of]; try done;
    unfold Node_new_number, Node_new_string, Node_new_blob, Node_new_float;
    try (rewrite Hck by done; cbv iota); rewrite (new_node_spec _ _ _ _ _ Hn Hf), ?bind_ret.
  - cbn in Hv. by rewrite u64_small.
  - by rewrite Hck by done.
  - done.
  - done.
Qed.

(** what a format can describe: values, and named groups of such *)
Inductive items :=
  | INil
  | ILeaf (v : fval) (rest : items)
  | IGroup (nm : bytes) (kids rest : items).

Fixpoint item_fmt (i : items) : bytes :=
  match i with
  | INil => []
  | ILeaf v r => code v :: item_fmt r
  | IGroup _ k r => Byte.x5b :: item_fmt k ++ Byte.x77 :: item_fmt r
  end.

Fixpoint item_args (i : items) : list cons_arg :=
  match i with
  | INil => []
  | ILeaf v r => cons_arg_of v :: item_args r
  | IGroup nm k r => item_args k ++ CACstr (Some nm) :: item_args r
  end.

(** the children that are there afterwards, newest first *)
Fixpoint build (i : items) (f : forest) : forest :=
  match i with
  | INil => f
  | ILeaf v r => build r (FCons None v FNil f)
  | IGroup nm k r => build r (FCons (Some nm) FGrp (build k FNil) f)
  end.

Fixpoint items_ok (i : items) : Prop :=
  match i with
  | INil => True
  | ILeaf v r => leaf v /\ items_ok r
  | IGroup nm k r => (Byte.x00 ∉ nm) /\ items_ok k /\ items_ok r
  end.

Lemma newer_trans s1 s2 F1 F2 F3 : (next s1 <= next s2)%positive -> newer s1 F1 F2 -> newer s2 F2 F3 -> newer s1 F1 F3.
Proof. intros Hn H12 H23 l Hl. destruct (H23 l Hl) as [H|H]; [by apply H12|]. right; lia. Qed.

Lemma cons_loop_open fmt args rt cur st :
  cons_loop (Byte.x5b :: fmt) args rt cur st
  = ('(l, st) ← Node_new_group st cur; cons_loop fmt args (if bool_decide (rt = None) then Some l else rt) (Some l) st).
Proof. done. Qed.

(** the end of a group: it gets its name *)
Lemma cons_loop_word nm fmt args rt st m gm p :
  Byte.x00 ∉ nm -> errno st = 0 -> nodes st !! m = Some gm -> parent gm = p ->
  cons_loop (Byte.x77 :: fmt) (CACstr (Some nm) :: args) rt (Some m) st = cons_loop fmt args rt p (rename st m gm (Some nm)).
Proof.
  intros Hw He Hm <-. cbn [cons_loop]. unfold check. rewrite He, bool_decide_eq_true_2 by done. cbn [andb Z.eqb]. cbv iota.
  unfold Node_name. rewrite !assert_true, !bind_ret by done. rewrite (update_Some _ _ _ _ Hm), bind_ret. cbn [mbind option_bind].
  erewrite load_Some by (cbn; apply lookup_insert_eq). rewrite bind_ret. cbn [parent set_name]. unfold rename, bfromcstr. by rewrite cstr_id.
Qed.

Lemma cons_loop_items i : items_ok i -> forall fmt args rt st c n f F,
  opened st c n f F ->
  exists st' ch F',
    cons_loop (item_fmt i ++ fmt) (item_args i ++ args) (Some rt) (Some c) st = cons_loop fmt args (Some rt) (Some c) st' /\
    opened st' c (set_child ch n) (build i f) F' /\ keeps c st st' /\ newer st F F'.
Proof.
  induction i as [|v r IH|nm k IHk r IHr]; intros Hok fmt args rt st c n f F Ho.
  - exists st, (child n), F. replace (set_child (child n) n) with n by (by destruct n).
    split_and!; [done|done|apply keeps_refl|]. intros l; auto.
  - destruct Hok as [Hv Hok]. cbn [item_fmt item_args app build]. rewrite (cons_loop_leaf v _ _ _ _ _ _ _ _ Hv Ho).
    destruct (IH Hok fmt args rt _ _ _ _ _ (opened_leaf _ _ _ _ _ v Ho)) as (st' & ch & F' & E & Ho' & Hk & Hn).
    exists st', ch, F'. split_and!; [done|done|eapply keeps_trans; [apply add_node_keeps|exact Hk]|].
    eapply newer_trans; [|clear|exact Hn]; [cbn; lia|]. intros l. rewrite !elem_of_union, elem_of_singleton. intros [[->|?]|?]; [right; lia|set_solver|by left].
  - destruct Hok as (Hw & Hok & Hor). cbn [item_fmt item_args build]. rewrite <- !app_assoc. cbn [app].
    pose proof Ho as [He Hf Hc _ _ _]. pose proof (fresh_lt _ _ _ Hf Hc). set (m := next st). set (s1 := add_node st c n TYPE_GROUP VZero).
    assert (Ho1 : opened s1 m (mkNode None TYPE_GROUP VZero (Some c) (child n) None) FNil ∅).
    { split; [done|by apply add_node_fresh|by apply add_node_new|done|constructor|set_solver]. }
    destruct (IHk Hok (Byte.x77 :: item_fmt r ++ fmt) (CACstr (Some nm) :: item_args r ++ args) rt s1 m _ _ _ Ho1) as (s2 & ch & Fk & E2 & Ho2 & Hk2 & Hn2).
    destruct (opened_close st c n f F s2 ch _ Fk (Some nm) Ho Ho2 Hk2 Hn2) as [Ho3 Hk3]. fold m in Ho3, Hk3.
    destruct (IHr Hor fmt args rt _ _ _ _ _ Ho3) as (st' & ch' & F' & E4 & Ho4 & Hk4 & Hn4). exists st', ch', F'. split_and!; [|done|by eapply keeps_trans|].
    + rewrite cons_loop_open. unfold Node_new_group. rewrite (Node_create_spec _ _ _ _ Hc Hf), bind_ret.
      rewrite bool_decide_eq_false_2 by done. fold m s1. rewrite <- app_assoc. cbn [app]. rewrite E2.
      rewrite (cons_loop_word nm _ _ _ s2 m _ (Some c) Hw (op_errno _ _ _ _ _ Ho2) (op_node _ _ _ _ _ Ho2) eq_refl). exact E4.
    + eapply newer_trans; [apply Hk3|clear -Hn2|exact Hn4]. intros l. rewrite !elem_of_union, elem_of_singleton. intros [[->|Hl]|Hl]; [right; lia| |by left].
      destruct (Hn2 l Hl) as [|Hx]; [set_solver|]. cbn in Hx. right. lia.
Qed.

Lemma item_fmt_nul_free i : Byte.x00 ∉ item_fmt i.
Proof.
  induction i as [|v r IH|nm k IHk r IHr]; cbn [item_fmt]; [apply not_elem_of_nil|apply not_elem_of_cons; split; [by destruct v|done]|].
  rewrite not_elem_of_cons, not_elem_of_app, not_elem_of_cons. done.
Qed.

(** [Node_cons] builds what the format says *)
Lemma Node_cons_items st i w :
  items_ok i -> Byte.x00 ∉ w -> errno st = 0 -> fresh st ->
  exists st' F,
    Node_cons st (item_fmt (IGroup w i INil)) (item_args (IGroup w i INil)) = Ok (Some (next st), st') /\
    rep true (nodes st') None (Some (next st)) (FCons (Some w) FGrp (build i FNil) FNil) F /\
    errno st' = 0 /\ fresh st' /\ keeps (next st) st st' /\ newer st ∅ F.
Proof.
  intros Hok Hw He Hf. pose proof (add_root_opened st He Hf) as Ho1.
  destruct (cons_loop_items i Hok [Byte.x77] [CACstr (Some w)] (next st) _ _ _ _ _ Ho1) as (s2 & ch & F & E2 & Ho2 & [Hnx Hk] & Hn).
  pose proof Ho2 as [He2 Hf2 Hn2 _ Hr2 Hnot]. set (g := set_child ch _) in *.
  exists (rename s2 (next st) g (Some w)), ({[next st]} ∪ F ∪ ∅). cbn in Hnx. split_and!.
  - unfold Node_cons. rewrite cstr_id by apply item_fmt_nul_free. cbn [item_fmt item_args].
    rewrite cons_loop_open. unfold Node_new_group, Node_create. rewrite bind_ret, bool_decide_eq_true_2 by done. fold (add_root st). rewrite E2.
    rewrite (cons_loop_word w [] [] _ s2 (next st) g None Hw He2 Hn2 eq_refl). done.
  - change (Some w) with (name (set_name (Some w) g)). unfold rename; cbn [nodes set_nodes].
    eapply rep_cons; [apply lookup_insert_eq | done | done | done | | constructor | done | set_solver | set_solver].
    eapply rep_frame; [exact Hr2|]. intros l Hl. by rewrite lookup_insert_ne by set_solver.
  - done.
  - by apply rename_fresh.
  - split; cbn; [lia|]. intros l Hl Hlc. rewrite lookup_insert_ne by done.
    rewrite Hk by (cbn; lia). cbn. by rewrite lookup_insert_ne by lia.
  - intros l. rewrite !elem_of_union, elem_of_singleton. intros [[->|Hl]|Hl]; [right; lia| |set_solver].
    destruct (Hn l Hl) as [|Hx]; [set_solver|]. cbn in Hx. right; lia.
Qed.

(** a group of values only *)
Fixpoint leaves (vs : list fval) : items := match vs with [] => INil | v :: vs' => ILeaf v (leaves vs') end.

Lemma leaves_eqs vs : item_fmt (leaves vs) = map code vs /\ item_args (leaves vs) = map cons_arg_of vs /\
  (Forall leaf vs -> items_ok (leaves vs)) /\ (forall ws, build (leaves vs) (flat ws) = flat (rev vs ++ ws)).
Proof.
  induction vs as [|v vs (E1 & E2 & E3 & E4)]; [done|]. cbn [leaves item_fmt item_args map items_ok build]. rewrite E1, E2. split_and!; [done|done| |].
  - intros [H1 H2]%Forall_cons_1. auto.
  - intros ws. cbn [rev]. rewrite <- app_assoc. apply (E4 (v :: ws)).
Qed.

Lemma Node_cons_flat st vs w :
  Forall leaf vs -> Byte.x00 ∉ w -> errno st = 0 -> fresh st ->
  exists st' F,
    Node_cons st ((lit "[" ++ map code vs) ++ lit "w")
      (map cons_arg_of vs ++ [CACstr (Some w)]) = Ok (Some (next st), st') /\
    rep true (nodes st') None (Some (next st)) (FCons (Some w) FGrp (flat (rev vs)) FNil) F /\
    errno st' = 0 /\ fresh st' /\ keeps (next st) st st' /\ newer st ∅ F.
Proof.
  intros Hvs Hw He Hf. destruct (leaves_eqs vs) as (E1 & E2 & E3 & E4). destruct (Node_cons_items st (leaves vs) w) as (st' & F & E & Hr & H); [auto..|].
  exists st', F. split; [|split; [|done]].
  - rewrite <- E. cbn [item_fmt item_args]. by rewrite E1, E2.
  - specialize (E4 []). cbn [flat] in E4. rewrite app_nil_r in E4. by rewrite <- E4.
Qed.

(** ** Deconstruction *)

Definition outs_args (vs : list fval) : list decons_arg := map (fun _ => DOut) vs.

Lemma check_clean st b : errno st = 0 -> check st b = (b, st).
Proof.
  intros He. unfold check. rewrite He. destruct b; [done|]. cbn. unfold set_errno.
  rewrite <- He. by destruct st.
Qed.

Lemma set_errno_clean st : errno st = 0 -> set_errno 0 st = st.
Proof. intros He. unfold set_errno. rewrite <- He. by destruct st. Qed.

(** one value under the cursor, read by the letter [c] *)
Lemma decons_leaf st v c fmt args l n outs :
  errno st = 0 -> leaf v -> nodes st !! l = Some n -> type n = type_of v -> value n = value_of v ->
  c = code v ->
  decons_loop st true (c :: fmt) (DOut :: args) (Some l) outs
  = decons_loop st true fmt args (next_sib n (Some l)) (outs ++ [out_of v]).
Proof.
  intros He Hv Hl Ht Hval ->. destruct v as [x|s|s|x|]; try done;
    cbn [decons_loop code out_of]; rewrite (load_Some _ _ _ Hl), bind_ret, check_clean by done;
    cbn [non_null]; rewrite Ht, Hval; cbn [type_of value_of];
    rewrite ?bool_decide_eq_true_2 by done; done.
Qed.

(** the letters of values *)
Definition letter (c : byte) : Prop :=
  c = Byte.x6e \/ c = Byte.x73 \/ c = Byte.x62 \/ c = Byte.x66.

Lemma decons_wrong_leaf st v c fmt args l n outs :
  errno st = 0 -> leaf v -> nodes st !! l = Some n -> type n = type_of v -> value n = value_of v ->
  letter c -> c <> code v ->
  exists outs', decons_loop st true (c :: fmt) (DOut :: args) (Some l) outs = Ok (None, outs', st).
Proof.
  intros He Hv Hl Ht Hval Hc Hne.
  destruct Hc as [->|[->|[->| ->]]]; cbn [decons_loop];
    rewrite (load_Some _ _ _ Hl), bind_ret, check_clean by done; cbn [non_null];
    rewrite Ht, Hval; destruct v; try done; cbn [type_of value_of];
    rewrite ?bool_decide_eq_false_2 by done; rewrite ?set_errno_clean by done; eauto.
Qed.

(** the whole list: the cursor ends on its last node *)
Lemma decons_leaves st vs c0 fmt args par p F outs :
  errno st = 0 -> Forall leaf (c0 :: vs) ->
  rep true (nodes st) par p (flat (c0 :: vs)) F ->
  exists l n, nodes st !! l = Some n /\ parent n = par /\ sibling n = None /\
    type n = type_of (List.last (c0 :: vs) FGrp) /\ value n = value_of (List.last (c0 :: vs) FGrp) /\
    decons_loop st true (map code (c0 :: vs) ++ fmt) (outs_args (c0 :: vs) ++ args) p outs
    = decons_loop st true fmt args (Some l) (outs ++ map out_of (c0 :: vs)).
Proof.
  intros He Hvs Hr. revert c0 Hvs p F outs Hr.
  induction vs as [|v vs IH]; intros c0 Hvs p F outs Hr; apply Forall_cons_1 in Hvs as [H0 Hvs];
    inversion Hr as [|? l n ? ? ? ? ? Hl Ht Hval Hpar _ Hsib]; subst;
    repeat match goal with H : name n = None |- _ => rewrite H in *; clear H end.
  - destruct (sibling n) as [s|] eqn:Es; [by inversion Hsib|].
    exists l, n. split_and!; [done|by apply Hpar|done|done|done|].
    cbn [map app outs_args]. rewrite (decons_leaf st c0 _ _ _ _ _ _ He H0 Hl Ht Hval eq_refl).
    unfold next_sib. by rewrite Es.
  - destruct (IH v Hvs _ _ (outs ++ [out_of c0]) Hsib) as (l' & n' & Hx1 & Hx2 & Hx3 & Hx4 & Hx5 & E).
    exists l', n'. split_and!; [done..|].
    change (map code (c0 :: v :: vs) ++ fmt) with (code c0 :: map code (v :: vs) ++ fmt).
    change (outs_args (c0 :: v :: vs) ++ args) with (DOut :: outs_args (v :: vs) ++ args).
    rewrite (decons_leaf st c0 _ _ _ _ _ _ He H0 Hl Ht Hval eq_refl).
    assert (next_sib n (Some l) = sibling n) as ->.
    { unfold next_sib. inversion Hsib; done. }
    rewrite E. cbn [map]. by rewrite <- app_assoc.
Qed.

(** "[", the letters, then [tail] with the cursor on the last value *)
Lemma decons_enter st l w c0 vs F args tail :
  errno st = 0 -> Forall leaf (c0 :: vs) ->
  rep true (nodes st) None (Some l) (FCons (Some w) FGrp (flat (c0 :: vs)) FNil) F ->
  exists n ll nl, nodes st !! l = Some n /\ name n = Some w /\ parent n = None /\ sibling n = None /\
    nodes st !! ll = Some nl /\ parent nl = Some l /\ sibling nl = None /\
    type nl = type_of (List.last (c0 :: vs) FGrp) /\ value nl = value_of (List.last (c0 :: vs) FGrp) /\
    decons_loop st true (Byte.x5b :: map code (c0 :: vs) ++ tail) (outs_args (c0 :: vs) ++ args) (Some l) []
    = decons_loop st true tail args (Some ll) (map out_of (c0 :: vs)).
Proof.
  intros He Hvs Hr. inversion Hr as [|? ? n ? ? ? ? ? Hl Ht Hval Hpar Hk Hsib]; subst.
  destruct (decons_leaves st vs c0 tail args (Some l) (child n) _ [] He Hvs Hk)
    as (ll & nl & Hx1 & Hx2 & Hx3 & Hx4 & Hx5 & E).
  exists n, ll, nl. split_and!; [done|done|by apply Hpar| |done..|].
  - by inversion Hsib.
  - cbn [decons_loop]. rewrite (load_Some _ _ _ Hl), bind_ret. exact E.
Qed.

Lemma codes_nul_free vs : Byte.x00 ∉ map code vs.
Proof.
  induction vs as [|v vs IH]; cbn; [set_solver|]. apply not_elem_of_cons; split; [by destruct v|done].
Qed.

Lemma cstr_format a vs c : Byte.x00 ∉ a -> Byte.x00 ∉ c ->
  cstr (a ++ map code vs ++ c) = a ++ map code vs ++ c.
Proof.
  intros Ha Hc. apply cstr_id. rewrite !not_elem_of_app. auto using codes_nul_free.
Qed.

Lemma Node_decons_flat st l w w' v vs F :
  errno st = 0 -> Forall leaf (v :: vs) ->
  rep true (nodes st) None (Some l) (FCons (Some w) FGrp (flat (v :: vs)) FNil) F ->
  Node_decons st (Some l) true (lit "[" ++ map code (v :: vs) ++ lit "w")
    (outs_args (v :: vs) ++ [DName (Some w')])
  = Ok (bool_decide (w = cstr w'), map out_of (v :: vs), st).
Proof.
  intros He Hvs Hr. unfold Node_decons. rewrite assert_true, bind_ret by done.
  rewrite cstr_format by (cbn; set_solver).
  change (lit "[" ++ map code (v :: vs) ++ lit "w") with (Byte.x5b :: map code (v :: vs) ++ [Byte.x77]).
  destruct (decons_enter st l w v vs F [DName (Some w')] [Byte.x77] He Hvs Hr)
    as (n & ll & nl & Hl & Hnm & Hp & Hs & Hll & Hpl & _ & _ & _ & ->).
  cbn [decons_loop]. rewrite (load_Some _ _ _ Hll), bind_ret, Hpl.
  rewrite check_clean by done. rewrite bool_decide_eq_true_2 by done.
  rewrite (load_Some _ _ _ Hl), bind_ret, check_clean, Hnm by done. cbn [name_is].
  case_bool_decide; [|done]. rewrite bind_ret, check_clean by done. done.
Qed.

(** C16: what [Node_cons] packs into a group, [Node_decons] gets back: with the letters in
    reverse order every value comes out, for any non-empty list of values that fit their
    types, and the call succeeds exactly when the name asked for is the group's. *)
Theorem cons_decons st vs w w' :
  Forall leaf vs -> vs <> [] -> Byte.x00 ∉ w -> errno st = 0 -> fresh st ->
  exists l st',
    Node_cons st ((lit "[" ++ map code vs) ++ lit "w")
      (map cons_arg_of vs ++ [CACstr (Some w)]) = Ok (Some l, st') /\
    Node_decons st' (Some l) true (lit "[" ++ map code (rev vs) ++ lit "w")
      (outs_args (rev vs) ++ [DName (Some w')])
    = Ok (bool_decide (w = cstr w'), map out_of (rev vs), st').
Proof.
  intros Hvs Hne Hw He Hf.
  destruct (Node_cons_flat st vs w Hvs Hw He Hf) as (st' & F & E & Hr & He' & _).
  exists (next st), st'. split; [exact E|].
  assert (Hrev : Forall leaf (rev vs)) by (by apply Forall_rev).
  destruct (rev vs) as [|v vs'] eqn:Er.
  - apply (f_equal (@rev _)) in Er. rewrite rev_involutive in Er. done.
  - by apply (Node_decons_flat st' (next st) w w' v vs' F).
Qed.

Lemma cons_decons_witness :
  exists l st',
    Node_cons empty_store (lit "[nsbw") [CANum 7; CABstr (Some (lit "a")); CABstr (Some [Byte.x00]);
                                         CACstr (Some (lit "msg"))] = Ok (Some l, st') /\
    Node_decons st' (Some l) true (lit "[bsnw") [DOut; DOut; DOut; DName (Some (lit "msg"))]
    = Ok (true, [DVStr None (Some [Byte.x00]); DVStr None (Some (lit "a")); DVNum 7], st').
Proof.
  apply (cons_decons empty_store [FNum 7; FStr (lit "a"); FBlob [Byte.x00]] (lit "msg") (lit "msg")).
  - repeat constructor; lia.
  - done.
  - apply (bool_decide_unpack _). vm_compute. exact I.
  - reflexivity.
  - intros l _. apply lookup_empty.
Defined.

(** the cursor after the values [vs1] is on the next one *)
Lemma decons_prefix st vs1 v vs2 fmt args par p F outs :
  errno st = 0 -> Forall leaf vs1 ->
  rep true (nodes st) par p (flat (vs1 ++ v :: vs2)) F ->
  exists l n, nodes st !! l = Some n /\ type n = type_of v /\ value n = value_of v /\
    decons_loop st true (map code vs1 ++ fmt) (outs_args vs1 ++ args) p outs
    = decons_loop st true fmt args (Some l) (outs ++ map out_of vs1).
Proof.
  intros He Hvs Hr. revert p F outs Hr.
  induction Hvs as [|v1 vs1 H1 _ IH]; intros p F outs Hr;
    inversion Hr as [|? l n ? ? ? ? ? Hl Ht Hval Hpar _ Hsib]; subst;
    repeat match goal with H : name n = None |- _ => rewrite H in *; clear H end.
  - exists l, n. rewrite app_nil_r. auto.
  - destruct (IH _ _ (outs ++ [out_of v1]) Hsib) as (l' & n' & Hl' & Ht' & Hv' & E).
    exists l', n'. split_and!; [done..|]. cbn [map app outs_args].
    rewrite (decons_leaf st v1 _ _ _ _ _ _ He H1 Hl Ht Hval eq_refl).
    assert (next_sib n (Some l) = sibling n) as ->.
    { unfold next_sib. destruct vs1; inversion Hsib; done. }
    fold (outs_args vs1). rewrite E. by rewrite <- app_assoc.
Qed.

(** [Node_decons] refuses a group that does not have the requested shape: at the first
    value whose type is not the one its letter asks for the call fails, for every
    rest of the format, and the store is left as it was. *)
Theorem decons_wrong_type st l nm vs1 v vs2 c rest args F :
  errno st = 0 -> Forall leaf (vs1 ++ [v]) -> letter c -> c <> code v -> Byte.x00 ∉ rest ->
  rep true (nodes st) None (Some l) (FCons nm FGrp (flat (vs1 ++ v :: vs2)) FNil) F ->
  exists outs,
    Node_decons st (Some l) true (lit "[" ++ map code vs1 ++ c :: rest)
      (outs_args vs1 ++ DOut :: args) = Ok (false, outs, st).
Proof.
  intros He Hvs Hc Hne Hrest Hr. apply Forall_app in Hvs as [Hvs [Hv _]%Forall_cons_1].
  unfold Node_decons. rewrite assert_true, bind_ret by done.
  rewrite cstr_format; [|cbn; set_solver|].
  2:{ apply not_elem_of_cons; split; [|done]. by destruct Hc as [->|[->|[->| ->]]]. }
  change (lit "[" ++ map code vs1 ++ c :: rest) with (Byte.x5b :: map code vs1 ++ c :: rest).
  inversion Hr as [|? ? n ? ? ? ? ? Hl Ht Hval Hpar Hk Hsib]; subst.
  cbn [decons_loop]. rewrite (load_Some _ _ _ Hl), bind_ret.
  destruct (decons_prefix st vs1 v vs2 (c :: rest) (DOut :: args) _ _ _ [] He Hvs Hk)
    as (l' & n' & Hl' & Ht' & Hv' & ->).
  destruct (decons_wrong_leaf st v c rest args l' n' ([] ++ map out_of vs1) He Hv Hl' Ht' Hv' Hc Hne)
    as (outs & ->).
  exists outs. by rewrite bind_ret.
Qed.

(** [Node_decons] does not see the end of a group: [NEXT()] stays on the last child, so a
    format with one letter more than there are children reads the last child again and
    the call succeeds. *)
Theorem decons_reads_last_twice st l w v vs F :
  errno st = 0 -> Forall leaf (v :: vs) -> Byte.x00 ∉ w ->
  rep true (nodes st) None (Some l) (FCons (Some w) FGrp (flat (v :: vs)) FNil) F ->
  let vl := List.last (v :: vs) FGrp in
  Node_decons st (Some l) true (lit "[" ++ map code (v :: vs) ++ [code vl; Byte.x77])
    (outs_args (v :: vs) ++ [DOut; DName (Some w)])
  = Ok (true, map out_of (v :: vs) ++ [out_of vl], st).
Proof.
  intros He Hvs Hw Hr vl.
  assert (Hvl : leaf vl).
  { subst vl. clear -Hvs. revert v Hvs. induction vs as [|x vs IH]; intros v Hvs.
    - by apply Forall_cons_1 in Hvs as [? _].
    - apply Forall_cons_1 in Hvs as [_ Hvs]. by apply (IH x). }
  unfold Node_decons. rewrite assert_true, bind_ret by done.
  rewrite cstr_format; [|cbn; set_solver|by destruct vl; set_solver].
  change (lit "[" ++ map code (v :: vs) ++ [code vl; Byte.x77])
    with (Byte.x5b :: map code (v :: vs) ++ [code vl; Byte.x77]).
  destruct (decons_enter st l w v vs F [DOut; DName (Some w)] [code vl; Byte.x77] He Hvs Hr)
    as (n & ll & nl & Hl & Hnm & Hp & Hs & Hll & Hpl & Hsl & Htl & Hvv & ->).
  rewrite (decons_leaf st vl _ _ _ ll nl _ He Hvl Hll Htl Hvv eq_refl).
  unfold next_sib. rewrite Hsl. cbn [decons_loop]. rewrite (load_Some _ _ _ Hll), bind_ret, Hpl.
  rewrite check_clean by done. rewrite bool_decide_eq_true_2 by done.
  rewrite (load_Some _ _ _ Hl), bind_ret, check_clean, Hnm by done. cbn [name_is].
  rewrite cstr_id, bool_decide_eq_true_2 by done. rewrite bind_ret, check_clean by done. done.
Qed.

(** a group with the single number 7 *)
Definition seven_store : store :=
  Store {[1%positive := mkNode (Some (lit "doc")) TYPE_GROUP VZero None None (Some 2%positive);
          2%positive := mkNode None TYPE_NUMBER (VNumber 7) (Some 1%positive) None None]} 3%positive 0.

Lemma seven_rep :
  rep true (nodes seven_store) None (Some 1%positive)
    (FCons (Some (lit "doc")) FGrp (flat [FNum 7]) FNil)
    ({[1%positive]} ∪ ({[2%positive]} ∪ ∅ ∪ ∅) ∪ ∅).
Proof.
  refine (rep_cons true (nodes seven_store) _ 1%positive
            (mkNode (Some (lit "doc")) TYPE_GROUP VZero None None (Some 2%positive))
            FGrp _ _ _ _ eq_refl eq_refl eq_refl (fun _ => eq_refl) _ (rep_nil _ _ _) _ _ _);
    [|set_solver..].
  refine (rep_cons true (nodes seven_store) _ 2%positive
            (mkNode None TYPE_NUMBER (VNumber 7) (Some 1%positive) None None)
            (FNum 7) _ _ _ _ eq_refl eq_refl eq_refl (fun _ => eq_refl) (rep_nil _ _ _) (rep_nil _ _ _) _ _ _);
    set_solver.
Qed.

Lemma decons_wrong_type_witness :
  exists outs, Node_decons seven_store (Some 1%positive) true (lit "[sw") [DOut; DName (Some (lit "doc"))]
               = Ok (false, outs, seven_store).
Proof.
  apply (decons_wrong_type seven_store 1%positive (Some (lit "doc")) [] (FNum 7) [] Byte.x73 (lit "w")
           [DName (Some (lit "doc"))] ({[1%positive]} ∪ ({[2%positive]} ∪ ∅ ∪ ∅) ∪ ∅));
    [done | repeat constructor; lia | unfold letter; auto | done | | apply seven_rep].
  apply (bool_decide_unpack _). vm_compute. exact I.
Defined.

Lemma decons_reads_last_twice_witness :
  Node_decons seven_store (Some 1%positive) true (lit "[nnw") [DOut; DOut; DName (Some (lit "doc"))]
  = Ok (true, [DVNum 7; DVNum 7], seven_store).
Proof.
  apply (decons_reads_last_twice seven_store 1%positive (lit "doc") (FNum 7) []
           ({[1%positive]} ∪ ({[2%positive]} ∪ ∅ ∪ ∅) ∪ ∅));
    [done | repeat constructor; lia | | apply seven_rep].
  apply (bool_decide_unpack _). vm_compute. exact I.
Defined.

End NodeFormatProps.
