(* ===== verification/StackishDfa.v ===== *)
(** * StackishDfa: what the generated tables of [stackish.c] recognise

    The machine of [stackish.rl], written as one transition function over character
    classes, and the proof that the two binary searches over the generated tables compute
    it for every state and every byte without leaving the arrays. *)

From Stdlib Require Import ZArith Lia.
From S2P Require Import Prelude Cstdlib Ragel Node Stackish.
Import Cstdlib Ragel Node Stackish.
Local Open Scope Z_scope.

Module StackishDfa.

(** characters after the first one of a word or an attribute name *)
Definition word_char (b : byte) : bool :=
  is_alpha b || is_digit b || (bv b =? 58) || (bv b =? 45) || (bv b =? 46) || (bv b =? 95).

(** The start of a token, or white space, after a token that is closed by [fin]. *)
Definition token (fin : list Z) (b : byte) : Z * list Z :=
  if is_space b then (10, fin)
  else if is_digit b then (14, fin ++ [0])
  else if is_alpha b then (13, fin ++ [0])
  else match b with
       | Byte.x22 (* dquote *) => (1, fin)
       | Byte.x27 (* quote *) => (3, fin)
       | Byte.x2b | Byte.x2d (* sign *) => (6, fin ++ [0])
       | Byte.x40 (* @ *) => (9, fin ++ [0])
       | Byte.x5b (* [ *) => (10, fin ++ [4])
       | Byte.x5d (* ] *) => (10, fin ++ [7])
       | _ => (0, [])
       end.

(** The machine: 1-2 string, 3-5 blob, 6-8 and 11 float, 9 and 12 attribute name,
    10 between tokens, 13 word, 14 number. *)
Definition machine (cs : Z) (b : byte) : Z * list Z :=
  match cs with
  | 1 => match b with Byte.x22 => (10, [0; 3]) | _ => (2, [0]) end
  | 2 => match b with Byte.x22 => (10, [3]) | _ => (2, []) end
  | 3 => if is_digit b then (4, [0]) else (0, [])
  | 4 => if is_digit b then (4, []) else match b with Byte.x3a => (5, [8]) | _ => (0, []) end
  | 5 => match b with Byte.x27 => (10, [5]) | _ => (0, []) end
  | 6 => if is_digit b then (7, []) else (0, [])
  | 7 => if is_digit b then (7, []) else match b with Byte.x2e => (8, []) | _ => (0, []) end
  | 8 => if is_digit b then (11, []) else (0, [])
  | 9 => if is_alpha b then (12, []) else (0, [])
  | 10 => token [] b
  | 11 => if is_digit b then (11, []) else token [2] b
  | 12 => if word_char b then (12, []) else token [9] b
  | 13 => if word_char b then (13, []) else token [6] b
  | 14 => if is_digit b then (14, [])
          else match b with Byte.x2e => (8, []) | _ => token [1] b end
  | _ => (0, [])
  end.

Definition all_bytes : bytes := map (fun i => uchar (Z.of_nat i)) (seq 0 256).

Lemma all_bytes_all b : b ∈ all_bytes.
Proof.
  unfold all_bytes. apply list_elem_of_fmap. exists (Z.to_nat (bv b)).
  pose proof (bv_range b). split.
  - rewrite Z2Nat.id by lia. by rewrite uchar_bv.
  - apply elem_of_seq. lia.
Qed.

Lemma forallb_bytes (p : byte -> bool) : forallb p all_bytes = true -> forall b, p b = true.
Proof.
  intros H b. rewrite forallb_forall in H. apply H, list_elem_of_In, all_bytes_all.
Qed.

Definition states : list Z := [1; 2; 3; 4; 5; 6; 7; 8; 9; 10; 11; 12; 13; 14].

Definition tables_match (cs : Z) (b : byte) : bool :=
  bool_decide (transition stackish_tables cs (sv b) = Ok (machine cs b)).

Lemma transition_machine cs b :
  1 <= cs <= 14 -> transition stackish_tables cs (sv b) = Ok (machine cs b).
Proof.
  intros Hcs.
  assert (Hall : forallb (fun s => forallb (tables_match s) all_bytes) states = true)
    by (vm_compute; reflexivity).
  rewrite forallb_forall in Hall.
  assert (Hin : In cs states) by (cbn; lia).
  specialize (Hall cs Hin). pose proof (forallb_bytes _ Hall b) as H.
  unfold tables_match in H. by apply bool_decide_eq_true in H.
Qed.

(** The machine stays within its states. *)
Lemma machine_range cs b : 0 <= (machine cs b).1 <= 14.
Proof.
  assert (Ht : forall fin, 0 <= (token fin b).1 <= 14).
  { intros fin. unfold token. repeat case_match; cbn; lia. }
  unfold machine. repeat case_match; cbn; auto; lia.
Qed.

End StackishDfa.
