(* ===== verification/StackishRt.v ===== *)
(** * StackishRt: parsing what printing produced

    The parser, from any state between two tokens, consumes the canonical text of a
    forest and adds exactly that forest to the open group, whatever follows in the
    buffer and whatever else the store holds. *)

From Stdlib Require Import ZArith Lia Floats.SpecFloat.
From S2P Require Import Prelude Cstdlib Ragel Node Stackish NodeRep NodeOpen StackishDfa.
Import Cstdlib Ragel Node Stackish NodeRep NodeOpen StackishDfa.
Local Open Scope Z_scope.

Module StackishRt.

(** ** Positions in the buffer *)

(** the text at position [p] of the buffer *)
Definition at_pos (buf : bytes) (p : Z) (text : bytes) : Prop :=
  0 <= p /\ from_pos buf p = text.

Lemma at_pos_app buf p a b : at_pos buf p (a ++ b) -> at_pos buf (p + zlen a) b.
Proof.
  intros [Hp Ha]. pose proof (zlen_nonneg a). split; [lia|].
  unfold from_pos, zlen in *. rewrite Z2Nat.inj_add, Nat2Z.id, <- drop_drop, Ha by lia.
  by rewrite drop_app_length.
Qed.

Lemma at_pos_cons buf p x b : at_pos buf p (x :: b) -> at_pos buf (p + 1) b.
Proof. intros H. by apply (at_pos_app buf p [x] b) in H. Qed.

Lemma at_pos_slice buf p a b : at_pos buf p (a ++ b) -> slice buf p (zlen a) = a.
Proof.
  intros [_ Ha]. unfold slice, zlen. rewrite Ha, Nat2Z.id. by rewrite take_app_length.
Qed.

Lemma at_pos_len buf p a : at_pos buf p a -> a <> [] -> p + zlen a = zlen buf.
Proof.
  intros [Hp Ha] Hne. unfold from_pos, zlen in *. apply (f_equal length) in Ha.
  rewrite length_drop in Ha. destruct a; [done|]. cbn [length] in *. lia.
Qed.

Lemma at_pos_bound buf p b a : at_pos buf p (b :: a) -> 0 <= p < zlen buf.
Proof.
  intros H. pose proof (at_pos_len _ _ _ H ltac:(done)) as Hl. rewrite zlen_cons in Hl.
  pose proof (zlen_nonneg a). destruct H; lia.
Qed.

(** ** Floats: the text of a double and its value *)

Definition digits (l : bytes) : Prop := Forall (fun b => is_digit b = true) l.

Lemma dec_value_app a b : dec_value (a ++ b) = dec_value a * 10 ^ zlen b + dec_value b.
Proof.
  induction b as [|x b IH] using rev_ind.
  - rewrite app_nil_r. unfold zlen; cbn. lia.
  - rewrite app_assoc, !dec_value_snoc, IH, zlen_app.
    change (zlen [x]) with 1. rewrite Z.pow_add_r by (apply zlen_nonneg || lia).
    unfold dec_step. lia.
Qed.

Lemma dec_value_pad6 k : 0 <= k < 10 ^ 6 -> dec_value (pad6 k) = k.
Proof.
  intros Hk. unfold dec_value, pad6; cbn [foldl]. unfold dec_step.
  rewrite !bv_digit by (apply Z.mod_pos_bound; lia).
  change 100000 with (10 * 10 * 10 * 10 * 10). change 10000 with (10 * 10 * 10 * 10).
  change 1000 with (10 * 10 * 10). change 100 with (10 * 10).
  rewrite <- !Z.div_div by lia.
  assert (k / 10 / 10 / 10 / 10 / 10 < 10) by (rewrite !Z.div_div by lia; apply Z.div_lt_upper_bound; lia).
  assert (0 <= k / 10 / 10 / 10 / 10 / 10) by (repeat apply Z.div_pos; lia).
  rewrite (Z.mod_small (k / 10 / 10 / 10 / 10 / 10)) by lia.
  pose proof (Z.div_mod k 10). pose proof (Z.div_mod (k / 10) 10).
  pose proof (Z.div_mod (k / 10 / 10) 10). pose proof (Z.div_mod (k / 10 / 10 / 10) 10).
  pose proof (Z.div_mod (k / 10 / 10 / 10 / 10) 10). lia.
Qed.

(** the decimal digits ["%f"] prints, as a sign and a number of millionths *)
Definition fmt_parts (f : spec_float) : option (bool * Z) :=
  match f with
  | S754_zero s => Some (s, 0)
  | S754_finite s m e => Some (s, micros m e)
  | _ => None
  end.

Definition fixed6 (s : bool) (k : Z) : bytes :=
  sign_str s ++ print_dec (k / 10 ^ 6) ++ Byte.x2e :: pad6 (k mod 10 ^ 6).

Lemma fmt_f_parts f s k : fmt_parts f = Some (s, k) -> fmt_f f = fixed6 s k /\ 0 <= k.
Proof.
  destruct f; cbn [fmt_parts]; try done; intros [= <- <-].
  - by split; [destruct s0|].
  - split; [done|]. apply micros_nonneg.
Qed.

(** a double that survives six decimals *)
Definition float_ok (f : spec_float) : Prop :=
  match fmt_parts f with
  | Some (s, k) => of_decimal s k (-6) = f /\ out_of_range k f = false
  | None => False
  end.

#[global] Instance float_ok_dec f : Decision (float_ok f).
Proof. unfold float_ok. destruct (fmt_parts f) as [[s k]|]; apply _. Defined.

Lemma strtod_fixed6 s k b rest :
  0 <= k -> is_digit b = false -> exponent (b :: rest) = (0, 0) ->
  strtod (fixed6 s k ++ b :: rest)
  = let f := of_decimal s k (-6) in
    Conv f (zlen (fixed6 s k)) (if out_of_range k f then ERANGE else 0).
Proof.
  intros Hk Hb He. unfold fixed6.
  set (ip := print_dec (k / 10 ^ 6)). set (fp := pad6 (k mod 10 ^ 6)).
  destruct (print_dec_spec (k / 10 ^ 6)) as (Hv & Hd & Hne); [apply Z.div_pos; lia|].
  fold ip in Hv, Hd, Hne. pose proof (pad6_digits (k mod 10 ^ 6)) as Hfp. fold fp in Hfp.
  assert (Hsign : skip_sign (ip ++ Byte.x2e :: fp ++ b :: rest)
                  = (ip ++ Byte.x2e :: fp ++ b :: rest, 0, false)).
  { destruct ip as [|d ip]; [done|]. apply Forall_cons_1 in Hd as [Hd _]. by destruct d. }
  assert (Hskip : skip_space (sign_str s ++ ip ++ Byte.x2e :: fp ++ b :: rest)
                  = (sign_str s ++ ip ++ Byte.x2e :: fp ++ b :: rest, 0)).
  { destruct s; [done|]. destruct ip as [|d ip]; [done|]. apply Forall_cons_1 in Hd as [Hd _].
    cbn. assert (is_space d = false) as -> by (unfold is_digit in Hd; unfold is_space; lia). done. }
  unfold strtod. rewrite <- !app_assoc. cbn [app]. rewrite Hskip.
  assert (skip_sign (sign_str s ++ ip ++ Byte.x2e :: fp ++ b :: rest)
          = (ip ++ Byte.x2e :: fp ++ b :: rest, zlen (sign_str s), s)) as ->.
  { by destruct s. }
  rewrite (span_app is_digit ip Byte.x2e) by done. rewrite drop_app_length.
  rewrite (span_app is_digit fp b) by done.
  change (Z.to_nat (1 + zlen fp)) with 7%nat. change (zlen fp) with 6.
  change (drop 7 (Byte.x2e :: fp ++ b :: rest)) with (b :: rest). rewrite He.
  assert (Hval : dec_value (ip ++ fp) = k).
  { rewrite dec_value_app, Hv. change (zlen fp) with 6. subst fp.
    rewrite dec_value_pad6 by (apply Z.mod_pos_bound; lia). pose proof (Z.div_mod k (10 ^ 6)). lia. }
  destruct (ip ++ fp) as [|x l] eqn:E; [apply app_eq_nil in E as [? _]; done|].
  rewrite Hval. cbn. f_equal. rewrite !zlen_app, zlen_cons. change (zlen fp) with 6. lia.
Qed.

(** ** Well-formed forests *)

(** a letter, then word characters *)
Definition is_word (w : bytes) : Prop :=
  match w with
  | [] => False
  | b :: w' => is_alpha b = true /\ Forall (fun x => word_char x = true) w'
  end.

#[global] Instance is_word_dec w : Decision (is_word w).
Proof. destruct w; cbn; apply _. Defined.

Lemma alpha_token b fin :
  is_alpha b = true -> token fin b = (13, fin ++ [0]).
Proof.
  intros Hb. unfold token.
  assert (is_space b = false) as -> by (unfold is_alpha in Hb; unfold is_space; lia).
  assert (is_digit b = false) as -> by (unfold is_alpha in Hb; unfold is_digit; lia).
  by rewrite Hb.
Qed.

Definition leaf_ok (v : fval) : Prop :=
  match v with
  | FNum x => 0 <= x < 2 ^ 64
  | FStr t => (Byte.x22 ∉ t) /\ (Byte.x00 ∉ t)
  | FBlob _ => True
  | FFlt x => float_ok x
  | FGrp => False
  end.

(** no name, or an attribute name *)
Definition attr_ok (nm : option bytes) : Prop :=
  match nm with
  | None => True
  | Some (Byte.x40 :: w) => is_word w
  | Some _ => False
  end.

Definition group_ok (nm : option bytes) : Prop :=
  attr_ok nm \/ exists w, nm = Some w /\ is_word w.

(** what the grammar can express: only groups have children *)
Fixpoint wf (f : forest) : Prop :=
  match f with
  | FNil => True
  | FCons nm FGrp kids rest => group_ok nm /\ wf kids /\ wf rest
  | FCons nm v kids rest => leaf_ok v /\ attr_ok nm /\ kids = FNil /\ wf rest
  end.

#[global] Instance leaf_ok_dec v : Decision (leaf_ok v).
Proof. destruct v; cbn; apply _. Defined.

#[global] Instance attr_ok_dec nm : Decision (attr_ok nm).
Proof. destruct nm as [[|b w]|]; [right; tauto| |left; exact I]. destruct b; cbn; apply _. Defined.

#[global] Instance group_ok_dec nm : Decision (group_ok nm).
Proof.
  destruct (decide (attr_ok nm)) as [H|H]; [left; by left|].
  destruct nm as [w|]; [|right; intros [?|(w & ? & _)]; [done | discriminate]].
  destruct (decide (is_word w)) as [Hw|Hw]; [left; right; eauto|].
  right; intros [?|(w' & [= <-] & ?)]; done.
Defined.

#[global] Instance wf_dec f : Decision (wf f).
Proof. induction f as [|nm v kids IHk rest IHr]; [left; exact I|]. destruct v; cbn; apply _. Defined.

(** restarts of the machine: one for each blob that is not empty *)
Definition nblob (v : fval) : nat :=
  match v with FBlob t => if 0 <? zlen t then 1 else 0 | _ => 0 end.

Fixpoint nblobs (f : forest) : nat :=
  match f with
  | FNil => 0
  | FCons _ v kids rest => nblobs rest + (nblob v + nblobs kids)
  end.

Fixpoint fapp (f g : forest) : forest :=
  match f with
  | FNil => g
  | FCons nm v kids rest => FCons nm v kids (fapp rest g)
  end.

Lemma is_word_nul_free w : is_word w -> Byte.x00 ∉ w.
Proof.
  destruct w as [|b w]; [done|]. intros [Hb Hw]. apply not_elem_of_cons; split.
  - by intros <-.
  - induction Hw as [|x w Hx _ IH]; [set_solver|].
    apply not_elem_of_cons; split; [by intros <- | done].
Qed.

(** ** One token *)

Section Token.
Context (buf : bytes) (Hbuf : zlen buf < 2 ^ 31).

Local Abbreviation run := (exec stackish_tables (stackish_action buf)).

Lemma run_step b rest p cs s cs' ids s' :
  1 <= cs <= 14 -> machine cs b = (cs', ids) -> cs' <> 0 ->
  run_acts (stackish_action buf) ids p cs' s = Ok (cs', s', false) ->
  run (b :: rest) p cs s = run rest (p + 1) cs' s'.
Proof.
  intros Hcs Hm H0 Ha. eapply exec_step; [lia | | done | done].
  by rewrite transition_machine, Hm.
Qed.

Lemma run_stop b rest p cs s cs' ids s' :
  1 <= cs <= 14 -> machine cs b = (cs', ids) ->
  run_acts (stackish_action buf) ids p cs' s = Ok (cs', s', true) ->
  run (b :: rest) p cs s = Ok (p, cs', s').
Proof.
  intros Hcs Hm Ha. eapply exec_break; [lia | | done]. by rewrite transition_machine, Hm.
Qed.

(** a run of characters that keep the state *)
Lemma run_loop l rest p cs s :
  1 <= cs <= 14 -> Forall (fun b => machine cs b = (cs, [])) l ->
  run (l ++ rest) p cs s = run rest (p + zlen l) cs s.
Proof.
  intros Hcs Hl. revert p. induction Hl as [|b l Hb _ IH]; intros p.
  - cbn. f_equal. unfold zlen; cbn [length]; lia.
  - cbn [app]. rewrite (run_step b _ p cs s cs [] s) by (done || lia).
    rewrite IH. f_equal. rewrite zlen_cons. lia.
Qed.

Lemma run_space rest p s : run (Byte.x20 :: rest) p 10 s = run rest (p + 1) 10 s.
Proof. by apply (run_step Byte.x20 rest p 10 s 10 [] s). Qed.

(** a digit, then digits *)
Lemma run_digits ds rest p s P st :
  s = (P, st) -> ds <> [] -> Forall (fun b => is_digit b = true) ds ->
  run (ds ++ rest) p 10 s = run rest (p + zlen ds) 14 (set_mark p P, st).
Proof.
  intros -> Hne Hd. destruct Hd as [|b ds Hb Hds]; [done|]. cbn [app].
  assert (Hsp : is_space b = false) by (unfold is_digit in Hb; unfold is_space; lia).
  rewrite (run_step b _ p 10 _ 14 [0] (set_mark p P, st)); [|lia| |done|done].
  2:{ cbn. unfold token. by rewrite Hsp, Hb. }
  rewrite run_loop; [rewrite zlen_cons; f_equal; lia | lia |].
  eapply Forall_impl; [|exact Hds]. intros x Hx; cbn in *. by rewrite Hx.
Qed.

Lemma check_ok st b : errno st = 0 -> b = true -> check st b = (true, st).
Proof. intros He ->. unfold check. by rewrite He. Qed.

(** a token is pushed on the open group *)
Lemma handle_push_ok P ty start len st c r n l st' :
  current P = Some c -> root P = Some r ->
  errno st = 0 -> nodes st !! c = Some n -> type n = TYPE_GROUP ->
  Node_from_str st (Some c) ty buf start len = Ok (Some l, st') ->
  handle_push P ty buf start len st = Ok (true, st').
Proof.
  intros Hc Hr He Hn Hg Hfs. unfold handle_push. rewrite Hc, Hr.
  rewrite !check_ok by done. cbn [negb]. rewrite (load_Some _ _ _ Hn), bind_ret.
  rewrite check_ok; [|done|by apply bool_decide_eq_true]. cbn [negb].
  by rewrite Hfs, bind_ret.
Qed.

Lemma LEN_mark P p len : mark P + len = p -> 0 <= len < 2 ^ 64 -> LEN P p = len.
Proof. intros <- H. unfold LEN. rewrite u64_small; lia. Qed.

Lemma blk2bstr_at p a b : at_pos buf p (a ++ b) -> zlen a < 2 ^ 31 ->
  blk2bstr buf p (zlen a) = Some a.
Proof.
  intros Hat Hl. pose proof (zlen_nonneg a). unfold blk2bstr. rewrite i32_small by lia.
  destruct (Z.ltb_spec (zlen a) 0); [lia|]. by rewrite (at_pos_slice _ _ _ _ Hat).
Qed.

Lemma at_pos_token_len p a b : at_pos buf p (a ++ b) -> zlen a < 2 ^ 31.
Proof.
  intros Hat. pose proof (zlen_nonneg b). destruct (decide (a ++ b = [])) as [E|E].
  - apply app_eq_nil in E as [-> _]. unfold zlen; cbn [length]; lia.
  - pose proof (at_pos_len _ _ _ Hat E) as H'. rewrite zlen_app in H'. destruct Hat; lia.
Qed.

Lemma skip_space_none b l : is_space b = false -> skip_space (b :: l) = (b :: l, 0).
Proof. intros H. cbn. by rewrite H. Qed.

Lemma strtoull_digits ds b rest :
  ds <> [] -> Forall (fun x => is_digit x = true) ds -> is_digit b = false ->
  dec_value ds < 2 ^ 64 -> strtoull (ds ++ b :: rest) = Conv (dec_value ds) (zlen ds) 0.
Proof.
  intros Hne Hd Hb Hv. pose proof (span_app is_digit ds b rest Hd Hb) as Hs.
  destruct ds as [|d ds]; [done|]. apply Forall_cons_1 in Hd as [Hd _].
  assert (Hsp : is_space d = false) by (unfold is_digit in Hd; unfold is_space; lia).
  unfold strtoull. cbn [app]. rewrite skip_space_none by done.
  assert (skip_sign (d :: ds ++ b :: rest) = (d :: ds ++ b :: rest, 0, false)) as ->.
  { by destruct d. }
  cbn [app] in Hs. rewrite Hs. rewrite (proj2 (Z.leb_gt _ _)) by lia. done.
Qed.

Lemma run_number x rest p P st c r n f F :
  0 <= x < 2 ^ 64 -> at_pos buf p (print_dec x ++ Byte.x20 :: rest) ->
  current P = Some c -> root P = Some r -> opened st c n f F ->
  run (print_dec x ++ Byte.x20 :: rest) p 10 (P, st)
  = run rest (p + zlen (print_dec x) + 1) 10
        (set_mark p P, add_node st c n TYPE_NUMBER (VNumber x)).
Proof.
  intros Hx Hat Hc Hr Ho. destruct (print_dec_spec x) as (Hv & Hd & Hne); [lia|].
  rewrite (run_digits _ _ _ _ P st) by done.
  eapply (run_step Byte.x20 rest _ 14 _ 10 [1]); [lia | done | done |].
  pose proof (at_pos_token_len _ _ _ Hat). pose proof (zlen_nonneg (print_dec x)).
  cbn [run_acts stackish_action]. unfold push. rewrite (LEN_mark _ _ (zlen (print_dec x)));
    [|done|lia].
  rewrite (handle_push_ok _ _ _ _ _ c r n (next st) (add_node st c n TYPE_NUMBER (VNumber x)));
    [done | done | done | apply Ho | apply Ho | apply Ho |].
  destruct Hat as [Hp Hat]. cbn [Node_from_str mark set_mark].
  rewrite Hat, strtoull_digits, Hv by (done || lia). cbn [c_errno c_used Z.eqb].
  rewrite u64_small by lia. rewrite check_ok by (apply Ho || apply Z.eqb_refl).
  unfold Node_new_number. cbn [c_value].
  by rewrite (new_node_spec _ _ _ _ _ (op_node _ _ _ _ _ Ho) (op_fresh _ _ _ _ _ Ho)).
Qed.

(** the four steps of an unsigned or signed decimal *)
Lemma run_fixed6 s k rest p P st :
  0 <= k ->
  run (fixed6 s k ++ rest) p 10 (P, st)
  = run rest (p + zlen (fixed6 s k)) 11 (set_mark p P, st).
Proof.
  intros Hk. unfold fixed6.
  destruct (print_dec_spec (k / 10 ^ 6)) as (_ & Hd & Hne); [apply Z.div_pos; lia|].
  pose proof (pad6_digits (k mod 10 ^ 6)) as Hfp.
  assert (Htail : forall q, run (Byte.x2e :: pad6 (k mod 10 ^ 6) ++ rest) q 7 (set_mark p P, st)
                       = run rest (q + 7) 11 (set_mark p P, st)
          /\ run (Byte.x2e :: pad6 (k mod 10 ^ 6) ++ rest) q 14 (set_mark p P, st)
                       = run rest (q + 7) 11 (set_mark p P, st)).
  { intros q. unfold pad6 in *. apply Forall_cons_1 in Hfp as [H1 Hfp].
    set (l5 := [_; _; _; _; _]) in *.
    assert (Hl : run (digit (k mod 10 ^ 6 / 100000 mod 10) :: l5 ++ rest) (q + 1) 8 (set_mark p P, st)
                 = run rest (q + 7) 11 (set_mark p P, st)).
    { rewrite (run_step _ _ _ 8 _ 11 [] (set_mark p P, st)); [|lia| |done|done].
      2:{ cbn. by rewrite H1. }
      rewrite (run_loop l5); [f_equal; change (zlen l5) with 5; lia | lia |].
      eapply Forall_impl; [|exact Hfp]. intros x Hx; cbn in *. by rewrite Hx. }
    split; (rewrite (run_step Byte.x2e _ q _ _ 8 [] (set_mark p P, st)); [exact Hl|lia|done|done|done]). }
  rewrite <- !app_assoc. cbn [app]. destruct s; cbn [sign_str app].
  - change (lit "-") with [Byte.x2d]. cbn [app].
    rewrite (run_step Byte.x2d _ p 10 _ 6 [0] (set_mark p P, st)); [|lia|done|done|done].
    destruct (print_dec (k / 10 ^ 6)) as [|d ip] eqn:Eip; [done|].
    apply Forall_cons_1 in Hd as [H1 Hd]. cbn [app].
    rewrite (run_step d _ _ 6 _ 7 [] (set_mark p P, st)); [|lia| |done|done].
    2:{ cbn. by rewrite H1. }
    rewrite (run_loop ip); [|lia|].
    2:{ eapply Forall_impl; [|exact Hd]. intros x Hx; cbn in *. by rewrite Hx. }
    rewrite (proj1 (Htail _)). f_equal. rewrite !zlen_cons, zlen_app, zlen_cons.
    change (zlen (pad6 _)) with 6. lia.
  - rewrite (run_digits _ _ _ _ P st) by done. rewrite (proj2 (Htail _)). f_equal.
    rewrite zlen_app, zlen_cons. change (zlen (pad6 _)) with 6. lia.
Qed.

Lemma run_float x rest p P st c r n f F :
  float_ok x -> at_pos buf p (fmt_f x ++ Byte.x20 :: rest) ->
  current P = Some c -> root P = Some r -> opened st c n f F ->
  run (fmt_f x ++ Byte.x20 :: rest) p 10 (P, st)
  = run rest (p + zlen (fmt_f x) + 1) 10
        (set_mark p P, add_node st c n TYPE_FLOAT (VFloat x)).
Proof.
  intros Hx Hat Hc Hr Ho. unfold float_ok in Hx.
  destruct (fmt_parts x) as [[s k]|] eqn:Ep; [|done]. destruct Hx as [Hval Hrange].
  destruct (fmt_f_parts _ _ _ Ep) as [Ef Hk]. rewrite Ef in *.
  rewrite run_fixed6 by done.
  eapply (run_step Byte.x20 rest _ 11 _ 10 [2]); [lia | done | done |].
  pose proof (at_pos_token_len _ _ _ Hat). pose proof (zlen_nonneg (fixed6 s k)).
  cbn [run_acts stackish_action]. unfold push.
  rewrite (LEN_mark _ _ (zlen (fixed6 s k))); [|done|lia].
  rewrite (handle_push_ok _ _ _ _ _ c r n (next st) (add_node st c n TYPE_FLOAT (VFloat x)));
    [done | done | done | apply Ho | apply Ho | apply Ho |].
  destruct Hat as [Hp Hat]. cbn [Node_from_str mark set_mark].
  rewrite Hat, strtod_fixed6 by done. cbv zeta. rewrite Hval, Hrange. cbn [c_errno c_used Z.eqb].
  rewrite u64_small by lia. rewrite check_ok by (apply Ho || apply Z.eqb_refl).
  unfold Node_new_float. cbn [c_value].
  by rewrite (new_node_spec _ _ _ _ _ (op_node _ _ _ _ _ Ho) (op_fresh _ _ _ _ _ Ho)).
Qed.

Lemma run_string t rest p P st c r n f F :
  Byte.x22 ∉ t -> at_pos buf p (Byte.x22 :: t ++ Byte.x22 :: rest) ->
  current P = Some c -> root P = Some r -> opened st c n f F ->
  run (Byte.x22 :: t ++ Byte.x22 :: rest) p 10 (P, st)
  = run rest (p + zlen t + 2) 10
        (set_mark (p + 1) P, add_node st c n TYPE_STRING (VString (Some t))).
Proof.
  intros Ht Hat Hc Hr Ho. pose proof (at_pos_cons _ _ _ _ Hat) as Hat1.
  pose proof (at_pos_token_len _ _ _ Hat1) as Hlen. pose proof (zlen_nonneg t).
  assert (Hpush : push (set_mark (p + 1) P) TYPE_STRING buf (p + 1 + zlen t) st
                  = Ok (true, add_node st c n TYPE_STRING (VString (Some t)))).
  { unfold push. rewrite (LEN_mark _ _ (zlen t)) by (done || lia).
    apply (handle_push_ok _ _ _ _ _ c r n (next st)); [done | done | apply Ho.. |].
    cbn [Node_from_str mark set_mark]. unfold Node_new_string.
    rewrite (blk2bstr_at _ _ _ Hat1) by lia.
    by rewrite (new_node_spec _ _ _ _ _ (op_node _ _ _ _ _ Ho) (op_fresh _ _ _ _ _ Ho)). }
  rewrite (run_step Byte.x22 _ p 10 _ 1 [] (P, st)); [|lia|done|done|done].
  destruct t as [|b t]; cbn [app].
  - rewrite (run_step Byte.x22 _ _ 1 _ 10 [0; 3]
      (set_mark (p + 1) P, add_node st c n TYPE_STRING (VString (Some [])))); [|lia|done|done|].
    + change (zlen []) with 0. f_equal. lia.
    + cbn [run_acts stackish_action]. rewrite bind_ret. cbn [run_acts stackish_action].
      change (zlen []) with 0 in Hpush. rewrite Z.add_0_r in Hpush. by rewrite Hpush.
  - rewrite not_elem_of_cons in Ht. destruct Ht as [Hb Ht].
    rewrite (run_step b _ _ 1 _ 2 [0] (set_mark (p + 1) P, st)); [|lia| |done|done].
    2:{ by destruct b. }
    rewrite (run_loop t); [|lia|].
    2:{ clear -Ht. induction t as [|x t IH]; [constructor|].
        rewrite not_elem_of_cons in Ht. destruct Ht as [Hx Ht].
        constructor; [by destruct x | auto]. }
    rewrite zlen_cons in *.
    rewrite (run_step Byte.x22 _ _ 2 _ 10 [3]
      (set_mark (p + 1) P, add_node st c n TYPE_STRING (VString (Some (b :: t)))));
      [f_equal; lia|lia|done|done|].
    cbn [run_acts stackish_action]. replace (p + 1 + 1 + zlen t) with (p + 1 + (1 + zlen t)) by lia.
    by rewrite Hpush.
Qed.

Lemma run_word w rest p P st :
  is_word w -> run (w ++ rest) p 10 (P, st) = run rest (p + zlen w) 13 (set_mark p P, st).
Proof.
  destruct w as [|b w]; [done|]. intros [Hb Hw]. cbn [app].
  rewrite (run_step b _ p 10 _ 13 [0] (set_mark p P, st)); [|lia|by apply alpha_token|done|done].
  rewrite (run_loop w); [rewrite zlen_cons; f_equal; lia|lia|].
  eapply Forall_impl; [|exact Hw]. intros x Hx; cbn in *. by rewrite Hx.
Qed.

Lemma run_attr_name w rest p P st :
  is_word w ->
  run (Byte.x40 :: w ++ rest) p 10 (P, st) = run rest (p + 1 + zlen w) 12 (set_mark p P, st).
Proof.
  destruct w as [|b w]; [done|]. intros [Hb Hw]. cbn [app].
  rewrite (run_step Byte.x40 _ p 10 _ 9 [0] (set_mark p P, st)); [|lia|done|done|done].
  rewrite (run_step b _ _ 9 _ 12 [] (set_mark p P, st)); [|lia| |done|done].
  2:{ cbn. by rewrite Hb. }
  rewrite (run_loop w); [rewrite zlen_cons; f_equal; lia|lia|].
  eapply Forall_impl; [|exact Hw]. intros x Hx; cbn in *. by rewrite Hx.
Qed.

(** an attribute name and its separator *)
Lemma run_attr w rest p P st c n f F l nl :
  is_word w -> at_pos buf p ((Byte.x40 :: w) ++ Byte.x20 :: rest) ->
  current P = Some c -> opened st c n f F -> child n = Some l -> nodes st !! l = Some nl ->
  run (Byte.x40 :: w ++ Byte.x20 :: rest) p 10 (P, st)
  = run rest (p + zlen w + 2) 10 (set_mark p P, rename st l nl (Some (Byte.x40 :: w))).
Proof.
  intros Hw Hat Hc Ho Hch Hl. pose proof (at_pos_token_len _ _ _ Hat) as Hlen.
  rewrite zlen_cons in Hlen. pose proof (zlen_nonneg w).
  rewrite run_attr_name by done.
  replace (p + zlen w + 2) with (p + 1 + zlen w + 1) by lia.
  eapply (run_step Byte.x20 rest _ 12 _ 10 [9]); [lia | done | done |].
  cbn [run_acts stackish_action]. rewrite (LEN_mark _ _ (zlen (Byte.x40 :: w)));
    [|rewrite zlen_cons; cbn; lia|rewrite zlen_cons; lia].
  cbn [mark set_mark]. rewrite (blk2bstr_at _ _ _ Hat) by (rewrite zlen_cons; lia).
  unfold handle_attr. cbn [current set_mark]. rewrite Hc, (load_Some _ _ _ (op_node _ _ _ _ _ Ho)), bind_ret.
  rewrite check_ok; [|apply Ho|by rewrite Hch]. cbn [negb]. rewrite Hch.
  unfold Node_name. rewrite !assert_true, !bind_ret by done. by rewrite (update_Some _ _ _ _ Hl), bind_ret.
Qed.

(** a group start *)
Lemma run_start rest p P st c r n f F :
  current P = Some c -> root P = Some r -> opened st c n f F ->
  run (Byte.x5b :: Byte.x20 :: rest) p 10 (P, st)
  = run rest (p + 2) 10
        (set_current (Some (next st)) P, add_node st c n TYPE_GROUP VZero).
Proof.
  intros Hc Hr Ho.
  rewrite (run_step Byte.x5b _ p 10 _ 10 [4]
    (set_current (Some (next st)) P, add_node st c n TYPE_GROUP VZero)); [|lia|done|done|].
  - rewrite run_space. f_equal. lia.
  - cbn [run_acts stackish_action]. unfold handle_start, Node_new_group. rewrite Hc.
    rewrite (Node_create_spec _ _ _ _ (op_node _ _ _ _ _ Ho) (op_fresh _ _ _ _ _ Ho)), bind_ret.
    rewrite bool_decide_eq_false_2 by congruence. done.
Qed.

(** closing a group that is not the root: the parent is open again *)
Lemma handle_word_inner P st m gm r nm :
  current P = Some m -> root P = Some r -> m <> r -> errno st = 0 -> nodes st !! m = Some gm ->
  handle_word P (Some (Some nm)) st
    = Ok (0, set_current (parent gm) P, rename st m gm (Some nm)) /\
  handle_word P None st = Ok (0, set_current (parent gm) P, rename st m gm None).
Proof.
  intros Hc Hr Hne He Hm. unfold handle_word. rewrite Hc, Hr, !check_ok by done. cbn [negb].
  rewrite bool_decide_eq_false_2 by congruence.
  unfold Node_name. rewrite !assert_true, !bind_ret by done.
  rewrite !(update_Some _ _ _ _ Hm), !bind_ret.
  split; (erewrite load_Some; [|cbn; apply lookup_insert_eq]); done.
Qed.

Lemma run_close_word w rest p P st m gm r :
  is_word w -> at_pos buf p (w ++ Byte.x20 :: rest) ->
  current P = Some m -> root P = Some r -> m <> r -> errno st = 0 -> nodes st !! m = Some gm ->
  run (w ++ Byte.x20 :: rest) p 10 (P, st)
  = run rest (p + zlen w + 1) 10
        (set_current (parent gm) (set_mark p P), rename st m gm (Some w)).
Proof.
  intros Hw Hat Hc Hr Hne He Hm. pose proof (at_pos_token_len _ _ _ Hat). pose proof (zlen_nonneg w).
  rewrite run_word by done.
  eapply (run_step Byte.x20 rest _ 13 _ 10 [6]); [lia | done | done |].
  cbn [run_acts stackish_action]. rewrite (LEN_mark _ _ (zlen w)) by (done || lia).
  cbn [mark set_mark]. rewrite (blk2bstr_at _ _ _ Hat) by lia.
  by rewrite (proj1 (handle_word_inner (set_mark p P) st m gm r w Hc Hr Hne He Hm)), bind_ret.
Qed.

Lemma run_close_anon rest p P st m gm r :
  current P = Some m -> root P = Some r -> m <> r -> errno st = 0 -> nodes st !! m = Some gm ->
  run (Byte.x5d :: Byte.x20 :: rest) p 10 (P, st)
  = run rest (p + 2) 10 (set_current (parent gm) P, rename st m gm None).
Proof.
  intros Hc Hr Hne He Hm.
  rewrite (run_step Byte.x5d _ p 10 _ 10 [7]
    (set_current (parent gm) P, rename st m gm None)); [|lia|done|done|].
  - rewrite run_space. f_equal. lia.
  - cbn [run_acts stackish_action]. unfold handle_group.
    by rewrite (proj2 (handle_word_inner P st m gm r [] Hc Hr Hne He Hm)), bind_ret.
Qed.

(** ** The driver: one run of the machine and the blob loop after it *)

Definition seq_at (k : nat) (c : Z) (P : stackish_parser) (off : Z) (st : store)
  : res (option unit * stackish_parser * store) :=
  '(p, c, (P, st)) ← run (from_pos buf off) off c (P, st);
  let P := set_pos c p P in
  let '(ok, st) := check st (negb (stackish_parser_has_error P)) in
  if ok : bool then blob_loop k P buf st else Ok (None, P, st).

Lemma from_pos_len off : 0 <= off <= zlen buf -> zlen (from_pos buf off) = zlen buf - off.
Proof. intros H. unfold zlen, from_pos in *. rewrite length_drop. lia. Qed.

Lemma execute_run P off st :
  0 <= off <= zlen buf ->
  stackish_parser_execute P buf off st
  = ('(p, c, (P, st)) ← run (from_pos buf off) off (cs P) (P, st); Ok (set_pos c p P, st)).
Proof.
  intros Hoff. unfold stackish_parser_execute. rewrite assert_true, bind_ret by lia.
  destruct (run _ _ _ _) as [[[p c] [P' st']]|] eqn:E; [|done]. rewrite !bind_ret.
  apply exec_pos in E. rewrite from_pos_len in E by lia. by rewrite assert_true by lia.
Qed.

(** the same state of affairs further on *)
Lemma seq_at_run k c P off st c' P' off' st' :
  run (from_pos buf off) off c (P, st) = run (from_pos buf off') off' c' (P', st') ->
  seq_at k c P off st = seq_at k c' P' off' st'.
Proof. unfold seq_at. by intros ->. Qed.

Lemma seq_at_execute k P off st :
  0 <= off <= zlen buf ->
  ('(P, st) ← stackish_parser_execute P buf off st;
   let '(ok, st) := check st (negb (stackish_parser_has_error P)) in
   if ok : bool then blob_loop k P buf st else Ok (None, P, st))
  = seq_at k (cs P) P off st.
Proof.
  intros Hoff. rewrite execute_run by done. unfold seq_at.
  destruct (run _ _ _ _) as [[[p c] [P' st']]|]; done.
Qed.

(** stopping at a blob and going on behind its data *)
Lemma blob_loop_resume k P st :
  0 < more P -> 0 <= nread P -> cs P <> 10 -> nread P + more P + 1 < zlen buf ->
  blob_loop (S k) P buf st = seq_at k (cs P) P (nread P + more P + 1) st.
Proof.
  intros Hm Hn Hc Hlt. cbn [blob_loop].
  unfold stackish_parser_is_finished, stackish_parser_first_final.
  rewrite (proj2 (Z.eqb_neq _ _)), (proj2 (Z.eqb_neq (cs P) 10)), (proj2 (Z.ltb_lt _ _)) by lia.
  cbn [negb andb]. rewrite u64_small by lia. rewrite assert_true, bind_ret by lia.
  rewrite <- (seq_at_execute k P) by lia. done.
Qed.

(** the header of a blob: its length is read and [mark] is at its data *)
Lemma run_blob_header m rest p P st :
  at_pos buf p ((Byte.x27 :: print_dec m) ++ Byte.x3a :: rest) ->
  0 <= m < 2 ^ 64 ->
  let q := p + 1 + zlen (print_dec m) in
  let P1 := set_mark (q + 1) (set_more m (set_mark (p + 1) P)) in
  run ((Byte.x27 :: print_dec m) ++ Byte.x3a :: rest) p 10 (P, st)
  = if 0 <? m then Ok (q, 5, (P1, st)) else run rest (q + 1) 5 (P1, st).
Proof.
  intros Hat Hlt q P1.
  destruct (print_dec_spec m) as (Hv & Hd & Hne); [lia|].
  set (ds := print_dec m) in *.
  assert (Hact : run_acts (stackish_action buf) [8] q 5 (set_mark (p + 1) P, st)
                 = Ok (5, (P1, st), 0 <? m)).
  { cbn [run_acts stackish_action mark set_mark]. cbn [app] in Hat.
    apply at_pos_cons in Hat as [Hp Hat]. rewrite Hat.
    rewrite strtoull_digits, Hv by (done || lia). cbn [c_errno c_value c_used Z.eqb].
    cbn [mark set_more set_mark]. rewrite assert_true, bind_ret by (apply Z.eqb_eq; reflexivity).
    rewrite bind_ret. cbn [more set_mark set_more].
    destruct (0 <? m); done. }
  cbn [app]. rewrite (run_step Byte.x27 _ p 10 _ 3 [] (P, st)); [|lia|done|done|done].
  assert (run (ds ++ Byte.x3a :: rest) (p + 1) 3 (P, st)
          = run (Byte.x3a :: rest) q 4 (set_mark (p + 1) P, st)) as ->.
  { destruct ds as [|d ds']; [done|]. apply Forall_cons_1 in Hd as [H1 Hd]. cbn [app].
    rewrite (run_step d _ _ 3 _ 4 [0] (set_mark (p + 1) P, st)); [|lia| |done|done].
    2:{ cbn. by rewrite H1. }
    rewrite (run_loop ds'); [subst q; rewrite zlen_cons; f_equal; lia|lia|].
    eapply Forall_impl; [|exact Hd]. intros x Hx; cbn in *. by rewrite Hx. }
  destruct (0 <? m).
  - by apply (run_stop Byte.x3a _ q 4 _ 5 [8]).
  - by apply (run_step Byte.x3a _ q 4 _ 5 [8]).
Qed.

(** the closing quote pushes the bytes since [mark] *)
Lemma run_blob_end t rest p P st c r n f F :
  at_pos buf (mark P) (t ++ Byte.x27 :: Byte.x20 :: rest) -> p = mark P + zlen t ->
  current P = Some c -> root P = Some r -> opened st c n f F ->
  run (Byte.x27 :: Byte.x20 :: rest) p 5 (P, st)
  = run rest (p + 2) 10 (set_more 0 P, add_node st c n TYPE_BLOB (VString (Some t))).
Proof.
  intros Hat -> Hc Hr Ho. pose proof (at_pos_token_len _ _ _ Hat). pose proof (zlen_nonneg t).
  rewrite (run_step Byte.x27 _ _ 5 _ 10 [5]
    (set_more 0 P, add_node st c n TYPE_BLOB (VString (Some t)))); [|lia|done|done|].
  - rewrite run_space. f_equal. lia.
  - cbn [run_acts stackish_action]. unfold push. rewrite (LEN_mark _ _ (zlen t)) by (done || lia).
    rewrite (handle_push_ok _ _ _ _ _ c r n (next st) (add_node st c n TYPE_BLOB (VString (Some t))));
      [done | done | done | apply Ho | apply Ho | apply Ho |].
    cbn [Node_from_str]. unfold Node_new_blob. rewrite (blk2bstr_at _ _ _ Hat) by lia.
    by rewrite (new_node_spec _ _ _ _ _ (op_node _ _ _ _ _ Ho) (op_fresh _ _ _ _ _ Ho)).
Qed.

Lemma at_pos_run_eq p text : at_pos buf p text -> from_pos buf p = text.
Proof. by intros [_ ?]. Qed.

Lemma seq_blob k t rest p P st c r n f F :
  at_pos buf p ((Byte.x27 :: print_dec (zlen t)) ++ Byte.x3a :: t ++ Byte.x27 :: Byte.x20 :: rest) ->
  current P = Some c -> root P = Some r -> opened st c n f F ->
  exists P', current P' = Some c /\ root P' = Some r /\ more P' = 0 /\
    seq_at (k + if 0 <? zlen t then 1 else 0) 10 P p st
    = seq_at k 10 P' (p + zlen (print_dec (zlen t)) + zlen t + 4)
        (add_node st c n TYPE_BLOB (VString (Some t))).
Proof.
  intros Hat Hc Hr Ho.
  set (q := p + 1 + zlen (print_dec (zlen t))).
  set (P1 := set_mark (q + 1) (set_more (zlen t) (set_mark (p + 1) P))).
  assert (Hatd : at_pos buf (q + 1) (t ++ Byte.x27 :: Byte.x20 :: rest)).
  { apply at_pos_app in Hat. apply at_pos_cons in Hat. rewrite zlen_cons in Hat.
    replace (q + 1) with (p + (1 + zlen (print_dec (zlen t))) + 1) by lia. done. }
  pose proof (at_pos_token_len _ _ _ Hatd) as Hlen. pose proof (zlen_nonneg t).
  pose proof (zlen_nonneg (print_dec (zlen t))). pose proof (proj1 Hat) as Hp0.
  assert (Hend : at_pos buf (q + 1 + zlen t) (Byte.x27 :: Byte.x20 :: rest)) by (by apply at_pos_app).
  assert (Hrest : at_pos buf (q + 1 + zlen t + 2) rest)
    by (by apply (at_pos_app buf _ [Byte.x27; Byte.x20] rest)).
  assert (Hbl : q + 1 + zlen t + 2 <= zlen buf).
  { pose proof (at_pos_len _ _ _ Hend ltac:(done)) as Hx. rewrite !zlen_cons in Hx.
    pose proof (zlen_nonneg rest). lia. }
  pose proof (run_blob_header (zlen t) _ p P st Hat ltac:(lia)) as Hhd. cbv zeta in Hhd. fold q P1 in Hhd.
  destruct (0 <? zlen t) eqn:Et.
  - set (P2 := set_pos 5 q P1). exists (set_more 0 P2). split_and!; [done..|].
    unfold seq_at at 1. rewrite (at_pos_run_eq _ _ Hat), Hhd, bind_ret. fold P2.
    rewrite check_ok; [|apply Ho|done]. rewrite Nat.add_1_r.
    rewrite blob_loop_resume by (cbn; lia).
    apply seq_at_run. cbn [nread more P2 P1 set_pos set_mark set_more cs].
    replace (q + zlen t + 1) with (q + 1 + zlen t) by lia.
    rewrite (at_pos_run_eq _ _ Hend).
    rewrite (run_blob_end t rest _ P2 st c r n f F) by done.
    replace (p + zlen (print_dec (zlen t)) + zlen t + 4) with (q + 1 + zlen t + 2) by lia.
    by rewrite (at_pos_run_eq _ _ Hrest).
  - exists (set_more 0 P1). split_and!; [done..|]. rewrite Nat.add_0_r.
    apply seq_at_run. rewrite (at_pos_run_eq _ _ Hat), Hhd.
    assert (t = []) as -> by (destruct t; [done|]; rewrite zlen_cons in *; pose proof (zlen_nonneg t); lia).
    cbn [app].
    rewrite (run_blob_end [] rest _ P1 st c r n f F); [|done|cbn; lia|done|done|done].
    replace (p + zlen (print_dec (zlen (@nil byte))) + zlen (@nil byte) + 4) with (q + 1 + zlen (@nil byte) + 2) by lia.
    rewrite (at_pos_run_eq _ _ Hrest). f_equal. cbn; lia.
Qed.

(** ** Parsing a forest *)

Lemma seq_leaf k v nm rest p P st c r n f F :
  leaf_ok v -> at_pos buf p (print_value Byte.x20 nm v ++ rest) -> more P = 0 ->
  current P = Some c -> root P = Some r -> opened st c n f F ->
  exists P', current P' = Some c /\ root P' = Some r /\ more P' = 0 /\
    seq_at (k + nblob v) 10 P p st
    = seq_at k 10 P' (p + zlen (print_value Byte.x20 nm v))
        (add_node st c n (type_of v) (value_of v)).
Proof.
  intros Hv Hat Hm Hc Hr Ho. pose proof (at_pos_app _ _ _ _ Hat) as Hrest.
  destruct v as [x|t|t|x|]; cbn [print_value nblob type_of value_of] in *; try rewrite Nat.add_0_r.
  - exists (set_mark p P). split_and!; [done..|]. apply seq_at_run.
    rewrite (at_pos_run_eq _ _ Hat), (at_pos_run_eq _ _ Hrest).
    rewrite <- app_assoc in *. cbn [app] in *.
    rewrite (run_number x rest p P st c r n f F) by done.
    f_equal. rewrite zlen_app. change (zlen [_]) with 1. lia.
  - destruct Hv as [Hq H0]. exists (set_mark (p + 1) P). split_and!; [done..|]. apply seq_at_run.
    rewrite (at_pos_run_eq _ _ Hat), (at_pos_run_eq _ _ Hrest).
    rewrite (cstr_id t H0) in *. cbn [app] in *. rewrite <- app_assoc in *. cbn [app] in *.
    rewrite (run_string t (Byte.x20 :: rest) p P st c r n f F) by done. rewrite run_space.
    f_equal. rewrite zlen_cons, zlen_app. change (zlen [_; _]) with 2. lia.
  - replace ((lit "'" ++ print_dec (zlen t) ++ lit ":" ++ t ++ lit "'" ++ [Byte.x20]) ++ rest)
      with ((Byte.x27 :: print_dec (zlen t)) ++ Byte.x3a :: t ++ Byte.x27 :: Byte.x20 :: rest) in Hat
      by (change (lit "'") with [Byte.x27]; change (lit ":") with [Byte.x3a];
          by rewrite <- !app_assoc).
    destruct (seq_blob k t rest p P st c r n f F Hat Hc Hr Ho) as (P' & Hc' & Hr' & Hm' & E).
    exists P'. split_and!; [done..|]. rewrite E. f_equal.
    rewrite !zlen_app. change (zlen (lit _)) with 1. change (zlen [_]) with 1. lia.
  - exists (set_mark p P). split_and!; [done..|]. apply seq_at_run.
    rewrite (at_pos_run_eq _ _ Hat), (at_pos_run_eq _ _ Hrest).
    rewrite <- app_assoc in *. cbn [app] in *.
    rewrite (run_float x rest p P st c r n f F) by done.
    f_equal. rewrite zlen_app. change (zlen [_]) with 1. lia.
  - done.
Qed.

(** the optional attribute name of the newest child *)
Lemma seq_attr k nm v kids rest p P st c r n f F :
  attr_ok nm -> at_pos buf p (print_name Byte.x20 nm ++ rest) -> more P = 0 ->
  current P = Some c -> root P = Some r -> opened st c n (FCons None v kids f) F ->
  exists P' st', current P' = Some c /\ root P' = Some r /\ more P' = 0 /\
    seq_at k 10 P p st = seq_at k 10 P' (p + zlen (print_name Byte.x20 nm)) st' /\
    opened st' c n (FCons nm v kids f) F /\ next st' = next st /\
    forall l, child n <> Some l -> nodes st' !! l = nodes st !! l.
Proof.
  intros Hnm Hat Hm Hc Hr Ho. destruct nm as [nm|].
  - destruct (opened_attr _ _ _ _ _ _ _ _ (Some nm) Ho) as (l & nl & Hch & Hl & _ & Ho').
    destruct nm as [|b w]; [done|]. assert (b = Byte.x40) as -> by (by destruct b). cbn in Hnm.
    assert (E : cstr (Byte.x40 :: w) = Byte.x40 :: w).
    { apply cstr_id, not_elem_of_cons; split; [done | by apply is_word_nul_free]. }
    cbn [print_name] in *. rewrite E in *.
    exists (set_mark p P), (rename st l nl (Some (Byte.x40 :: w))). split_and!; [done..| | done | done |].
    + apply seq_at_run. pose proof (at_pos_app _ _ _ _ Hat) as Hrest.
      rewrite (at_pos_run_eq _ _ Hat), (at_pos_run_eq _ _ Hrest).
      rewrite <- app_assoc in *. cbn [app] in *.
      rewrite (run_attr w rest p P st c n (FCons None v kids f) F l nl) by done. f_equal.
      rewrite zlen_cons, zlen_app. change (zlen [_]) with 1. lia.
    + intros k' Hk'. cbn. rewrite lookup_insert_ne; [done|]. congruence.
  - exists P, st. change (print_name Byte.x20 None) with (@nil byte).
    change (zlen (@nil byte)) with 0. by rewrite Z.add_0_r.
Qed.

(** the parser between two tokens inside the open group [c] of the root [r] *)
Record ready (P : stackish_parser) (c r : loc) : Prop := Ready {
  rd_current : current P = Some c;
  rd_root : root P = Some r;
  rd_more : more P = 0
}.

(** The driver gets from [p] to [p'], adding the forest [f] to the open group. *)
Definition absorbs (k k' : nat) (P : stackish_parser) (p p' : Z) (st : store)
  (c r : loc) (n : Node) (f f0 : forest) (F0 : gset loc) : Prop :=
  exists P' st' ch F',
    seq_at k' 10 P p st = seq_at k 10 P' p' st' /\ ready P' c r /\
    opened st' c (set_child ch n) (fapp f f0) F' /\ keeps c st st' /\ newer st F0 F'.

Lemma set_child_id n : set_child (child n) n = n.
Proof. by destruct n. Qed.

Lemma set_child_twice a b n : set_child a (set_child b n) = set_child a n.
Proof. done. Qed.

Lemma absorbs_nil k P p st c r n f0 F0 :
  ready P c r -> opened st c n f0 F0 -> absorbs k k P p p st c r n FNil f0 F0.
Proof.
  intros Hr Ho. exists P, st, (child n), F0. rewrite set_child_id.
  split_and!; [done..|apply keeps_refl|]. intros l; auto.
Qed.

(** a step that creates [m] and may then name it changes nothing older *)
Lemma keeps_named c st s1 s2 m :
  (next st <= m)%positive -> keeps c st s1 -> next s2 = next s1 ->
  (forall l, l <> m -> nodes s2 !! l = nodes s1 !! l) -> keeps c st s2.
Proof.
  intros Hm [Hn Hk] Hnx Hag. split; [lia|]. intros l Hl Hc. rewrite Hag by lia. by apply Hk.
Qed.

Lemma newer_add st s1 F G : (next st <= next s1)%positive -> newer st F G ->
  newer st F ({[next s1]} ∪ ∅ ∪ G).
Proof. intros Hle HG l. rewrite !elem_of_union, elem_of_singleton. set_solver. Qed.

(** one more leaf after a forest that was absorbed *)
Lemma absorbs_leaf k k' P p q rest st c r n f f0 F0 nm v :
  leaf_ok v -> attr_ok nm ->
  at_pos buf q (print_value Byte.x20 nm v ++ print_name Byte.x20 nm ++ rest) ->
  absorbs (k + nblob v) k' P p q st c r n f f0 F0 ->
  absorbs k k' P p (q + zlen (print_value Byte.x20 nm v ++ print_name Byte.x20 nm))
    st c r n (FCons nm v FNil f) f0 F0.
Proof.
  intros Hv Hnm Hat (P1 & s1 & ch & F1 & E1 & [Hc1 Hr1 Hm1] & Ho1 & Hk1 & Hn1).
  destruct (seq_leaf k v nm _ q P1 s1 c r _ _ _ Hv Hat Hm1 Hc1 Hr1 Ho1) as (P2 & Hc2 & Hr2 & Hm2 & E2).
  pose proof (opened_leaf _ _ _ _ _ v Ho1) as Ho2.
  pose proof (at_pos_app _ _ _ _ Hat) as Hat2.
  destruct (seq_attr k nm v FNil _ _ P2 _ c r _ _ _ Hnm Hat2 Hm2 Hc2 Hr2 Ho2)
    as (P3 & s3 & Hc3 & Hr3 & Hm3 & E3 & Ho3 & Hnx & Hag).
  exists P3, s3, (Some (next s1)), ({[next s1]} ∪ ∅ ∪ F1). split_and!.
  - by rewrite E1, E2, E3, zlen_app, Z.add_assoc.
  - done.
  - done.
  - eapply keeps_trans; [done|].
    apply (keeps_named _ _ (add_node s1 c (set_child ch n) (type_of v) (value_of v)) _ (next s1));
      [lia | apply add_node_keeps | done |].
    intros l Hl. apply Hag. cbn. congruence.
  - apply newer_add; [apply Hk1|]. intros l Hl. apply Hn1. set_solver.
Qed.

(** Closing the group [m] opened under [c]: by a word, or by "]" and an attribute name. *)
Lemma seq_close k nm kids rest p P s1 c r n f F s4 ch Fk :
  let m := next s1 in
  let gm := mkNode None TYPE_GROUP VZero (Some c) (child n) None in
  let tail := print_value Byte.x20 nm FGrp ++ print_name Byte.x20 nm in
  group_ok nm -> at_pos buf p (tail ++ rest) -> ready P m r -> m <> r ->
  opened s1 c n f F -> opened s4 m (set_child ch gm) kids Fk ->
  keeps m (add_node s1 c n TYPE_GROUP VZero) s4 ->
  newer (add_node s1 c n TYPE_GROUP VZero) ∅ Fk ->
  exists P' st',
    seq_at k 10 P p s4 = seq_at k 10 P' (p + zlen tail) st' /\ ready P' c r /\
    opened st' c (set_child (Some m) n) (FCons nm FGrp kids f) ({[m]} ∪ Fk ∪ F) /\ keeps c s1 st'.
Proof.
  intros m gm tail Hnm Hat [Hc Hr Hm] Hmr Ho1 Ho4 Hk4 Hn4.
  pose proof (fun a => opened_close _ _ _ _ _ _ _ _ _ a Ho1 Ho4 Hk4 Hn4) as Hcl. fold m gm in Hcl.
  destruct Hnm as [Hattr|(w & -> & Hw)].
  - assert (print_value Byte.x20 nm FGrp = [Byte.x5d; Byte.x20]) as Ev.
    { cbn. destruct nm as [[|b w]|]; [done| |done]. by destruct b. }
    subst tail. rewrite Ev in *. rewrite <- app_assoc in Hat.
    destruct (Hcl None) as [Ho5 Hk5].
    set (P5 := set_current (Some c) P).
    pose proof (at_pos_app _ _ _ _ Hat) as Hat5. change (zlen [_; _]) with 2 in Hat5.
    destruct (seq_attr k nm FGrp kids rest (p + 2) P5 _ c r _ _ _ Hattr Hat5 Hm eq_refl Hr Ho5)
      as (P6 & s6 & Hc6 & Hr6 & Hm6 & E6 & Ho6 & Hnx & Hag).
    exists P6, s6. split_and!; [|done|done|].
    + rewrite zlen_app, Z.add_assoc. change (zlen [_; _]) with 2. rewrite <- E6.
      apply seq_at_run. rewrite (at_pos_run_eq _ _ Hat), (at_pos_run_eq _ _ Hat5). cbn [app].
      by rewrite (run_close_anon _ p P s4 m _ r Hc Hr Hmr (op_errno _ _ _ _ _ Ho4) (op_node _ _ _ _ _ Ho4)).
    + eapply (keeps_named _ _ _ _ m); [|exact Hk5|done|]; [lia|].
      intros l Hl. apply Hag. cbn. congruence.
  - assert (print_value Byte.x20 (Some w) FGrp = []) as Ev.
    { cbn. destruct w as [|b w]; [done|]. destruct Hw as [Hb _]. by destruct b. }
    subst tail. rewrite Ev in *. cbn [app print_name] in *.
    rewrite cstr_id in * by (by apply is_word_nul_free).
    destruct (Hcl (Some w)) as [Ho5 Hk5].
    exists (set_current (Some c) (set_mark p P)), (rename s4 m (set_child ch gm) (Some w)).
    split_and!; [|done|done|done]. apply seq_at_run.
    pose proof (at_pos_app _ _ _ _ Hat) as Hat5.
    rewrite (at_pos_run_eq _ _ Hat), (at_pos_run_eq _ _ Hat5). rewrite <- app_assoc in *. cbn [app] in *.
    rewrite (run_close_word w rest p P s4 m _ r Hw Hat Hc Hr Hmr (op_errno _ _ _ _ _ Ho4) (op_node _ _ _ _ _ Ho4)).
    f_equal. rewrite zlen_app. change (zlen [_]) with 1. lia.
Qed.

(** what absorbing a forest means, for every context *)
Definition absorbed (f : forest) : Prop :=
  forall k rest p P st c r n f0 F0,
  at_pos buf p (print_forest Byte.x20 f ++ rest) -> ready P c r -> (r < next st)%positive ->
  opened st c n f0 F0 ->
  absorbs k (k + nblobs f) P p (p + zlen (print_forest Byte.x20 f)) st c r n f f0 F0.

(** one more group: its children are absorbed by the new node *)
Lemma absorbs_group k k' P p q st c r n f f0 F0 nm kids rest :
  group_ok nm -> (r < next st)%positive -> absorbed kids ->
  let body := lit "[" ++ [Byte.x20] in
  let tail := print_value Byte.x20 nm FGrp ++ print_name Byte.x20 nm in
  at_pos buf q (body ++ print_forest Byte.x20 kids ++ tail ++ rest) ->
  absorbs (k + nblobs kids) k' P p q st c r n f f0 F0 ->
  absorbs k k' P p (q + zlen (body ++ print_forest Byte.x20 kids ++ tail))
    st c r n (FCons nm FGrp kids f) f0 F0.
Proof.
  intros Hnm Hrn IH body tail Hat (P1 & s1 & ch & F1 & E1 & [Hc1 Hr1 Hm1] & Ho1 & Hk1 & Hn1).
  set (m := next s1) in *. set (s2 := add_node s1 c (set_child ch n) TYPE_GROUP VZero).
  assert (Hrm : (r < m)%positive) by (destruct Hk1; subst m; lia).
  pose proof (at_pos_app _ _ _ _ Hat) as Hat2. change (zlen body) with 2 in Hat2.
  pose proof (at_pos_app _ _ _ _ Hat2) as Hat3.
  assert (Ho2 : opened s2 m (mkNode None TYPE_GROUP VZero (Some c) (child (set_child ch n)) None) FNil ∅).
  { constructor; [apply Ho1 | apply add_node_fresh; apply Ho1 | apply add_node_new; apply Ho1
                 | done | constructor | set_solver]. }
  destruct (IH k _ (q + 2) (set_current (Some m) P1) s2 m r _ FNil ∅ Hat2 (Ready (set_current (Some m) P1) m r eq_refl Hr1 Hm1)
              ltac:(cbn; lia) Ho2) as (P4 & s4 & ch4 & Fk & E4 & Hr4 & Ho4 & Hk4 & Hn4).
  assert (fapp kids FNil = kids) as Eapp by (clear; induction kids; cbn; congruence).
  rewrite Eapp in Ho4.
  destruct (seq_close k nm kids rest _ P4 s1 c r _ _ _ s4 ch4 Fk Hnm Hat3 Hr4 ltac:(lia) Ho1 Ho4 Hk4 Hn4)
    as (P5 & s5 & E5 & Hr5 & Ho5 & Hk5).
  exists P5, s5, (Some m), ({[m]} ∪ Fk ∪ F1). split_and!; [|done|done|by eapply keeps_trans|].
  - rewrite E1, !zlen_app. change (zlen body) with 2. rewrite !Z.add_assoc.
    transitivity (seq_at (k + nblobs kids) 10 (set_current (Some m) P1) (q + 2) s2); [|by rewrite E4, E5].
    apply seq_at_run. rewrite (at_pos_run_eq _ _ Hat), (at_pos_run_eq _ _ Hat2).
    by apply (run_start _ q P1 s1 c r _ _ _ Hc1 Hr1 Ho1).
  - destruct Hk1 as [Hnx _]. intros l. rewrite !elem_of_union, elem_of_singleton.
    intros [[->|Hl]|Hl]; [right; subst m; lia | | by apply Hn1].
    destruct (Hn4 l Hl) as [|Hx]; [set_solver|]. cbn in Hx. right. lia.
Qed.

Lemma parse_forest f : wf f -> absorbed f.
Proof.
  induction f as [|nm v kids IHk rest0 IHr]; intros Hwf k rest p P st c r n f0 F0 Hat Hr Hrn Ho.
  - change (zlen (print_forest Byte.x20 FNil)) with 0. cbn [nblobs]. rewrite Nat.add_0_r, Z.add_0_r.
    by apply absorbs_nil.
  - cbn [print_forest nblobs] in *.
    assert (Hwr : wf rest0) by (destruct v; apply Hwf).
    rewrite <- !app_assoc in Hat. pose proof (at_pos_app _ _ _ _ Hat) as Hat2.
    rewrite zlen_app, Z.add_assoc.
    assert (IHr' := IHr Hwr (k + nblob v + nblobs kids)%nat _ p P st c r n f0 F0 Hat Hr Hrn Ho).
    replace (k + (nblobs rest0 + (nblob v + nblobs kids)))%nat
      with (k + nblob v + nblobs kids + nblobs rest0)%nat by lia.
    destruct (decide (v = FGrp)) as [->|Hv].
    + destruct Hwf as (Hnm & Hwk & _).
      eapply (absorbs_group k _ P p _ st c r n rest0 f0 F0 nm kids rest Hnm Hrn (IHk Hwk)).
      * by rewrite <- !app_assoc in *.
      * by rewrite (Nat.add_0_r k : (k + nblob FGrp)%nat = k) in IHr' |- *.
    + assert (Hleaf : leaf_ok v /\ attr_ok nm /\ kids = FNil) by (destruct v; naive_solver).
      destruct Hleaf as (Hlv & Hnm & ->). cbn [nblobs] in *. rewrite Nat.add_0_r in *.
      assert ((match v with FGrp => lit "[" ++ [Byte.x20] | _ => [] end) = []) as E0 by (by destruct v).
      rewrite E0 in *. cbn [app print_forest] in *.
      by apply (absorbs_leaf k _ P p _ rest).
Qed.

(** ** The whole document *)

Lemma seq_root k P p st rest :
  at_pos buf p (Byte.x5b :: Byte.x20 :: rest) -> current P = None -> root P = None ->
  seq_at k 10 P p st
  = seq_at k 10 (set_current (Some (next st)) (set_root (Some (next st)) P)) (p + 2) (add_root st).
Proof.
  intros Hat Hc Hr. apply seq_at_run.
  pose proof (at_pos_app buf p [Byte.x5b; Byte.x20] rest Hat) as Hat2.
  change (zlen [_; _]) with 2 in Hat2.
  rewrite (at_pos_run_eq _ _ Hat), (at_pos_run_eq _ _ Hat2).
  rewrite (run_step Byte.x5b _ p 10 _ 10 [4]
    (set_current (Some (next st)) (set_root (Some (next st)) P), add_root st)); [|lia|done|done|].
  - rewrite run_space. f_equal. lia.
  - cbn [run_acts stackish_action]. unfold handle_start, Node_new_group, Node_create.
    rewrite Hc, Hr. done.
Qed.

(** closing the root ends the run *)
Lemma handle_word_root P st r gm nm :
  current P = Some r -> root P = Some r -> errno st = 0 -> nodes st !! r = Some gm ->
  handle_word P (Some (Some nm)) st = Ok (1, P, rename st r gm (Some nm)) /\
  handle_word P None st = Ok (1, P, rename st r gm None).
Proof.
  intros Hc Hr He Hm. unfold handle_word. rewrite Hc, Hr, !check_ok by done. cbn [negb].
  rewrite bool_decide_eq_true_2 by done.
  unfold Node_name. rewrite !assert_true, !bind_ret by done.
  by rewrite !(update_Some _ _ _ _ Hm), !bind_ret.
Qed.

(** where the machine stops when the root is closed: at the separator after a word, on
    the bracket itself otherwise *)
Definition stop_pos (nm : option bytes) : Z :=
  match nm with Some w => zlen w | None => 0 end.

Lemma seq_finish k nm rest p P st r gm kids F :
  nm = None \/ (exists w, nm = Some w /\ is_word w) ->
  at_pos buf p (print_value Byte.x20 nm FGrp ++ print_name Byte.x20 nm ++ rest) ->
  ready P r r -> opened st r gm kids F ->
  exists P', root P' = Some r /\ nread P' = p + stop_pos nm /\
    seq_at (S k) 10 P p st = Ok (Some tt, P', rename st r gm nm).
Proof.
  intros Hnm Hat [Hc Hr Hm] Ho.
  assert (Hfin : forall q P1, root P1 = Some r -> more P1 = 0 ->
    run (from_pos buf p) p 10 (P, st) = Ok (q, 10, (P1, rename st r gm nm)) ->
    seq_at (S k) 10 P p st = Ok (Some tt, set_pos 10 q P1, rename st r gm nm)).
  { intros q P1 Hr1 Hm1 E. unfold seq_at. rewrite E, bind_ret.
    rewrite check_ok; [|apply Ho|done]. cbn [blob_loop more set_pos]. by rewrite Hm1. }
  destruct Hnm as [->|(w & -> & Hw)].
  - exists (set_pos 10 (p + 0) P). split_and!; [done..|]. apply Hfin; [done..|].
    rewrite (at_pos_run_eq _ _ Hat), Z.add_0_r.
    apply (run_stop Byte.x5d _ p 10 _ 10 [7]); [lia|done|].
    cbn [run_acts stackish_action]. unfold handle_group.
    by rewrite (proj2 (handle_word_root P st r gm [] Hc Hr (op_errno _ _ _ _ _ Ho) (op_node _ _ _ _ _ Ho))).
  - exists (set_pos 10 (p + zlen w) (set_mark p P)). split_and!; [done..|]. apply Hfin; [done..|].
    assert (print_value Byte.x20 (Some w) FGrp = []) as Ev.
    { cbn. destruct w as [|b w]; [done|]. destruct Hw as [Hb _]. by destruct b. }
    rewrite Ev in Hat. cbn [app print_name] in Hat. rewrite cstr_id in Hat by (by apply is_word_nul_free).
    rewrite <- app_assoc in Hat. cbn [app] in Hat.
    rewrite (at_pos_run_eq _ _ Hat), run_word by done.
    pose proof (at_pos_token_len _ _ _ Hat). pose proof (zlen_nonneg w).
    apply (run_stop Byte.x20 _ _ 13 _ 10 [6]); [lia|done|].
    cbn [run_acts stackish_action]. rewrite (LEN_mark _ _ (zlen w)) by (done || lia).
    cbn [mark set_mark]. rewrite (blk2bstr_at _ _ _ Hat) by lia.
    by rewrite (proj1 (handle_word_root (set_mark p P) st r gm w Hc Hr
                         (op_errno _ _ _ _ _ Ho) (op_node _ _ _ _ _ Ho))).
Qed.

Lemma parse_document k nm kids rest from st :
  nm = None \/ (exists w, nm = Some w /\ is_word w) -> wf kids ->
  let t := FCons nm FGrp kids FNil in
  at_pos buf from (print_forest Byte.x20 t ++ rest) -> ends_in_space buf = true ->
  errno st = 0 -> fresh st ->
  exists st' F,
    Node_parse_seq (S k + nblobs kids) buf from st
    = Ok (Some (next st),
          (let q := from + 2 + zlen (print_forest Byte.x20 kids) + stop_pos nm + 1 in
           q + skip_nl (from_pos buf q)), st') /\
    rep true (nodes st') None (Some (next st)) t F /\
    errno st' = 0 /\ fresh st' /\ keeps (next st) st st' /\ newer st ∅ F.
Proof.
  intros Hnm Hwf t Hat Hend He Hf.
  assert (Hat1 : at_pos buf from (Byte.x5b :: Byte.x20 :: print_forest Byte.x20 kids
                   ++ print_value Byte.x20 nm FGrp ++ print_name Byte.x20 nm ++ rest)).
  { subst t. cbn [print_forest app] in Hat. rewrite <- !app_assoc in Hat. exact Hat. }
  pose proof (add_root_opened st He Hf) as Ho1.
  set (P1 := set_current (Some (next st)) (set_root (Some (next st)) stackish_parser_init)).
  pose proof (at_pos_app buf from [Byte.x5b; Byte.x20] _ Hat1) as Hat2.
  change (zlen [_; _]) with 2 in Hat2.
  destruct (parse_forest kids Hwf (S k) _ (from + 2) P1 (add_root st) (next st) (next st) _ FNil ∅ Hat2
              (Ready P1 (next st) (next st) eq_refl eq_refl eq_refl) ltac:(cbn; lia) Ho1)
    as (P4 & s4 & ch & F & E4 & Hr4 & Ho4 & Hk4 & Hn4).
  pose proof (at_pos_app _ _ _ _ Hat2) as Hat4.
  destruct (seq_finish k nm _ _ P4 s4 _ _ _ _ Hnm Hat4 Hr4 Ho4) as (P5 & Hr5 & Hp5 & E5).
  assert (Eapp : fapp kids FNil = kids) by (clear; induction kids; cbn; congruence).
  rewrite Eapp in Ho4.
  assert (Hst : seq_at (S k + nblobs kids) 10 stackish_parser_init from st
                = Ok (Some tt, P5, rename s4 (next st) (set_child ch (mkNode None TYPE_GROUP VZero None None None)) nm)).
  { rewrite (seq_root _ stackish_parser_init from st _ Hat1 eq_refl eq_refl). fold P1. by rewrite E4, E5. }
  set (s5 := rename _ _ _ _) in Hst.
  assert (HnF : next st ∉ F) by apply Ho4.
  destruct Hk4 as [Hnx Hag]. cbn in Hnx.
  exists s5, ({[next st]} ∪ F ∪ ∅). split_and!.
  - unfold Node_parse_seq. rewrite check_ok by done. cbn [negb].
    pose proof (at_pos_bound _ _ _ _ Hat1).
    rewrite <- (seq_at_execute _ stackish_parser_init from) in Hst by lia.
    apply bind_Ok in Hst as ([P' s'] & -> & Hst). rewrite bind_ret.
    destruct (check s' _) as [[] s'']; [cbn [negb]|by simplify_eq].
    rewrite Hst, bind_ret. cbv zeta. by rewrite Hp5, Hr5.
  - subst t. change nm with (name (set_name nm (set_child ch (mkNode None TYPE_GROUP VZero None None None)))).
    subst s5. unfold rename; cbn [nodes set_nodes].
    eapply rep_cons; [apply lookup_insert_eq | done.. | | constructor | done | set_solver | set_solver].
    eapply rep_frame; [apply Ho4|]. intros l Hl. by rewrite lookup_insert_ne by set_solver.
  - apply Ho4.
  - apply rename_fresh; apply Ho4.
  - split; cbn; [lia|]. intros l Hl Hlc. rewrite lookup_insert_ne by done.
    rewrite Hag by (cbn; lia). cbn. by rewrite lookup_insert_ne by lia.
  - intros l. rewrite !elem_of_union, elem_of_singleton. intros [[->|Hl]|Hl]; [right; lia| |set_solver].
    destruct (Hn4 l Hl) as [|Hx]; [set_solver|]. cbn in Hx. right; lia.
Qed.

End Token.

End StackishRt.
