(* ===== verification/StackishProps.v ===== *)
(** * StackishProps: the properties of the stackish reader and printer

    Round trips between a tree in the store and its text, the position the reader
    reports, and the inputs on which the reader does not survive. *)

From Stdlib Require Import ZArith Lia Floats.SpecFloat.
From S2P Require Import Prelude Cstdlib Ragel Node Stackish NodeRep NodeOpen StackishDfa StackishRt.
Import Cstdlib Ragel Node Stackish NodeRep NodeOpen StackishDfa StackishRt.
Local Open Scope Z_scope.

Module StackishProps.

(** ** Reading documents *)

Lemma nblobs_print f : (nblobs f <= length (print_forest Byte.x20 f))%nat.
Proof.
  induction f as [|nm v kids IHk rest IHr]; cbn [nblobs print_forest]; [lia|].
  rewrite !length_app. assert (nblob v <= length (print_value Byte.x20 nm v))%nat; [|lia].
  destruct v; cbn; try lia. rewrite !length_app. case_match; cbn; lia.
Qed.

Lemma at_pos_prefix pre text : at_pos (pre ++ text) (zlen pre) text.
Proof. split; [apply zlen_nonneg|]. unfold from_pos, zlen. by rewrite Nat2Z.id, drop_app_length. Qed.

(** a store extended by the nodes [F] of a new tree *)
Definition extends_by (F : gset loc) (st st' : store) : Prop :=
  nodes st ⊆ nodes st' /\ F ## dom (nodes st).

Lemma keeps_extends st st' F :
  fresh st -> keeps (next st) st st' -> newer st ∅ F -> extends_by F st st'.
Proof.
  intros Hf [_ Hk] Hn. split.
  - apply map_subseteq_spec. intros l n Hl. pose proof (fresh_lt _ _ _ Hf Hl).
    rewrite Hk by lia. done.
  - intros l HF [n Hl]%elem_of_dom. pose proof (fresh_lt _ _ _ Hf Hl).
    destruct (Hn l HF) as [|Hx]; [set_solver | lia].
Qed.

(** names a root can have in a text *)
Definition root_name (nm : option bytes) : Prop :=
  nm = None \/ exists w, nm = Some w /\ is_word w.

Lemma parse_at nm kids pre rest st :
  let t := FCons nm FGrp kids FNil in
  let buf := pre ++ print_forest Byte.x20 t ++ rest in
  root_name nm -> wf kids -> zlen buf < 2 ^ 31 -> ends_in_space buf = true ->
  errno st = 0 -> fresh st ->
  exists st' F,
    Node_parse_seq (parse_fuel buf) buf (zlen pre) st
    = Ok (Some (next st),
          (let q := zlen pre + 2 + zlen (print_forest Byte.x20 kids) + stop_pos nm + 1 in
           q + skip_nl (from_pos buf q)), st') /\
    rep true (nodes st') None (Some (next st)) t F /\
    errno st' = 0 /\ fresh st' /\ extends_by F st st'.
Proof.
  intros t buf Hnm Hwf Hlen Hend He Hf.
  assert (Hk : (nblobs kids <= length buf)%nat).
  { subst buf t. cbn [print_forest]. pose proof (nblobs_print kids).
    rewrite !length_app. lia. }
  destruct (parse_document buf Hlen (length buf - nblobs kids) nm kids rest (zlen pre) st Hnm Hwf
              (at_pos_prefix _ _) Hend He Hf) as (st' & F & E & Hr & He' & Hf' & Hkeep & Hnew).
  exists st', F. split_and!; [|done..|by apply keeps_extends].
  rewrite <- E. unfold parse_fuel. f_equal. lia.
Qed.

Lemma print_word_root w kids :
  is_word w ->
  print_forest Byte.x20 (FCons (Some w) FGrp kids FNil)
  = lit "[ " ++ print_forest Byte.x20 kids ++ w ++ [Byte.x20].
Proof.
  intros Hw. cbn [print_forest print_name]. rewrite cstr_id by (by apply is_word_nul_free).
  assert (print_value Byte.x20 (Some w) FGrp = []) as ->; [|done].
  destruct w as [|b w]; [done|]. destruct Hw as [Hb _]. by destruct b.
Qed.

(** C1: [Node_parse_seq] reads back the text of any tree the grammar can express, wherever
    the text stands in the buffer and whatever the store holds: it terminates, returns a
    new root whose tree is the printed one with every parent link right, leaves [from] at
    the first byte after the text and the newlines behind it, and changes no node that was
    there before. *)
Theorem parse_seq_print w kids pre rest st :
  let t := FCons (Some w) FGrp kids FNil in
  let text := print_forest Byte.x20 t in
  let buf := pre ++ text ++ rest in
  is_word w -> wf kids -> zlen buf < 2 ^ 31 -> ends_in_space buf = true ->
  errno st = 0 -> fresh st ->
  exists l st' F,
    Node_parse_seq (parse_fuel buf) buf (zlen pre) st
    = Ok (Some l, zlen pre + zlen text + skip_nl rest, st') /\
    rep true (nodes st') None (Some l) t F /\
    errno st' = 0 /\ fresh st' /\ extends_by F st st'.
Proof.
  intros t text buf Hw Hwf Hlen Hend He Hf.
  destruct (parse_at (Some w) kids pre rest st) as (st' & F & E & H);
    [right; eauto | done.. |].
  exists (next st), st', F. split; [|done]. fold t text buf in E. rewrite E. cbv zeta.
  assert (Hp : zlen pre + 2 + zlen (print_forest Byte.x20 kids) + stop_pos (Some w) + 1
          = zlen (pre ++ text)).
  { subst text t. rewrite print_word_root, !zlen_app by done. cbn [stop_pos].
    change (zlen (lit "[ ")) with 2. change (zlen [_]) with 1. lia. }
  rewrite Hp. do 3 f_equal. rewrite zlen_app.
  subst buf. rewrite app_assoc, <- zlen_app.
  by rewrite (proj2 (at_pos_prefix (pre ++ text) rest)).
Qed.

(** a number, a blob with every kind of byte, a nested group and attributes *)
Definition sample_kids : forest :=
  FCons (Some (lit "@k")) FGrp (FCons None (FNum 7) FNil FNil)
    (FCons None (FBlob [Byte.x27; Byte.x00; Byte.xff]) FNil
      (FCons (Some (lit "@n")) (FStr (lit "a b")) FNil FNil)).

Lemma parse_seq_print_witness :
  exists l st' F,
    let buf := lit "[ 1 x " ++ print_forest Byte.x20 (FCons (Some (lit "doc")) FGrp sample_kids FNil)
                 ++ [Byte.x0a] in
    Node_parse_seq (parse_fuel buf) buf 6 empty_store = Ok (Some l, 39, st') /\
    rep true (nodes st') None (Some l) (FCons (Some (lit "doc")) FGrp sample_kids FNil) F.
Proof.
  destruct (parse_seq_print (lit "doc") sample_kids (lit "[ 1 x ") [Byte.x0a] empty_store)
    as (l & st' & F & E & H & _).
  - cbn. repeat constructor.
  - apply (bool_decide_unpack _). vm_compute. exact I.
  - vm_compute. reflexivity.
  - vm_compute. reflexivity.
  - reflexivity.
  - intros l _. apply lookup_empty.
  - exists l, st', F. split; [|exact H]. exact E.
Defined.

Lemma forest_vals_ok f : wf f -> vals_ok f.
Proof.
  induction f as [|nm v kids IHk rest IHr]; [done|]. intros Hwf; cbn.
  destruct v; cbn in Hwf |- *; destruct Hwf as (H1 & H2 & H3); try (destruct H3 as [-> H3]);
    split_and!; auto; try lia; exact I.
Qed.

(** C15: printing a tree and parsing the result gives the tree again: [Node_bstr] succeeds on
    every well-formed tree of the store, [Node_parse] of its output succeeds, and the new
    root holds an equal tree, disjoint from the printed one, which is left as it was. *)
Theorem bstr_parse st l w kids F :
  let t := FCons (Some w) FGrp kids FNil in
  rep true (nodes st) None (Some l) t F -> is_word w -> wf kids ->
  zlen (print_forest Byte.x20 t) < 2 ^ 31 - 1 -> errno st = 0 -> fresh st ->
  exists text l' st' F',
    Node_bstr st (Some l) true = Ok text /\
    Node_parse text st = Ok (Some l', st') /\
    rep true (nodes st') None (Some l') t F' /\
    rep true (nodes st') None (Some l) t F /\ F ## F'.
Proof.
  intros t Hr Hw Hwf Hlen He Hf.
  assert (Hok : vals_ok t) by (cbn; split_and!; auto using forest_vals_ok).
  exists (print_forest Byte.x20 t ++ [Byte.x0a]).
  destruct (parse_at (Some w) kids [] [Byte.x0a] st) as (st' & F' & E & Hr' & _ & _ & Hsub & Hdisj).
  - right; eauto.
  - done.
  - cbn [app]. fold t. rewrite zlen_app. change (zlen [_]) with 1. lia.
  - cbn [app]. unfold ends_in_space. fold t. rewrite zlen_app. change (zlen [_]) with 1.
    assert (bchar (Some (print_forest Byte.x20 t ++ [Byte.x0a])) (zlen (print_forest Byte.x20 t) + 1 - 1)
            = Byte.x0a) as ->; [|done].
    unfold bchar. pose proof (zlen_nonneg (print_forest Byte.x20 t)).
    rewrite zlen_app. change (zlen [_]) with 1. rewrite (proj2 (Z.leb_le _ _)), (proj2 (Z.ltb_lt _ _)) by lia.
    cbn [andb]. replace (Z.to_nat _) with (length (print_forest Byte.x20 t)) by (unfold zlen; lia).
    by rewrite list_lookup_middle.
  - done.
  - done.
  - exists (next st), st', F'. fold t in Hr', E. cbn [app] in E. split_and!.
    + by apply (Node_bstr_spec true st None l t F).
    + unfold Node_parse. change 0 with (zlen (@nil byte)). by rewrite E.
    + done.
    + eapply rep_frame; [done|]. intros k Hk. apply (rep_dom _ _ _ _ _ _ Hr) in Hk.
      apply elem_of_dom in Hk as [n Hn]. rewrite Hn. by apply (lookup_weaken _ _ _ _ Hn).
    + pose proof (rep_dom _ _ _ _ _ _ Hr). set_solver.
Qed.

Lemma sample_fresh : fresh sample_store.
Proof.
  intros l Hl. cbn in Hl. cbn [nodes sample_store].
  rewrite lookup_insert_ne, lookup_singleton_ne by lia. done.
Qed.

Lemma bstr_parse_witness :
  exists text l' st' F',
    Node_bstr sample_store (Some 1%positive) true = Ok text /\
    Node_parse text sample_store = Ok (Some l', st') /\
    rep true (nodes st') None (Some l')
      (FCons (Some (lit "doc")) FGrp (FCons (Some (lit "@n")) (FNum 7) FNil FNil) FNil) F'.
Proof.
  destruct (bstr_parse sample_store 1%positive (lit "doc") (FCons (Some (lit "@n")) (FNum 7) FNil FNil) _ sample_rep)
    as (text & l' & st' & F' & H1 & H2 & H3 & _).
  - cbn. repeat constructor.
  - apply (bool_decide_unpack _). vm_compute. exact I.
  - vm_compute. reflexivity.
  - reflexivity.
  - apply sample_fresh.
  - exists text, l', st', F'. auto.
Defined.

(** a document whose root has no name is read as printed, but the reader stops on the
    closing bracket: the reported position is the separator behind it, one byte before
    the end of the text, and newlines behind the text are not skipped. *)
Theorem parse_seq_anonymous kids pre rest st :
  let t := FCons None FGrp kids FNil in
  let text := print_forest Byte.x20 t in
  let buf := pre ++ text ++ rest in
  wf kids -> zlen buf < 2 ^ 31 -> ends_in_space buf = true -> errno st = 0 -> fresh st ->
  exists l st' F,
    Node_parse_seq (parse_fuel buf) buf (zlen pre) st
    = Ok (Some l, zlen pre + zlen text - 1, st') /\
    rep true (nodes st') None (Some l) t F /\ extends_by F st st'.
Proof.
  intros t text buf Hwf Hlen Hend He Hf.
  destruct (parse_at None kids pre rest st) as (st' & F & E & Hr & _ & _ & Hx); [by left | done.. |].
  exists (next st), st', F. split; [|done]. fold t text buf in E. rewrite E. cbv zeta.
  assert (Et : text = (lit "[ " ++ print_forest Byte.x20 kids ++ lit "]") ++ [Byte.x20]).
  { subst text t. cbn. by rewrite <- !app_assoc. }
  assert (Hp : zlen pre + 2 + zlen (print_forest Byte.x20 kids) + stop_pos None + 1
          = zlen (pre ++ lit "[ " ++ print_forest Byte.x20 kids ++ lit "]")).
  { rewrite !zlen_app. cbn [stop_pos]. change (zlen (lit "[ ")) with 2. change (zlen (lit "]")) with 1. lia. }
  rewrite Hp. subst buf. rewrite Et.
  replace (pre ++ ((lit "[ " ++ print_forest Byte.x20 kids ++ lit "]") ++ [Byte.x20]) ++ rest)
    with ((pre ++ lit "[ " ++ print_forest Byte.x20 kids ++ lit "]") ++ Byte.x20 :: rest)
    by (by rewrite <- !app_assoc).
  rewrite (proj2 (at_pos_prefix _ _)). do 3 f_equal. cbn [skip_nl].
  rewrite !zlen_app. change (zlen [_]) with 1. lia.
Qed.

Lemma parse_seq_anonymous_witness :
  exists l st', Node_parse_seq 9 (lit "[ 1 ] " ++ [Byte.x0a; Byte.x0a]) 0 empty_store = Ok (Some l, 5, st').
Proof.
  destruct (parse_seq_anonymous (FCons None (FNum 1) FNil FNil) [] [Byte.x0a; Byte.x0a] empty_store)
    as (l & st' & F & E & _).
  - apply (bool_decide_unpack _). vm_compute. exact I.
  - vm_compute. reflexivity.
  - vm_compute. reflexivity.
  - reflexivity.
  - intros l _. apply lookup_empty.
  - exists l, st'. exact E.
Defined.

(** C22: the two binary searches over the generated tables compute the documented machine in
    every state and for every byte, and no table is read outside its bounds. *)
Theorem tables_are_machine cs b :
  1 <= cs <= 14 ->
  transition stackish_tables cs (sv b) = Ok (machine cs b) /\ 0 <= (machine cs b).1 <= 14.
Proof. intros H. split; [by apply transition_machine | apply machine_range]. Qed.

Lemma tables_are_machine_witness :
  transition stackish_tables 14 (sv Byte.x5d) = Ok (10, [1; 7]) /\ 0 <= 10 <= 14.
Proof. exact (tables_are_machine 14 Byte.x5d ltac:(lia)). Defined.

(** ** Inputs the reader does not survive *)

(** the first run of the machine decides *)
Lemma parse_seq_run buf k st :
  0 < zlen buf -> ends_in_space buf = true -> errno st = 0 ->
  Node_parse_seq k buf 0 st
  = ('(p, c, (P, st)) ← exec stackish_tables (stackish_action buf) buf 0 10 (stackish_parser_init, st);
     let P := set_pos c p P in
     let '(ok, st) := check st (negb (stackish_parser_has_error P)) in
     if negb ok then '(_, st) ← stackish_node_clear P st; Ok (None, nread P + 1, st) else
     '(r, P, st) ← blob_loop k P buf st;
     match r with
     | None => '(_, st) ← stackish_node_clear P st; Ok (None, nread P + 1, st)
     | Some _ =>
       let from' := nread P + 1 in
       Ok (root P, from' + skip_nl (from_pos buf from'), st)
     end).
Proof.
  intros Hlen Hend He. unfold Node_parse_seq. rewrite check_ok by done. cbn [negb].
  rewrite execute_run by lia. change (from_pos buf 0) with buf.
  change (cs stackish_parser_init) with 10.
  destruct (exec _ _ _ _ _ _) as [[[p c] [P' st']]|]; done.
Qed.

(** an attribute name before any group is a NULL dereference: [handle_attr] reads
    [parser->current->child] without the check the other handlers make. *)
Theorem attr_first_crashes w rest k st :
  let buf := Byte.x40 :: w ++ Byte.x20 :: rest in
  is_word w -> ends_in_space buf = true -> errno st = 0 ->
  Node_parse_seq k buf 0 st = Fault NullDeref.
Proof.
  intros buf Hw Hend He.
  rewrite parse_seq_run; [| subst buf; rewrite zlen_cons; pose proof (zlen_nonneg (w ++ Byte.x20 :: rest)); lia | done..].
  subst buf. rewrite run_attr_name by done. cbn [exec].
  rewrite transition_machine by lia. done.
Qed.

Lemma attr_first_crashes_witness : Node_parse_seq 5 (lit "@x ") 0 empty_store = Fault NullDeref.
Proof.
  apply (attr_first_crashes (lit "x") [] 5 empty_store).
  - cbn. repeat constructor.
  - reflexivity.
  - reflexivity.
Defined.

(** the state of the parser after "[ " at the start of a buffer *)
Definition after_start (st : store) : stackish_parser :=
  set_current (Some (next st)) (set_root (Some (next st)) stackish_parser_init).

Lemma run_first_start buf rest st :
  exec stackish_tables (stackish_action buf) (Byte.x5b :: Byte.x20 :: rest) 0 10
    (stackish_parser_init, st)
  = exec stackish_tables (stackish_action buf) rest 2 10 (after_start st, add_root st).
Proof.
  rewrite (run_step buf Byte.x5b _ 0 10 _ 10 [4] (after_start st, add_root st)); [|lia|done|done|done].
  by rewrite run_space.
Qed.

(** a blob that claims at least as many bytes as follow it aborts the process: the only
    bound check on the length is an [assert]. *)
Theorem short_blob_aborts m rest k st :
  let buf := lit "[ " ++ (Byte.x27 :: print_dec m) ++ Byte.x3a :: rest in
  zlen rest <= m -> 0 < m -> zlen buf < 2 ^ 31 -> m < 2 ^ 63 ->
  ends_in_space buf = true -> errno st = 0 ->
  Node_parse_seq (S k) buf 0 st = Fault AssertFail.
Proof.
  intros buf Hm Hm0 Hlen Hm63 Hend He. pose proof (zlen_nonneg rest).
  pose proof (zlen_nonneg (print_dec m)).
  assert (Hbl : zlen buf = 4 + zlen (print_dec m) + zlen rest).
  { subst buf. rewrite !zlen_app, !zlen_cons. change (zlen (lit "[ ")) with 2. lia. }
  assert (Hat : at_pos buf 2 ((Byte.x27 :: print_dec m) ++ Byte.x3a :: rest)) by apply (at_pos_prefix (lit "[ ")).
  rewrite parse_seq_run by (done || lia).
  replace (exec stackish_tables (stackish_action buf) buf 0 10 (stackish_parser_init, st))
    with (exec stackish_tables (stackish_action buf) ((Byte.x27 :: print_dec m) ++ Byte.x3a :: rest)
            2 10 (after_start st, add_root st)).
  2:{ unfold buf at 3. change (lit "[ ") with [Byte.x5b; Byte.x20]. cbn [app]. by rewrite run_first_start. }
  rewrite (run_blob_header buf m rest 2 _ _ Hat) by lia.
  rewrite (proj2 (Z.ltb_lt _ _)), bind_ret by done. cbv zeta.
  rewrite check_ok by done. cbn [negb blob_loop more nread cs set_pos set_mark set_more].
  unfold stackish_parser_is_finished. cbn [cs set_pos].
  rewrite (proj2 (Z.eqb_neq m 0)), (proj2 (Z.ltb_lt _ _)) by lia. cbn [negb andb Z.eqb].
  change (negb (5 =? stackish_parser_first_final)) with true. cbv iota.
  rewrite u64_small by lia. unfold assert_. rewrite (proj2 (Z.ltb_ge _ _)) by lia. done.
Qed.

Lemma short_blob_aborts_witness :
  Node_parse_seq 7 (lit "[ '99:abc' x ") 0 empty_store = Fault AssertFail.
Proof. apply (short_blob_aborts 99 (lit "abc' x ") 6 empty_store); vm_compute; congruence. Defined.

Lemma strtoull_overflow ds b rest :
  digits ds -> is_digit b = false -> 2 ^ 64 <= dec_value ds ->
  strtoull (ds ++ b :: rest) = Conv (2 ^ 64 - 1) (zlen ds) ERANGE.
Proof.
  intros Hd Hb Hv. pose proof (span_app is_digit ds b rest Hd Hb) as Hs.
  destruct ds as [|d ds]; [by cbn in Hv|]. apply Forall_cons_1 in Hd as [Hd _].
  assert (Hsp : is_space d = false) by (unfold is_digit in Hd; unfold is_space; lia).
  unfold strtoull. cbn [app]. rewrite skip_space_none by done.
  assert (skip_sign (d :: ds ++ b :: rest) = (d :: ds ++ b :: rest, 0, false)) as -> by (by destruct d).
  cbn [app] in Hs. rewrite Hs. rewrite (proj2 (Z.leb_le _ _)) by lia. done.
Qed.

(** a number that does not fit 64 bits is not a parse error: the reader gives up in the
    middle of the document but returns the unfinished root as if it were complete, without
    the number and without anything that follows it. *)
Theorem number_overflow_accepted ds rest k st :
  let buf := lit "[ " ++ ds ++ Byte.x20 :: rest in
  digits ds -> 2 ^ 64 <= dec_value ds -> ends_in_space buf = true -> errno st = 0 -> fresh st ->
  exists l st' F,
    Node_parse_seq (S k) buf 0 st = Ok (Some l, 3 + zlen ds + skip_nl rest, st') /\
    rep true (nodes st') None (Some l) (FCons None FGrp FNil FNil) F.
Proof.
  intros buf Hd Hv Hend He Hf. pose proof (zlen_nonneg rest). pose proof (zlen_nonneg ds).
  assert (Hbl : zlen buf = 3 + zlen ds + zlen rest).
  { subst buf. rewrite !zlen_app, zlen_cons. change (zlen (lit "[ ")) with 2. lia. }
  assert (Hne : ds <> []) by (intros ->; by cbn in Hv).
  assert (Hrun : exec stackish_tables (stackish_action buf) buf 0 10 (stackish_parser_init, st)
                 = Ok (2 + zlen ds, 10, (set_mark 2 (after_start st), add_root st))).
  { unfold buf at 2. change (lit "[ ") with [Byte.x5b; Byte.x20]. cbn [app]. rewrite run_first_start.
    rewrite (run_digits buf ds _ 2 _ (after_start st) (add_root st)) by done.
    apply (run_stop buf Byte.x20 rest _ 14 _ 10 [1]); [lia|done|].
    cbn [run_acts stackish_action]. unfold push, handle_push. cbn [current root set_mark after_start set_current set_root].
    rewrite !check_ok by done. cbn [negb].
    erewrite load_Some by (cbn; apply lookup_insert_eq). rewrite bind_ret, check_ok by done.
    cbn [negb Node_from_str mark set_mark].
    pose proof (proj2 (at_pos_prefix (lit "[ ") (ds ++ Byte.x20 :: rest))) as Hfp.
    change (zlen (lit "[ ")) with 2 in Hfp. fold buf in Hfp. rewrite Hfp, strtoull_overflow by done.
    cbn [c_errno Z.eqb ERANGE]. unfold check. cbn [errno set_errno].
    change (34 =? 0) with false. rewrite andb_false_r. rewrite !bind_ret. unfold set_errno; cbn.
    unfold add_root. by rewrite He. }
  eexists (next st), _, ({[next st]} ∪ ∅ ∪ ∅). split.
  - rewrite parse_seq_run, Hrun, bind_ret by (done || lia). cbv zeta.
    rewrite check_ok by done. cbn [negb blob_loop more set_pos set_mark after_start set_current set_root stackish_parser_init Z.eqb andb].
    rewrite bind_ret. cbn [nread set_pos root set_mark].
    replace (2 + zlen ds + 1) with (zlen ((lit "[ " ++ ds) ++ [Byte.x20]))
      by (rewrite !zlen_app; change (zlen (lit "[ ")) with 2; change (zlen [_]) with 1; lia).
    replace buf with (((lit "[ " ++ ds) ++ [Byte.x20]) ++ rest) by (subst buf; by rewrite <- !app_assoc).
    rewrite (proj2 (at_pos_prefix _ _)). do 3 f_equal.
    rewrite !zlen_app; change (zlen (lit "[ ")) with 2; change (zlen [_]) with 1; lia.
  - change (@None bytes) with (name (mkNode None TYPE_GROUP VZero None None None)).
    eapply rep_cons; [cbn; apply lookup_insert_eq | done | done | done | constructor | constructor | set_solver..].
Qed.

Lemma number_overflow_accepted_witness :
  exists l st' F,
    Node_parse_seq 1 (lit "[ 99999999999999999999 x ") 0 empty_store = Ok (Some l, 23, st') /\
    rep true (nodes st') None (Some l) (FCons None FGrp FNil FNil) F.
Proof.
  apply (number_overflow_accepted (lit "99999999999999999999") (lit "x ") 0 empty_store).
  - repeat constructor.
  - vm_compute. congruence.
  - reflexivity.
  - reflexivity.
  - intros l _. apply lookup_empty.
Defined.

(** ** A blob length that wraps around *)

(** 2^64 - 24: added to the position of its own colon it gives the position of the closing
    quote of the empty blob before it *)
Definition loop_text : bytes := lit "[ '0:' '18446744073709551592: ".
Definition loop_more : Z := 2 ^ 64 - 24.

Record looping (P : stackish_parser) (st : store) (c : loc) (n : Node) : Prop := Looping {
  lp_current : current P = Some c;
  lp_root : root P = Some c;
  lp_errno : errno st = 0;
  lp_node : nodes st !! c = Some n;
  lp_group : type n = TYPE_GROUP;
  lp_fresh : fresh st
}.

(** from the closing quote back to the second blob's colon, one NULL blob richer *)
Lemma loop_round P st c n :
  looping P st c n -> mark P = 29 ->
  let st' := add_node st c n TYPE_BLOB (VString None) in
  exists P', exec stackish_tables (stackish_action loop_text) (from_pos loop_text 5) 5 5 (P, st)
             = Ok (28, 5, (P', st')) /\ mark P' = 29 /\ more P' = loop_more /\
             looping P' st' c (set_child (Some (next st)) n).
Proof.
  intros [Hc Hr He Hn Hg Hf] Hm st'.
  exists (set_mark 29 (set_more loop_more (set_mark 8 (set_more 0 P)))).
  split_and!; [|done|done|].
  - change (from_pos loop_text 5) with (Byte.x27 :: Byte.x20 :: lit "'18446744073709551592: ").
    rewrite (run_step loop_text Byte.x27 _ 5 5 _ 10 [5] (set_more 0 P, st')); [|lia|done|done|].
    + rewrite run_space.
      change (lit "'18446744073709551592: ") with ((Byte.x27 :: print_dec loop_more) ++ Byte.x3a :: [Byte.x20]).
      rewrite (run_blob_header loop_text loop_more [Byte.x20] (5 + 1 + 1)); [done|done|done].
    + cbn [run_acts stackish_action]. unfold push, LEN. rewrite Hm.
      rewrite (handle_push_ok loop_text P TYPE_BLOB 29 (u64 (5 - 29)) st c c n (next st) st'); [done..|].
      cbn [Node_from_str]. unfold Node_new_blob.
      change (blk2bstr loop_text 29 (u64 (5 - 29))) with (@None bytes).
      by rewrite (new_node_spec _ _ _ _ _ Hn Hf).
  - constructor; try done.
    + cbn. by rewrite lookup_insert_eq.
    + by apply add_node_fresh.
Qed.

Lemma loop_forever k P st c n :
  looping P st c n -> mark P = 29 -> more P = loop_more -> cs P = 5 -> nread P = 28 ->
  blob_loop k P loop_text st = Fault NoFuel.
Proof.
  revert P st n; induction k as [|k IH]; intros P st n HL Hmk Hmo Hcs Hnr; [done|].
  destruct (loop_round P st c n HL Hmk) as (P' & E & Hmk' & Hmo' & HL').
  cbn [blob_loop]. unfold stackish_parser_is_finished. rewrite Hcs, Hnr, Hmo.
  change (negb (loop_more =? 0) && negb (5 =? stackish_parser_first_final) && (28 <? zlen loop_text)) with true.
  cbv iota. change (u64 (28 + loop_more + 1)) with 5.
  change (assert_ (5 <? zlen loop_text)) with (Ok tt). rewrite bind_ret.
  rewrite (execute_run loop_text P 5) by (vm_compute; intuition congruence). rewrite Hcs, E, !bind_ret.
  rewrite check_ok; [|apply HL'|done].
  eapply (IH (set_pos 5 28 P')); try done. destruct HL'; by constructor.
Qed.

(** C33: there is a 30-byte document on which [Node_parse_seq] never returns: the length of
    its blob wraps the offset around to an earlier quote, so the same blob is read for
    ever, allocating a node each time.  No amount of fuel is enough. *)
Theorem wrapped_blob_diverges fuel :
  Node_parse_seq fuel loop_text 0 empty_store = Fault NoFuel.
Proof.
  rewrite parse_seq_run by done.
  destruct (exec _ _ loop_text 0 10 _) as [[[p c] [P st]]|] eqn:E; [|by vm_compute in E].
  assert (HE : exec stackish_tables (stackish_action loop_text) loop_text 0 10 (stackish_parser_init, empty_store)
          = Ok (28, 5, (mkParser 10 loop_more 0 29 (Some 1%positive) (Some 1%positive),
                add_node (add_root empty_store) 1%positive (mkNode None TYPE_GROUP VZero None None None)
                  TYPE_BLOB (VString (Some []))))) by (vm_compute; reflexivity).
  rewrite E in HE. injection HE as -> -> -> ->. rewrite bind_ret. cbv zeta.
  rewrite check_ok by done. cbn [negb].
  rewrite (loop_forever fuel _ _ 1%positive
             (set_child (Some 2%positive) (mkNode None TYPE_GROUP VZero None None None))); [done| |done..].
  constructor; try done. apply add_node_fresh; [|done].
  apply (add_root_opened empty_store); [done|]. intros l _. apply lookup_empty.
Qed.

End StackishProps.
