(* ===== verification/StackishTyped.v ===== *)
(** * StackishTyped: what hostile input cannot do to the store

    The round trips of [StackishProps] are about the texts that trees print to.  Here the
    buffer is arbitrary.  However the reader ends, every node has a value of its own type,
    numbers fit 64 bits, only groups have children, and the nodes that were there before are as they were. *)

From Stdlib Require Import ZArith Lia.
From S2P Require Import Prelude Cstdlib Ragel Node Stackish NodeOpen.
Import Cstdlib Ragel Node Stackish NodeOpen.
Local Open Scope Z_scope.

Module StackishTyped.

(** ** Partial correctness of an outcome *)

Definition holds {A} (Q : A -> Prop) (m : res A) : Prop := match m with Ok a => Q a | Fault _ => True end.

Lemma holds_bind {A B} (Q : B -> Prop) (m : res A) (f : A -> res B) : holds (fun a => holds Q (f a)) m -> holds Q (m ≫= f).
Proof. by destruct m. Qed.

Lemma holds_mono {A} (Q Q' : A -> Prop) m : holds Q m -> (forall a, Q a -> Q' a) -> holds Q' m.
Proof. destruct m; cbn; auto. Qed.

Lemma holds_any {A} (Q : A -> Prop) m : (forall a, m = Ok a -> Q a) -> holds Q m.
Proof. destruct m; cbn; auto. Qed.

(** ** Well-typed stores *)

Definition node_ok (n : Node) : Prop :=
  match type n, value n with
  | TYPE_GROUP, VZero => True
  | (TYPE_STRING | TYPE_BLOB), VString _ => child n = None
  | TYPE_NUMBER, VNumber x => 0 <= x < 2 ^ 64 /\ child n = None
  | TYPE_FLOAT, VFloat _ => child n = None
  | _, _ => False
  end.

Record typed (st : store) : Prop := Typed {
  ty_nodes : forall l n, nodes st !! l = Some n -> node_ok n;
  ty_fresh : fresh st
}.

Definition group (st : store) (l : loc) : Prop := exists n, nodes st !! l = Some n /\ type n = TYPE_GROUP.

(** a pointer that is NULL or points to a node made since [b] *)
Definition since (b : loc) (p : option loc) : Prop := match p with Some l => (b <= l)%positive | None => True end.

(** nodes made since [b] point to each other only, to groups as parents; older ones are those of [st0] *)
Record apart (b : loc) (st0 st : store) : Prop := Apart {
  ap_next : (b <= next st)%positive;
  ap_old : forall l, (l < b)%positive -> nodes st !! l = nodes st0 !! l;
  ap_new : forall l n, (b <= l)%positive -> nodes st !! l = Some n ->
    since b (child n) /\ since b (sibling n) /\ forall p, parent n = Some p -> (b <= p)%positive /\ group st p
}.

(** the invariant of a parse that began with [st0] *)
Record inv (b : loc) (st0 : store) (P : stackish_parser) (st : store) : Prop := Inv {
  inv_typed : typed st;
  inv_apart : apart b st0 st;
  inv_cur : forall l, current P = Some l -> (b <= l)%positive /\ group st l;
  inv_root : forall l, root P = Some l -> (b <= l)%positive /\ group st l
}.

(** ** The operations of the parser *)

(** [errno] does not matter *)
Lemma inv_errno b st0 P st e : inv b st0 P st -> inv b st0 P (set_errno e st).
Proof. intros [[H1 H2] [H3 H4 H5] H6 H7]. by split; [split|split|..]. Qed.

Lemma inv_check b st0 P st t : inv b st0 P st -> inv b st0 P (snd (check st t)).
Proof. intros H. unfold check. case_match; [done|]. by apply inv_errno. Qed.

(** only current and root of the parser matter *)
Lemma inv_parser b st0 P P' st : inv b st0 P st -> current P' = current P -> root P' = root P -> inv b st0 P' st.
Proof. intros [H1 H2 H3 H4] Hc Hr. split; [done|done|by rewrite Hc|by rewrite Hr]. Qed.

(** an assignment that keeps type, value and links *)
Definition keeps_links (f : Node -> Node) : Prop :=
  forall n, type (f n) = type n /\ value (f n) = value n /\ child (f n) = child n /\ sibling (f n) = sibling n /\ parent (f n) = parent n.

Lemma node_ok_same n m : type m = type n -> value m = value n -> child m = child n -> node_ok n -> node_ok m.
Proof. unfold node_ok. by intros -> -> ->. Qed.

Lemma group_insert st l n m ns x :
  nodes st !! l = Some n -> type m = type n -> ns = <[l := m]> (nodes st) -> group st x -> exists k, ns !! x = Some k /\ type k = TYPE_GROUP.
Proof.
  intros Hl Ht -> [k [Hk Hkt]]. destruct (decide (x = l)) as [->|Hne].
  - rewrite Hl in Hk. injection Hk as <-. exists m. rewrite lookup_insert_eq. by rewrite Ht.
  - exists k. by rewrite lookup_insert_ne.
Qed.

Lemma inv_update b st0 P st p f :
  inv b st0 P st -> since b p -> keeps_links f -> holds (fun st' => inv b st0 P st') (update st p f).
Proof.
  intros [[H1 H2] [H3 H4 H5] H6 H7] Hp Hf. unfold update, need. destruct p as [l|]; [|done]. rewrite bind_ret.
  destruct (nodes st !! l) as [n|] eqn:Hl; [|done]. rewrite bind_ret. cbn. destruct (Hf n) as (Ft & Fv & Fc & Fs & Fp).
  assert (Hg : forall x, group st x -> group (set_nodes (<[l := f n]> (nodes st)) st) x) by (intros x; by apply (group_insert st l n (f n))).
  split.
  - split.
    + intros x m Hx. cbn in Hx. destruct (decide (x = l)) as [->|Hne].
      * rewrite lookup_insert_eq in Hx. injection Hx as <-. by apply (node_ok_same n); eauto.
      * rewrite lookup_insert_ne in Hx by done. by eapply H1.
    + intros x Hx. cbn. rewrite lookup_insert_ne; [by apply H2|]. intros ->. by rewrite H2 in Hl.
  - split; [done| |].
    + intros x Hx. cbn. rewrite lookup_insert_ne; [by apply H4|]. intros ->. cbn in Hp. lia.
    + intros x m Hb Hx. cbn in Hx. destruct (decide (x = l)) as [->|Hne].
      * rewrite lookup_insert_eq in Hx. injection Hx as <-. rewrite Fc, Fs, Fp.
        destruct (H5 l n Hb Hl) as (C1 & C2 & C3). split_and!; [done|done|]. intros q Hq. destruct (C3 q Hq). split; [done|]. by apply Hg.
      * rewrite lookup_insert_ne in Hx by done. destruct (H5 x m Hb Hx) as (C1 & C2 & C3). split_and!; [done|done|].
        intros q Hq. destruct (C3 q Hq). split; [done|]. by apply Hg.
  - intros x Hx. destruct (H6 x Hx). split; [done|]. by apply Hg.
  - intros x Hx. destruct (H7 x Hx). split; [done|]. by apply Hg.
Qed.

(** a value that fits the type of a new node *)
Definition fits (ty : NodeType) (v : NodeValue) : Prop := node_ok (mkNode None ty v None None None).

Lemma inv_add_node b st0 P st c n ty v :
  inv b st0 P st -> (b <= c)%positive -> nodes st !! c = Some n -> type n = TYPE_GROUP -> fits ty v ->
  inv b st0 P (add_node st c n ty v).
Proof.
  intros [[H1 H2] [H3 H4 H5] H6 H7] Hb Hc Ht Hv. pose proof (fresh_lt _ _ _ H2 Hc) as Hlt. set (l := next st) in *.
  assert (Hlk : forall x k, nodes (add_node st c n ty v) !! x = Some k ->
    (x = c /\ k = set_child (Some l) n) \/ (x = l /\ k = mkNode None ty v (Some c) (child n) None) \/ (x <> c /\ x <> l /\ nodes st !! x = Some k)).
  { intros x k. cbn. intros Hx. apply lookup_insert_Some in Hx as [[<- <-]|[N1 Hx]]; [by left|].
    apply lookup_insert_Some in Hx as [[<- <-]|[N2 Hx]]; [by right; left|]. right; right. by split_and!. }
  assert (Hg : forall x, group st x -> group (add_node st c n ty v) x).
  { intros x [k [Hk Hkt]]. pose proof (fresh_lt _ _ _ H2 Hk). destruct (decide (x = c)) as [->|].
    - exists (set_child (Some l) n). split; [apply lookup_insert_eq|done].
    - exists k. split; [cbn; rewrite !lookup_insert_ne by (try done; lia); done|done]. }
  split; [split|split|..].
  - intros x k [[-> ->]|[[-> ->]|(_ & _ & Hx)]]%Hlk; [|done|by eapply H1].
    specialize (H1 _ _ Hc). unfold node_ok in *. cbn. rewrite Ht in *. by destruct (value n).
  - by apply add_node_fresh.
  - cbn. fold l. lia.
  - intros x Hx. cbn. rewrite !lookup_insert_ne by (try done; lia). by apply H4.
  - intros x k Hbx [[-> ->]|[[-> ->]|(_ & _ & Hx)]]%Hlk.
    + destruct (H5 c n Hb Hc) as (C1 & C2 & C3). cbn. split_and!; [lia|done|]. intros q Hq. destruct (C3 q Hq). by auto.
    + destruct (H5 c n Hb Hc) as (C1 & C2 & C3). cbn. split_and!; [done|done|]. intros q [= <-]. split; [done|]. apply Hg. by exists n.
    + destruct (H5 x k Hbx Hx) as (C1 & C2 & C3). split_and!; [done|done|]. intros q Hq. destruct (C3 q Hq). by auto.
  - intros x Hx. destruct (H6 x Hx). by auto.
  - intros x Hx. destruct (H7 x Hx). by auto.
Qed.

Lemma inv_new_node b st0 P st p ty v :
  inv b st0 P st -> (forall l, p = Some l -> (b <= l)%positive /\ group st l) -> p <> None -> fits ty v ->
  holds (fun '(_, st') => inv b st0 P st') (new_node st p ty v).
Proof.
  intros Hi Hp Hne Hv. destruct p as [c|]; [|done]. destruct (Hp c eq_refl) as (Hb & n & Hc & Ht).
  rewrite (new_node_spec _ _ _ _ _ Hc (ty_fresh _ (inv_typed _ _ _ _ Hi))). by apply inv_add_node.
Qed.

Lemma strtoull_range s : 0 <= c_value (strtoull s) < 2 ^ 64.
Proof.
  unfold strtoull. destruct (skip_space s) as [s1 n1]. destruct (skip_sign s1) as [[s2 n2] neg].
  assert (Hd : Forall (fun b => is_digit b = true) (span is_digit s2)).
  { induction s2 as [|c s2 IH]; cbn; [done|]. case_match; [by constructor|done]. }
  pose proof (dec_value_app_bound _ Hd) as Hv. destruct (span is_digit s2) as [|d ds]; [done|].
  destruct (Z.leb_spec (2 ^ 64) (dec_value (d :: ds))); cbn [c_value]; [lia|]. destruct neg; [|lia]. unfold u64. apply Z.mod_pos_bound. done.
Qed.

Lemma inv_from_str b st0 P st ty buf s len :
  inv b st0 P st -> current P <> None -> holds (fun '(_, st') => inv b st0 P st') (Node_from_str st (current P) ty buf s len).
Proof.
  intros Hi Hc. pose proof (inv_cur _ _ _ _ Hi) as Hcur.
  assert (Hnn : forall st' ty v, inv b st0 P st' -> fits ty v -> holds (fun '(_, st') => inv b st0 P st') ('(l, st'') ← new_node st' (current P) ty v; Ok (Some l, st''))).
  { intros st' ty' v Hi' Hv. apply holds_bind. eapply holds_mono; [apply (inv_new_node b st0 P st' (current P) ty' v Hi'); [exact (inv_cur _ _ _ _ Hi')|done|done]|].
    by intros [l st'']. }
  destruct ty; cbn [Node_from_str]; try (by apply Hnn); try (by apply inv_errno).
  - match goal with |- context [check ?x _] => set (st1 := x) end. assert (Hi1 : inv b st0 P st1) by (subst st1; case_match; [done|by apply inv_errno]).
    pose proof (inv_check b st0 P st1 (u64 (c_used (strtoull (from_pos buf s))) =? len) Hi1) as Hi2.
    destruct (check st1 _) as [ok st2]. destruct ok; [|done]. apply Hnn; [done|]. split; [apply strtoull_range|done].
  - match goal with |- context [check ?x _] => set (st1 := x) end. assert (Hi1 : inv b st0 P st1) by (subst st1; case_match; [done|by apply inv_errno]).
    pose proof (inv_check b st0 P st1 (u64 (c_used (strtod (from_pos buf s))) =? len) Hi1) as Hi2.
    destruct (check st1 _) as [ok st2]. destruct ok; [|done]. by apply Hnn.
Qed.

(** a check, then what follows on each branch *)
Ltac after_check Hi :=
  match goal with
  | |- context [check ?st ?t] =>
    let Hi' := fresh Hi in pose proof (inv_check _ _ _ st t Hi) as Hi'; clear Hi; rename Hi' into Hi;
    let E := fresh "Eck" in destruct (check st t) as [[] ?] eqn:E; cbn [negb snd] in *; [|try exact Hi]
  end.

Lemma inv_push b st0 P st ty buf s len :
  inv b st0 P st -> holds (fun '(_, st') => inv b st0 P st') (handle_push P ty buf s len st).
Proof.
  intros Hi. unfold handle_push.
  assert (Hc : current P <> None \/ current P = None) by (destruct (current P); auto).
  destruct Hc as [Hc|Hc]; [|rewrite Hc; unfold check; cbn; by apply inv_errno].
  after_check Hi. after_check Hi. apply holds_bind, holds_any. intros n _. after_check Hi.
  apply holds_bind. eapply holds_mono; [by apply (inv_from_str b st0 P)|]. by intros [nd st'].
Qed.

Lemma keeps_set_name nm : keeps_links (set_name nm).
Proof. by intros n. Qed.

Lemma inv_since_cur b st0 P st : inv b st0 P st -> since b (current P).
Proof. intros Hi. destruct (current P) as [l|] eqn:Hl; [|done]. by destruct (inv_cur _ _ _ _ Hi l Hl). Qed.

Lemma inv_word b st0 P st nm :
  inv b st0 P st -> holds (fun '(_, P', st') => inv b st0 P' st') (handle_word P nm st).
Proof.
  intros Hi. unfold handle_word. after_check Hi. after_check Hi. apply holds_bind.
  match goal with |- holds _ ?m => assert (Hm : holds (fun st' => inv b st0 P st') m) end.
  { destruct nm as [nm|]; [unfold Node_name; apply holds_bind, holds_any; intros _ _; apply holds_bind, holds_any; intros _ _|];
      apply inv_update; eauto using inv_since_cur, keeps_set_name. }
  eapply holds_mono; [exact Hm|]. clear Hi Hm. intros st' Hi. destruct (bool_decide (current P = root P)); [exact Hi|].
  apply holds_bind, holds_any. intros n Hn. cbn. destruct (current P) as [c|] eqn:Hc; [|done].
  destruct (inv_cur _ _ _ _ Hi c Hc) as [Hb _]. unfold load, need in Hn. rewrite bind_ret in Hn.
  destruct (nodes st' !! c) as [m|] eqn:Hm; [|done]. injection Hn as ->.
  destruct Hi as [H1 H2 H3 H4]. split; [done|done| |done]. cbn. intros l Hl. by apply (ap_new _ _ _ H2 c n).
Qed.

Lemma inv_attr b st0 P st nm :
  inv b st0 P st -> holds (fun '(_, st') => inv b st0 P st') (handle_attr P nm st).
Proof.
  intros Hi. unfold handle_attr. apply holds_bind, holds_any. intros n Hn.
  assert (Hs : since b (child n)).
  { destruct (current P) as [c|] eqn:Hc; [|done]. destruct (inv_cur _ _ _ _ Hi c Hc) as [Hb _]. unfold load, need in Hn. rewrite bind_ret in Hn.
    destruct (nodes st !! c) as [m|] eqn:Hm; [|done]. injection Hn as ->. by apply (ap_new _ _ _ (inv_apart _ _ _ _ Hi) c n). }
  after_check Hi. apply holds_bind. unfold Node_name. apply holds_bind, holds_any; intros _ _; apply holds_bind, holds_any; intros _ _.
  eapply holds_mono; [apply inv_update; eauto using keeps_set_name|]. done.
Qed.

Lemma inv_start b st0 P st :
  inv b st0 P st -> holds (fun '(P', st') => inv b st0 P' st') (handle_start P st).
Proof.
  intros Hi. unfold handle_start, Node_new_group. destruct (current P) as [c|] eqn:Hc.
  - destruct (inv_cur _ _ _ _ Hi c Hc) as (Hb & n & Hn & Ht). pose proof (ty_fresh _ (inv_typed _ _ _ _ Hi)) as Hf.
    rewrite (Node_create_spec _ _ _ _ Hn Hf), bind_ret. cbn [holds].
    assert (Hi' : inv b st0 P (add_node st c n TYPE_GROUP VZero)) by (by apply inv_add_node).
    pose proof (fresh_lt _ _ _ Hf Hn). pose proof (ap_next _ _ _ (inv_apart _ _ _ _ Hi)).
    assert (Hnew : (b <= next st)%positive /\ group (add_node st c n TYPE_GROUP VZero) (next st)).
    { split; [done|]. eexists. split; [cbn; rewrite lookup_insert_ne by lia; apply lookup_insert_eq|done]. }
    destruct Hi' as [H1 H2 H3 H4]. case_bool_decide; split; try done; cbn; by intros l [= <-].
  - unfold Node_create. rewrite bind_ret. cbn [holds]. destruct Hi as [[H1 H2] [H3 H4 H5] H6 H7]. set (l := next st) in *.
    set (st' := Store _ _ _).
    assert (Hg : forall x, group st x -> group st' x).
    { intros x [k [Hk Hkt]]. pose proof (fresh_lt _ _ _ H2 Hk). exists k. split; [cbn; rewrite lookup_insert_ne by lia; done|done]. }
    assert (Hnew : (b <= l)%positive /\ group st' l) by (split; [done|eexists; split; [cbn; apply lookup_insert_eq|done]]).
    assert (Hty : typed st').
    { split; [|intros x Hx; cbn in *; rewrite lookup_insert_ne by lia; apply H2; lia].
      intros x k Hx. cbn in Hx. apply lookup_insert_Some in Hx as [[<- <-]|[_ Hx]]; [done|by eapply H1]. }
    assert (Hap : apart b st0 st').
    { split; [cbn; lia|intros x Hx; cbn; rewrite lookup_insert_ne by lia; by apply H4|].
      intros x k Hbx Hx. cbn in Hx. apply lookup_insert_Some in Hx as [[<- <-]|[_ Hx]]; [done|].
      destruct (H5 x k Hbx Hx) as (C1 & C2 & C3). split_and!; [done|done|]. intros q Hq. destruct (C3 q Hq). auto. }
    case_bool_decide; split; try done; cbn; try (by intros x [= <-]). intros x Hx. destruct (H7 x Hx). auto.
Qed.

Lemma inv_action b st0 buf a p P st :
  inv b st0 P st -> holds (fun '((P', st'), _) => inv b st0 P' st') (stackish_action buf a p (P, st)).
Proof.
  intros Hi.
  assert (Hpush : forall ty (k : bool -> store -> res ((stackish_parser * store) * ctl)),
    (forall ok st', inv b st0 P st' -> holds (fun '((P', st'), _) => inv b st0 P' st') (k ok st')) ->
    holds (fun '((P', st'), _) => inv b st0 P' st') ('(ok, st') ← push P ty buf p st; k ok st')).
  { intros ty k Hk. apply holds_bind. eapply holds_mono; [by apply (inv_push b st0 P)|]. intros [ok st'] H. by apply Hk. }
  assert (Hword : forall nm, holds (fun '((P', st'), _) => inv b st0 P' st')
    ('(r, P', st') ← handle_word P nm st; Ok ((P', st'), if r =? 0 then CNext else COut))).
  { intros nm. apply holds_bind. eapply holds_mono; [by apply (inv_word b st0 P)|]. by intros [[r P'] st']. }
  unfold stackish_action. repeat (case_match; try (by apply Hpush); try (by apply Hword); try done).
  all: try (by eapply inv_parser).
  all: try (apply Hpush; intros [] st' Hi'; [by eapply inv_parser|done]).
  all: try (apply holds_bind; eapply holds_mono; [by apply inv_start|]; by intros [P' st']).
  all: try (apply holds_bind; eapply holds_mono; [by apply inv_attr|]; by intros [ok st']).
  all: apply holds_bind, holds_any; intros _ _; cbn [holds]; eapply inv_parser; [first [exact Hi | by apply inv_errno]|done|done].
Qed.

(** ** The driver *)

Lemma inv_run_acts b st0 buf ids p cs P st :
  inv b st0 P st -> holds (fun '(_, (P', st'), _) => inv b st0 P' st') (run_acts (stackish_action buf) ids p cs (P, st)).
Proof.
  revert P st; induction ids as [|a ids IH]; intros P st Hi; [done|]. cbn [run_acts]. apply holds_bind.
  eapply holds_mono; [by apply (inv_action b st0 buf a p P st)|]. intros [[P' st'] c] Hi'. destruct c; [by apply IH|done|done].
Qed.

Lemma inv_exec b st0 buf input p cs P st :
  inv b st0 P st -> holds (fun '(_, _, (P', st')) => inv b st0 P' st') (exec stackish_tables (stackish_action buf) input p cs (P, st)).
Proof.
  revert p cs P st; induction input as [|c input IH]; intros p cs P st Hi; [done|]. cbn [exec]. case_match; [done|].
  apply holds_bind, holds_any. intros [cs1 ids] _. apply holds_bind.
  eapply holds_mono; [by apply (inv_run_acts b st0 buf ids p cs1 P st)|]. intros [[cs2 [P' st']] out] Hi'.
  destruct out; [done|]. case_match; [done|]. by apply IH.
Qed.

Lemma inv_execute b st0 buf off P st :
  inv b st0 P st -> holds (fun '(P', st') => inv b st0 P' st') (stackish_parser_execute P buf off st).
Proof.
  intros Hi. unfold stackish_parser_execute. apply holds_bind, holds_any; intros _ _. apply holds_bind.
  eapply holds_mono; [by apply (inv_exec b st0 buf)|]. intros [[p c] [P' st']] Hi'. apply holds_bind, holds_any; intros _ _.
  by eapply inv_parser.
Qed.

Lemma inv_blob_loop b st0 buf fuel P st :
  inv b st0 P st -> holds (fun '(_, P', st') => inv b st0 P' st') (blob_loop fuel P buf st).
Proof.
  revert P st; induction fuel as [|fuel IH]; intros P st Hi; [done|]. cbn [blob_loop]. case_match; [|done].
  apply holds_bind, holds_any; intros _ _. apply holds_bind. eapply holds_mono; [by apply (inv_execute b st0 buf)|].
  intros [P' st'] Hi'. after_check Hi'. by apply IH.
Qed.

(** ** Throwing away what was parsed *)

(** the entries of the traversal, made since [b] *)
Definition path_since (b : loc) (path : list frame) : Prop := Forall (fun fr => (b <= f_path fr)%positive /\ since b (f_right fr)) path.

(** some of the nodes made since [b] may be gone *)
Record fewer (b : loc) (st st' : store) : Prop := Fewer {
  fw_next : next st' = next st;
  fw_old : forall l, (l < b)%positive -> nodes st' !! l = nodes st !! l;
  fw_sub : nodes st' ⊆ nodes st
}.

Definition linked (b : loc) (st : store) : Prop := forall l n, (b <= l)%positive -> nodes st !! l = Some n -> since b (child n) /\ since b (sibling n).

Lemma fewer_trans b s1 s2 s3 : fewer b s1 s2 -> fewer b s2 s3 -> fewer b s1 s3.
Proof. intros [A1 A2 A3] [B1 B2 B3]. split; [congruence|intros l Hl; rewrite B2, A2; done|by etransitivity]. Qed.

Lemma fewer_linked b st st' : linked b st -> fewer b st st' -> linked b st'.
Proof. intros H [_ _ Hs] l n Hb Hl. apply (H l n Hb). by eapply lookup_weaken. Qed.

Lemma since_push b fuel st cn path :
  linked b st -> since b cn -> path_since b path -> holds (path_since b) (push_down fuel st cn path).
Proof.
  revert cn path; induction fuel as [|fuel IH]; intros cn path Hl Hc Hp; [done|]. cbn [push_down]. destruct cn as [l|]; [|done].
  apply holds_bind, holds_any. intros n Hn. unfold load, need in Hn. rewrite bind_ret in Hn. destruct (nodes st !! l) as [m|] eqn:Hm; [|done].
  injection Hn as ->. destruct (Hl l n Hc Hm) as [H1 H2]. case_match; [done|]. apply IH; [done|done|]. by constructor.
Qed.

Lemma fewer_destroy (b : loc) st (l : loc) : (b <= l)%positive -> holds (fewer b st) (Node_intern_destroy st l).
Proof.
  intros Hb. unfold Node_intern_destroy, need. destruct (nodes st !! l) as [n|] eqn:Hl; [|done]. rewrite bind_ret.
  assert (fewer b st (set_nodes (delete l (nodes st)) st)).
  { split; [done|intros x Hx; cbn; by rewrite lookup_delete_ne by lia|cbn; apply delete_subseteq]. }
  by destruct (type n), (value n).
Qed.

Lemma since_pop b st path :
  path_since b path -> holds (fun '(st', cn, path') => fewer b st st' /\ since b cn /\ path_since b path') (pop_up st path).
Proof.
  revert st; induction path as [|[l r ps] path IH]; intros st Hp; [done|]. apply Forall_cons_1 in Hp as [[Hl Hr] Hp]. cbn in Hl, Hr.
  cbn [pop_up]. apply holds_bind.
  match goal with |- holds _ ?m => assert (Hm : holds (fewer b st) m) by (case_match; [by apply fewer_destroy|by split]) end.
  eapply holds_mono; [exact Hm|]. intros st' Hf.
  destruct path as [|fr path], r as [r|]; try (split_and!; [done|done|by repeat constructor]).
  - split_and!; [done|done|]. constructor; [by split|done].
  - eapply holds_mono; [by apply IH|]. intros [[s2 cn] path'] (H1 & H2 & H3). split_and!; [by eapply fewer_trans|done|done].
Qed.

Lemma since_postorder b fuel st cn path :
  linked b st -> since b cn -> path_since b path -> holds (fewer b st) (map_postorder fuel st cn path).
Proof.
  revert st cn path; induction fuel as [|fuel IH]; intros st cn path Hl Hc Hp; [done|]. cbn [map_postorder].
  destruct cn as [l|]; [|by split]. apply holds_bind. eapply holds_mono; [by apply since_push|]. intros path' Hp'. apply holds_bind.
  eapply holds_mono; [by apply since_pop|]. intros [[st' cn'] path''] (Hf & Hc' & Hp''). eapply holds_mono; [apply IH; [by eapply fewer_linked|done|done]|].
  intros s2. by apply fewer_trans.
Qed.

Lemma typed_fewer b st st' : typed st -> fewer b st st' -> typed st'.
Proof.
  intros [H1 H2] [Hn _ Hs]. split; [intros l n Hl; eapply H1; by eapply lookup_weaken|].
  intros l Hl. rewrite Hn in Hl. destruct (nodes st' !! l) eqn:E; [|done]. eapply lookup_weaken in E; [|done]. by rewrite H2 in E.
Qed.

Lemma inv_init st : typed st -> inv (next st) st stackish_parser_init st.
Proof. intros H. split; [done|split|done|done]; [lia|done|]. intros l n Hb Hl. by rewrite (ty_fresh _ H l Hb) in Hl. Qed.

(** what a parse leaves behind *)
Definition parsed (st0 : store) (r : option loc) (st : store) : Prop :=
  typed st /\ (forall l n, nodes st0 !! l = Some n -> nodes st !! l = Some n) /\
  (forall l, r = Some l -> group st l /\ nodes st0 !! l = None).

Lemma inv_parsed st0 P st : typed st0 -> inv (next st0) st0 P st -> parsed st0 (root P) st.
Proof.
  intros H0 [H1 [H2 H3 H4] H5 H6]. split_and!; [done| |].
  - intros l n Hl. rewrite H3; [done|]. by eapply fresh_lt; [apply H0|].
  - intros l Hl. destruct (H6 l Hl) as [Hb Hg]. split; [done|]. by apply (ty_fresh _ H0).
Qed.

Lemma clear_parsed st0 P st n :
  typed st0 -> inv (next st0) st0 P st ->
  holds (fun '(r, _, st') => parsed st0 r st') ('(_, st') ← stackish_node_clear P st; Ok (None, n + 1, st')).
Proof.
  intros H0 Hi. apply holds_bind. unfold stackish_node_clear. destruct (root P) as [r|] eqn:Hr.
  - apply holds_bind. unfold Node_destroy. eapply holds_mono; [apply (since_postorder (next st0)); [|by apply (inv_root _ _ _ _ Hi)|constructor]|].
    + intros l m Hb Hl. by destruct (ap_new _ _ _ (inv_apart _ _ _ _ Hi) l m Hb Hl) as (? & ? & _).
    + intros st' Hf. split_and!; [eapply typed_fewer; [apply Hi|done]| |done].
      intros l m Hl. rewrite (fw_old _ _ _ Hf), (ap_old _ _ _ (inv_apart _ _ _ _ Hi)); [done|..]; by eapply fresh_lt; [apply H0|].
  - destruct (inv_parsed st0 P st H0 Hi) as (A & B & _). by split_and!.
Qed.

(** ** The theorem *)

(** C25: no input can make the reader build an ill-typed node: for every buffer and position, whenever [Node_parse_seq] returns, with a root or
    without, every node of the store has a value of the kind its type says, numbers are 64-bit, only groups have
    children, all nodes that existed before are unchanged (also when the new tree is destroyed on failure), and the root is a new group. *)
Theorem parse_keeps_types fuel buf from st :
  typed st ->
  match Node_parse_seq fuel buf from st with
  | Ok (r, _, st') =>
    typed st' /\ (forall l n, nodes st !! l = Some n -> nodes st' !! l = Some n) /\
    (forall l, r = Some l -> group st' l /\ nodes st !! l = None)
  | Fault _ => True
  end.
Proof.
  intros H0. assert (H : holds (fun '(r, _, st') => parsed st r st') (Node_parse_seq fuel buf from st)).
  2:{ by destruct (Node_parse_seq fuel buf from st) as [[[r n] st']|]. }
  unfold Node_parse_seq. pose proof (inv_init st H0) as Hi. pose proof (inv_check _ _ _ st (ends_in_space buf) Hi) as Hi1.
  destruct (check st (ends_in_space buf)) as [ok s1]. destruct ok; cbn [negb]; [|by apply clear_parsed]. apply holds_bind.
  eapply holds_mono; [by apply (inv_execute (next st) st buf)|]. intros [P s2] Hi2.
  pose proof (inv_check _ _ _ s2 (negb (stackish_parser_has_error P)) Hi2) as Hi3.
  destruct (check s2 _) as [ok s3]. destruct ok; cbn [negb]; [|by apply clear_parsed]. apply holds_bind.
  eapply holds_mono; [by apply (inv_blob_loop (next st) st buf)|]. intros [[r P'] s4] Hi4.
  destruct r; [by apply inv_parsed|by apply clear_parsed].
Qed.

Lemma parse_keeps_types_witness :
  exists l n st', Node_parse_seq 40 (lit "[ 12 a ") 0 empty_store = Ok (Some l, n, st') /\ typed st' /\ group st' l.
Proof.
  assert (H : typed empty_store) by (split; [intros l n Hl; cbn in Hl; by rewrite lookup_empty in Hl|intros l _; apply lookup_empty]).
  pose proof (parse_keeps_types 40 (lit "[ 12 a ") 0 empty_store H) as H'.
  destruct (Node_parse_seq 40 (lit "[ 12 a ") 0 empty_store) as [[[r n] st']|] eqn:E; [|vm_compute in E; discriminate].
  destruct r as [l|]; [|vm_compute in E; discriminate].
  exists l, n, st'. destruct H' as (H1 & _ & H3). split; [reflexivity|]. split; [exact H1|]. exact (proj1 (H3 l eq_refl)).
Defined.

End StackishTyped.
