(* ===== verification/Heap.v ===== *)
(** * Heap: the sorted pointer array of [src/src/hub/heap.c]

    A growable array of non-NULL pointers kept sorted by a comparison function.  The
    sorting macro is SGLIB's and not part of the repository: it is a parameter that
    rearranges the array and sorts it when the comparison is an order. *)

From Stdlib Require Import ZArith Lia Sorting.Sorted.
From stdpp Require Import sorting gmultiset.
From S2P Require Import Prelude.
Local Open Scope Z_scope.

Module Heap.

(** a pointer; 0 is NULL *)
Abbreviation ptr := Z.

(** a comparison function; negative, zero or positive *)
Definition compare_fn := ptr -> ptr -> Z.

(** What [SGLIB_ARRAY_HEAP_SORT] does to the first elements of an array. *)
Class ArraySort (sort : compare_fn -> list ptr -> list ptr) := {
  sort_perm : forall cmp l, Permutation (sort cmp l) l;
  sort_sorted : forall cmp l,
    (forall x y, x ∈ l -> y ∈ l -> cmp x y <= 0 \/ cmp y x <= 0) ->
    (forall x y z, x ∈ l -> y ∈ l -> z ∈ l -> cmp x y <= 0 -> cmp y z <= 0 -> cmp x z <= 0) ->
    StronglySorted (fun x y => cmp x y <= 0) (sort cmp l)
}.

(** A comparison that orders the pointers of [D]. *)
Class OrdersOn (D : ptr -> Prop) (cmp : compare_fn) := {
  cmp_antisym : forall x y, D x -> D y -> (0 < cmp x y <-> cmp y x < 0);
  cmp_trans : forall x y z, D x -> D y -> D z -> cmp x y <= 0 -> cmp y z <= 0 -> cmp x z <= 0
}.

Record Heap := mkHeap {
  last : Z;
  size : Z;
  members : list ptr;
  compare : compare_fn
}.

Definition HEAP_SIZE : Z := 8.

(** the difference of two addresses, a [long], returned as an [int] *)
Definition Heap_void_ptr_compare : compare_fn := fun x y => i32 (x - y).

Definition Heap_create (cmp : option compare_fn) : Heap :=
  mkHeap 0 HEAP_SIZE (replicate (Z.to_nat HEAP_SIZE) 0) (default Heap_void_ptr_compare cmp).

Definition Heap_count (h : Heap) : Z := last h.
Definition Heap_is_empty (h : Heap) : bool := Heap_count h =? 0.
Definition Heap_is_full (h : Heap) : bool := last h =? size h.
Definition Heap_elem (h : Heap) (at_ : Z) : res ptr := index (members h) at_.
Definition Heap_first (h : Heap) : res ptr := Heap_elem h 0.
Definition Heap_last (h : Heap) : res ptr := Heap_elem h (u64 (last h - 1)).
Definition Heap_valid (h : Heap) (at_ : Z) : bool := at_ <? last h.
Definition Heap_clear (h : Heap) : Heap := mkHeap 0 (size h) (members h) (compare h).

(** [realloc] keeps the common prefix; a grown tail is zeroed.  Sizes are [size_t]. *)
Definition Heap_resize (h : Heap) (sz : Z) : res Heap :=
  _ ← assert_ (0 <? sz);
  let n := Z.to_nat (u64 (sz * 8) / 8) in
  let kept := take n (members h) in
  Ok (mkHeap (last h) sz (kept ++ replicate (n - length kept) 0) (compare h)).

(** The binary search.  The indices are [int]s; [fuel] bounds the halvings. *)
Fixpoint find_loop (fuel : nat) (h : Heap) (elem : ptr) (ii jj : Z) : res (option Z) :=
  match fuel with
  | O => Fault NoFuel
  | S f =>
    if ii <=? jj then
      s ← iadd jj ii;
      let kk := Z.quot s 2 in
      m ← index (members h) kk;
      let cc := compare h m elem in
      if cc =? 0 then Ok (Some kk)
      else if cc <? 0 then find_loop f h elem (kk + 1) jj
      else find_loop f h elem ii (kk - 1)
    else Ok None
  end.

Definition Heap_find (h : Heap) (elem : ptr) : res Z :=
  _ ← assert_ (negb (elem =? 0));
  r ← find_loop (S (length (members h))) h elem 0 (i32 (u64 (last h - 1)));
  Ok (default (last h) r).

(** [memmove(members + i, members + i + 1, (last - i - 1) * sizeof(void * ))] *)
Definition move_down (l : list ptr) (i lst : Z) : list ptr :=
  take (Z.to_nat i) l
    ++ take (Z.to_nat (lst - i - 1)) (drop (Z.to_nat (i + 1)) l)
    ++ drop (Z.to_nat (lst - 1)) l.

Definition Heap_delete (h : Heap) (elem : ptr) : res (bool * Heap) :=
  _ ← assert_ (negb (elem =? 0));
  i ← Heap_find h elem;
  if Heap_valid h i then
    let ms := move_down (members h) i (last h) in
    let lst := u64 (last h - 1) in
    ms ← index_set ms lst 0;
    let h := mkHeap lst (size h) ms (compare h) in
    if (HEAP_SIZE <? lst) && (lst <? size h / 2) then
      h ← Heap_resize h (size h / 2);
      Ok (true, h)
    else Ok (true, h)
  else Ok (false, h).

Section Sorting.
Context (sort : compare_fn -> list ptr -> list ptr).

(** sorts the first [(int)last] elements in place *)
Definition Heap_sort (h : Heap) : Heap :=
  let n := Z.to_nat (i32 (last h)) in
  mkHeap (last h) (size h) (sort (compare h) (take n (members h)) ++ drop n (members h)) (compare h).

Definition Heap_add (h : Heap) (elem : ptr) : res (Z * Heap) :=
  _ ← assert_ (negb (elem =? 0));
  h ← (if Heap_is_full h then Heap_resize h (u64 (size h * 2)) else Ok h);
  ms ← index_set (members h) (last h) elem;
  let h := mkHeap (u64 (last h + 1)) (size h) ms (compare h) in
  let h := Heap_sort h in
  Ok (last h, h).
End Sorting.

(** ** The abstract view: a sorted list of elements *)

Definition contents (h : Heap) : list ptr := take (Z.to_nat (last h)) (members h).

(** The sizes stay far below the limits of [int] and [size_t]. *)
Definition MAX_COUNT : Z := 2 ^ 30.

(** the elements are of [D] and sorted *)
Record wf (D : ptr -> Prop) (h : Heap) : Prop := WF {
  wf_len : Z.of_nat (length (members h)) = size h;
  wf_size : HEAP_SIZE <= size h <= 2 * MAX_COUNT;
  wf_last : 0 <= last h <= size h;
  wf_count : last h <= MAX_COUNT;
  wf_dom : forall x, x ∈ contents h -> D x;
  wf_sorted : StronglySorted (fun x y => compare h x y <= 0) (contents h)
}.

Lemma contents_length D h : wf D h -> length (contents h) = Z.to_nat (last h).
Proof. intros [Hl Hs Hla _ _ _]. unfold contents. rewrite length_take. lia. Qed.

Lemma create_wf D cmp : wf D (Heap_create cmp).
Proof.
  constructor; [reflexivity | cbn; unfold MAX_COUNT, HEAP_SIZE; lia.. | | constructor].
  intros x Hx. by apply elem_of_nil in Hx.
Qed.

(** ** Sorted lists by index *)

Lemma sorted_lookup (R : ptr -> ptr -> Prop) l i j x y :
  StronglySorted R l -> (i < j)%nat -> l !! i = Some x -> l !! j = Some y -> R x y.
Proof.
  intros Hs Hij Hx Hy.
  apply (StronglySorted_app_1_elem_of R (take j l) (drop j l)).
  - by rewrite take_drop.
  - apply list_elem_of_lookup_2 with i. by rewrite lookup_take_lt.
  - apply list_elem_of_lookup_2 with O. rewrite lookup_drop, Nat.add_0_r. done.
Qed.

Lemma sorted_delete (R : ptr -> ptr -> Prop) l i :
  StronglySorted R l -> StronglySorted R (delete i l).
Proof.
  intros Hs. revert i. induction Hs as [|x l Hs IH Hx]; intros i; [constructor|].
  destruct i as [|i]; [done|]. change (delete (S i) (x :: l)) with (x :: delete i l).
  constructor; [done|]. by apply Forall_delete.
Qed.

(** ** Resizing *)

Lemma resize_spec h sz :
  0 <= last h <= sz -> 0 < sz < 2 ^ 61 -> last h <= Z.of_nat (length (members h)) ->
  exists h', Heap_resize h sz = Ok h' /\ last h' = last h /\ size h' = sz /\ compare h' = compare h /\
    Z.of_nat (length (members h')) = sz /\ contents h' = contents h.
Proof.
  intros Hl Hs Hm. unfold Heap_resize. rewrite assert_true, bind_ret by lia.
  rewrite u64_small, Z.div_mul by lia. eexists; split; [done|]. cbn.
  split_and!; [done..| |].
  - rewrite length_app, length_replicate, length_take. lia.
  - unfold contents. cbn. rewrite take_app_le by (rewrite length_take; lia).
    rewrite take_take. f_equal. lia.
Qed.

(** ** Searching *)

Section Find.
Context (D : ptr -> Prop) (h : Heap) (Hwf : wf D h) `{!OrdersOn D (compare h)}.
Context (elem : ptr) (Helem : D elem).

Lemma lookup_dom i x : contents h !! i = Some x -> D x.
Proof. intros Hx. apply (wf_dom D h Hwf). by apply list_elem_of_lookup_2 with i. Qed.

Lemma contents_members i x : contents h !! i = Some x -> members h !! i = Some x.
Proof. unfold contents. intros H%lookup_take_Some. tauto. Qed.

(** left of a smaller element everything is smaller, right of a greater one greater *)
Lemma cmp_left i k x y :
  (i <= k)%nat -> contents h !! i = Some x -> contents h !! k = Some y ->
  compare h y elem < 0 -> compare h x elem < 0.
Proof.
  intros Hik Hx Hy Hc. destruct (decide (i = k)) as [->|Hne]; [by simplify_eq|].
  assert (Hxy : compare h x y <= 0).
  { apply (sorted_lookup _ _ i k x y (wf_sorted D h Hwf)); [lia|done|done]. }
  destruct (Z.lt_ge_cases (compare h x elem) 0) as [|Hge]; [done|].
  pose proof (lookup_dom _ _ Hx) as Dx. pose proof (lookup_dom _ _ Hy) as Dy.
  pose proof (cmp_antisym x elem Dx Helem). pose proof (cmp_antisym elem x Helem Dx).
  assert (compare h elem y <= 0) by (apply (cmp_trans elem x y Helem Dx Dy); lia).
  pose proof (cmp_antisym elem y Helem Dy). lia.
Qed.

Lemma cmp_right i k x y :
  (k <= i)%nat -> contents h !! i = Some x -> contents h !! k = Some y ->
  0 < compare h y elem -> 0 < compare h x elem.
Proof.
  intros Hik Hx Hy Hc. destruct (decide (i = k)) as [->|Hne]; [by simplify_eq|].
  assert (Hyx : compare h y x <= 0).
  { apply (sorted_lookup _ _ k i y x (wf_sorted D h Hwf)); [lia|done|done]. }
  destruct (Z.lt_ge_cases 0 (compare h x elem)) as [|Hle]; [done|].
  assert (compare h y elem <= 0)
    by (apply (cmp_trans y x elem (lookup_dom _ _ Hy) (lookup_dom _ _ Hx) Helem); lia). lia.
Qed.

(** the answer of a search *)
Definition found (r : option Z) : Prop :=
  match r with
  | Some k => exists x, 0 <= k < last h /\ contents h !! Z.to_nat k = Some x /\ compare h x elem = 0
  | None => forall x, x ∈ contents h -> compare h x elem <> 0
  end.

Lemma find_loop_spec fuel ii jj :
  (Z.to_nat (jj + 1 - ii) < fuel)%nat -> 0 <= ii -> jj < last h -> ii <= jj + 1 ->
  (forall i x, Z.of_nat i < ii -> contents h !! i = Some x -> compare h x elem < 0) ->
  (forall i x, jj < Z.of_nat i -> contents h !! i = Some x -> 0 < compare h x elem) ->
  exists r, find_loop fuel h elem ii jj = Ok r /\ found r.
Proof.
  revert ii jj; induction fuel as [|fuel IH]; intros ii jj Hf Hii Hjj Hle Hlo Hhi; [lia|].
  cbn [find_loop]. destruct (Z.leb_spec ii jj) as [Hij|Hij].
  - pose proof (wf_count D h Hwf). unfold MAX_COUNT in *. unfold iadd, int_ok, INT_MIN, INT_MAX.
    rewrite !(proj2 (Z.leb_le _ _)) by lia. cbn [andb]. rewrite bind_ret.
    rewrite Z.quot_div_nonneg by lia. set (k := (jj + ii) / 2).
    assert (Hk : ii <= k <= jj).
    { subst k. split; [apply Z.div_le_lower_bound; lia | apply Z.div_le_upper_bound; lia]. }
    destruct (lookup_lt_is_Some_2 (contents h) (Z.to_nat k)) as [m Hm];
      [rewrite (contents_length D) by done; lia|].
    rewrite (index_Some _ k m), bind_ret; [|lia|by apply contents_members].
    destruct (Z.eqb_spec (compare h m elem) 0) as [E|E]; [eexists; split; [done|]; exists m; split_and!; lia || done|].
    destruct (Z.ltb_spec (compare h m elem) 0) as [Hl|Hg]; apply IH; try lia.
    + intros i x Hi Hx. apply (cmp_left i (Z.to_nat k) x m); [lia|done..].
    + done.
    + done.
    + intros i x Hi Hx. apply (cmp_right i (Z.to_nat k) x m); [lia|done|done|lia].
  - eexists; split; [done|]. intros x [i Hx]%list_elem_of_lookup_1.
    destruct (Z.lt_ge_cases (Z.of_nat i) ii) as [Hi|Hi].
    + specialize (Hlo i x Hi Hx). lia.
    + specialize (Hhi i x ltac:(lia) Hx). lia.
Qed.

Lemma Heap_find_spec :
  elem <> 0 -> exists r, Heap_find h elem = Ok (default (last h) r) /\ found r.
Proof.
  intros He. destruct Hwf as [Hl Hs Hla Hc _ _]. unfold MAX_COUNT, HEAP_SIZE in *.
  assert (i32 (u64 (last h - 1)) = last h - 1) as Ei.
  { destruct (Z.eq_dec (last h) 0) as [->|]; [reflexivity|]. rewrite u64_small, i32_small by lia. done. }
  destruct (find_loop_spec (S (length (members h))) 0 (last h - 1)) as (r & Hr & Hf); try lia.
  - intros i x Hi Hx. apply lookup_lt_Some in Hx. rewrite (contents_length D) in Hx by done. lia.
  - exists r. split; [|done]. unfold Heap_find.
    rewrite assert_true, bind_ret by (by apply negb_true_iff, Z.eqb_neq).
    by rewrite Ei, Hr, bind_ret.
Qed.
End Find.

(** ** Removing *)

Lemma move_down_take l i lst :
  (i < lst)%nat -> (lst <= length l)%nat ->
  let ms := move_down l (Z.of_nat i) (Z.of_nat lst) in
  length ms = length l /\ take (lst - 1) ms = delete i (take lst l).
Proof.
  intros Hi Hl ms. subst ms. unfold move_down.
  replace (Z.to_nat (Z.of_nat lst - Z.of_nat i - 1)) with (lst - S i)%nat by lia.
  replace (Z.to_nat (Z.of_nat i + 1)) with (S i) by lia.
  replace (Z.to_nat (Z.of_nat lst - 1)) with (lst - 1)%nat by lia. rewrite Nat2Z.id. split.
  - rewrite !length_app, !length_take, !length_drop. lia.
  - rewrite delete_take_drop, app_assoc.
    rewrite take_app_length' by (rewrite length_app, !length_take, length_drop; lia).
    f_equal.
    + rewrite take_take. f_equal. lia.
    + rewrite take_drop_commute. by replace (S i + (lst - S i))%nat with lst by lia.
Qed.

Lemma Heap_delete_spec D h elem :
  wf D h -> OrdersOn D (compare h) -> D elem -> elem <> 0 ->
  exists b h', Heap_delete h elem = Ok (b, h') /\ wf D h' /\ compare h' = compare h /\
    if (b : bool)
    then exists i x, contents h !! i = Some x /\ compare h x elem = 0 /\ contents h' = delete i (contents h)
    else h' = h /\ forall x, x ∈ contents h -> compare h x elem <> 0.
Proof.
  intros Hwf Ho HD He. destruct (Heap_find_spec D h Hwf elem HD He) as (r & Hr & Hf).
  unfold Heap_delete. rewrite assert_true, bind_ret by (by apply negb_true_iff, Z.eqb_neq).
  rewrite Hr, bind_ret. destruct r as [k|]; cbn [default from_option id] in *.
  2:{ unfold Heap_valid. rewrite Z.ltb_irrefl. eauto 10. }
  destruct Hf as (x & Hk & Hx & Hc). pose proof Hwf as [Hl Hs Hla Hct Hdo Hso]. unfold MAX_COUNT, HEAP_SIZE in *.
  unfold Heap_valid. rewrite (proj2 (Z.ltb_lt k (last h))) by lia. rewrite u64_small by lia.
  destruct (move_down_take (members h) (Z.to_nat k) (Z.to_nat (last h))) as [Hml Hmt]; [lia..|].
  rewrite !Z2Nat.id in Hml, Hmt by lia. set (ms := move_down _ _ _) in *.
  rewrite index_set_in, bind_ret by lia.
  cbv zeta. set (h1 := mkHeap (last h - 1) (size h) (<[Z.to_nat (last h - 1):=0]> ms) (compare h)).
  assert (Hc1 : contents h1 = delete (Z.to_nat k) (contents h)).
  { unfold contents, h1; cbn. rewrite take_insert_ge by lia. rewrite <- Hmt. f_equal. lia. }
  assert (Hl1 : Z.of_nat (length (members h1)) = size h) by (cbn; rewrite length_insert; lia).
  assert (Hd1 : forall y, y ∈ contents h1 -> D y).
  { intros y. rewrite Hc1. intros [i Hi]%list_elem_of_lookup_1. apply Hdo.
    destruct (decide (i < Z.to_nat k)%nat).
    - rewrite list_lookup_delete_lt in Hi by done. by apply list_elem_of_lookup_2 with i.
    - rewrite list_lookup_delete_ge in Hi by lia. by apply list_elem_of_lookup_2 with (S i). }
  assert (Hs1 : StronglySorted (fun x y => compare h x y <= 0) (contents h1))
    by (rewrite Hc1; by apply sorted_delete).
  change HEAP_SIZE with 8. change (size h1) with (size h).
  destruct ((8 <? last h - 1) && (last h - 1 <? size h / 2)) eqn:Eb.
  - apply andb_true_iff in Eb as [Eb1 Eb2]. apply Z.ltb_lt in Eb1, Eb2.
    assert (size h / 2 <= size h) by (apply Z.div_le_upper_bound; lia).
    destruct (resize_spec h1 (size h / 2)) as (h2 & E2 & Hla2 & Hs2 & Hcm2 & Hl2 & Hc2);
      [cbn; lia | lia | cbn in *; lia |].
    rewrite E2, bind_ret. exists true, h2. split_and!; [done| |done|].
    + cbn in Hla2. constructor; unfold MAX_COUNT, HEAP_SIZE; [lia..| |].
      * by rewrite Hc2.
      * rewrite Hcm2, Hc2. exact Hs1.
    + exists (Z.to_nat k), x. rewrite Hc2. auto.
  - exists true, h1. split_and!; [done| |done|eauto].
    constructor; unfold MAX_COUNT, HEAP_SIZE; cbn in *; [lia..|done|done].
Qed.

(** ** Adding *)

Lemma Heap_add_spec sort `{!ArraySort sort} D h elem :
  wf D h -> OrdersOn D (compare h) -> D elem -> elem <> 0 -> last h < MAX_COUNT ->
  exists h', Heap_add sort h elem = Ok (last h + 1, h') /\ wf D h' /\ compare h' = compare h /\
    contents h' ≡ₚ elem :: contents h.
Proof.
  intros Hwf Ho HD He Hmax. pose proof Hwf as [Hl Hs Hla Hct Hdo Hso]. unfold MAX_COUNT, HEAP_SIZE in *.
  unfold Heap_add. rewrite assert_true, bind_ret by (by apply negb_true_iff, Z.eqb_neq).
  assert (exists h1, (if Heap_is_full h then Heap_resize h (u64 (size h * 2)) else Ok h) = Ok h1 /\
            last h1 = last h /\ last h < size h1 <= 2 * 2 ^ 30 /\ 8 <= size h1 /\ compare h1 = compare h /\
            Z.of_nat (length (members h1)) = size h1 /\ contents h1 = contents h)
    as (h1 & -> & Hla1 & Hlt1 & Hs1 & Hcm1 & Hl1 & Hc1).
  { unfold Heap_is_full. destruct (Z.eqb_spec (last h) (size h)).
    - rewrite u64_small by lia.
      destruct (resize_spec h (size h * 2)) as (h2 & E2 & H2); [lia..|].
      exists h2. destruct H2 as (? & ? & ? & ? & ?). split_and!; lia || done.
    - exists h. split_and!; lia || done. }
  rewrite bind_ret, index_set_in, bind_ret by lia. rewrite Hla1, u64_small by lia.
  unfold Heap_sort. cbn [last members compare size]. rewrite i32_small by lia.
  set (ms := <[Z.to_nat (last h):=elem]> (members h1)).
  assert (Htk : take (Z.to_nat (last h + 1)) ms = contents h ++ [elem]).
  { rewrite <- Hc1. unfold contents, ms. rewrite Hla1.
    replace (Z.to_nat (last h + 1)) with (S (Z.to_nat (last h))) by lia.
    rewrite (take_S_r _ _ elem) by (apply list_lookup_insert_eq; lia).
    by rewrite take_insert_ge. }
  set (srt := sort (compare h1) (take (Z.to_nat (last h + 1)) ms)).
  assert (Hsl : length srt = Z.to_nat (last h + 1)).
  { subst srt. rewrite (Permutation_length (sort_perm _ _)), Htk, length_app, (contents_length D) by done.
    cbn. lia. }
  eexists; split; [done|].
  assert (Hcont : take (Z.to_nat (last h + 1)) (srt ++ drop (Z.to_nat (last h + 1)) ms) = srt)
    by (by rewrite take_app_length').
  split_and!; [|cbn; done|].
  - assert (Hin : forall x, x ∈ take (Z.to_nat (last h + 1)) ms -> D x).
    { intros x. rewrite Htk, elem_of_app, list_elem_of_singleton. intros [Hx| ->]; [by apply Hdo|done]. }
    constructor; unfold contents, MAX_COUNT, HEAP_SIZE; cbn [last members compare size]; [|lia..| |].
    + rewrite length_app, length_drop, Hsl. unfold ms. rewrite length_insert. lia.
    + rewrite Hcont. intros x. subst srt. rewrite (sort_perm _ _). apply Hin.
    + rewrite Hcont. subst srt. rewrite Hcm1. apply sort_sorted.
      * intros x y Hx%Hin Hy%Hin. pose proof (cmp_antisym x y Hx Hy). lia.
      * intros x y z Hx%Hin Hy%Hin Hz%Hin. by apply cmp_trans.
  - unfold contents at 1; cbn [last members]. rewrite Hcont. subst srt.
    rewrite (sort_perm _ _), Htk. by rewrite Permutation_app_comm.
Qed.

(** ** Refinement of a multiset *)

Inductive op := OpAdd (x : ptr) | OpDelete (x : ptr) | OpFind (x : ptr).
Inductive reply := RCount (n : Z) | RBool (b : bool).

Section Run.
Context (sort : compare_fn -> list ptr -> list ptr).

(** one call on the heap; [Heap_find] is used as its callers do, through [Heap_valid] *)
Definition heap_step (h : Heap) (o : op) : res (reply * Heap) :=
  match o with
  | OpAdd x => '(n, h) ← Heap_add sort h x; Ok (RCount n, h)
  | OpDelete x => '(b, h) ← Heap_delete h x; Ok (RBool b, h)
  | OpFind x => i ← Heap_find h x; Ok (RBool (Heap_valid h i), h)
  end.

Fixpoint heap_run (h : Heap) (os : list op) : res (list reply * Heap) :=
  match os with
  | [] => Ok ([], h)
  | o :: os => '(r, h) ← heap_step h o; '(rs, h) ← heap_run h os; Ok (r :: rs, h)
  end.
End Run.

(** the same calls on a multiset *)
Definition bag_step (m : gmultiset Z) (o : op) : reply * gmultiset Z :=
  match o with
  | OpAdd x => (RCount (Z.of_nat (base.size m) + 1), {[+ x +]} ⊎ m)
  | OpDelete x => (RBool (bool_decide (x ∈ m)), m ∖ {[+ x +]})
  | OpFind x => (RBool (bool_decide (x ∈ m)), m)
  end.

Fixpoint bag_run (m : gmultiset Z) (os : list op) : list reply * gmultiset Z :=
  match os with
  | [] => ([], m)
  | o :: os => let '(r, m) := bag_step m o in let '(rs, m) := bag_run m os in (r :: rs, m)
  end.

Definition abs (h : Heap) : gmultiset Z := list_to_set_disj (contents h).

Definition op_elem (o : op) : ptr := match o with OpAdd x | OpDelete x | OpFind x => x end.

Lemma abs_elem h x : x ∈ abs h <-> x ∈ contents h.
Proof. unfold abs. by rewrite elem_of_list_to_set_disj. Qed.

Lemma bag_size (l : list Z) : base.size (list_to_set_disj l : gmultiset Z) = length l.
Proof.
  induction l as [|x l IH]; [apply gmultiset_size_empty|].
  cbn [list_to_set_disj length]. by rewrite gmultiset_size_disj_union, gmultiset_size_singleton, IH.
Qed.

Lemma abs_size D h : wf D h -> Z.of_nat (base.size (abs h)) = last h.
Proof.
  intros Hwf. unfold abs. rewrite bag_size, (contents_length D) by done.
  destruct Hwf; lia.
Qed.

(** an order in which only equal pointers compare equal *)
Class OrdersExactly (D : ptr -> Prop) (cmp : compare_fn) := {
  exactly_orders :: OrdersOn D cmp;
  cmp_zero : forall x y, D x -> D y -> (cmp x y = 0 <-> x = y)
}.

Lemma step_refines sort `{!ArraySort sort} D h o :
  wf D h -> OrdersExactly D (compare h) -> D (op_elem o) -> op_elem o <> 0 -> last h < MAX_COUNT ->
  exists h', heap_step sort h o = Ok ((bag_step (abs h) o).1, h') /\ wf D h' /\
    compare h' = compare h /\ abs h' = (bag_step (abs h) o).2 /\ last h' <= last h + 1.
Proof.
  intros Hwf Ho HD He Hmax. destruct o as [x|x|x]; cbn [heap_step bag_step fst snd op_elem] in *.
  - destruct (Heap_add_spec sort D h x Hwf _ HD He Hmax) as (h' & E & Hwf' & Hc & Hp).
    exists h'. rewrite E, bind_ret, (abs_size D) by done. split_and!; [done..| |].
    + unfold abs. rewrite (list_to_set_disj_perm _ _ Hp). done.
    + rewrite <- (abs_size D h'), <- (abs_size D h) by done. unfold abs.
      rewrite (list_to_set_disj_perm _ _ Hp). cbn [list_to_set_disj].
      rewrite gmultiset_size_disj_union, gmultiset_size_singleton. lia.
  - destruct (Heap_delete_spec D h x Hwf _ HD He) as (b & h' & E & Hwf' & Hc & Hb).
    exists h'. rewrite E, bind_ret. destruct b.
    + destruct Hb as (i & y & Hy & Hz & Hd).
      apply (cmp_zero y x (lookup_dom D h Hwf _ _ Hy) HD) in Hz as ->.
      assert (Hin : x ∈ abs h) by (apply abs_elem; by apply list_elem_of_lookup_2 with i).
      rewrite bool_decide_eq_true_2 by done.
      assert (Habs : abs h = {[+ x +]} ⊎ abs h').
      { unfold abs. rewrite Hd. rewrite (list_to_set_disj_perm _ _ (delete_Permutation _ _ _ Hy)). done. }
      split_and!; [done..| |].
      * rewrite Habs. multiset_solver.
      * rewrite <- (abs_size D h'), <- (abs_size D h), Habs, gmultiset_size_disj_union by done. lia.
    + destruct Hb as [-> Hb]. assert (Hn : x ∉ abs h).
      { rewrite abs_elem. intros Hin. apply (Hb x Hin). by apply (cmp_zero x x HD HD). }
      rewrite bool_decide_eq_false_2 by done. split_and!; [done..|multiset_solver|lia].
  - destruct (Heap_find_spec D h Hwf x HD He) as (r & E & Hf). exists h. rewrite E, bind_ret.
    split_and!; [|done..|lia]. do 3 f_equal. unfold Heap_valid. destruct r as [k|]; cbn in *.
    + destruct Hf as (y & Hk & Hy & Hz). apply (cmp_zero y x (lookup_dom D h Hwf _ _ Hy) HD) in Hz as ->.
      rewrite bool_decide_eq_true_2; [lia|]. apply abs_elem. by apply list_elem_of_lookup_2 with (Z.to_nat k).
    + rewrite bool_decide_eq_false_2; [lia|]. rewrite abs_elem. intros Hin. apply (Hf x Hin).
      by apply (cmp_zero x x HD HD).
Qed.

Lemma run_refines sort `{!ArraySort sort} D os : forall h,
  wf D h -> OrdersExactly D (compare h) -> Forall (fun o => D (op_elem o) /\ op_elem o <> 0) os ->
  last h + Z.of_nat (length os) <= MAX_COUNT ->
  exists h', heap_run sort h os = Ok ((bag_run (abs h) os).1, h') /\ wf D h' /\
    abs h' = (bag_run (abs h) os).2.
Proof.
  induction os as [|o os IH]; intros h Hwf Ho Hos Hmax; [by exists h|].
  apply Forall_cons_1 in Hos as [[HD Ho1] Hos]. cbn [length] in Hmax.
  destruct (step_refines sort D h o Hwf Ho HD Ho1) as (h1 & E1 & Hwf1 & Hc1 & Ha1 & Hl1); [lia|].
  destruct (IH h1 Hwf1 ltac:(by rewrite Hc1) Hos) as (h2 & E2 & Hwf2 & Ha2); [lia|].
  exists h2. cbn [heap_run bag_run]. rewrite E1, bind_ret, E2, bind_ret.
  rewrite Ha1 in *. destruct (bag_step (abs h) o) as [r m]. cbn [fst snd] in *.
  destruct (bag_run m os). done.
Qed.

(** ** An instance of the sort *)

Fixpoint insert_sorted (cmp : compare_fn) (x : ptr) (l : list ptr) : list ptr :=
  match l with
  | [] => [x]
  | y :: l' => if cmp x y <=? 0 then x :: l else y :: insert_sorted cmp x l'
  end.

Fixpoint ref_sort (cmp : compare_fn) (l : list ptr) : list ptr :=
  match l with [] => [] | x :: l' => insert_sorted cmp x (ref_sort cmp l') end.

Lemma insert_sorted_perm cmp x l : insert_sorted cmp x l ≡ₚ x :: l.
Proof.
  induction l as [|y l IH]; [done|]. cbn. destruct (cmp x y <=? 0); [done|].
  rewrite IH. apply Permutation_swap.
Qed.

Lemma ref_sort_perm cmp l : ref_sort cmp l ≡ₚ l.
Proof. induction l as [|x l IH]; [done|]. cbn. by rewrite insert_sorted_perm, IH. Qed.

Lemma insert_sorted_sorted (D : ptr -> Prop) cmp x l :
  (forall x y, D x -> D y -> cmp x y <= 0 \/ cmp y x <= 0) ->
  (forall x y z, D x -> D y -> D z -> cmp x y <= 0 -> cmp y z <= 0 -> cmp x z <= 0) ->
  D x -> (forall y, y ∈ l -> D y) -> StronglySorted (fun x y => cmp x y <= 0) l ->
  StronglySorted (fun x y => cmp x y <= 0) (insert_sorted cmp x l).
Proof.
  intros Ht Htr Dx Dl Hs. induction Hs as [|y l Hs IH Hy]; cbn; [repeat constructor|].
  assert (Dy : D y) by (apply Dl; set_solver).
  assert (Hyl : forall z, z ∈ l -> cmp y z <= 0) by (by apply list.Forall_forall).
  destruct (Z.leb_spec (cmp x y) 0) as [Hle|Hgt].
  - constructor; [by constructor|]. apply list.Forall_forall. intros z [->|Hz]%elem_of_cons; [done|].
    apply (Htr x y z Dx Dy); [apply Dl; set_solver|done|auto].
  - constructor; [apply IH; set_solver|]. apply list.Forall_forall. intros z.
    rewrite insert_sorted_perm. intros [->|Hz]%elem_of_cons; [|auto].
    destruct (Ht x y Dx Dy); lia.
Qed.

#[global] Instance ref_sort_ok : ArraySort ref_sort.
Proof.
  split; [exact ref_sort_perm|]. intros cmp l Ht Htr.
  assert (H : forall l', (forall z, z ∈ l' -> z ∈ l) ->
                         StronglySorted (fun x y => cmp x y <= 0) (ref_sort cmp l')); [|by apply H].
  induction l' as [|x l' IH]; intros Hsub; [constructor|]. cbn.
  apply (insert_sorted_sorted (fun z => z ∈ l)); [done|done| | |apply IH; set_solver].
  - apply Hsub; set_solver.
  - intros y. rewrite ref_sort_perm. intros Hy. apply Hsub; set_solver.
Qed.

(** ** Properties *)

(** the pointers of an address window of 2 GiB, in which the default comparison is exact *)
Definition window (base : Z) (x : ptr) : Prop := base <= x < base + 2 ^ 31.

#[global] Instance void_ptr_window base : OrdersExactly (window base) Heap_void_ptr_compare.
Proof.
  unfold window, Heap_void_ptr_compare. split; [split|].
  - intros x y Hx Hy. rewrite !i32_small by lia. lia.
  - intros x y z Hx Hy Hz. rewrite !i32_small by lia. lia.
  - intros x y Hx Hy. rewrite !i32_small by lia. lia.
Qed.

(** C20: the heap refines a multiset of pointers: any sequence of [Heap_add], [Heap_delete] and
    [Heap_find] calls on a new heap returns, without fault, exactly what the same calls
    on a multiset return, and the array stays sorted, large enough and within its
    bounds through all growing and shrinking. *)
Theorem heap_refines_multiset sort `{!ArraySort sort} D cmp `{!OrdersExactly D cmp} os :
  Forall (fun o => D (op_elem o) /\ op_elem o <> 0) os -> Z.of_nat (length os) <= MAX_COUNT ->
  exists h', heap_run sort (Heap_create (Some cmp)) os = Ok ((bag_run ∅ os).1, h') /\ wf D h' /\
    abs h' = (bag_run ∅ os).2.
Proof.
  intros Hos Hmax. by apply (run_refines sort D os (Heap_create (Some cmp)) (create_wf _ _)).
Qed.

Lemma heap_refines_multiset_witness :
  exists h', heap_run ref_sort (Heap_create (Some Heap_void_ptr_compare))
               [OpAdd 5; OpAdd 3; OpFind 5; OpDelete 5; OpDelete 5; OpFind 3]
             = Ok ([RCount 1; RCount 2; RBool true; RBool true; RBool false; RBool true], h')
             /\ wf (window 0) h' /\ abs h' = {[+ 3 +]}.
Proof.
  destruct (heap_refines_multiset ref_sort (window 0) Heap_void_ptr_compare
              [OpAdd 5; OpAdd 3; OpFind 5; OpDelete 5; OpDelete 5; OpFind 3]) as (h' & E & Hw & Ha).
  - unfold window. repeat constructor; cbn; lia.
  - vm_compute. congruence.
  - exists h'. split_and!; [exact E | exact Hw |]. rewrite Ha. vm_compute. reflexivity.
Defined.

(** [Heap_delete] removes exactly one element that compares equal to its argument, moving
    the others down by one, or reports that there is none and changes nothing; the binary
    search always terminates and the heap invariant is kept through the shrink. *)
Theorem heap_delete_exact D h elem :
  wf D h -> OrdersOn D (compare h) -> D elem -> elem <> 0 ->
  exists b h', Heap_delete h elem = Ok (b, h') /\ wf D h' /\
    if (b : bool)
    then exists i x, contents h !! i = Some x /\ compare h x elem = 0 /\ contents h' = delete i (contents h)
    else h' = h /\ forall x, x ∈ contents h -> compare h x elem <> 0.
Proof.
  intros Hwf Ho HD He. destruct (Heap_delete_spec D h elem Hwf Ho HD He) as (b & h' & E & Hw & _ & Hb).
  exists b, h'. auto.
Qed.

Lemma heap_delete_exact_witness :
  exists b h', Heap_delete (Heap_create None) 5 = Ok (b, h') /\ wf (window 0) h'.
Proof.
  destruct (heap_delete_exact (window 0) (Heap_create None) 5 (create_wf _ _)) as (b & h' & E & Hw & _);
    [apply _ | unfold window; lia | done | eauto].
Defined.

(** the default comparison is not an order on pointers: it cuts the difference of two
    addresses to an [int], so addresses that are a multiple of 4 GiB apart are the same
    element, and deleting one of them removes the other. *)
Theorem default_compare_confuses x k :
  0 < x < 2 ^ 31 -> 0 < k < 2 ^ 16 ->
  let y := x + k * 2 ^ 32 in
  exists h1 h2, Heap_add ref_sort (Heap_create None) y = Ok (1, h1) /\ contents h1 = [y] /\
    Heap_delete h1 x = Ok (true, h2) /\ contents h2 = [].
Proof.
  intros Hx Hk y.
  assert (Hc : Heap_void_ptr_compare y x = 0).
  { unfold Heap_void_ptr_compare, i32. subst y. replace (x + k * 2 ^ 32 - x + 2 ^ 31) with (2 ^ 31 + k * 2 ^ 32) by lia.
    rewrite Z.mod_add by lia. reflexivity. }
  assert (Hy : (y =? 0) = false) by (apply Z.eqb_neq; lia).
  assert (Hx0 : (x =? 0) = false) by (apply Z.eqb_neq; lia).
  exists (mkHeap 1 8 [y; 0; 0; 0; 0; 0; 0; 0] Heap_void_ptr_compare), (mkHeap 0 8 [0; 0; 0; 0; 0; 0; 0; 0] Heap_void_ptr_compare).
  split_and!; [| done | | done].
  - unfold Heap_add. rewrite Hy. done.
  - unfold Heap_delete, Heap_find. rewrite Hx0. cbn [negb assert_]. rewrite !bind_ret.
    cbn [length members find_loop last]. change (i32 (u64 (1 - 1))) with 0. cbn [Z.leb Z.compare].
    change (iadd 0 0) with (Ok 0). rewrite bind_ret. change (Z.quot 0 2) with 0.
    change (index [y; 0; 0; 0; 0; 0; 0; 0] 0) with (Ok y). rewrite bind_ret. cbn [compare].
    rewrite Hc. done.
Qed.

Lemma default_compare_confuses_witness :
  exists h1 h2, Heap_add ref_sort (Heap_create None) 4294971392 = Ok (1, h1) /\ contents h1 = [4294971392] /\
    Heap_delete h1 4096 = Ok (true, h2) /\ contents h2 = [].
Proof. apply (default_compare_confuses 4096 1); lia. Defined.

End Heap.
