(* ===== verification/Message.v ===== *)
(** * Message: [src/src/protocol/message.c] and the message queue [src/src/hub/queue.c]

    Messages live at addresses of their own, hold the header and body trees they were
    read from, and are reference counted with a [short].  A queue is a ring of message
    pointers. *)

From Stdlib Require Import ZArith Lia Floats.SpecFloat.
From S2P Require Import Prelude Cstdlib Node NodeFormat NodeRep NodeOpen NodeFormatProps.
Import Cstdlib Node NodeFormat NodeRep NodeOpen NodeFormatProps.
Local Open Scope Z_scope.

Module Message.

(** [m_type] is the body's name, which the message shares; [m_from] a member pointer. *)
Record Message := mkMessage {
  m_msgid : Z;
  m_type : option bytes;
  m_received_at : Z;
  m_from : Z;
  m_data : option loc;
  m_hdr : option loc;
  m_body : option loc;
  m_ref_count : Z
}.

(** the node store and the messages *)
Record heap := mkHeap {
  h_store : store;
  h_msgs : gmap loc Message;
  h_next : loc
}.

Definition set_store (st : store) (H : heap) : heap := mkHeap st (h_msgs H) (h_next H).
Definition set_msg (m : loc) (M : Message) (H : heap) : heap :=
  mkHeap (h_store H) (<[m := M]> (h_msgs H)) (h_next H).
Definition drop_msg (m : loc) (H : heap) : heap :=
  mkHeap (h_store H) (delete m (h_msgs H)) (h_next H).

Definition set_ref (n : Z) (M : Message) : Message :=
  mkMessage (m_msgid M) (m_type M) (m_received_at M) (m_from M) (m_data M) (m_hdr M) (m_body M) n.
Definition set_msgid (n : Z) (M : Message) : Message :=
  mkMessage n (m_type M) (m_received_at M) (m_from M) (m_data M) (m_hdr M) (m_body M) (m_ref_count M).
Definition set_data (d : option loc) (M : Message) : Message :=
  mkMessage (m_msgid M) (m_type M) (m_received_at M) (m_from M) d (m_hdr M) (m_body M) (m_ref_count M).

Definition get_msg (H : heap) (m : loc) : res Message := need BadPointer (h_msgs H !! m).

(** [Message_ref_inc], [Message_ref_dec]: arithmetic on a [short] *)
Definition Message_ref_inc (H : heap) (m : loc) : res heap :=
  M ← get_msg H m; Ok (set_msg m (set_ref (i16 (m_ref_count M + 1)) M) H).
Definition Message_ref_dec (H : heap) (m : loc) : res heap :=
  M ← get_msg H m; Ok (set_msg m (set_ref (i16 (m_ref_count M - 1)) M) H).

(** [now] is the result of [time(NULL)] *)
Definition Message_alloc (H : heap) (now : Z) (hdr body : option loc) : res (loc * heap) :=
  ty ← match body with
       | Some _ => b ← load (h_store H) body; Ok (name b)
       | None => Ok None
       end;
  let m := h_next H in
  Ok (m, mkHeap (h_store H) (<[m := mkMessage 0 ty now 0 None hdr body 0]> (h_msgs H)) (Pos.succ m)).

Definition Message_destroy (H : heap) (m : loc) : res heap :=
  H ← Message_ref_dec H m;
  M ← get_msg H m;
  _ ← assert_ (0 <=? m_ref_count M);
  if m_ref_count M =? 0 then
    st ← match m_hdr M with Some _ => Node_destroy (h_store H) (m_hdr M) | None => Ok (h_store H) end;
    st ← match m_body M with Some _ => Node_destroy st (m_body M) | None => Ok st end;
    Ok (drop_msg m (set_store st H))
  else Ok H.

(** [None] is the NULL return: header and body are gone with the message. *)
Definition Message_decons (H : heap) (now : Z) (hdr body : option loc) : res (option loc * heap) :=
  _ ← assert_ (bool_decide (hdr <> None));
  _ ← assert_ (bool_decide (body <> None));
  '(m, H) ← Message_alloc H now hdr body;
  H ← Message_ref_inc H m;
  let fail_path H := H ← Message_destroy H m; Ok (None, H) in
  M ← get_msg H m;
  let '(ok, st) := check (h_store H) (bool_decide (m_type M <> None)) in
  let H := set_store st H in
  if negb ok then fail_path H else
  '(rc, outs, st) ← Node_decons (h_store H) hdr false (lit "[nw") [DOut; DName (Some (lit "header"))];
  let M := match outs with DVNum n :: _ => set_msgid n M | _ => M end in
  let H := set_msg m M (set_store st H) in
  let '(ok, st) := check (h_store H) rc in
  let H := set_store st H in
  if negb ok then fail_path H else
  '(rc, outs, st) ← Node_decons (h_store H) body false (lit "[G.") [DNode (m_data M)];
  let M := match outs with DVNode d :: _ => set_data (Some d) M | _ => M end in
  let H := set_msg m M (set_store st H) in
  let '(ok, st) := check (h_store H) rc in
  let H := set_store st H in
  if negb ok then fail_path H else
  H ← Message_ref_dec H m;
  Ok (Some m, H).

Definition Message_cons_header (st : store) (msgid : Z) : res (option loc * store) :=
  Node_cons st (lit "[nw") [CANum msgid; CACstr (Some (lit "header"))].

(** the header and the body *)
Definition Message_cons (st : store) (msgid : Z) (data : option loc) (ty : option bytes)
  : res (option loc * option loc * store) :=
  _ ← assert_ (bool_decide (data <> None));
  _ ← assert_ (bool_decide (ty <> None));
  '(hdr, st) ← Message_cons_header st msgid;
  '(body, st) ← Node_cons st (lit "[Gw") [CANode data; CACstr ty];
  Ok (hdr, body, st).

(** [Message_dump]: the trees it prints; the header is printed when there is a body *)
Definition Message_dump (H : heap) (m : loc) : res unit :=
  M ← get_msg H m;
  _ ← match m_data M with Some _ => Node_bstr (h_store H) (m_data M) false | None => Ok [] end;
  _ ← match m_body M with Some _ => Node_dump (h_store H) (m_body M) false | None => Ok [] end;
  _ ← match m_body M with Some _ => Node_dump (h_store H) (m_hdr M) false | None => Ok [] end;
  Ok tt.

(** ** The queue *)

(** an entry of the [malloc]ed array *)
Inductive slot := Uninit | Null | Msg (m : loc).

Record MsgQueue := mkQueue {
  q_messages : list slot;
  q_dead : bool;
  q_i : Z;
  q_j : Z;
  q_dim : Z
}.

Definition MsgQueue_create (dim : Z) : res MsgQueue :=
  _ ← assert_ (negb (dim =? 0));
  Ok (mkQueue (replicate (Z.to_nat dim) Uninit) false 0 0 dim).

Definition MsgQueue_is_empty (q : MsgQueue) : bool := q_i q =? q_j q.
Definition MsgQueue_is_full (q : MsgQueue) : bool := q_i q =? u64 (q_j q + 1) mod q_dim q.

Definition MsgQueue_get_first (q : MsgQueue) : res (option loc) :=
  s ← index (q_messages q) (q_i q);
  match s with
  | Msg m => Ok (Some m)
  | Null => Ok None
  | Uninit => Fault BadPointer
  end.

Definition MsgQueue_add (q : MsgQueue) (H : heap) (m : loc) : res (bool * MsgQueue * heap) :=
  if MsgQueue_is_full q then Ok (false, q, H)
  else
    H ← Message_ref_inc H m;
    ms ← index_set (q_messages q) (q_j q) (Msg m);
    Ok (true, mkQueue ms (q_dead q) (q_i q) (u64 (q_j q + 1) mod q_dim q) (q_dim q), H).

Definition MsgQueue_delete (q : MsgQueue) (H : heap) : res (bool * MsgQueue * heap) :=
  if MsgQueue_is_empty q then Ok (false, q, H)
  else
    f ← MsgQueue_get_first q;
    match f with
    | Some m =>
      H ← Message_destroy H m;
      ms ← index_set (q_messages q) (q_i q) Null;
      Ok (true, mkQueue ms (q_dead q) (u64 (q_i q + 1) mod q_dim q) (q_j q) (q_dim q), H)
    | None => Ok (false, q, H)
    end.

(** the [while] of [MsgQueue_destroy] *)
Fixpoint drain (fuel : nat) (q : MsgQueue) (H : heap) : res heap :=
  match fuel with
  | O => Fault NoFuel
  | S f =>
    if MsgQueue_is_empty q then Ok H
    else '(_, q, H) ← MsgQueue_delete q H; drain f q H
  end.

Definition MsgQueue_destroy (q : MsgQueue) (H : heap) : res heap :=
  drain (S (length (q_messages q))) q H.

(** What [MsgQueue_first] does: it may have to sleep until it is woken. *)
Inductive first := FirstNull | FirstMsg (m : loc) | FirstSleep.

Definition first_of (q : MsgQueue) : res first :=
  f ← MsgQueue_get_first q;
  Ok (match f with Some m => FirstMsg m | None => FirstNull end).

Definition MsgQueue_first (q : MsgQueue) : res first :=
  if q_dead q then Ok FirstNull
  else if MsgQueue_is_empty q then Ok FirstSleep
  else first_of q.

(** the part after [MsgQueue_wait] *)
Definition MsgQueue_first_woken (q : MsgQueue) : res first :=
  if q_dead q || MsgQueue_is_empty q then Ok FirstNull else first_of q.

Definition MsgQueue_mark_dead (q : MsgQueue) : MsgQueue :=
  mkQueue (q_messages q) true (q_i q) (q_j q) (q_dim q).
Definition MsgQueue_clear (q : MsgQueue) : MsgQueue :=
  mkQueue (q_messages q) (q_dead q) 0 0 (q_dim q).

(** ** The queue refines a bounded FIFO *)

(** number of entries between the indices *)
Definition count (q : MsgQueue) : nat := Z.to_nat ((q_j q - q_i q) mod q_dim q).

(** the [k]-th entry from the front *)
Definition entry (q : MsgQueue) (k : nat) : option slot :=
  q_messages q !! Z.to_nat ((q_i q + Z.of_nat k) mod q_dim q).

(** [holds q l]: the queue's live entries are [l], first to last *)
Record holds (q : MsgQueue) (l : list loc) : Prop := Holds {
  hl_dim : 0 < q_dim q < 2 ^ 62;
  hl_len : Z.of_nat (length (q_messages q)) = q_dim q;
  hl_i : 0 <= q_i q < q_dim q;
  hl_j : 0 <= q_j q < q_dim q;
  hl_count : count q = length l;
  hl_entry : forall k m, l !! k = Some m -> entry q k = Some (Msg m)
}.

(** the FIFO: messages and the heap they live in *)
Definition fifo_add (cap : Z) (l : list loc) (H : heap) (m : loc) : res (bool * list loc * heap) :=
  if zlen l =? cap then Ok (false, l, H)
  else H ← Message_ref_inc H m; Ok (true, l ++ [m], H).

Definition fifo_delete (l : list loc) (H : heap) : res (bool * list loc * heap) :=
  match l with
  | [] => Ok (false, [], H)
  | m :: l' => H ← Message_destroy H m; Ok (true, l', H)
  end.

Definition fifo_first (dead : bool) (l : list loc) : first :=
  if dead then FirstNull else match l with [] => FirstSleep | m :: _ => FirstMsg m end.

Fixpoint fifo_drain (l : list loc) (H : heap) : res heap :=
  match l with
  | [] => Ok H
  | m :: l' => H ← Message_destroy H m; fifo_drain l' H
  end.

Lemma holds_create dim :
  0 < dim < 2 ^ 62 -> exists q, MsgQueue_create dim = Ok q /\ holds q [] /\ q_dim q = dim /\ q_dead q = false.
Proof.
  intros Hd. unfold MsgQueue_create. rewrite assert_true, bind_ret by (apply negb_true_iff, Z.eqb_neq; lia).
  eexists; split; [done|]. split_and!; [|done..].
  constructor; cbn; try lia.
  - rewrite length_replicate. lia.
  - unfold count; cbn. by rewrite Zmod_0_l.
  - intros k m. by rewrite lookup_nil.
Qed.

Lemma count_cases q l : holds q l ->
  q_j q = (q_i q + zlen l) mod q_dim q /\ zlen l < q_dim q.
Proof.
  intros [Hd Hl Hi Hj Hc _]. unfold count, zlen in *.
  pose proof (Z.mod_pos_bound (q_j q - q_i q) (q_dim q) ltac:(lia)).
  split; [|lia]. rewrite <- Hc, Z2Nat.id by lia.
  rewrite Z.add_mod_idemp_r by lia. replace (q_i q + (q_j q - q_i q)) with (q_j q) by lia.
  by rewrite Z.mod_small.
Qed.

Lemma is_empty_holds q l : holds q l -> MsgQueue_is_empty q = bool_decide (l = []).
Proof.
  intros Hh. destruct (count_cases q l Hh) as [Ej Hlt]. unfold MsgQueue_is_empty.
  destruct Hh as [Hd Hl Hi Hj Hc _]. destruct l as [|m l].
  - rewrite bool_decide_eq_true_2 by done. apply Z.eqb_eq. rewrite Ej.
    unfold zlen; cbn. rewrite Z.add_0_r, Z.mod_small; lia.
  - rewrite bool_decide_eq_false_2 by done. apply Z.eqb_neq. intros E.
    unfold count in Hc. rewrite E, Z.sub_diag, Zmod_0_l in Hc. done.
Qed.

Lemma succ_mod_neq a k d : 0 <= a < d -> 0 <= k < d -> (a + k) mod d = a <-> k = 0.
Proof.
  intros Ha Hk. split; [|intros ->; rewrite Z.add_0_r; by apply Z.mod_small].
  intros E. destruct (Z_lt_le_dec (a + k) d).
  - rewrite Z.mod_small in E; lia.
  - rewrite (Z.mod_eq (a + k) d) in E by lia.
    assert ((a + k) / d = 1) as Eq by (symmetry; apply (Z.div_unique _ _ 1 (a + k - d)); lia).
    rewrite Eq in E. lia.
Qed.

Lemma is_full_holds q l : holds q l -> MsgQueue_is_full q = (zlen l =? q_dim q - 1).
Proof.
  intros Hh. destruct (count_cases q l Hh) as [Ej Hlt]. unfold MsgQueue_is_full.
  destruct Hh as [Hd Hl Hi Hj Hc _]. rewrite u64_small by lia.
  rewrite Ej, Z.add_mod_idemp_l by lia. pose proof (zlen_nonneg l) as Hn.
  destruct (Z.eqb_spec (zlen l) (q_dim q - 1)) as [E|E].
  - apply Z.eqb_eq. rewrite E. replace (q_i q + (q_dim q - 1) + 1) with (q_i q + 1 * q_dim q) by lia.
    rewrite Z.mod_add, Z.mod_small by lia. done.
  - apply Z.eqb_neq. intros Ef. symmetry in Ef. rewrite <- Z.add_assoc in Ef.
    apply succ_mod_neq in Ef; lia.
Qed.

Lemma mod_offset_inj i k1 k2 d :
  0 < d -> 0 <= k1 < d -> 0 <= k2 < d -> (i + k1) mod d = (i + k2) mod d -> k1 = k2.
Proof.
  intros Hd H1 H2 E.
  assert ((k1 - k2) mod d = 0) as E0.
  { replace (k1 - k2) with ((i + k1) - (i + k2)) by lia. rewrite Zminus_mod, E, Z.sub_diag. apply Zmod_0_l. }
  apply Z.mod_divide in E0 as [c Hc]; [|lia]. destruct (Z.eq_dec c 0) as [->|]; [lia|nia].
Qed.

Definition refines (q : MsgQueue) (r : res (bool * MsgQueue * heap)) (a : res (bool * list loc * heap)) : Prop :=
  match a with
  | Fault e => r = Fault e
  | Ok (b, l', H') =>
    exists q', r = Ok (b, q', H') /\ holds q' l' /\ q_dim q' = q_dim q /\ q_dead q' = q_dead q
  end.

Lemma add_refines q l H m :
  holds q l -> refines q (MsgQueue_add q H m) (fifo_add (q_dim q - 1) l H m).
Proof.
  intros Hh. unfold MsgQueue_add, fifo_add. rewrite (is_full_holds q l Hh).
  destruct (Z.eqb_spec (zlen l) (q_dim q - 1)) as [E|E]; [cbn; eauto|].
  destruct (Message_ref_inc H m) as [H'|e]; [|done]. rewrite !bind_ret.
  destruct (count_cases q l Hh) as [Ej Hlt]. pose proof (zlen_nonneg l) as Hn.
  destruct Hh as [Hd Hl Hi Hj Hc He].
  rewrite index_set_in, bind_ret by lia. cbn. eexists; split; [done|]. split_and!; [|done..].
  rewrite u64_small by lia. unfold zlen in *.
  constructor; cbn; [done | by rewrite length_insert | done | apply Z.mod_pos_bound; lia | |].
  - unfold count; cbn [q_j q_i q_dim]. rewrite length_app, Zminus_mod_idemp_l; cbn [length].
    rewrite <- Z.add_sub_assoc, Ej, Z.add_mod_idemp_l by lia.
    replace (q_i q + Z.of_nat (length l) + (1 - q_i q)) with (Z.of_nat (length l) + 1) by lia.
    rewrite Z.mod_small by lia. lia.
  - intros k x Hx. unfold entry; cbn. apply lookup_app_Some in Hx as [Hx|[Hge Hx]].
    + rewrite list_lookup_insert_ne; [by apply He|]. apply lookup_lt_Some in Hx.
      intros Eq. apply Z2Nat.inj in Eq; [|lia|apply Z.mod_pos_bound; lia].
      rewrite Ej in Eq. apply mod_offset_inj in Eq; lia.
    + assert (k = length l) as ->.
      { apply lookup_lt_Some in Hx. cbn in Hx. lia. }
      rewrite Nat.sub_diag in Hx. cbn in Hx. injection Hx as ->.
      rewrite <- Ej. apply list_lookup_insert_eq. lia.
Qed.

Lemma first_holds q m l : holds q (m :: l) -> MsgQueue_get_first q = Ok (Some m).
Proof.
  intros [Hd Hl Hi Hj Hc He]. unfold MsgQueue_get_first.
  specialize (He O m eq_refl). unfold entry in He. rewrite Z.add_0_r, Z.mod_small in He by lia.
  rewrite (index_Some _ _ _ (proj1 Hi) He). done.
Qed.

Lemma delete_refines q l H :
  holds q l -> refines q (MsgQueue_delete q H) (fifo_delete l H).
Proof.
  intros Hh. unfold MsgQueue_delete. rewrite (is_empty_holds q l Hh).
  destruct l as [|m l]; cbn [fifo_delete].
  { rewrite bool_decide_eq_true_2 by done. cbn. eauto. }
  rewrite bool_decide_eq_false_2 by done. rewrite (first_holds q m l Hh), bind_ret.
  destruct (Message_destroy H m) as [H'|e]; [|done]. rewrite !bind_ret.
  destruct (count_cases q _ Hh) as [Ej Hlt]. pose proof (zlen_nonneg l) as Hn. rewrite zlen_cons in *.
  destruct Hh as [Hd Hl Hi Hj Hc He].
  rewrite index_set_in, bind_ret by lia. cbn. eexists; split; [done|]. split_and!; [|done..].
  rewrite u64_small by lia. unfold zlen in *.
  constructor; cbn; [done | by rewrite length_insert | apply Z.mod_pos_bound; lia | done | |].
  - unfold count; cbn. rewrite Ej, Zminus_mod_idemp_l, Zminus_mod_idemp_r.
    replace (q_i q + (1 + Z.of_nat (length l)) - (q_i q + 1)) with (Z.of_nat (length l)) by lia.
    rewrite Z.mod_small by lia. lia.
  - intros k x Hx. specialize (He (S k) x Hx). unfold entry in *; cbn.
    rewrite Z.add_mod_idemp_l by lia.
    replace (q_i q + 1 + Z.of_nat k) with (q_i q + Z.of_nat (S k)) by lia.
    apply lookup_lt_Some in Hx.
    rewrite list_lookup_insert_ne; [done|]. intros Eq.
    apply Z2Nat.inj in Eq; [|lia|apply Z.mod_pos_bound; lia].
    rewrite <- (Z.mod_small (q_i q) (q_dim q)) in Eq at 1 by lia.
    rewrite <- (Z.add_0_r (q_i q)) in Eq at 1. apply mod_offset_inj in Eq; lia.
Qed.

Lemma drain_refines l : forall q H fuel,
  holds q l -> (length l < fuel)%nat -> drain fuel q H = fifo_drain l H.
Proof.
  induction l as [|m l IH]; intros q H fuel Hh Hf; (destruct fuel as [|fuel]; [lia|]);
    cbn [drain fifo_drain]; rewrite (is_empty_holds _ _ Hh).
  - by rewrite bool_decide_eq_true_2.
  - rewrite bool_decide_eq_false_2 by done.
    pose proof (delete_refines q _ H Hh) as Hr. cbn [fifo_delete] in Hr.
    destruct (Message_destroy H m) as [H'|e]; cbn in Hr.
    + destruct Hr as (q' & -> & Hh' & _). rewrite !bind_ret. apply IH; [done|]. cbn in Hf. lia.
    + by rewrite Hr.
Qed.

(** ** Properties of the queue *)

Inductive q_op := QAdd (m : loc) | QDelete.

Definition queue_step (q : MsgQueue) (H : heap) (o : q_op) : res (bool * MsgQueue * heap) :=
  match o with QAdd m => MsgQueue_add q H m | QDelete => MsgQueue_delete q H end.
Definition fifo_step (cap : Z) (l : list loc) (H : heap) (o : q_op) : res (bool * list loc * heap) :=
  match o with QAdd m => fifo_add cap l H m | QDelete => fifo_delete l H end.

Fixpoint queue_run (q : MsgQueue) (H : heap) (os : list q_op) : res (list bool * MsgQueue * heap) :=
  match os with
  | [] => Ok ([], q, H)
  | o :: os => '(b, q, H) ← queue_step q H o; '(bs, q, H) ← queue_run q H os; Ok (b :: bs, q, H)
  end.

Fixpoint fifo_run (cap : Z) (l : list loc) (H : heap) (os : list q_op) : res (list bool * list loc * heap) :=
  match os with
  | [] => Ok ([], l, H)
  | o :: os => '(b, l, H) ← fifo_step cap l H o; '(bs, l, H) ← fifo_run cap l H os; Ok (b :: bs, l, H)
  end.

(** what the reader of the queue sees at the end of a run, and what destroying it does *)
Definition same_view (q : MsgQueue) (l : list loc) : Prop :=
  MsgQueue_first q = Ok (fifo_first (q_dead q) l) /\
  forall H, MsgQueue_destroy q H = fifo_drain l H.

Lemma holds_view q l : holds q l -> same_view q l.
Proof.
  intros Hh. split.
  - unfold MsgQueue_first, fifo_first. destruct (q_dead q); [done|].
    rewrite (is_empty_holds _ _ Hh). destruct l as [|m l].
    + by rewrite bool_decide_eq_true_2.
    + rewrite bool_decide_eq_false_2 by done. unfold first_of.
      by rewrite (first_holds q m l Hh).
  - intros H. apply drain_refines; [done|]. destruct (count_cases q l Hh) as [_ Hlt].
    pose proof (hl_len q l Hh). unfold zlen in *. lia.
Qed.

Lemma run_fifo os : forall q l H, holds q l ->
  match fifo_run (q_dim q - 1) l H os with
  | Fault e => queue_run q H os = Fault e
  | Ok (bs, l', H') => exists q', queue_run q H os = Ok (bs, q', H') /\ holds q' l'
  end.
Proof.
  induction os as [|o os IH]; intros q l H Hh; cbn [fifo_run queue_run]; [cbn; eauto|].
  assert (Hs : refines q (queue_step q H o) (fifo_step (q_dim q - 1) l H o)).
  { destruct o; [by apply add_refines | by apply delete_refines]. }
  destruct (fifo_step (q_dim q - 1) l H o) as [[[b l1] H1]|e]; cbn in Hs; [|by rewrite Hs].
  destruct Hs as (q1 & -> & Hh1 & Hd1 & _). rewrite !bind_ret.
  specialize (IH q1 l1 H1 Hh1). rewrite Hd1 in IH.
  destruct (fifo_run (q_dim q - 1) l1 H1 os) as [[[bs l2] H2]|e]; cbn.
  - destruct IH as (q2 & -> & Hh2). rewrite !bind_ret. eauto.
  - by rewrite IH.
Qed.

(** What the result of [MsgQueue_delete] means: a message was removed.  The headers describe
    another one, whether messages remain ([queue.h], and [member.h] for [Member_delete_msg], which returns
    it): removing the only message answers 1 and leaves the queue empty. *)
Theorem delete_last_answers_one q m H H' :
  holds q [m] -> Message_destroy H m = Ok H' ->
  exists q', MsgQueue_delete q H = Ok (true, q', H') /\ MsgQueue_is_empty q' = true.
Proof.
  intros Hh Hd. pose proof (delete_refines q [m] H Hh) as Hr. cbn [fifo_delete] in Hr. rewrite Hd in Hr. cbn in Hr.
  destruct Hr as (q' & E & Hh' & _). exists q'. split; [done|]. by rewrite (is_empty_holds q' [] Hh'), bool_decide_eq_true_2.
Qed.

(** C21: a message queue of dimension [dim] refines a FIFO of capacity [dim - 1]: every sequence
    of adds and deletes gives the same answers, the same reference-count changes and the
    same faults as on the FIFO, and afterwards the reader sees the FIFO's head (or sleeps
    when it is empty) and destroying the queue releases the remaining messages in order,
    terminating.  The FIFO answers as the code does: adding, whether there was room; deleting,
    whether a message was removed.  The latter is not what [queue.h] and [member.h] document, 1 if there
    are still messages and 0 if not: see [delete_last_answers_one]. *)
Theorem queue_refines_fifo dim os H :
  0 < dim < 2 ^ 62 ->
  exists q, MsgQueue_create dim = Ok q /\
  match fifo_run (dim - 1) [] H os with
  | Fault e => queue_run q H os = Fault e
  | Ok (bs, l', H') => exists q', queue_run q H os = Ok (bs, q', H') /\ same_view q' l'
  end.
Proof.
  intros Hd. destruct (holds_create dim Hd) as (q & E & Hh & Hq & _). exists q. split; [done|].
  pose proof (run_fifo os q [] H Hh) as Hr. rewrite Hq in Hr.
  destruct (fifo_run (dim - 1) [] H os) as [[[bs l'] H']|e]; [|done].
  destruct Hr as (q' & E' & Hh'). exists q'. split; [done | by apply holds_view].
Qed.

(** two messages without trees *)
Definition two_messages : heap :=
  mkHeap empty_store {[1%positive := mkMessage 7 None 0 0 None None None 0;
                       2%positive := mkMessage 8 None 0 0 None None None 0]} 3%positive.

Lemma queue_refines_fifo_witness :
  exists q, MsgQueue_create 2 = Ok q /\
    exists q' H', queue_run q two_messages [QAdd 1%positive; QAdd 2%positive; QDelete; QAdd 2%positive]
                  = Ok ([true; false; true; true], q', H') /\ MsgQueue_first q' = Ok (FirstMsg 2%positive).
Proof.
  destruct (queue_refines_fifo 2 [QAdd 1%positive; QAdd 2%positive; QDelete; QAdd 2%positive] two_messages)
    as (q & E & Hr); [lia|].
  exists q. split; [exact E|].
  match type of Hr with match ?a with _ => _ end => let b := eval vm_compute in a in change a with b in Hr end.
  cbv iota in Hr. destruct Hr as (q' & E' & Hv & _).
  assert (q_dead q' = false) as Hd.
  { vm_compute in E. injection E as <-. vm_compute in E'. by injection E' as <-. }
  rewrite Hd in Hv. eexists q', _. split; [exact E' | exact Hv].
Defined.

(** ** Messages *)

Definition header_name : bytes := lit "header".

(** the newest child is a number *)
Definition numbered (kids : forest) : Prop :=
  exists knm x kkids krest, kids = FCons knm (FNum x) kkids krest.

(** "[nw" on any tree with right parent links: no fault, and what success means *)
Lemma decons_header st l nm v kids F :
  errno st = 0 -> rep true (nodes st) None (Some l) (FCons nm v kids FNil) F ->
  exists b outs, Node_decons st (Some l) false (lit "[nw") [DOut; DName (Some header_name)]
                 = Ok (b, outs, st) /\
    (b = true <-> nm = Some header_name /\ numbered kids) /\
    (forall knm x kkids krest, kids = FCons knm (FNum x) kkids krest -> outs = [DVNum x]).
Proof.
  intros He Hr. inversion Hr as [|? ? n ? ? ? ? ? Hl Ht Hval Hpar Hk Hsib]; subst.
  unfold Node_decons. rewrite assert_true, bind_ret by done.
  change (cstr (lit "[nw")) with [Byte.x5b; Byte.x6e; Byte.x77].
  cbn [decons_loop]. rewrite (load_Some _ _ _ Hl), bind_ret.
  inversion Hk as [|? k kn kv kkids krest Fkk Fkr Hkl Hkt Hkv Hkp Hkk Hkr]; subst;
    try match goal with H : _ = child n |- _ => rewrite <- H end.
  { exists false, []. rewrite bind_ret, check_clean by done. unfold numbered. split_and!; [done| |naive_solver].
    split; [done|]. naive_solver. }
  clear Hk.
  rewrite (load_Some _ _ _ Hkl), bind_ret, check_clean by done. cbn [non_null].
  rewrite Hkt, Hkv. destruct kv as [x|x|x|x|]; cbn [type_of value_of];
    try (eexists false, _; rewrite bind_ret, set_errno_clean by done; unfold numbered;
         split_and!; [done|naive_solver|naive_solver]).
  cbn [decons_loop].
  assert (Hpk : exists q qn, next_sib kn (Some k) = Some q /\ nodes st !! q = Some qn /\ parent qn = Some l).
  { unfold next_sib. destruct (sibling kn) as [q|] eqn:Eq.
    - inversion Hkr as [|? ? qn ? ? ? ? ? Hql _ _ Hqp]; subst. exists q, qn. auto.
    - exists k, kn. auto. }
  destruct Hpk as (q & qn & -> & Hql & Hqp).
  rewrite (load_Some _ _ _ Hql), bind_ret, Hqp, check_clean by done.
  rewrite bool_decide_eq_true_2 by done. rewrite (load_Some _ _ _ Hl), bind_ret, check_clean by done.
  destruct (name_is (name n) (Some header_name)) eqn:En.
  - exists true, [DVNum x]. rewrite bind_ret, check_clean by done. cbn. split_and!; [done| |naive_solver].
    unfold name_is in En. destruct (name n) as [s|]; [|done]. apply bool_decide_eq_true in En as ->.
    unfold numbered. naive_solver.
  - exists false, [DVNum x]. rewrite bind_ret. split_and!; [done| |naive_solver].
    split; [done|]. intros [E _]. unfold name_is in En. rewrite E in En.
    by rewrite bool_decide_eq_true_2 in En.
Qed.

(** "[G." on any tree: it succeeds exactly when the root has a child, and gives the newest *)
Lemma decons_body lk st l nm v kids F :
  errno st = 0 -> rep lk (nodes st) None (Some l) (FCons nm v kids FNil) F ->
  exists n, nodes st !! l = Some n /\ name n = nm /\
    Node_decons st (Some l) false (lit "[G.") [DNode None]
    = Ok (bool_decide (child n <> None), match child n with Some d => [DVNode d] | None => [] end, st).
Proof.
  intros He Hr. inversion Hr as [|? ? n ? ? ? ? ? Hl Ht Hval Hpar Hk Hsib]; subst.
  exists n. split_and!; [done..|].
  unfold Node_decons. rewrite assert_true, bind_ret by done.
  change (cstr (lit "[G.")) with [Byte.x5b; Byte.x47; Byte.x2e].
  cbn [decons_loop]. rewrite (load_Some _ _ _ Hl), bind_ret.
  inversion Hk as [|? k kn kv kkids krest Fkk Fkr Hkl Hkt Hkv Hkp Hkk Hkr]; subst;
    try match goal with H : _ = child n |- _ => rewrite <- H end.
  { by rewrite bind_ret, check_clean. }
  rewrite (load_Some _ _ _ Hkl), bind_ret, !check_clean by done. cbn [non_null].
  assert (Hpk : exists q qn, next_sib kn (Some k) = Some q /\ nodes st !! q = Some qn).
  { unfold next_sib. destruct (sibling kn) as [q|] eqn:Eq; [|eauto].
    inversion Hkr; subst; eauto. }
  destruct Hpk as (q & qn & -> & Hql). cbn [decons_loop].
  rewrite (load_Some _ _ _ Hql), bind_ret, bind_ret, check_clean by done. done.
Qed.

(** the trees of a message: header and body, disjoint, not too deep to destroy *)
Record owns (st : store) (hdr body : loc) (Fh Fb : gset loc) (hf bf : forest) : Prop := Owns {
  ow_errno : errno st = 0;
  ow_hdr : rep true (nodes st) None (Some hdr) hf Fh;
  ow_body : rep false (nodes st) None (Some body) bf Fb;
  ow_disj : Fh ## Fb;
  ow_hh : (height hf < 128)%nat;
  ow_bh : (height bf < 128)%nat
}.

(** The last reference takes the trees with it. *)
Lemma destroy_last H m M hdr body Fh Fb hf bf :
  h_msgs H !! m = Some M -> m_ref_count M = 1 -> m_hdr M = Some hdr -> m_body M = Some body ->
  owns (h_store H) hdr body Fh Fb hf bf ->
  Message_destroy H m
  = Ok (drop_msg m (set_store (set_nodes (drop_nodes (Fb ∪ Fh) (nodes (h_store H))) (h_store H)) H)).
Proof.
  intros Hm Href Hh Hb [He Hrh Hrb Hd Hhh Hbh]. unfold Message_destroy, Message_ref_dec, get_msg.
  rewrite Hm. cbn [need]. rewrite !bind_ret. cbn [h_msgs set_msg]. rewrite lookup_insert_eq. cbn [need].
  rewrite bind_ret, Href. change (i16 (1 - 1)) with 0. cbn [m_ref_count set_ref m_hdr m_body].
  change (assert_ (0 <=? 0)) with (Ok tt). rewrite bind_ret, Hh, Hb. cbn [Z.eqb].
  cbn [h_store set_msg]. rewrite (Node_destroy_rep true _ None (Some hdr) hf Fh) by done. rewrite bind_ret.
  rewrite (Node_destroy_rep false _ None (Some body) bf Fb), bind_ret; [| |done].
  - cbn [nodes set_nodes]. rewrite drop_nodes_union. unfold drop_msg, set_store, set_msg; cbn.
    by rewrite delete_insert_eq.
  - cbn [nodes set_nodes]. apply rep_drop; [done|set_solver].
Qed.

(** the heap [H] with the new message [M] *)
Definition with_msg (H : heap) (M : Message) : heap :=
  mkHeap (h_store H) (<[h_next H := M]> (h_msgs H)) (Pos.succ (h_next H)).

Lemma with_msg_set H M M' : set_msg (h_next H) M' (with_msg H M) = with_msg H M'.
Proof. unfold set_msg, with_msg; cbn. by rewrite insert_insert_eq. Qed.

Lemma with_msg_store H M : set_store (h_store H) (with_msg H M) = with_msg H M.
Proof. done. Qed.

Lemma with_msg_get H M : get_msg (with_msg H M) (h_next H) = Ok M.
Proof. unfold get_msg; cbn. by rewrite lookup_insert_eq. Qed.

(** the failure path: the new message and its trees are gone *)
Lemma decons_fail H M hdr body Fh Fb hf bf :
  h_msgs H !! h_next H = None -> m_ref_count M = 1 -> m_hdr M = Some hdr -> m_body M = Some body ->
  owns (h_store H) hdr body Fh Fb hf bf ->
  exists H', (H' ← Message_destroy (with_msg H M) (h_next H); Ok (None (A:=loc), H')) = Ok (None, H') /\
    h_msgs H' = h_msgs H /\ nodes (h_store H') = drop_nodes (Fb ∪ Fh) (nodes (h_store H)).
Proof.
  intros Hm Href Hh Hb Ho.
  rewrite (destroy_last (with_msg H M) (h_next H) M hdr body Fh Fb hf bf);
    [|cbn; by rewrite lookup_insert_eq|done..].
  rewrite bind_ret. eexists; split; [done|]. split; [|done]. cbn. by rewrite delete_insert_id.
Qed.

(** what the caller of [Message_decons] gets *)
Definition decons_result (H : heap) (now : Z) (hdr body : loc) (Fh Fb : gset loc)
  (hn : option bytes) (hk : forest) (bn : option bytes) (bk : forest) (r : option loc) (H' : heap) : Prop :=
  match r with
  | Some m =>
    exists x d nb ty knm kkids krest,
      m = h_next H /\ hn = Some header_name /\ hk = FCons knm (FNum x) kkids krest /\
      bn = Some ty /\ nodes (h_store H) !! body = Some nb /\ child nb = Some d /\
      H' = with_msg H (mkMessage x (Some ty) now 0 (Some d) (Some hdr) (Some body) 0)
  | None =>
    ~ (hn = Some header_name /\ numbered hk /\ bn <> None /\ bk <> FNil) /\
    h_msgs H' = h_msgs H /\ nodes (h_store H') = drop_nodes (Fb ∪ Fh) (nodes (h_store H))
  end.

Lemma decons_failed H M now hdr body Fh Fb hf bf hn hk bn bk :
  h_msgs H !! h_next H = None -> m_ref_count M = 1 -> m_hdr M = Some hdr -> m_body M = Some body ->
  owns (h_store H) hdr body Fh Fb hf bf ->
  ~ (hn = Some header_name /\ numbered hk /\ bn <> None /\ bk <> FNil) ->
  exists r H', (H' ← Message_destroy (with_msg H M) (h_next H); Ok (None (A:=loc), H')) = Ok (r, H') /\
    decons_result H now hdr body Fh Fb hn hk bn bk r H'.
Proof.
  intros Hm Hr Hh Hb Ho Hn. destruct (decons_fail H M hdr body Fh Fb hf bf Hm Hr Hh Hb Ho) as (H' & E & Hx).
  exists None, H'. cbn. auto.
Qed.

Lemma Message_decons_spec H now hdr body hn hv hk bn bv bk Fh Fb :
  owns (h_store H) hdr body Fh Fb (FCons hn hv hk FNil) (FCons bn bv bk FNil) ->
  h_msgs H !! h_next H = None ->
  exists r H', Message_decons H now (Some hdr) (Some body) = Ok (r, H') /\
    decons_result H now hdr body Fh Fb hn hk bn bk r H'.
Proof.
  intros Ho Hm. pose proof Ho as [He Hrh Hrb Hd Hhh Hbh].
  destruct (decons_body false (h_store H) body bn bv bk Fb He Hrb) as (nb & Hnb & Hname & Hdb).
  destruct (decons_header (h_store H) hdr hn hv hk Fh He Hrh) as (b & outs & Hdh & Hb & Houts).
  set (M0 := mkMessage 0 bn now 0 None (Some hdr) (Some body) 0).
  set (M1 := set_ref 1 M0).
  unfold Message_decons. rewrite !assert_true, !bind_ret by done.
  assert (Message_alloc H now (Some hdr) (Some body) = Ok (h_next H, with_msg H M0)) as ->.
  { unfold Message_alloc. rewrite (load_Some _ _ _ Hnb), !bind_ret, Hname. done. }
  rewrite bind_ret. unfold Message_ref_inc at 1. rewrite with_msg_get, bind_ret, with_msg_set, bind_ret.
  change (set_ref (i16 (m_ref_count M0 + 1)) M0) with M1. rewrite with_msg_get, bind_ret.
  change (h_store (with_msg H M1)) with (h_store H). rewrite (check_clean (h_store H)) by done.
  rewrite with_msg_store. change (m_type M1) with bn. destruct bn as [ty|].
  2:{ rewrite bool_decide_eq_false_2 by naive_solver. cbn [negb].
      apply (decons_failed H M1 now hdr body Fh Fb _ _ _ _ _ _ Hm eq_refl eq_refl eq_refl Ho). naive_solver. }
  rewrite bool_decide_eq_true_2 by done. cbn [negb].
  change (lit "header") with header_name.
  change (h_store (with_msg H M1)) with (h_store H). rewrite Hdh, bind_ret.
  set (M2 := match outs with DVNum n :: _ => set_msgid n M1 | _ => M1 end).
  assert (HM2 : exists x, M2 = set_msgid x M1).
  { subst M2. destruct outs as [|[] ?]; eauto; by exists 0. }
  destruct HM2 as [x0 HM2].
  change (h_store (with_msg H M1)) with (h_store H). rewrite with_msg_store.
  rewrite with_msg_set. change (h_store (with_msg H M2)) with (h_store H).
  rewrite (check_clean (h_store H)) by done. rewrite with_msg_store. destruct b.
  2:{ cbn [negb]. eapply (decons_failed H M2 now hdr body Fh Fb _ _ _ _ _ _ Hm); [by rewrite HM2..|done|naive_solver]. }
  cbn [negb]. change (h_store (with_msg H M2)) with (h_store H).
  replace (m_data M2) with (@None loc) by (by rewrite HM2). rewrite Hdb, bind_ret.
  destruct (proj1 Hb eq_refl) as [-> (knm & x & kkids & krest & ->)].
  assert (HM2x : M2 = set_msgid x M1) by (subst M2; by rewrite (Houts _ _ _ _ eq_refl)).
  rewrite with_msg_store. destruct (child nb) as [d|] eqn:Ed.
  - rewrite with_msg_set, HM2x. change (h_store (with_msg H _)) with (h_store H).
    rewrite (check_clean (h_store H)) by done. rewrite bool_decide_eq_true_2 by done. cbn [negb].
    rewrite with_msg_store. unfold Message_ref_dec. rewrite with_msg_get, bind_ret, with_msg_set, bind_ret.
    eexists _, _; split; [done|]. cbn. exists x, d, nb, ty, knm, kkids, krest. done.
  - assert (Hbk : bk = FNil).
    { inversion Hrb as [|? ? n' ? ? ? ? ? Hl' _ _ _ Hk' _]; subst. rewrite Hnb in Hl'; injection Hl' as <-.
      rewrite Ed in Hk'. by apply rep_None in Hk' as [-> _]. }
    rewrite with_msg_set. change (h_store (with_msg H _)) with (h_store H).
    rewrite (check_clean (h_store H)) by done. rewrite bool_decide_eq_false_2 by naive_solver. cbn [negb].
    rewrite with_msg_store.
    eapply (decons_failed H M2 now hdr body Fh Fb _ _ _ _ _ _ Hm); [by rewrite HM2x..|done|naive_solver].
Qed.

(** without the parent links a list can hang under any node *)
Lemma rep_reparent ns par par' p f F : rep false ns par p f F -> rep false ns par' p f F.
Proof.
  intros H. revert par'. induction H as [|par l n v kids rest Fk Fr Hl Ht Hv Hp Hk IHk Hr IHr];
    intros par'; [constructor|]. eapply rep_cons; eauto. discriminate.
Qed.

Lemma set_sibling_None n : sibling n = None -> set_sibling None n = n.
Proof. destruct n; cbn. by intros ->. Qed.

(** "[Gw": a tree is put under a new named root; its parent pointer is not set *)
Lemma Node_cons_G st d nm v kids F w :
  rep false (nodes st) None (Some d) (FCons nm v kids FNil) F -> Byte.x00 ∉ w ->
  errno st = 0 -> fresh st ->
  let g := next st in
  exists st', Node_cons st (lit "[Gw") [CANode (Some d); CACstr (Some w)] = Ok (Some g, st') /\
    nodes st' = <[g := mkNode (Some w) TYPE_GROUP VZero None None (Some d)]> (nodes st) /\
    next st' = Pos.succ g /\ errno st' = 0 /\
    rep false (nodes st') None (Some g) (FCons (Some w) FGrp (FCons nm v kids FNil) FNil) ({[g]} ∪ F ∪ ∅).
Proof.
  intros Hr Hw He Hf g. inversion Hr as [|? ? n ? ? ? Fk Fr Hl Ht Hv _ Hk Hsib]; subst.
  assert (Hs : sibling n = None) by (by inversion Hsib).
  pose proof (fresh_lt _ _ _ Hf Hl) as Hlt.
  assert (Hg : g ∉ {[d]} ∪ Fk ∪ Fr) by (intros Hin; pose proof (rep_lt _ _ _ _ _ _ _ Hf Hr Hin); lia).
  set (ns' := <[g := mkNode (Some w) TYPE_GROUP VZero None None (Some d)]> (nodes st)).
  exists (Store ns' (Pos.succ g) (errno st)). split_and!; [|done|done|done|].
  - unfold Node_cons. change (cstr (lit "[Gw")) with [Byte.x5b; Byte.x47; Byte.x77]. cbn [cons_loop].
    rewrite (eq_refl : Node_new_group st None = Ok (g, add_root st)), bind_ret.
    rewrite !check_clean by done. rewrite bool_decide_eq_true_2 by done.
    unfold list_add_child. erewrite load_Some by (cbn; apply lookup_insert_eq). rewrite bind_ret.
    erewrite update_Some by (cbn; rewrite lookup_insert_ne by lia; done). rewrite bind_ret.
    erewrite update_Some by (cbn; rewrite lookup_insert_ne by lia; apply lookup_insert_eq). rewrite bind_ret.
    rewrite check_clean by done. rewrite bool_decide_eq_true_2 by done.
    unfold Node_name. rewrite !assert_true, !bind_ret by done.
    erewrite update_Some by (cbn; apply lookup_insert_eq). rewrite bind_ret.
    erewrite load_Some by (cbn; apply lookup_insert_eq). rewrite !bind_ret. cbn.
    unfold set_nodes, bfromcstr, add_root; cbn. rewrite cstr_id by done.
    rewrite !insert_insert_eq, insert_insert_ne, insert_insert_eq by lia. fold g.
    rewrite (set_sibling_None n Hs).
    rewrite (insert_id (<[g:=_]> (nodes st)) d n); [done|]. by rewrite lookup_insert_ne by (subst g; lia).
  - cbn [nodes]. change (Some w) with (name (mkNode (Some w) TYPE_GROUP VZero None None (Some d))).
    eapply rep_cons; [apply lookup_insert_eq | done | done | done | | constructor | done | set_solver | set_solver].
    eapply rep_frame; [exact (rep_reparent _ _ _ _ _ _ Hr)|]. intros k Hk'.
    unfold ns'. by rewrite lookup_insert_ne by set_solver.
Qed.

(** the two trees [Message_cons] builds around the data *)
Lemma Message_cons_spec st msgid d nm v kids F ty :
  rep false (nodes st) None (Some d) (FCons nm v kids FNil) F ->
  0 <= msgid < 2 ^ 64 -> Byte.x00 ∉ ty -> errno st = 0 -> fresh st ->
  exists hdr body st' Fh,
    Message_cons st msgid (Some d) (Some ty) = Ok (Some hdr, Some body, st') /\
    errno st' = 0 /\ fresh st' /\ (forall l, (l < next st)%positive -> nodes st' !! l = nodes st !! l) /\
    nodes st' !! body = Some (mkNode (Some ty) TYPE_GROUP VZero None None (Some d)) /\
    rep true (nodes st') None (Some hdr) (FCons (Some header_name) FGrp (flat [FNum msgid]) FNil) Fh /\
    rep false (nodes st') None (Some body) (FCons (Some ty) FGrp (FCons nm v kids FNil) FNil) ({[body]} ∪ F ∪ ∅) /\
    Fh ## {[body]} ∪ F ∪ ∅.
Proof.
  intros Hr Hid Hty He Hf.
  destruct (Node_cons_flat st [FNum msgid] header_name) as (s1 & Fh & E1 & Hrh & He1 & Hf1 & [Hnx Hk1] & Hn1);
    [constructor; [exact Hid | constructor] | by apply (bool_decide_unpack _) | done | done |].
  assert (Hr1 : rep false (nodes s1) None (Some d) (FCons nm v kids FNil) F).
  { eapply rep_frame; [exact Hr|]. intros l Hl. pose proof (rep_lt _ _ _ _ _ _ _ Hf Hr Hl). apply Hk1; lia. }
  destruct (Node_cons_G s1 d nm v kids F ty Hr1 Hty He1 Hf1) as (s2 & E2 & Hns & Hn2 & He2 & Hrb).
  set (hdr := next st) in *. set (body := next s1) in *.
  assert (HF : forall l, l ∈ F -> (l < hdr)%positive) by (intros l Hl; exact (rep_lt _ _ _ _ _ _ _ Hf Hr Hl)).
  assert (HFh : forall l, l ∈ Fh -> (hdr <= l < body)%positive).
  { intros l Hl. split; [|exact (rep_lt _ _ _ _ _ _ _ Hf1 Hrh Hl)]. destruct (Hn1 l Hl) as [|Hx]; [set_solver|lia]. }
  assert (Hhb : (hdr < body)%positive).
  { assert (Hin : hdr ∈ Fh) by (inversion Hrh; subst; set_solver). apply HFh in Hin. lia. }
  exists hdr, body, s2, Fh. split_and!; [|done| | | | |done|].
  - unfold Message_cons. rewrite !assert_true, !bind_ret by done. unfold Message_cons_header.
    change ((lit "[" ++ map code [FNum msgid]) ++ lit "w") with (lit "[nw") in E1.
    change (map cons_arg_of [FNum msgid] ++ [CACstr (Some header_name)])
      with [CANum msgid; CACstr (Some (lit "header"))] in E1.
    by rewrite E1, bind_ret, E2, bind_ret.
  - intros l Hl. rewrite Hns, lookup_insert_ne by (fold body in Hn2; lia). apply Hf1. fold body. lia.
  - intros l Hl. rewrite Hns, lookup_insert_ne by (fold body; lia). apply Hk1; lia.
  - rewrite Hns. apply lookup_insert_eq.
  - eapply rep_frame; [exact Hrh|]. intros l Hl. rewrite Hns. apply lookup_insert_ne. apply HFh in Hl. fold body; lia.
  - intros l H1%HFh. rewrite !elem_of_union, elem_of_singleton. intros [[->|Hl]|Hl]; [lia| |set_solver].
    apply HF in Hl. lia.
Qed.

(** C29: what [Message_cons] packs, [Message_decons] gets back: the message has the number, the
    type and the very data node that were given, no reference, and no node is lost. *)
Theorem message_roundtrip H msgid d nm v kids F ty now :
  rep false (nodes (h_store H)) None (Some d) (FCons nm v kids FNil) F ->
  0 <= msgid < 2 ^ 64 -> Byte.x00 ∉ ty -> (height (FCons nm v kids FNil) < 127)%nat ->
  errno (h_store H) = 0 -> fresh (h_store H) -> h_msgs H !! h_next H = None ->
  exists hdr body st' H',
    Message_cons (h_store H) msgid (Some d) (Some ty) = Ok (Some hdr, Some body, st') /\
    Message_decons (set_store st' H) now (Some hdr) (Some body) = Ok (Some (h_next H), H') /\
    h_msgs H' !! h_next H = Some (mkMessage msgid (Some ty) now 0 (Some d) (Some hdr) (Some body) 0) /\
    rep false (nodes (h_store H')) None (Some d) (FCons nm v kids FNil) F.
Proof.
  intros Hr Hid Hty Hh He Hf Hm.
  destruct (Message_cons_spec (h_store H) msgid d nm v kids F ty Hr Hid Hty He Hf)
    as (hdr & body & s2 & Fh & E1 & He2 & _ & Hkeep & Hbody & Hrh & Hrb & Hdisj).
  destruct (Message_decons_spec (set_store s2 H) now hdr body (Some header_name) FGrp (flat [FNum msgid])
              (Some ty) FGrp (FCons nm v kids FNil) Fh ({[body]} ∪ F ∪ ∅))
    as (r & H' & E3 & Hres); [|done|].
  { constructor; [done|exact Hrh|exact Hrb|done|cbn; lia|cbn in *; lia]. }
  assert (r <> None) as Hsome.
  { intros ->. cbn in Hres. apply (proj1 Hres). split_and!; try done. unfold numbered; eauto. }
  destruct r as [m|]; [|done].
  destruct Hres as (x & d' & nb & ty' & knm & kk & kr & -> & _ & [= <- <- <- <-] & [= <-] & Hnb & Hch & ->).
  cbn in Hnb. rewrite Hbody in Hnb. injection Hnb as <-. cbn in Hch. injection Hch as <-.
  eexists hdr, body, s2, _. split_and!; [exact E1|exact E3|cbn; by rewrite lookup_insert_eq|].
  cbn. eapply rep_frame; [exact Hr|]. intros l Hl. apply Hkeep. exact (rep_lt _ _ _ _ _ _ _ Hf Hr Hl).
Qed.

(** a single number at address 1 *)
Definition one_node : heap :=
  mkHeap (Store {[1%positive := mkNode None TYPE_NUMBER (VNumber 7) None None None]} 2%positive 0) ∅ 1%positive.

Lemma one_node_rep :
  rep false (nodes (h_store one_node)) None (Some 1%positive) (FCons None (FNum 7) FNil FNil) ({[1%positive]} ∪ ∅ ∪ ∅).
Proof.
  refine (rep_cons false (nodes (h_store one_node)) _ 1%positive (mkNode None TYPE_NUMBER (VNumber 7) None None None)
            (FNum 7) _ _ _ _ eq_refl eq_refl eq_refl (fun _ => eq_refl) (rep_nil _ _ _) (rep_nil _ _ _) _ _ _);
    set_solver.
Qed.

Lemma message_roundtrip_witness :
  exists hdr body st' H',
    Message_cons (h_store one_node) 42 (Some 1%positive) (Some (lit "msg")) = Ok (Some hdr, Some body, st') /\
    Message_decons (set_store st' one_node) 5 (Some hdr) (Some body) = Ok (Some 1%positive, H') /\
    h_msgs H' !! 1%positive
    = Some (mkMessage 42 (Some (lit "msg")) 5 0 (Some 1%positive) (Some hdr) (Some body) 0).
Proof.
  destruct (message_roundtrip one_node 42 1%positive None (FNum 7) FNil _ (lit "msg") 5 one_node_rep)
    as (hdr & body & st' & H' & E1 & E2 & E3 & _).
  - lia.
  - apply (bool_decide_unpack _). vm_compute. exact I.
  - cbn. lia.
  - reflexivity.
  - intros l Hl. cbn in Hl. cbn. by rewrite lookup_singleton_ne by lia.
  - reflexivity.
  - exists hdr, body, st', H'. auto.
Defined.

(** [Message_decons] takes over the header and the body whatever they are: if they form a
    message (a header numbered and named "header", a named body with content) it returns
    it, holding both trees and its data node; otherwise it returns NULL and every node of
    both trees, and the message, are freed, and nothing else. *)
Theorem message_decons_owns H now hdr body hn hv hk bn bv bk Fh Fb :
  owns (h_store H) hdr body Fh Fb (FCons hn hv hk FNil) (FCons bn bv bk FNil) ->
  h_msgs H !! h_next H = None ->
  exists r H', Message_decons H now (Some hdr) (Some body) = Ok (r, H') /\
    decons_result H now hdr body Fh Fb hn hk bn bk r H'.
Proof. apply Message_decons_spec. Qed.

(** two roots without children *)
Definition two_roots : heap :=
  mkHeap (Store {[1%positive := mkNode (Some header_name) TYPE_GROUP VZero None None None;
                  2%positive := mkNode None TYPE_GROUP VZero None None None]} 3%positive 0) ∅ 1%positive.

Lemma two_roots_owns :
  owns (h_store two_roots) 1%positive 2%positive ({[1%positive]} ∪ ∅ ∪ ∅) ({[2%positive]} ∪ ∅ ∪ ∅)
    (FCons (Some header_name) FGrp FNil FNil) (FCons None FGrp FNil FNil).
Proof.
  constructor; [done| | |set_solver|cbn; lia|cbn; lia].
  - refine (rep_cons true (nodes (h_store two_roots)) _ 1%positive (mkNode (Some header_name) TYPE_GROUP VZero None None None)
            FGrp _ _ _ _ eq_refl eq_refl eq_refl (fun _ => eq_refl) (rep_nil _ _ _) (rep_nil _ _ _) _ _ _);
    set_solver.
  - refine (rep_cons false (nodes (h_store two_roots)) _ 2%positive (mkNode None TYPE_GROUP VZero None None None)
            FGrp _ _ _ _ eq_refl eq_refl eq_refl (fun _ => eq_refl) (rep_nil _ _ _) (rep_nil _ _ _) _ _ _);
    set_solver.
Qed.

Lemma message_decons_owns_witness :
  exists H', Message_decons two_roots 5 (Some 1%positive) (Some 2%positive) = Ok (None, H') /\
    nodes (h_store H') = ∅ /\ h_msgs H' = ∅.
Proof.
  destruct (message_decons_owns two_roots 5 _ _ _ _ _ _ _ _ _ _ two_roots_owns eq_refl) as (r & H' & E & Hr).
  destruct r as [m|].
  - destruct Hr as (x & d & nb & ty & knm & kk & kr & _ & _ & Hx & _). discriminate.
  - destruct Hr as (_ & Hm & Hn). exists H'. split_and!; [exact E| |exact Hm].
    rewrite Hn. vm_compute. reflexivity.
Defined.

(** [Message_destroy] counts references: with more than one left it only decrements, the
    last one frees the message and both its trees, and calling it on a message that has
    none left aborts. *)
Theorem message_refcount H m M hdr body Fh Fb hf bf :
  h_msgs H !! m = Some M -> -32768 < m_ref_count M < 32768 ->
  m_hdr M = Some hdr -> m_body M = Some body -> owns (h_store H) hdr body Fh Fb hf bf ->
  Message_destroy H m =
    if 1 <? m_ref_count M then Ok (set_msg m (set_ref (m_ref_count M - 1) M) H)
    else if m_ref_count M =? 1
    then Ok (drop_msg m (set_store (set_nodes (drop_nodes (Fb ∪ Fh) (nodes (h_store H))) (h_store H)) H))
    else Fault AssertFail.
Proof.
  intros Hm Hr Hh Hb Ho. destruct (Z.eqb_spec (m_ref_count M) 1) as [E|E].
  - rewrite E, (destroy_last H m M hdr body Fh Fb hf bf) by done. done.
  - unfold Message_destroy, Message_ref_dec, get_msg. rewrite Hm. cbn [need]. rewrite !bind_ret.
    cbn [h_msgs set_msg]. rewrite lookup_insert_eq. cbn [need]. rewrite bind_ret. cbn [m_ref_count set_ref].
    assert (i16 (m_ref_count M - 1) = m_ref_count M - 1) as ->.
    { unfold i16. rewrite Z.mod_small; lia. }
    destruct (Z.ltb_spec 1 (m_ref_count M)).
    + rewrite assert_true, bind_ret by lia. by rewrite (proj2 (Z.eqb_neq _ _)) by lia.
    + unfold assert_. by rewrite (proj2 (Z.leb_gt _ _)) by lia.
Qed.

Lemma message_refcount_witness :
  let M := mkMessage 1 None 0 0 None (Some 1%positive) (Some 2%positive) 0 in
  Message_destroy (set_msg 9%positive M two_roots) 9%positive = Fault AssertFail.
Proof.
  intros M.
  exact (message_refcount (set_msg 9%positive M two_roots) 9%positive M 1%positive 2%positive _ _ _ _
           eq_refl (conj eq_refl eq_refl) eq_refl eq_refl two_roots_owns).
Defined.

End Message.
