(* ===== verification/Routing.v ===== *)
(** * Routing: routes and members of the hub

    [src/src/hub/routing.c] and the queue side of [src/src/hub/member.c].  Routes and
    members live at integer addresses so that the heaps, which sort pointers, can hold
    them; the children of a route are ordered by name, its members by address. *)

From Stdlib Require Import ZArith Lia.
From S2P Require Import Prelude Cstdlib Node Heap Message.
Import Cstdlib Node.
Import Message(MsgQueue, heap, h_store, MsgQueue_is_full, MsgQueue_add, MsgQueue_create, set_store).
Local Open Scope Z_scope.

Module Routing.

(** [bstrcmp]: signed characters, stopping behind a NUL both have; a NULL argument gives
    [SHRT_MIN] *)
Fixpoint bstrcmp_loop (a b : bytes) : Z :=
  match a, b with
  | [], [] => 0
  | _ :: _, [] => 1
  | [], _ :: _ => -1
  | x :: a', y :: b' =>
    if sv x - sv y =? 0 then
      if bool_decide (x = Byte.x00) then 0 else bstrcmp_loop a' b'
    else sv x - sv y
  end.

Definition SHRT_MIN : Z := -32768.

Definition bstrcmp (a b : option bytes) : Z :=
  match a, b with
  | Some a, Some b => bstrcmp_loop a b
  | _, _ => SHRT_MIN
  end.

Record Route := mkRoute {
  r_name : option bytes;
  r_is_internal_callback : bool;
  r_callback : Z;
  r_members : Heap.Heap;
  r_children : Heap.Heap
}.

Record Member := mkMember {
  mb_key : option bytes;
  mb_peer : Z;
  mb_queue : MsgQueue;
  mb_data : Z;
  mb_routes : Heap.Heap
}.

(** messages with their trees, routes, members, and the next free address *)
Record world := World {
  w_heap : heap;
  w_routes : gmap Z Route;
  w_members : gmap Z Member;
  w_next : Z
}.

Definition w_store (w : world) : store := h_store (w_heap w).
Definition put_store (st : store) (w : world) : world :=
  World (set_store st (w_heap w)) (w_routes w) (w_members w) (w_next w).
Definition put_heap (H : heap) (w : world) : world :=
  World H (w_routes w) (w_members w) (w_next w).
Definition put_route (p : Z) (r : Route) (w : world) : world :=
  World (w_heap w) (<[p := r]> (w_routes w)) (w_members w) (w_next w).
Definition put_member (p : Z) (m : Member) (w : world) : world :=
  World (w_heap w) (w_routes w) (<[p := m]> (w_members w)) (w_next w).

Definition get_route (w : world) (p : Z) : res Route := need BadPointer (w_routes w !! p).
Definition get_member (w : world) (p : Z) : res Member := need BadPointer (w_members w !! p).

Definition set_children (h : Heap.Heap) (r : Route) : Route :=
  mkRoute (r_name r) (r_is_internal_callback r) (r_callback r) (r_members r) h.
Definition set_members (h : Heap.Heap) (r : Route) : Route :=
  mkRoute (r_name r) (r_is_internal_callback r) (r_callback r) h (r_children r).
Definition set_callback (cb : Z) (r : Route) : Route :=
  mkRoute (r_name r) true cb (r_members r) (r_children r).
Definition set_routes (h : Heap.Heap) (m : Member) : Member :=
  mkMember (mb_key m) (mb_peer m) (mb_queue m) (mb_data m) h.
Definition set_queue (q : MsgQueue) (m : Member) : Member :=
  mkMember (mb_key m) (mb_peer m) q (mb_data m) (mb_routes m).

(** ** Names of routes *)

(** the address of the [Route child] on the stack of [Route_find_child] *)
Definition TEMP : Z := -1.

(** [((Route * )x)->name]; the pointers compared are live routes or the stack variable,
    whose name is [tmp] *)
Definition route_name (rs : gmap Z Route) (tmp : option bytes) (x : Z) : option bytes :=
  if x =? TEMP then tmp else rs !! x ≫= r_name.

Definition Route_children_compare (rs : gmap Z Route) (tmp : option bytes) : Heap.compare_fn :=
  fun x y => bstrcmp (route_name rs tmp x) (route_name rs tmp y).

(** the children of a route, with the comparison reading the names from [rs] *)
Definition with_compare (cmp : Heap.compare_fn) (h : Heap.Heap) : Heap.Heap :=
  Heap.mkHeap (Heap.last h) (Heap.size h) (Heap.members h) cmp.

Definition ROUTE_MAX_PATH : Z := 30.

Section Ops.
Context (sort : Heap.compare_fn -> list Z -> list Z).

(** [bfromcstr(name)] of NULL is NULL, which [assert_mem] does not accept *)
Definition Route_alloc (w : world) (par : option Z) (nm : option bytes) : res (Z * world) :=
  let r := w_next w in
  _ ← assert_ (bool_decide (nm <> None));
  let w := World (w_heap w) (w_routes w) (w_members w) (r + 1) in
  let w := put_route r (mkRoute (cstr <$> nm) false 0 (Heap.Heap_create None) (Heap.Heap_create None)) w in
  match par with
  | None => Ok (r, w)
  | Some p =>
    pr ← get_route w p;
    '(_, h) ← Heap.Heap_add sort (with_compare (Route_children_compare (w_routes w) None) (r_children pr)) r;
    Ok (r, put_route p (set_children h pr) w)
  end.

Definition Route_create_root (w : world) (nm : bytes) : res (Z * world) :=
  Route_alloc w None (Some nm).

(** [None] is NULL *)
Definition Route_find_child (w : world) (par : option Z) (element : option loc) : res (option Z) :=
  match par, element with
  | Some p, Some _ =>
    n ← load (w_store w) element;
    pr ← get_route w p;
    let kids := with_compare (Route_children_compare (w_routes w) (name n)) (r_children pr) in
    i ← Heap.Heap_find kids TEMP;
    if Heap.Heap_valid kids i then c ← Heap.Heap_elem kids i; Ok (Some c) else Ok None
  | _, _ => Ok None
  end.

Definition Route_add_child (w : world) (par : Z) (element : option loc) : res (Z * world) :=
  n ← load (w_store w) element;
  Route_alloc w (Some par) (name n).

(** [path] are the first [remaining] entries of the array *)
Fixpoint Route_add (w : world) (par : Z) (path : list loc) : res (option Z * world) :=
  match path with
  | [] => Ok (None, w)
  | element :: rest =>
    f ← Route_find_child w (Some par) (Some element);
    '(r, w) ← match f with
              | Some r => Ok (r, w)
              | None => Route_add_child w par (Some element)
              end;
    match rest with
    | [] => Ok (Some r, w)
    | _ => Route_add w r rest
    end
  end.

Definition Route_add_member (w : world) (route member : Z) : res (bool * world) :=
  r ← get_route w route;
  if r_is_internal_callback r then Ok (false, w)
  else
    '(_, h) ← Heap.Heap_add sort (r_members r) member;
    let w := put_route route (set_members h r) w in
    m ← get_member w member;
    '(_, h) ← Heap.Heap_add sort (mb_routes m) route;
    Ok (true, put_member member (set_routes h m) w).

(** a named group that is not an attribute *)
Definition is_word_group (n : Node) : bool :=
  bool_decide (type n = TYPE_GROUP) && bool_decide (name n <> None)
  && negb (bool_decide (bchar (name n) 0 = Byte.x40)).

(** the list that [SGLIB_LIST_MAP_ON_ELEMENTS] walks *)
Fixpoint siblings (fuel : nat) (st : store) (p : option loc) : res (list (loc * Node)) :=
  match fuel with
  | O => Fault NoFuel
  | S f =>
    match p with
    | None => Ok []
    | Some l => n ← load st p; rest ← siblings f st (sibling n); Ok ((l, n) :: rest)
    end
  end.

Definition children_of (st : store) (node : option loc) : res (list (loc * Node)) :=
  n ← load st node;
  siblings (S (size (nodes st))) st (child n).

(** the loop of [Route_extend_and_find]: the path, or a failed check *)
Fixpoint build_path (st : store) (kids : list (loc * Node)) (path : list loc) : option (list loc) * store :=
  match kids with
  | [] => (Some path, st)
  | (l, n) :: kids' =>
    let '(ok, st) := check st (zlen path <? ROUTE_MAX_PATH) in
    if ok : bool then build_path st kids' (if is_word_group n then path ++ [l] else path)
    else (None, st)
  end.

Definition Route_extend_and_find (w : world) (routes : Z) (according_to : option loc)
  : res (option Z * world) :=
  l ← need AssertFail according_to;
  kids ← children_of (w_store w) according_to;
  let '(path, st) := build_path (w_store w) kids [l] in
  let w := put_store st w in
  match path with
  | Some path => Route_add w routes path
  | None => Ok (None, w)
  end.

Definition Route_register (w : world) (routes : Z) (according_to : option loc) (member : Z)
  : res (bool * world) :=
  '(point, w) ← Route_extend_and_find w routes according_to;
  let '(ok, st) := check (w_store w) (bool_decide (point <> None)) in
  let w := put_store st w in
  match point with
  | Some point =>
    if negb ok then Ok (false, w) else
    '(added, w) ← Route_add_member w point member;
    let '(ok, st) := check (w_store w) added in
    Ok (ok, put_store st w)
  | None => Ok (false, w)
  end.

Definition Route_register_callback (w : world) (routes : Z) (according_to : option loc) (callback : Z)
  : res (bool * world) :=
  '(point, w) ← Route_extend_and_find w routes according_to;
  let '(ok, st) := check (w_store w) (bool_decide (point <> None)) in
  let w := put_store st w in
  match point with
  | Some point =>
    if negb ok then Ok (false, w) else
    r ← get_route w point;
    Ok (true, put_route point (set_callback callback r) w)
  | None => Ok (false, w)
  end.

(** the loop of [Route_find]; [i] counts the children seen *)
Fixpoint find_path (w : world) (kids : list (loc * Node)) (i : Z) (r : Z) : res (option Z * world) :=
  match kids with
  | [] => Ok (Some r, w)
  | (l, n) :: kids' =>
    let '(ok, st) := check (w_store w) (i <? ROUTE_MAX_PATH) in
    let w := put_store st w in
    if negb ok then Ok (None, w) else
    f ← (if is_word_group n then Route_find_child w (Some r) (Some l) else Ok (Some r));
    match f with
    | Some r => find_path w kids' (i + 1) r
    | None => Ok (None, w)
    end
  end.

Definition Route_find (w : world) (par : Z) (according_to : option loc) : res (option Z * world) :=
  f ← Route_find_child w (Some par) according_to;
  match f with
  | None => Ok (None, w)
  | Some r =>
    kids ← children_of (w_store w) according_to;
    find_path w kids 0 r
  end.

Definition Route_unregister (w : world) (routes : Z) (according_to : option loc) (member : Z)
  : res (bool * world) :=
  _ ← assert_ (bool_decide (according_to <> None));
  '(f, w) ← Route_find w routes according_to;
  match f with
  | Some p =>
    r ← get_route w p;
    '(_, h) ← Heap.Heap_delete (r_members r) member;
    let w := put_route p (set_members h r) w in
    m ← get_member w member;
    '(_, h) ← Heap.Heap_delete (mb_routes m) p;
    Ok (true, put_member member (set_routes h m) w)
  | None => Ok (false, w)
  end.

(** [HEAP_ITERATE(member->routes, ...)]: the member leaves every route of its list *)
Fixpoint leave_routes (w : world) (member : Z) (rs : list Z) : res world :=
  match rs with
  | [] => Ok w
  | p :: rs' =>
    r ← get_route w p;
    '(_, h) ← Heap.Heap_delete (r_members r) member;
    leave_routes (put_route p (set_members h r) w) member rs'
  end.

Definition Route_unregister_all (w : world) (member : Z) : res (bool * world) :=
  m ← get_member w member;
  w ← leave_routes w member (Heap.contents (mb_routes m));
  m ← get_member w member;
  Ok (true, put_member member (set_routes (Heap.Heap_clear (mb_routes m)) m) w).

(** ** Members *)

(** the waiting tasks are woken; no state of the member changes by that *)
Definition Member_send_msg (w : world) (member : Z) (msg : loc) : res (bool * world) :=
  m ← get_member w member;
  let '(ok, st) := check (w_store w) (negb (MsgQueue_is_full (mb_queue m))) in
  let w := put_store st w in
  if negb ok then Ok (false, w) else
  '(rc, q, H) ← MsgQueue_add (mb_queue m) (w_heap w) msg;
  let w := put_member member (set_queue q m) (put_heap H w) in
  let '(ok, st) := check (w_store w) rc in
  Ok (ok, put_store st w).

(** -1, or the number of deliveries *)
Fixpoint deliver_to (w : world) (ms : list Z) (msg : loc) (count : Z) : res (Z * world) :=
  match ms with
  | [] => Ok (count, w)
  | m :: ms' =>
    '(sent, w) ← Member_send_msg w m msg;
    let '(ok, st) := check (w_store w) sent in
    let w := put_store st w in
    if ok : bool then deliver_to w ms' msg (count + 1) else Ok (-1, w)
  end.

Definition Route_deliver (w : world) (route : Z) (msg : loc) : res (Z * world) :=
  r ← get_route w route;
  deliver_to w (Heap.contents (r_members r)) msg 0.

Definition MEMBER_MSG_QUEUE_LENGTH : Z := 30.

(** [key] is the exported public key of the peer *)
Definition Member_create (w : world) (peer : Z) (key : option bytes) : res (Z * world) :=
  q ← MsgQueue_create MEMBER_MSG_QUEUE_LENGTH;
  let m := w_next w in
  Ok (m, put_member m (mkMember key peer q 0 (Heap.Heap_create None))
           (World (w_heap w) (w_routes w) (w_members w) (m + 1))).
End Ops.

(** ** The end of a table *)

(** what a route owns; its structure goes with that of the root *)
Inductive part := PName | PMembers | PChildren.

#[global] Instance part_eq_dec : EqDecision part.
Proof. solve_decision. Defined.
#[global] Instance part_countable : Countable part.
Proof.
  apply (inj_countable' (fun p => match p with PName => 0 | PMembers => 1 | PChildren => 2 end)
                        (fun n => if n =? 0 then PName else if n =? 1 then PMembers else PChildren)).
  by intros [].
Defined.

(** what has been freed *)
Definition frees := gset (Z * part).

Definition live (x : Z) (p : part) (fr : frees) : res unit := if bool_decide ((x, p) ∈ fr) then Fault BadPointer else Ok tt.
Definition free_part (x : Z) (p : part) (fr : frees) : res frees := _ ← live x p fr; Ok ({[(x, p)]} ∪ fr).

(** [Heap_destroy(heap)]: the array and the heap go together *)
Definition Heap_destroy (x : Z) (p : part) (fr : frees) : res frees := free_part x p fr.

(** one turn of the loop, [rec] destroys the children of [c] *)
Definition destroy_child (rs : gmap Z Route) (rec : Z -> frees -> res frees) (p : Z) (acc : res frees) (c : Z) : res frees :=
  fr ← acc;
  _ ← live p PChildren fr;
  r ← need BadPointer (rs !! c);
  fr ← (if bool_decide (r_name r = None) then Ok fr else free_part c PName fr);
  fr ← Heap_destroy c PMembers fr;
  fr ← rec c fr;
  Heap_destroy c PChildren fr.

Fixpoint Route_destroy_children (fuel : nat) (rs : gmap Z Route) (p : Z) (fr : frees) : res frees :=
  match fuel with
  | O => Fault NoFuel
  | S f =>
    r ← need BadPointer (rs !! p);
    foldl (destroy_child rs (Route_destroy_children f rs) p) (Ok fr) (Heap.contents (r_children r))
  end.

(** [h_free] of the root takes everything attached below it along: the structures whose children have been freed *)
Definition Route_destroy (w : world) (routes : Z) : res world :=
  fr ← Route_destroy_children (S (size (w_routes w))) (w_routes w) routes ∅;
  r ← get_route w routes;
  fr ← (if bool_decide (r_name r = None) then Ok fr else free_part routes PName fr);
  fr ← Heap_destroy routes PMembers fr;
  fr ← Heap_destroy routes PChildren fr;
  Ok (World (w_heap w) (filter (fun xr => (xr.1, PChildren) ∉ fr) (w_routes w)) (w_members w) (w_next w)).

(** ** Printing *)

(** the lines of [Route_dump]: [i] counts the children of one route *)
Fixpoint Route_dump (fuel : nat) (rs : gmap Z Route) (p : Z) (indent : nat) : res (list (nat * Z * Z * option bytes * Z)) :=
  match fuel with
  | O => Fault NoFuel
  | S f =>
    r ← need BadPointer (rs !! p);
    '(_, out) ← foldl (fun acc c =>
      '(i, out) ← acc;
      cr ← need BadPointer (rs !! c);
      sub ← Route_dump f rs c (S indent);
      Ok (i + 1, out ++ (indent, c, i, r_name cr, Heap.Heap_count (r_members cr)) :: sub)) (Ok (0, [])) (Heap.contents (r_children r));
    Ok out
  end.

End Routing.
