(* ===== verification/RoutingProps.v ===== *)
(** * RoutingProps: the routing table is a tree of named paths

    The comparison of names is an order, so the heap lemmas apply to the children of a
    route: searching finds the child with a given name, registering creates the missing
    part of a path and nothing else, and a registered path is found again. *)

From Stdlib Require Import ZArith Lia Sorting.Sorted.
From stdpp Require Import sorting.
From S2P Require Import Prelude Cstdlib Node Heap Message Routing.
Import Cstdlib Node Routing.
Import Message(MsgQueue, heap, h_store, h_msgs, holds, q_dim, MsgQueue_is_full, set_msg, set_ref, m_ref_count, is_full_holds, add_refines, fifo_add, get_msg, Message_ref_inc, hl_count, hl_entry).
Local Open Scope Z_scope.

Module RoutingProps.

(** ** [bstrcmp] orders NUL-free names *)

Lemma sv_inj x y : sv x = sv y -> x = y.
Proof.
  intros E. apply bv_inj. pose proof (bv_range x). pose proof (bv_range y). unfold sv in E.
  destruct (bv x <? 128) eqn:E1, (bv y <? 128) eqn:E2; lia.
Qed.

Lemma sv_refl_sub x : (sv x - sv x =? 0) = true.
Proof. apply Z.eqb_eq. lia. Qed.

(** the step of the loop, for characters that are not NUL *)
Lemma bstrcmp_step x y a b :
  x <> Byte.x00 ->
  bstrcmp_loop (x :: a) (y :: b) = if sv x - sv y =? 0 then bstrcmp_loop a b else sv x - sv y.
Proof. intros Hx. cbn. by rewrite bool_decide_eq_false_2. Qed.

Lemma bstrcmp_zero a b :
  Byte.x00 ∉ a -> Byte.x00 ∉ b -> (bstrcmp_loop a b = 0 <-> a = b).
Proof.
  revert b; induction a as [|x a IH]; intros [|y b] Ha Hb; [done|cbn; split; [lia|done]|cbn; split; [lia|done]|].
  rewrite not_elem_of_cons in Ha, Hb. destruct Ha as [Hx Ha], Hb as [Hy Hb].
  rewrite bstrcmp_step by congruence. destruct (Z.eqb_spec (sv x - sv y) 0) as [E|E].
  - assert (x = y) as -> by (apply sv_inj; lia). rewrite (IH b Ha Hb). naive_solver.
  - split; [lia|]. intros [= -> _]. lia.
Qed.

Lemma bstrcmp_antisym a b :
  Byte.x00 ∉ a -> Byte.x00 ∉ b -> (0 < bstrcmp_loop a b <-> bstrcmp_loop b a < 0).
Proof.
  revert b; induction a as [|x a IH]; intros [|y b] Ha Hb; [cbn; lia..|].
  rewrite not_elem_of_cons in Ha, Hb. destruct Ha as [Hx Ha], Hb as [Hy Hb].
  rewrite !bstrcmp_step by congruence.
  destruct (Z.eqb_spec (sv x - sv y) 0), (Z.eqb_spec (sv y - sv x) 0); [by apply IH|lia..].
Qed.

Lemma bstrcmp_trans a b c :
  Byte.x00 ∉ a -> Byte.x00 ∉ b -> Byte.x00 ∉ c ->
  bstrcmp_loop a b <= 0 -> bstrcmp_loop b c <= 0 -> bstrcmp_loop a c <= 0.
Proof.
  revert b c; induction a as [|x a IH]; intros [|y b] [|z c] Ha Hb Hc H1 H2; try (cbn in *; lia).
  rewrite not_elem_of_cons in Ha, Hb, Hc. destruct Ha as [Hx Ha], Hb as [Hy Hb], Hc as [Hz Hc].
  rewrite !bstrcmp_step in * by congruence.
  destruct (Z.eqb_spec (sv x - sv y) 0), (Z.eqb_spec (sv y - sv z) 0), (Z.eqb_spec (sv x - sv z) 0);
    try lia. by apply (IH b c).
Qed.

(** ** The comparison of routes *)

(** the pointers with a proper name *)
Definition named (rs : gmap Z Route) (tmp : option bytes) (x : Z) : Prop :=
  exists nm, route_name rs tmp x = Some nm /\ Byte.x00 ∉ nm.

#[local] Instance compare_orders rs tmp : Heap.OrdersOn (named rs tmp) (Route_children_compare rs tmp).
Proof.
  split.
  - intros x y (a & Ea & Ha) (b & Eb & Hb). unfold Route_children_compare. rewrite Ea, Eb. by apply bstrcmp_antisym.
  - intros x y z (a & Ea & Ha) (b & Eb & Hb) (c & Ec & Hc). unfold Route_children_compare.
    rewrite Ea, Eb, Ec. by apply bstrcmp_trans.
Qed.

Lemma compare_zero rs tmp x y a b :
  route_name rs tmp x = Some a -> Byte.x00 ∉ a -> route_name rs tmp y = Some b -> Byte.x00 ∉ b ->
  (Route_children_compare rs tmp x y = 0 <-> a = b).
Proof. intros Ex Hx Ey Hy. unfold Route_children_compare. rewrite Ex, Ey. by apply bstrcmp_zero. Qed.

(** ** The invariant of the table *)

Definition kids (r : Route) : list Z := Heap.contents (r_children r).

(** name of a live route *)
Definition name_of (rs : gmap Z Route) (x : Z) : option bytes := rs !! x ≫= r_name.

Record route_ok (rs : gmap Z Route) (nxt : Z) (p : Z) (r : Route) : Prop := RouteOk {
  ro_addr : 0 < p < nxt;
  ro_name : exists nm, r_name r = Some nm /\ Byte.x00 ∉ nm;
  ro_heap : Heap.wf (named rs None) (with_compare (Route_children_compare rs None) (r_children r));
  ro_live : forall c, c ∈ kids r -> is_Some (rs !! c);
  ro_count : Heap.last (r_children r) <= nxt;
  ro_unique : forall c c', c ∈ kids r -> c' ∈ kids r -> name_of rs c = name_of rs c' -> c = c'
}.

Definition routes_ok (w : world) : Prop :=
  0 < w_next w /\ forall p r, w_routes w !! p = Some r -> route_ok (w_routes w) (w_next w) p r.

(** [c] is the child of [p] named [nm] *)
Definition has_child (rs : gmap Z Route) (p : Z) (nm : bytes) (c : Z) : Prop :=
  exists r, rs !! p = Some r /\ c ∈ kids r /\ name_of rs c = Some nm.

Lemma has_child_unique w p nm c c' :
  routes_ok w -> has_child (w_routes w) p nm c -> has_child (w_routes w) p nm c' -> c = c'.
Proof.
  intros [_ Hok] (r & Hr & Hc & Hn) (r' & Hr' & Hc' & Hn'). simplify_eq.
  apply (ro_unique _ _ _ _ (Hok p r Hr)); congruence.
Qed.

Lemma route_name_live rs tmp x r : 0 < x -> rs !! x = Some r -> route_name rs tmp x = r_name r.
Proof.
  intros Hx Hr. unfold route_name. rewrite (proj2 (Z.eqb_neq _ _)) by (unfold TEMP; lia). by rewrite Hr.
Qed.

(** the heap invariant does not depend on the comparison outside the elements *)
Lemma wf_with_compare (D D' : Z -> Prop) cmp cmp' h :
  Heap.wf D (with_compare cmp h) ->
  (forall x, x ∈ Heap.contents h -> D' x) ->
  (forall x y, x ∈ Heap.contents h -> y ∈ Heap.contents h -> cmp' x y = cmp x y) ->
  Heap.wf D' (with_compare cmp' h).
Proof.
  intros [H1 H2 H3 H4 H5 H6] HD Hc. constructor; try done.
  change (Heap.contents (with_compare cmp' h)) with (Heap.contents h).
  change (Heap.contents (with_compare cmp h)) with (Heap.contents h) in *. cbn [Heap.compare with_compare] in *.
  clear -H6 Hc. induction H6 as [|x l Hs IH Hx]; constructor.
  - apply IH. intros; apply Hc; set_solver.
  - apply list.Forall_forall. intros y Hy. rewrite Hc by set_solver.
    by apply (proj1 (list.Forall_forall _ _) Hx).
Qed.

Lemma kid_named w p r tmp c :
  routes_ok w -> w_routes w !! p = Some r -> c ∈ kids r ->
  exists cr nm, w_routes w !! c = Some cr /\ r_name cr = Some nm /\ (Byte.x00 ∉ nm) /\
    route_name (w_routes w) tmp c = Some nm /\ 0 < c.
Proof.
  intros [_ Hok] Hr Hc. destruct (ro_live _ _ _ _ (Hok p r Hr) c Hc) as [cr Hcr].
  destruct (Hok c cr Hcr) as [Ha (nm & Hnm & H0) _ _ _ _].
  exists cr, nm. split_and!; [done..| |lia]. by rewrite (route_name_live _ _ c cr) by (done || lia).
Qed.

(** Searching a child. *)
Lemma find_child_spec w p r e n nm :
  routes_ok w -> w_routes w !! p = Some r -> nodes (w_store w) !! e = Some n ->
  name n = Some nm -> Byte.x00 ∉ nm ->
  exists f, Route_find_child w (Some p) (Some e) = Ok f /\
    match f with
    | Some c => has_child (w_routes w) p nm c
    | None => forall c, ~ has_child (w_routes w) p nm c
    end.
Proof.
  intros Hok Hr Hn Hnm H0.
  set (rs := w_routes w). set (cmp := Route_children_compare rs (Some nm)).
  assert (Hwf : Heap.wf (named rs (Some nm)) (with_compare cmp (r_children r))).
  { eapply wf_with_compare; [apply (ro_heap _ _ _ _ (proj2 Hok p r Hr))| |].
    - intros x Hx. destruct (kid_named w p r (Some nm) x Hok Hr Hx) as (_ & a & _ & _ & Ha & E & _).
      by exists a.
    - intros x y Hx Hy.
      destruct (kid_named w p r None x Hok Hr Hx) as (xr & a & Hxr & Ea & _ & E1 & Hx0).
      destruct (kid_named w p r None y Hok Hr Hy) as (yr & b & Hyr & Eb & _ & E2 & Hy0).
      unfold cmp, Route_children_compare, rs. rewrite E1, E2. rewrite (route_name_live _ _ x xr), (route_name_live _ _ y yr) by done. by rewrite Ea, Eb. }
  assert (HT : named rs (Some nm) TEMP) by (by exists nm).
  destruct (Heap.Heap_find_spec (named rs (Some nm)) (with_compare cmp (r_children r)) Hwf TEMP HT ltac:(unfold TEMP; lia))
    as (f & E & Hf).
  unfold Route_find_child. rewrite (load_Some _ _ _ Hn), bind_ret. unfold get_route. rewrite Hr. cbn [need].
  rewrite bind_ret, Hnm. fold rs cmp. rewrite E, bind_ret.
  assert (Hz : forall x, x ∈ kids r -> (cmp x TEMP = 0 <-> name_of rs x = Some nm)).
  { intros x Hx. destruct (kid_named w p r (Some nm) x Hok Hr Hx) as (xr & a & Hxr & Ea & Ha & E1 & Hx0).
    unfold cmp. rewrite (compare_zero rs (Some nm) x TEMP a nm E1 Ha eq_refl H0).
    unfold name_of, rs. rewrite Hxr. cbn. rewrite Ea. naive_solver. }
  destruct f as [k|]; cbn [Heap.found from_option default id] in *.
  - destruct Hf as (c & Hk & Hc & Hcz). unfold Heap.Heap_valid. rewrite (proj2 (Z.ltb_lt _ _)) by lia.
    change (Heap.contents (with_compare cmp (r_children r))) with (kids r) in Hc.
    exists (Some c). split.
    + unfold Heap.Heap_elem. rewrite (index_Some _ k c); [done|lia|].
      apply (Heap.contents_members (r_children r) _ _ Hc).
    + exists r. assert (Hin : c ∈ kids r) by (by apply list_elem_of_lookup_2 with (Z.to_nat k)).
      split_and!; [done..|]. by apply Hz.
  - unfold Heap.Heap_valid. rewrite Z.ltb_irrefl. exists None. split; [done|].
    intros c (r' & Hr' & Hc & Hcn). unfold rs in *. simplify_eq. apply (Hf c Hc). by apply Hz.
Qed.

(** ** Growing the table *)

(** [rs'] keeps every route of [rs] with its name, members and children *)
Definition grows (rs rs' : gmap Z Route) : Prop :=
  forall p r, rs !! p = Some r -> exists r', rs' !! p = Some r' /\ r_name r' = r_name r /\
    r_members r' = r_members r /\ r_is_internal_callback r' = r_is_internal_callback r /\
    r_callback r' = r_callback r /\ forall c, c ∈ kids r -> c ∈ kids r'.

Lemma grows_refl rs : grows rs rs.
Proof. intros p r Hr. exists r. auto 10. Qed.

Lemma grows_trans a b c : grows a b -> grows b c -> grows a c.
Proof.
  intros H1 H2 p r Hr. destruct (H1 p r Hr) as (r1 & Hr1 & ? & ? & ? & ? & Hk1).
  destruct (H2 p r1 Hr1) as (r2 & Hr2 & ? & ? & ? & ? & Hk2).
  exists r2. split_and!; [done|congruence..|auto].
Qed.

Lemma grows_name rs rs' x : grows rs rs' -> is_Some (rs !! x) -> name_of rs' x = name_of rs x.
Proof.
  intros Hg [r Hr]. destruct (Hg x r Hr) as (r' & Hr' & Hn & _). unfold name_of. rewrite Hr, Hr'. done.
Qed.

Lemma has_child_live w p nm c : routes_ok w -> has_child (w_routes w) p nm c -> is_Some (w_routes w !! c).
Proof. intros [_ Hok] (r & Hr & Hc & _). by apply (ro_live _ _ _ _ (Hok p r Hr)). Qed.

Lemma has_child_grows w rs' p nm c :
  routes_ok w -> grows (w_routes w) rs' -> has_child (w_routes w) p nm c -> has_child rs' p nm c.
Proof.
  intros Hok Hg Hc. pose proof (has_child_live w p nm c Hok Hc) as Hl.
  destruct Hc as (r & Hr & Hin & Hn). destruct (Hg p r Hr) as (r' & Hr' & _ & _ & _ & _ & Hk).
  exists r'. split_and!; [done|auto|]. by rewrite (grows_name _ _ _ Hg Hl).
Qed.

(** names decide the comparison *)
Lemma compare_names rs rs' x y :
  0 < x -> 0 < y -> name_of rs' x = name_of rs x -> name_of rs' y = name_of rs y ->
  Route_children_compare rs' None x y = Route_children_compare rs None x y.
Proof.
  intros Hx Hy Ex Ey. unfold Route_children_compare, route_name.
  rewrite !(proj2 (Z.eqb_neq _ _)) by (unfold TEMP; lia).
  fold (name_of rs x) (name_of rs y) (name_of rs' x) (name_of rs' y). by rewrite Ex, Ey.
Qed.

Lemma named_of rs x nm : 0 < x -> name_of rs x = Some nm -> Byte.x00 ∉ nm -> named rs None x.
Proof.
  intros Hx Hn H0. exists nm. split; [|done]. unfold route_name.
  rewrite (proj2 (Z.eqb_neq _ _)) by (unfold TEMP; lia). exact Hn.
Qed.

(** a route that keeps its children stays well formed when the table grows *)
Lemma route_ok_grows w rs' nxt p r :
  routes_ok w -> grows (w_routes w) rs' -> w_next w <= nxt ->
  w_routes w !! p = Some r -> route_ok rs' nxt p r.
Proof.
  intros Hok Hg Hn Hr. destruct (proj2 Hok p r Hr) as [Ha Hname Hh Hl Hc Hu].
  assert (Hnm : forall c, c ∈ kids r -> name_of rs' c = name_of (w_routes w) c)
    by (intros c Hin; apply grows_name; auto).
  constructor; [lia|done| | |lia|].
  - eapply wf_with_compare; [exact Hh| |].
    + intros x Hx. destruct (kid_named w p r None x Hok Hr Hx) as (xr & nm & Hxr & E & H0 & _ & Hx0).
      apply (named_of rs' x nm); [done| |done]. rewrite Hnm by done. unfold name_of. by rewrite Hxr.
    + intros x y Hx Hy. destruct (kid_named w p r None x Hok Hr Hx) as (_ & _ & _ & _ & _ & _ & Hx0).
      destruct (kid_named w p r None y Hok Hr Hy) as (_ & _ & _ & _ & _ & _ & Hy0).
      apply compare_names; auto.
  - intros c Hin. destruct (Hl c Hin) as [cr Hcr]. destruct (Hg c cr Hcr) as (cr' & Hcr' & _). eauto.
  - intros c c' H1 H2. rewrite !Hnm by done. by apply Hu.
Qed.

(** every route is the child of one route at most, which is older *)
Record tree_at (rs : gmap Z Route) (p : Z) (r : Route) : Prop := TreeAt {
  fo_nodup : NoDup (kids r);
  fo_above : forall c, c ∈ kids r -> p < c;
  fo_parent : forall p' r' c, rs !! p' = Some r' -> c ∈ kids r -> c ∈ kids r' -> p' = p
}.
Definition tree_like (rs : gmap Z Route) : Prop := forall p r, rs !! p = Some r -> tree_at rs p r.

(** ... and every other route of [w'] is new, with no member, below a route of its own *)
Definition only_new (w w' : world) : Prop :=
  w_next w <= w_next w' /\ (tree_like (w_routes w) -> tree_like (w_routes w')) /\
  forall x r', w_routes w' !! x = Some r' ->
    is_Some (w_routes w !! x) \/
    (r_members r' = Heap.Heap_create None /\ r_is_internal_callback r' = false /\
     w_next w <= x < w_next w').

Lemma only_new_refl w : only_new w w.
Proof. split; [lia|]. split; [done|]. intros x r Hx. left. eauto. Qed.

Lemma only_new_trans a b c :
  grows (w_routes b) (w_routes c) -> only_new a b -> only_new b c -> only_new a c.
Proof.
  intros Hg (Hn1 & Hf1 & H1) (Hn2 & Hf2 & H2). split; [lia|]. split; [auto|]. intros x r' Hx.
  destruct (H2 x r' Hx) as [[r Hr]|(? & ? & ?)]; [|right; split_and!; done || lia].
  destruct (Hg x r Hr) as (r'' & Hr'' & _ & Hm & Hi & _). simplify_eq.
  destruct (H1 x r Hr) as [?|(? & ? & ?)]; [by left|right; split_and!; try lia; congruence].
Qed.

Section Grow.
Context (sort : Heap.compare_fn -> list Z -> list Z) `{!Heap.ArraySort sort}.

Definition new_route (nm : bytes) : Route :=
  mkRoute (Some nm) false 0 (Heap.Heap_create None) (Heap.Heap_create None).

(** the table with a new, unlinked route *)
Definition with_route (w : world) (nm : bytes) : world :=
  World (w_heap w) (<[w_next w := new_route nm]> (w_routes w)) (w_members w) (w_next w + 1).

(** ... and with the new heap of children of [p] *)
Definition linked (w : world) (p : Z) (pr : Route) (h : Heap.Heap) : world :=
  World (w_heap w) (<[p := set_children h pr]> (w_routes w)) (w_members w) (w_next w).

Lemma next_unused w : routes_ok w -> w_routes w !! w_next w = None.
Proof.
  intros Hok. destruct (w_routes w !! w_next w) as [x|] eqn:E; [|done].
  pose proof (ro_addr _ _ _ _ (proj2 Hok _ x E)). lia.
Qed.

Lemma with_route_grows w nm : routes_ok w -> grows (w_routes w) (w_routes (with_route w nm)).
Proof.
  intros Hok q x Hq. exists x. pose proof (next_unused w Hok). cbn.
  rewrite lookup_insert_ne by congruence. auto 10.
Qed.

Lemma with_route_ok w nm : routes_ok w -> Byte.x00 ∉ nm -> routes_ok (with_route w nm).
Proof.
  intros Hok H0. pose proof (proj1 Hok). split; [cbn; lia|]. intros q x Hq.
  destruct (decide (q = w_next w)) as [->|Hne].
  - cbn in Hq. rewrite lookup_insert_eq in Hq. injection Hq as <-.
    assert (Hk0 : kids (new_route nm) = []) by done.
    constructor; [cbn; lia|by exists nm| | |cbn; lia|].
    + apply (Heap.create_wf _ (Some (Route_children_compare (w_routes (with_route w nm)) None))).
    + intros c. rewrite Hk0. set_solver.
    + intros c c'. rewrite Hk0. set_solver.
  - cbn in Hq. rewrite lookup_insert_ne in Hq by done.
    apply (route_ok_grows w); [done|by apply with_route_grows|cbn; lia|done].
Qed.

(** the new child of [p] is sorted into its heap *)
Lemma link_heap w p pr c nm :
  routes_ok w -> w_routes w !! p = Some pr -> 0 < c -> name_of (w_routes w) c = Some nm -> Byte.x00 ∉ nm ->
  Heap.last (r_children pr) < Heap.MAX_COUNT ->
  exists h n, Heap.Heap_add sort (with_compare (Route_children_compare (w_routes w) None) (r_children pr)) c = Ok (n, h) /\
    Heap.wf (named (w_routes w) None) (with_compare (Route_children_compare (w_routes w) None) h) /\
    Heap.contents h ≡ₚ c :: kids pr /\ Heap.last h = Heap.last (r_children pr) + 1.
Proof.
  intros Hok Hp Hc Hn H0 Hmax. pose proof (proj2 Hok p pr Hp) as Hpr.
  destruct (Heap.Heap_add_spec sort (named (w_routes w) None)
              (with_compare (Route_children_compare (w_routes w) None) (r_children pr)) c
              (ro_heap _ _ _ _ Hpr) _ (named_of _ c nm Hc Hn H0) ltac:(lia))
    as (h & Eh & Hwfh & Hcmp & Hperm); [done|].
  exists h, (Heap.last (r_children pr) + 1). cbn in Hcmp. split_and!; [done| |done|].
  - destruct h; cbn in *. by rewrite Hcmp in Hwfh.
  - pose proof (Heap.contents_length _ _ Hwfh) as L1. rewrite Hperm in L1. cbn [length] in L1.
    rewrite (Heap.contents_length _ _ (ro_heap _ _ _ _ Hpr)) in L1. cbn in L1.
    pose proof (Heap.wf_last _ _ Hwfh). pose proof (Heap.wf_last _ _ (ro_heap _ _ _ _ Hpr)) as Hx. cbn in Hx. lia.
Qed.

Section Link.
Context (w : world) (p : Z) (pr : Route) (c : Z) (nm : bytes) (h : Heap.Heap).
Context (Hok : routes_ok w) (Hp : w_routes w !! p = Some pr) (Hc : is_Some (w_routes w !! c)).
Context (Hn : name_of (w_routes w) c = Some nm) (Hno : forall x, ~ has_child (w_routes w) p nm x).
Context (Hwf : Heap.wf (named (w_routes w) None) (with_compare (Route_children_compare (w_routes w) None) h)).
Context (Hperm : Heap.contents h ≡ₚ c :: kids pr) (Hlast : Heap.last h <= w_next w).

Lemma linked_kids x : x ∈ Heap.contents h <-> x = c \/ x ∈ kids pr.
Proof. rewrite Hperm. by rewrite elem_of_cons. Qed.

Lemma linked_grows : grows (w_routes w) (w_routes (linked w p pr h)).
Proof.
  intros q x Hq. cbn. destruct (decide (q = p)) as [->|Hne].
  - rewrite Hp in Hq. injection Hq as <-. exists (set_children h pr). rewrite lookup_insert_eq.
    split_and!; [done..|]. intros y Hy. apply linked_kids. by right.
  - exists x. rewrite lookup_insert_ne by done. auto 10.
Qed.

Lemma linked_name x : name_of (w_routes (linked w p pr h)) x = name_of (w_routes w) x.
Proof.
  unfold name_of; cbn. destruct (decide (x = p)) as [->|]; [|by rewrite lookup_insert_ne].
  by rewrite lookup_insert_eq, Hp.
Qed.

Lemma linked_live x : x ∈ Heap.contents h -> is_Some (w_routes w !! x).
Proof.
  intros [->|Hx]%linked_kids; [done|]. by apply (ro_live _ _ _ _ (proj2 Hok p pr Hp)).
Qed.

Lemma linked_pos x : x ∈ Heap.contents h -> 0 < x.
Proof. intros Hx. destruct (linked_live x Hx) as [xr Hxr]. apply (ro_addr _ _ _ _ (proj2 Hok x xr Hxr)). Qed.

Lemma linked_ok : routes_ok (linked w p pr h).
Proof.
  pose proof (proj2 Hok p pr Hp) as [Ha Hname _ _ _ Hu].
  split; [apply Hok|]. intros q x Hq. destruct (decide (q = p)) as [->|Hne].
  - cbn in Hq. rewrite lookup_insert_eq in Hq. injection Hq as <-. constructor; [done|done| | |done|].
    + eapply wf_with_compare; [exact Hwf| |].
      * intros x Hx. destruct (Heap.wf_dom _ _ Hwf x Hx) as (a & Ea & Ha0).
        pose proof (linked_pos x Hx). apply (named_of _ x a); [done| |done]. rewrite linked_name.
        unfold route_name in Ea. by rewrite (proj2 (Z.eqb_neq _ _)) in Ea by (unfold TEMP; lia).
      * intros x y Hx Hy. apply compare_names; auto using linked_pos, linked_name.
    + intros x [xr Hxr]%linked_live. destruct (linked_grows x xr Hxr) as (xr' & ? & _). eauto.
    + assert (Hnew : forall y, y ∈ kids pr -> name_of (w_routes w) y <> Some nm).
      { intros y Hy E. apply (Hno y). exists pr. auto. }
      intros y y' [->|H1]%linked_kids [->|H2]%linked_kids; rewrite !linked_name; [done| | |by apply Hu];
        rewrite Hn; intros E; exfalso; eapply Hnew; eauto.
  - cbn in Hq. rewrite lookup_insert_ne in Hq by done.
    apply (route_ok_grows w); [done|apply linked_grows|cbn; lia|done].
Qed.

Lemma linked_child : has_child (w_routes (linked w p pr h)) p nm c.
Proof.
  exists (set_children h pr). split_and!; [cbn; by rewrite lookup_insert_eq|apply linked_kids; by left|].
  by rewrite linked_name.
Qed.
End Link.

(** a new child keeps the shape *)
Lemma linked_forest w p pr nm h :
  routes_ok w -> w_routes w !! p = Some pr -> Heap.contents h ≡ₚ w_next w :: kids pr ->
  tree_like (w_routes w) -> tree_like (w_routes (linked (with_route w nm) p pr h)).
Proof.
  intros Hok Hp Hperm Hf. pose proof (proj2 Hok p pr Hp) as Hpr. pose proof (ro_addr _ _ _ _ Hpr) as Hpa.
  assert (Hold : forall q x c, w_routes w !! q = Some x -> c ∈ kids x -> c <> w_next w).
  { intros q x c Hq Hc ->. destruct (ro_live _ _ _ _ (proj2 Hok q x Hq) _ Hc) as [y Hy]. by rewrite (next_unused w Hok) in Hy. }
  assert (Hlook : forall q x, w_routes (linked (with_route w nm) p pr h) !! q = Some x ->
    (q = p /\ kids x ≡ₚ w_next w :: kids pr) \/ (q = w_next w /\ kids x = []) \/ (q <> p /\ w_routes w !! q = Some x)).
  { intros q x. cbn. destruct (decide (q = p)) as [->|]; [rewrite lookup_insert_eq; intros [= <-]; by left|].
    rewrite lookup_insert_ne by done. destruct (decide (q = w_next w)) as [->|]; [rewrite lookup_insert_eq; intros [= <-]; auto|].
    rewrite lookup_insert_ne by done. auto. }
  intros q x Hq. apply Hlook in Hq as [[-> Hk]|[[-> Hk]|[Hne Hq]]].
  - destruct (Hf p pr Hp) as [N1 A1 P1]. split; [|intros c; rewrite Hk, elem_of_cons; intros [->|Hc]; [lia|by apply A1]|].
    + rewrite Hk. apply list.NoDup_cons. split; [|done]. intros Hc. by apply (Hold p pr _ Hp Hc).
    + intros q' x' c Hq'. rewrite Hk, elem_of_cons. intros [->|Hc]; apply Hlook in Hq' as [[-> Hk']|[[-> Hk']|[Hne' Hq']]]; try done; rewrite ?Hk', ?elem_of_nil; try done.
      * intros Hc'. by destruct (Hold q' x' _ Hq' Hc').
      * intros Hc'. by apply (P1 q' x' c).
  - split; [rewrite Hk; by apply base.NoDup_nil_2|by intros c; rewrite Hk, elem_of_nil|intros ? ? c _; by rewrite Hk, elem_of_nil].
  - destruct (Hf q x Hq) as [N1 A1 P1]. split; [done|done|]. intros q' x' c Hq' Hc Hc'. apply Hlook in Hq' as [[-> Hk']|[[-> Hk']|[Hne' Hq']]].
    + rewrite Hk', elem_of_cons in Hc'. destruct Hc' as [->|Hc']; [by destruct (Hold q x _ Hq Hc)|by apply (P1 p pr c)].
    + by rewrite Hk', elem_of_nil in Hc'.
    + by apply (P1 q' x' c).
Qed.

Lemma alloc_spec w p pr nm :
  routes_ok w -> w_routes w !! p = Some pr -> Byte.x00 ∉ nm ->
  (forall c, ~ has_child (w_routes w) p nm c) -> w_next w < Heap.MAX_COUNT ->
  exists w', Route_alloc sort w (Some p) (Some nm) = Ok (w_next w, w') /\
    routes_ok w' /\ grows (w_routes w) (w_routes w') /\ has_child (w_routes w') p nm (w_next w) /\
    w_store w' = w_store w /\ w_members w' = w_members w /\ w_next w' = w_next w + 1 /\ only_new w w'.
Proof.
  intros Hok Hp H0 Hno Hmax. set (w1 := with_route w nm).
  pose proof (proj1 Hok) as Hpos. pose proof (proj2 Hok p pr Hp) as Hpr.
  pose proof (with_route_ok w nm Hok H0) as Hok1. fold w1 in Hok1.
  assert (Hpne : w_next w <> p) by (destruct Hpr; lia).
  assert (Hp1 : w_routes w1 !! p = Some pr) by (cbn; by rewrite lookup_insert_ne).
  assert (Hc1 : w_routes w1 !! w_next w = Some (new_route nm)) by (cbn; by rewrite lookup_insert_eq).
  assert (Hn1 : name_of (w_routes w1) (w_next w) = Some nm) by (unfold name_of; by rewrite Hc1).
  assert (Hno1 : forall x, ~ has_child (w_routes w1) p nm x).
  { intros x (r & Hr & Hx & E). rewrite Hp1 in Hr. injection Hr as <-. apply (Hno x). exists pr.
    split_and!; [done..|]. rewrite <- (grows_name (w_routes w) (w_routes w1)); [done|by apply with_route_grows|].
    by apply (ro_live _ _ _ _ Hpr). }
  destruct (link_heap w1 p pr (w_next w) nm Hok1 Hp1 Hpos Hn1 H0) as (h & k & Eh & Hwf & Hperm & Hlast).
  { pose proof (ro_count _ _ _ _ Hpr). lia. }
  assert (Hl1 : Heap.last h <= w_next w1) by (cbn; pose proof (ro_count _ _ _ _ Hpr); lia).
  exists (linked w1 p pr h). split_and!; [| | | |done|done|done|].
  - unfold Route_alloc. rewrite assert_true, bind_ret by done. cbn [fmap option_fmap option_map].
    rewrite cstr_id by done. fold (new_route nm).
    match goal with |- context [put_route (w_next w) (new_route nm) ?a] =>
      change (put_route (w_next w) (new_route nm) a) with w1 end.
    unfold get_route. rewrite Hp1. cbn [need]. rewrite bind_ret, Eh, bind_ret. done.
  - by apply (linked_ok w1 p pr (w_next w) nm h Hok1 Hp1 ltac:(eauto) Hn1 Hno1 Hwf Hperm).
  - eapply grows_trans; [by apply with_route_grows|]. by apply (linked_grows w1 p pr (w_next w) h Hp1 Hperm).
  - by apply (linked_child w1 p pr (w_next w) nm h Hp1 Hn1 Hperm).
  - split; [cbn; lia|]. split; [by apply linked_forest|]. intros x r'. cbn. destruct (decide (x = p)) as [->|]; [left; eauto|].
    rewrite lookup_insert_ne by done. destruct (decide (x = w_next w)) as [->|].
    + rewrite lookup_insert_eq. intros [= <-]. right. split_and!; done || lia.
    + rewrite lookup_insert_ne by done. left; eauto.
Qed.

(** ** Paths *)

(** following the children with the given names *)
Inductive reach (rs : gmap Z Route) : Z -> list bytes -> Z -> Prop :=
  | reach_here p : reach rs p [] p
  | reach_step p nm c nms q : has_child rs p nm c -> reach rs c nms q -> reach rs p (nm :: nms) q.

Lemma reach_grows w rs' p nms q :
  routes_ok w -> grows (w_routes w) rs' -> reach (w_routes w) p nms q -> reach rs' p nms q.
Proof.
  intros Hok Hg Hq. induction Hq as [|p nm c nms q Hc _ IH]; [constructor|].
  econstructor; [by eapply has_child_grows|done].
Qed.

(** a node that gives the name [nm] to a step *)
Definition names_step (st : store) (l : loc) (nm : bytes) : Prop :=
  exists n, nodes st !! l = Some n /\ name n = Some nm /\ Byte.x00 ∉ nm.

Lemma add_spec path : forall w p pr nms,
  routes_ok w -> w_routes w !! p = Some pr -> Forall2 (names_step (w_store w)) path nms -> path <> [] ->
  w_next w + zlen path <= Heap.MAX_COUNT ->
  exists q w', Route_add sort w p path = Ok (Some q, w') /\ routes_ok w' /\
    grows (w_routes w) (w_routes w') /\ reach (w_routes w') p nms q /\ is_Some (w_routes w' !! q) /\
    w_store w' = w_store w /\ w_members w' = w_members w /\ only_new w w' /\ w_next w' <= w_next w + zlen path.
Proof.
  induction path as [|e rest IH]; intros w p pr nms Hok Hp Hpath Hne Hmax; [done|].
  apply Forall2_cons_inv_l in Hpath as (nm & nms' & (n & Hn & Hnm & H0) & Hrest & ->).
  rewrite zlen_cons in Hmax. pose proof (zlen_nonneg rest).
  destruct (find_child_spec w p pr e n nm Hok Hp Hn Hnm H0) as (f & Ef & Hf).
  assert (exists c w1, (match f with Some r => Ok (r, w) | None => Route_add_child sort w p (Some e) end) = Ok (c, w1) /\
            routes_ok w1 /\ grows (w_routes w) (w_routes w1) /\ has_child (w_routes w1) p nm c /\
            w_store w1 = w_store w /\ w_members w1 = w_members w /\ only_new w w1 /\ w_next w1 <= w_next w + 1)
    as (c & w1 & E1 & Hok1 & Hg1 & Hc1 & Hs1 & Hm1 & Ho1 & Hn1).
  { destruct f as [c|].
    - exists c, w. split_and!; [done|done|apply grows_refl|done|done|done|apply only_new_refl|lia].
    - unfold Route_add_child. rewrite (load_Some _ _ _ Hn), bind_ret, Hnm.
      destruct (alloc_spec w p pr nm Hok Hp H0 Hf) as (w1 & E & ? & ? & ? & ? & ? & Hx & ?); [lia|].
      exists (w_next w), w1. split_and!; done || lia. }
  cbn [Route_add]. rewrite Ef, bind_ret, E1, bind_ret.
  destruct (has_child_live w1 p nm c Hok1 Hc1) as [cr Hcr].
  destruct rest as [|e2 rest].
  - apply Forall2_nil_inv_l in Hrest as ->. exists c, w1. split_and!; [done..| |eauto|done|done|done|change (zlen [e]) with 1; lia].
    econstructor; [done|constructor].
  - destruct (IH w1 c cr nms' Hok1 Hcr) as (q & w2 & E2 & Hok2 & Hg2 & Hr2 & Hq2 & Hs2 & Hm2 & Ho2 & Hn2);
      [by rewrite Hs1|done|lia|].
    exists q, w2. split_and!; [done|done|by eapply grows_trans| |done|congruence|congruence
      |by eapply only_new_trans|rewrite (zlen_cons e); lia].
    econstructor; [|done]. by apply (has_child_grows w1).
Qed.
End Grow.

(** ** Finding *)

(** the steps the children of a node contribute *)
Definition words (kids : list (loc * Node)) : list loc :=
  map fst (filter (fun ln => is_word_group ln.2 = true) kids).

Lemma find_path_reach kids : forall w i r nms q,
  routes_ok w -> errno (w_store w) = 0 -> is_Some (w_routes w !! r) ->
  i + zlen kids <= ROUTE_MAX_PATH -> Forall2 (names_step (w_store w)) (words kids) nms ->
  reach (w_routes w) r nms q -> find_path w kids i r = Ok (Some q, w).
Proof.
  induction kids as [|[l n] kids IH]; intros w i r nms q Hok He Hr Hi Hw Hq; cbn [find_path].
  - apply Forall2_nil_inv_l in Hw as ->. by inversion Hq.
  - rewrite zlen_cons in Hi. pose proof (zlen_nonneg kids).
    assert (Hck : check (w_store w) (i <? ROUTE_MAX_PATH) = (true, w_store w)).
    { unfold check. rewrite He, (proj2 (Z.ltb_lt _ _)) by lia. done. }
    rewrite Hck. cbn [negb]. replace (put_store (w_store w) w) with w by (by destruct w as [[] ? ? ?]).
    unfold words in Hw. rewrite filter_cons in Hw. cbn [snd] in Hw.
    destruct (is_word_group n) eqn:Eg.
    + rewrite decide_True in Hw by done. cbn [map fst] in Hw.
      apply Forall2_cons_inv_l in Hw as (nm & nms' & (n' & Hn' & Hnm' & H0) & Hw & ->).
      destruct Hr as [rr Hrr]. destruct (find_child_spec w r rr l n' nm Hok Hrr Hn' Hnm' H0) as (f & -> & Hf).
      rewrite bind_ret. inversion Hq as [|? ? c ? ? Hc Hq']; subst.
      destruct f as [c'|]; [|by apply Hf in Hc].
      assert (c' = c) as -> by (by apply (has_child_unique w r nm)).
      apply (IH w (i + 1) c nms' q); [done|done|by apply (has_child_live w r nm)|lia|done|done].
    + rewrite decide_False in Hw by done. rewrite bind_ret.
      by apply (IH w (i + 1) r nms q); [done|done|done|lia|done|done].
Qed.

Lemma Route_find_reach w p pr l nm nms kids q :
  routes_ok w -> errno (w_store w) = 0 -> w_routes w !! p = Some pr -> names_step (w_store w) l nm ->
  children_of (w_store w) (Some l) = Ok kids -> zlen kids <= ROUTE_MAX_PATH ->
  Forall2 (names_step (w_store w)) (words kids) nms -> reach (w_routes w) p (nm :: nms) q ->
  Route_find w p (Some l) = Ok (Some q, w).
Proof.
  intros Hok He Hp (n & Hn & Hnm & H0) Hk Hlen Hw Hq.
  destruct (find_child_spec w p pr l n nm Hok Hp Hn Hnm H0) as (f & Ef & Hf).
  unfold Route_find. rewrite Ef, bind_ret. inversion Hq as [|? ? c ? ? Hc Hq']; subst.
  destruct f as [c'|]; [|by apply Hf in Hc].
  assert (c' = c) as -> by (by apply (has_child_unique w p nm)).
  rewrite Hk, bind_ret. apply (find_path_reach kids w 0 c nms q); try done.
  by apply (has_child_live w p nm).
Qed.

Lemma build_path_words st kids : forall path,
  errno st = 0 -> zlen path + zlen kids <= ROUTE_MAX_PATH ->
  build_path st kids path = (Some (path ++ words kids), st).
Proof.
  induction kids as [|[l n] kids IH]; intros path He Hlen; cbn [build_path].
  - by rewrite app_nil_r.
  - rewrite zlen_cons in Hlen. pose proof (zlen_nonneg kids).
    unfold check. rewrite He, (proj2 (Z.ltb_lt _ _)) by lia. cbn [andb Z.eqb].
    unfold words. rewrite filter_cons. cbn [snd]. destruct (is_word_group n) eqn:Eg.
    + rewrite decide_True by done. rewrite IH; [by rewrite <- app_assoc|done|].
      rewrite zlen_app. change (zlen [l]) with 1. lia.
    + rewrite decide_False by done. apply IH; [done|lia].
Qed.

(** ** Registration *)

(** the heap of members of a route and the heap of routes of a member, in one window *)
Definition pointer_heap (b : Z) (h : Heap.Heap) : Prop :=
  Heap.compare h = Heap.Heap_void_ptr_compare /\ Heap.wf (Heap.window b) h /\ Heap.last h < Heap.MAX_COUNT.

(** member and route addresses are in one window, the pointer heaps are sorted in it and
    not full *)
Record table_ok (b : Z) (w : world) : Prop := TableOk {
  tb_route : forall p r, w_routes w !! p = Some r ->
    Heap.window b p /\ pointer_heap b (r_members r);
  tb_member : forall p m, w_members w !! p = Some m ->
    Heap.window b p /\ p <> 0 /\ pointer_heap b (mb_routes m)
}.

(** the node at [l] spells the path [nms]: its own name and its word children *)
Record spells (st : store) (l : loc) (nms : list bytes) : Prop := Spells {
  sp_errno : errno st = 0;
  sp_path : exists nm nms' kids, nms = nm :: nms' /\ names_step st l nm /\
    children_of st (Some l) = Ok kids /\ zlen kids < ROUTE_MAX_PATH /\
    Forall2 (names_step st) (words kids) nms'
}.

Lemma words_length kids : zlen (words kids) <= zlen kids.
Proof.
  unfold words, zlen. rewrite length_map. pose proof (length_filter (fun ln => is_word_group ln.2 = true) kids). lia.
Qed.

Lemma extend_spec sort `{!Heap.ArraySort sort} w root rr l nms :
  routes_ok w -> w_routes w !! root = Some rr -> spells (w_store w) l nms ->
  w_next w + ROUTE_MAX_PATH <= Heap.MAX_COUNT ->
  exists q w', Route_extend_and_find sort w root (Some l) = Ok (Some q, w') /\ routes_ok w' /\
    grows (w_routes w) (w_routes w') /\ reach (w_routes w') root nms q /\ is_Some (w_routes w' !! q) /\
    w_store w' = w_store w /\ w_members w' = w_members w /\ only_new w w' /\ w_next w' <= w_next w + ROUTE_MAX_PATH.
Proof.
  intros Hok Hr [He (nm & nms' & kids & -> & Hl & Hk & Hlen & Hw)] Hmax.
  unfold Route_extend_and_find. cbn [need]. rewrite bind_ret, Hk, bind_ret.
  pose proof (words_length kids). unfold ROUTE_MAX_PATH in *.
  rewrite build_path_words; [|done|change (zlen [l]) with 1; unfold ROUTE_MAX_PATH; lia].
  replace (put_store (w_store w) w) with w by (by destruct w as [[] ? ? ?]).
  assert (Hz : zlen ([l] ++ words kids) = 1 + zlen (words kids)) by (rewrite zlen_app; done).
  destruct (add_spec sort ([l] ++ words kids) w root rr (nm :: nms')) as (q & w' & Hadd);
    [done|done|by constructor|done|lia|].
  exists q, w'. destruct Hadd as (? & ? & ? & ? & ? & ? & ? & ? & ?). split_and!; done || lia.
Qed.

Lemma find_spelled w root rr l nms q :
  routes_ok w -> w_routes w !! root = Some rr -> spells (w_store w) l nms ->
  reach (w_routes w) root nms q -> Route_find w root (Some l) = Ok (Some q, w).
Proof.
  intros Hok Hr [He (nm & nms' & kids & -> & Hl & Hk & Hlen & Hw)] Hq.
  apply (Route_find_reach w root rr l nm nms' kids q); try done. lia.
Qed.

(** extending the routing table by the path a node spells always succeeds, and afterwards
    [Route_find] of the same node returns the route that was made or found, every path
    that could be followed before leads to the same route, and no existing route loses
    its name, members, callback or children. *)
Theorem route_extend_then_find sort `{!Heap.ArraySort sort} w root rr l nms :
  routes_ok w -> w_routes w !! root = Some rr -> spells (w_store w) l nms ->
  w_next w + ROUTE_MAX_PATH <= Heap.MAX_COUNT ->
  exists q w', Route_extend_and_find sort w root (Some l) = Ok (Some q, w') /\ routes_ok w' /\
    Route_find w' root (Some l) = Ok (Some q, w') /\ grows (w_routes w) (w_routes w') /\
    forall p ns q', reach (w_routes w) p ns q' -> reach (w_routes w') p ns q'.
Proof.
  intros Hok Hr Hsp Hmax. destruct (extend_spec sort w root rr l nms Hok Hr Hsp Hmax)
    as (q & w' & E & Hok' & Hg & Hq & _ & Hs & _ & _ & _).
  destruct (Hg root rr Hr) as (rr' & Hr' & _).
  exists q, w'. split_and!; [done|done| |done|].
  - apply (find_spelled w' root rr' l nms q); [done|done|by rewrite Hs|done].
  - intros p ns q'. by apply reach_grows.
Qed.

(** a table with the root only, and a document that spells "chat" *)
Definition root_world : world :=
  World (Message.mkHeap (Store {[1%positive := mkNode (Some (lit "chat")) TYPE_GROUP VZero None None None]} 2%positive 0) ∅ 1%positive)
        {[1 := new_route (lit "root")]} ∅ 2.

Lemma root_world_ok : routes_ok root_world.
Proof.
  split; [cbn; lia|]. intros p r Hp. cbn in Hp. apply lookup_singleton_Some in Hp as [<- <-].
  constructor; [cbn; lia| | | |cbn; lia|].
  - eexists; split; [done|]. apply (bool_decide_unpack _). vm_compute. exact I.
  - apply (Heap.create_wf _ (Some (Route_children_compare _ None))).
  - intros c Hc. by apply elem_of_nil in Hc.
  - intros c c' Hc. by apply elem_of_nil in Hc.
Qed.

Lemma root_world_spells : spells (w_store root_world) 1%positive [lit "chat"].
Proof.
  split; [done|]. exists (lit "chat"), [], []. split_and!; [done| |done|done|constructor].
  eexists; split_and!; [done|done|]. apply (bool_decide_unpack _). vm_compute. exact I.
Qed.

Lemma route_extend_then_find_witness :
  exists q w', Route_extend_and_find Heap.ref_sort root_world 1 (Some 1%positive) = Ok (Some q, w') /\
    Route_find w' 1 (Some 1%positive) = Ok (Some q, w').
Proof.
  destruct (route_extend_then_find Heap.ref_sort root_world 1 _ 1%positive _ root_world_ok eq_refl root_world_spells)
    as (q & w' & E & _ & F & _); [vm_compute; congruence|eauto].
Defined.

(** ** Changing members and callbacks keeps the paths *)

(** same names and children *)
Definition shape (r : Route) : option bytes * Heap.Heap := (r_name r, r_children r).
Definition same_shape (rs rs' : gmap Z Route) : Prop :=
  forall x, shape <$> rs !! x = shape <$> rs' !! x.

Lemma same_shape_sym rs rs' : same_shape rs rs' -> same_shape rs' rs.
Proof. intros Hs x. by rewrite Hs. Qed.

Lemma same_shape_insert rs p r r' :
  rs !! p = Some r -> shape r' = shape r -> same_shape rs (<[p := r']> rs).
Proof.
  intros Hp Hr x. destruct (decide (x = p)) as [->|].
  - rewrite Hp, lookup_insert_eq. cbn. by rewrite Hr.
  - by rewrite lookup_insert_ne.
Qed.

Lemma same_shape_lookup rs rs' p r' :
  same_shape rs rs' -> rs' !! p = Some r' -> exists r, rs !! p = Some r /\ shape r = shape r'.
Proof.
  intros Hs Hp. specialize (Hs p). rewrite Hp in Hs. destruct (rs !! p) as [r|]; [|done].
  exists r. split; [done|]. cbn in Hs. congruence.
Qed.

Lemma same_shape_name rs rs' x : same_shape rs rs' -> name_of rs' x = name_of rs x.
Proof.
  intros Hs. specialize (Hs x). unfold name_of.
  destruct (rs !! x) as [r|], (rs' !! x) as [r'|]; try done. cbn in *. unfold shape in Hs. congruence.
Qed.

Lemma same_shape_route_name rs rs' tmp x : same_shape rs rs' -> route_name rs' tmp x = route_name rs tmp x.
Proof.
  intros Hs. unfold route_name. destruct (x =? TEMP); [done|]. exact (same_shape_name rs rs' x Hs).
Qed.

Lemma same_shape_ok w w' :
  routes_ok w -> same_shape (w_routes w) (w_routes w') -> w_next w' = w_next w -> routes_ok w'.
Proof.
  intros [H0 Hok] Hs Hn. split; [lia|]. intros p r' Hp.
  destruct (same_shape_lookup _ _ p r' Hs Hp) as (r & Hr & [= Enm Ech]).
  destruct (Hok p r Hr) as [Ha Hname Hh Hl Hc Hu]. unfold kids in *. rewrite Enm, Ech in *.
  constructor; [lia|done| | |lia|].
  - eapply wf_with_compare; [exact Hh| |].
    + intros x Hx. destruct (Heap.wf_dom _ _ Hh x Hx) as (nm & E & Hnul). exists nm. split; [|done]. by rewrite (same_shape_route_name _ _ _ _ Hs).
    + intros x y _ _. unfold Route_children_compare. by rewrite !(same_shape_route_name _ _ _ _ Hs).
  - intros c Hin. destruct (Hl c Hin) as [cr Hcr].
    destruct (same_shape_lookup _ _ c cr (same_shape_sym _ _ Hs) Hcr) as (cr' & ? & _). eauto.
  - intros c c' H1 H2. rewrite !(same_shape_name _ _ _ Hs). by apply Hu.
Qed.

Lemma same_shape_reach rs rs' p nms q : same_shape rs rs' -> reach rs p nms q -> reach rs' p nms q.
Proof.
  intros Hs Hq. induction Hq as [|p nm c nms q (r & Hr & Hc & Hn) _ IH]; [constructor|].
  destruct (same_shape_lookup _ _ p r (same_shape_sym _ _ Hs) Hr) as (r' & Hr' & [= _ Ech]).
  econstructor; [|exact IH]. exists r'. split_and!; [done| |by rewrite (same_shape_name _ _ _ Hs)].
  unfold kids in *. by rewrite Ech.
Qed.

Lemma pointer_heap_add sort `{!Heap.ArraySort sort} b h x :
  pointer_heap b h -> Heap.window b x -> x <> 0 ->
  exists k h', Heap.Heap_add sort h x = Ok (k, h') /\ Heap.wf (Heap.window b) h' /\
    Heap.compare h' = Heap.Heap_void_ptr_compare /\ Heap.contents h' ≡ₚ x :: Heap.contents h.
Proof.
  intros (Hc & Hwf & Hl) Hx H0.
  assert (Heap.OrdersOn (Heap.window b) (Heap.compare h)) as Ho by (rewrite Hc; apply (Heap.exactly_orders (OrdersExactly := Heap.void_ptr_window b))).
  destruct (Heap.Heap_add_spec sort (Heap.window b) h x Hwf Ho Hx H0 Hl) as (h' & E & Hwf' & Hc' & Hp).
  eexists _, h'. split_and!; [exact E|done|congruence|done].
Qed.

Lemma add_member_spec sort `{!Heap.ArraySort sort} b w p r m mb :
  w_routes w !! p = Some r -> r_is_internal_callback r = false -> w_members w !! m = Some mb ->
  pointer_heap b (r_members r) -> pointer_heap b (mb_routes mb) ->
  Heap.window b p -> p <> 0 -> Heap.window b m -> m <> 0 ->
  exists h1 h2, Route_add_member sort w p m
      = Ok (true, put_member m (set_routes h2 mb) (put_route p (set_members h1 r) w)) /\
    Heap.contents h1 ≡ₚ m :: Heap.contents (r_members r) /\ Heap.contents h2 ≡ₚ p :: Heap.contents (mb_routes mb).
Proof.
  intros Hr Hi Hm Hh1 Hh2 Hpw Hp0 Hmw Hm0.
  destruct (pointer_heap_add sort b (r_members r) m Hh1 Hmw Hm0) as (k1 & h1 & E1 & _ & _ & P1).
  destruct (pointer_heap_add sort b (mb_routes mb) p Hh2 Hpw Hp0) as (k2 & h2 & E2 & _ & _ & P2).
  exists h1, h2. split_and!; [|done|done].
  unfold Route_add_member, get_route. rewrite Hr. cbn [need]. rewrite bind_ret, Hi, E1, bind_ret.
  unfold get_member. cbn [w_members put_route]. rewrite Hm. cbn [need]. by rewrite bind_ret, E2, bind_ret.
Qed.

Lemma check_kept w c : errno (w_store w) = 0 -> check (w_store w) c = (c, w_store w).
Proof.
  intros He. unfold check. rewrite He. destruct c; [done|]. cbn. unfold set_errno.
  rewrite <- He. by destruct (w_store w).
Qed.

Lemma put_store_same w : put_store (w_store w) w = w.
Proof. by destruct w as [[] ? ? ?]. Qed.


(** a table with a member *)
Definition member_world : world :=
  World (w_heap root_world) (w_routes root_world)
    {[ 3 := mkMember (Some (lit "key")) 0 (Message.mkQueue [Message.Uninit] false 0 0 1) 0 (Heap.Heap_create None) ]} 4.

Lemma member_world_ok : routes_ok member_world.
Proof.
  pose proof root_world_ok as [_ H0]. split; [cbn; lia|]. intros p r Hp.
  destruct (H0 p r Hp) as [Ha Hb Hc Hd He Hf]. cbn in Ha, He. constructor; cbn; done || lia.
Qed.

Lemma member_world_table : table_ok 0 member_world.
Proof.
  split; intros p x Hp; cbn in Hp; apply lookup_singleton_Some in Hp as [<- <-]; unfold Heap.window, pointer_heap;
    split_and!; first [done|lia|apply Heap.create_wf].
Qed.


(** ** Delivery *)

Definition msgs (w : world) : gmap loc Message.Message := h_msgs (w_heap w).

(** [w] with a message put into the queue of [m] *)
Definition sent (w : world) (m : Z) (mb : Member) (q' : MsgQueue) (msg : loc) (M : Message.Message) : world :=
  put_member m (set_queue q' mb)
    (put_heap (set_msg msg (set_ref (i16 (m_ref_count M + 1)) M) (w_heap w)) w).

Lemma send_spec w m mb l msg M :
  errno (w_store w) = 0 -> w_members w !! m = Some mb -> holds (mb_queue mb) l -> msgs w !! msg = Some M ->
  if zlen l =? q_dim (mb_queue mb) - 1 then Member_send_msg w m msg = Ok (false, w)
  else exists q', Member_send_msg w m msg = Ok (true, sent w m mb q' msg M) /\
         holds q' (l ++ [msg]) /\ q_dim q' = q_dim (mb_queue mb).
Proof.
  intros He Hm Hh HM. unfold Member_send_msg, get_member. rewrite Hm. cbn [need]. rewrite bind_ret.
  rewrite check_kept, put_store_same, (is_full_holds _ _ Hh) by done.
  pose proof (add_refines (mb_queue mb) l (w_heap w) msg Hh) as Ha. unfold fifo_add in Ha.
  destruct (zlen l =? q_dim (mb_queue mb) - 1); cbn [negb]; [done|].
  unfold Message_ref_inc, get_msg in Ha. unfold msgs in HM. rewrite HM in Ha. cbn [need] in Ha.
  rewrite !bind_ret in Ha. destruct Ha as (q' & E & Hh' & Hd & _). rewrite E, bind_ret. exists q'.
  split_and!; [|done|done]. fold (sent w m mb q' msg M). rewrite check_kept by done. by rewrite put_store_same.
Qed.

(** every member keeps everything but its queue, which has [msg] appended for the members
    of [got] *)
Definition delivered (w w' : world) (got : list Z) (msg : loc) : Prop :=
  w_routes w' = w_routes w /\ w_store w' = w_store w /\ w_next w' = w_next w /\
  (forall x, x <> msg -> msgs w' !! x = msgs w !! x) /\
  forall m, match w_members w !! m with
            | None => w_members w' !! m = None
            | Some mb => exists q', w_members w' !! m = Some (set_queue q' mb) /\
                q_dim q' = q_dim (mb_queue mb) /\
                forall l, holds (mb_queue mb) l -> holds q' (if decide (m ∈ got) then l ++ [msg] else l)
            end.

Lemma delivered_none w msg : delivered w w [] msg.
Proof.
  split_and!; [done..|]. intros m. destruct (w_members w !! m) as [mb|]; [|done].
  exists (mb_queue mb). split_and!; [by destruct mb|done|done].
Qed.

Lemma holds_inj q l l' : holds q l -> holds q l' -> l = l'.
Proof.
  intros H1 H2. apply list_eq_same_length with (length l); [by rewrite <- (hl_count _ _ H1), (hl_count _ _ H2)|done|].
  intros k x y _ Hx Hy. pose proof (hl_entry _ _ H1 k x Hx). pose proof (hl_entry _ _ H2 k y Hy). congruence.
Qed.

Lemma delivered_cons w m mb l q' msg M w' got :
  w_members w !! m = Some mb -> holds (mb_queue mb) l -> holds q' (l ++ [msg]) ->
  q_dim q' = q_dim (mb_queue mb) -> m ∉ got ->
  delivered (sent w m mb q' msg M) w' got msg -> delivered w w' (m :: got) msg.
Proof.
  intros Hm Hh Hq Hd Hn (Hr & Hs & Hx & Hms & Hmem). split_and!; [done..| |].
  - intros x Hne. rewrite Hms by done. unfold msgs. cbn. by rewrite lookup_insert_ne.
  - intros a. specialize (Hmem a). cbn in Hmem. destruct (decide (a = m)) as [->|Hne].
    + rewrite lookup_insert_eq in Hmem. rewrite Hm. destruct Hmem as (q2 & E2 & Hd2 & H2). exists q2.
      cbn in *. split_and!; [done|congruence|]. intros l' Hl'. assert (l' = l) as -> by (by eapply holds_inj).
      rewrite decide_True by set_solver. specialize (H2 _ Hq). by rewrite decide_False in H2.
    + rewrite lookup_insert_ne in Hmem by done. destruct (w_members w !! a) as [ma|]; [|done].
      destruct Hmem as (q2 & E2 & Hd2 & H2). exists q2. split_and!; [done|done|]. intros l' Hl'.
      specialize (H2 l' Hl'). destruct (decide (a ∈ got)), (decide (a ∈ m :: got)); set_solver.
Qed.

Lemma i16_succ a n : i16 (i16 a + n) = i16 (a + n).
Proof.
  unfold i16. replace ((a + 2 ^ 15) mod 2 ^ 16 - 2 ^ 15 + n + 2 ^ 15) with ((a + 2 ^ 15) mod 2 ^ 16 + n) by lia.
  rewrite Z.add_mod_idemp_l by lia. do 2 f_equal. lia.
Qed.

Lemma i16_small z : - 2 ^ 15 <= z < 2 ^ 15 -> i16 z = z.
Proof. intros. unfold i16. rewrite Z.mod_small; lia. Qed.

(** a queue that can take no message *)
Definition full_queue (w : world) (m : Z) : Prop :=
  exists mb, w_members w !! m = Some mb /\ MsgQueue_is_full (mb_queue mb) = true.

Lemma deliver_spec msg ms : forall w count M,
  NoDup ms -> errno (w_store w) = 0 -> msgs w !! msg = Some M -> - 2 ^ 15 <= m_ref_count M < 2 ^ 15 ->
  (forall m, m ∈ ms -> exists mb l, w_members w !! m = Some mb /\ holds (mb_queue mb) l) ->
  exists got rest w', ms = got ++ rest /\
    deliver_to w ms msg count = Ok (if bool_decide (rest = []) then count + zlen got else -1, w') /\
    (forall m rest', rest = m :: rest' -> full_queue w m) /\
    msgs w' !! msg = Some (set_ref (i16 (m_ref_count M + zlen got)) M) /\ delivered w w' got msg.
Proof.
  induction ms as [|m ms IH]; intros w count M Hnd He HM Hrc Hms.
  - exists [], [], w. cbn [deliver_to]. split_and!; [done| |done| |apply delivered_none].
    + rewrite bool_decide_eq_true_2 by done. change (zlen (@nil Z)) with 0. by rewrite Z.add_0_r.
    + change (zlen (@nil Z)) with 0. rewrite Z.add_0_r, i16_small by done. by destruct M.
  - apply list.NoDup_cons in Hnd as [Hni Hnd]. destruct (Hms m) as (mb & l & Hm & Hh); [set_solver|].
    pose proof (send_spec w m mb l msg M He Hm Hh HM) as Hsend. cbn [deliver_to].
    destruct (zlen l =? q_dim (mb_queue mb) - 1) eqn:Efull.
    + rewrite Hsend, bind_ret, check_kept, put_store_same by done.
      exists [], (m :: ms), w. split_and!; [done|done| | |apply delivered_none].
      * intros ? ? [= <- _]. exists mb. by rewrite (is_full_holds _ _ Hh).
      * change (zlen (@nil Z)) with 0. rewrite Z.add_0_r, i16_small by done. by destruct M.
    + destruct Hsend as (q' & E & Hq & Hd). rewrite E, bind_ret, check_kept, put_store_same by done.
      set (w1 := sent w m mb q' msg M) in *. set (M1 := set_ref (i16 (m_ref_count M + 1)) M).
      assert (Hne : forall a, a ∈ ms -> w_members w1 !! a = w_members w !! a).
      { intros a Ha. cbn. apply lookup_insert_ne. set_solver. }
      destruct (IH w1 (count + 1) M1) as (got & rest & w' & -> & E' & Hf & HM' & Hdl); [done|done| | | |].
      { unfold msgs. cbn. by rewrite lookup_insert_eq. }
      { cbn. unfold i16. pose proof (Z.mod_pos_bound (m_ref_count M + 1 + 2 ^ 15) (2 ^ 16)). lia. }
      { intros a Ha. rewrite Hne by done. apply Hms. set_solver. }
      exists (m :: got), rest, w'. rewrite zlen_cons. split_and!; [done| | | |].
      * rewrite E'. do 2 f_equal. destruct (bool_decide (rest = [])); lia.
      * intros a rest' ->. destruct (Hf a rest' eq_refl) as (ma & Ha & Hfa). exists ma.
        rewrite <- Hne by set_solver. done.
      * rewrite HM'. f_equal. unfold M1. cbn [m_ref_count set_ref]. rewrite i16_succ. unfold set_ref. cbn.
        f_equal. f_equal. lia.
      * eapply delivered_cons; try done. set_solver.
Qed.


(** a route with two members, the second with a full queue *)
Definition full_world : world :=
  World (Message.two_messages)
    {[1 := mkRoute (Some (lit "root")) false 0
             (Heap.mkHeap 2 8 [10; 11; 0; 0; 0; 0; 0; 0] Heap.Heap_void_ptr_compare) (Heap.Heap_create None)]}
    {[10 := mkMember None 0 (Message.mkQueue [Message.Uninit; Message.Uninit] false 0 0 2) 0 (Heap.Heap_create None);
      11 := mkMember None 0 (Message.mkQueue [Message.Uninit] false 0 0 1) 0 (Heap.Heap_create None)]} 12.

Lemma empty_holds q : 0 < q_dim q < 2 ^ 62 -> zlen (Message.q_messages q) = q_dim q ->
  Message.q_i q = 0 -> Message.q_j q = 0 -> holds q [].
Proof.
  intros Hd Hl Hi Hj. constructor; try (rewrite ?Hi, ?Hj; done || lia).
  unfold Message.count. rewrite Hi, Hj, Zmod_0_l. done.
Qed.


(** ** Nodes without a name *)

(** a search in which every element is smaller *)
Lemma find_loop_smaller D h elem fuel : forall ii jj,
  Heap.wf D h -> (forall x, Heap.compare h x elem < 0) ->
  (Z.to_nat (jj + 1 - ii) < fuel)%nat -> 0 <= ii -> jj < Heap.last h ->
  Heap.find_loop fuel h elem ii jj = Ok None.
Proof.
  induction fuel as [|fuel IH]; intros ii jj Hwf Hc Hf Hii Hjj; [lia|]. cbn [Heap.find_loop].
  destruct (Z.leb_spec ii jj) as [Hij|Hij]; [|done].
  pose proof (Heap.wf_count D h Hwf). unfold Heap.MAX_COUNT in *. unfold iadd, int_ok, INT_MIN, INT_MAX.
  rewrite !(proj2 (Z.leb_le _ _)) by lia. cbn [andb]. rewrite bind_ret.
  rewrite Z.quot_div_nonneg by lia. set (k := (jj + ii) / 2).
  assert (Hk : ii <= k <= jj).
  { subst k. split; [apply Z.div_le_lower_bound; lia | apply Z.div_le_upper_bound; lia]. }
  destruct (lookup_lt_is_Some_2 (Heap.contents h) (Z.to_nat k)) as [m Hm];
    [rewrite (Heap.contents_length D) by done; lia|].
  rewrite (index_Some _ k m), bind_ret; [|lia|by apply Heap.contents_members].
  specialize (Hc m) as Hcm. rewrite (proj2 (Z.eqb_neq _ _)), (proj2 (Z.ltb_lt _ _)) by lia.
  apply IH; done || lia.
Qed.

Lemma find_smaller D h elem :
  Heap.wf D h -> elem <> 0 -> (forall x, Heap.compare h x elem < 0) -> Heap.Heap_find h elem = Ok (Heap.last h).
Proof.
  intros Hwf He Hc. pose proof Hwf as [Hl Hs Hla Hct _ _]. unfold Heap.MAX_COUNT, Heap.HEAP_SIZE in *.
  assert (i32 (u64 (Heap.last h - 1)) = Heap.last h - 1) as Ei.
  { destruct (Z.eq_dec (Heap.last h) 0) as [->|]; [reflexivity|]. rewrite u64_small, i32_small by lia. done. }
  unfold Heap.Heap_find. rewrite assert_true, bind_ret by (by apply negb_true_iff, Z.eqb_neq).
  rewrite Ei, (find_loop_smaller D) by (done || lia). done.
Qed.

Lemma find_unnamed w p r e n :
  routes_ok w -> w_routes w !! p = Some r -> nodes (w_store w) !! e = Some n -> name n = None ->
  Route_find_child w (Some p) (Some e) = Ok None.
Proof.
  intros Hok Hr Hn Hnm. unfold Route_find_child. rewrite (load_Some _ _ _ Hn), bind_ret. unfold get_route.
  rewrite Hr. cbn [need]. rewrite bind_ret, Hnm.
  assert (Hx : forall x, Route_children_compare (w_routes w) None x TEMP < 0).
  { intros x. unfold Route_children_compare, bstrcmp, route_name at 2. rewrite Z.eqb_refl.
    by destruct (route_name _ None x). }
  rewrite (find_smaller _ _ TEMP (ro_heap _ _ _ _ (proj2 Hok p r Hr))); [|done|done].
  rewrite bind_ret. unfold Heap.Heap_valid. by rewrite Z.ltb_irrefl.
Qed.

(** registering or extending by a node without a name stops the hub: the search for a
    child never matches, whatever the table holds, and creating the child fails its
    assertion on the NULL name. *)
Theorem register_unnamed_aborts sort w root rr l n kids m :
  routes_ok w -> w_routes w !! root = Some rr -> nodes (w_store w) !! l = Some n -> name n = None ->
  children_of (w_store w) (Some l) = Ok kids -> zlen kids < ROUTE_MAX_PATH -> errno (w_store w) = 0 ->
  Route_register sort w root (Some l) m = Fault AssertFail.
Proof.
  intros Hok Hr Hn Hnm Hk Hlen He. unfold Route_register, Route_extend_and_find. cbn [need].
  rewrite bind_ret, Hk, bind_ret.
  rewrite build_path_words; [|done|change (zlen [l]) with 1; unfold ROUTE_MAX_PATH in *; lia].
  rewrite put_store_same. cbn [app Route_add].
  rewrite (find_unnamed w root rr l n Hok Hr Hn Hnm), bind_ret.
  unfold Route_add_child. rewrite (load_Some _ _ _ Hn), bind_ret, Hnm. done.
Qed.

(** a table and the document "[ [", an unnamed group *)
Definition unnamed_world : world :=
  World (Message.mkHeap (Store {[1%positive := mkNode None TYPE_GROUP VZero None None None]} 2%positive 0) ∅ 1%positive)
        {[1 := new_route (lit "root")]} ∅ 2.

Lemma register_unnamed_aborts_witness :
  Route_register Heap.ref_sort unnamed_world 1 (Some 1%positive) 3 = Fault AssertFail.
Proof.
  apply (register_unnamed_aborts Heap.ref_sort unnamed_world 1 (new_route (lit "root")) 1%positive
           (mkNode None TYPE_GROUP VZero None None None) [] 3); try done. exact root_world_ok.
Defined.

End RoutingProps.
