(* ===== verification/RoutingEnd.v ===== *)
(** * RoutingEnd: destroying a routing table

    [Route_destroy] walks the table below a route and frees what each route owns.  In a table where every
    route has one parent, which is how the operations build it, each part is freed exactly once. *)

From Stdlib Require Import ZArith Lia.
From S2P Require Import Prelude Cstdlib Node Heap Message Routing RoutingProps.
Import Cstdlib Node Routing RoutingProps.
Local Open Scope Z_scope.

Module RoutingEnd.

(** ** The routes below a route *)

Section Walk.
Context (rs : gmap Z Route).

(** [below p ds]: [ds] are the routes below [p], in the order of the walk *)
Inductive below : Z -> list Z -> Prop :=
  | below_node p r ds : rs !! p = Some r -> belows (kids r) ds -> below p ds
with belows : list Z -> list Z -> Prop :=
  | belows_nil : belows [] []
  | belows_cons c cs dc ds : below c dc -> belows cs ds -> belows (c :: cs) (c :: dc ++ ds).

Scheme below_mut := Minimality for below Sort Prop
  with belows_mut := Minimality for belows Sort Prop.

(** parts of these routes *)
Definition parts (ds : list Z) : frees := list_to_set (ds ≫= fun d => [(d, PName); (d, PMembers); (d, PChildren)]).

Lemma elem_parts x pt ds : (x, pt) ∈ parts ds <-> x ∈ ds.
Proof.
  unfold parts. rewrite elem_of_list_to_set, list_elem_of_bind. split.
  - intros (d & Hd & Hin). rewrite !elem_of_cons, elem_of_nil in Hd. naive_solver.
  - intros Hin. exists x. split; [|done]. rewrite !elem_of_cons. destruct pt; auto.
Qed.

Context (Hf : tree_like rs) (Hlive : forall p r c, rs !! p = Some r -> c ∈ kids r -> is_Some (rs !! c)).
Context (Hname : forall p r, rs !! p = Some r -> r_name r <> None).

(** the routes are finite and children are younger *)
Lemma below_exists : forall n p r, rs !! p = Some r -> (forall q, is_Some (rs !! q) -> q < p + Z.of_nat n) -> exists ds, below p ds.
Proof.
  induction n as [|n IH]; intros p r Hp Hbd; [specialize (Hbd p ltac:(eauto)); lia|].
  assert (Hcs : forall cs, (forall c, c ∈ cs -> c ∈ kids r) -> exists ds, belows cs ds).
  { induction cs as [|c cs IHc]; intros Hin; [by exists []; constructor|]. destruct IHc as [ds Hds]; [intros; apply Hin; by right|].
    assert (Hc : c ∈ kids r) by (apply Hin; by left). pose proof (fo_above _ _ _ (Hf p r Hp) c Hc). destruct (Hlive p r c Hp Hc) as [cr Hcr].
    destruct (IH c cr Hcr) as [dc Hdc]; [intros q Hq; specialize (Hbd q Hq); lia|]. exists (c :: dc ++ ds). by constructor. }
  destruct (Hcs (kids r)) as [ds Hds]; [done|]. exists ds. by econstructor.
Qed.

(** going up *)
Lemma below_parent p ds : below p ds -> forall x, x ∈ ds -> exists y r, rs !! y = Some r /\ x ∈ kids r /\ (y = p \/ y ∈ ds) /\ p <= y < x.
Proof.
  revert p ds. apply (below_mut (fun p ds => forall x, x ∈ ds -> exists y r, rs !! y = Some r /\ x ∈ kids r /\ (y = p \/ y ∈ ds) /\ p <= y < x)
    (fun cs ds => forall p r, rs !! p = Some r -> (forall c, c ∈ cs -> c ∈ kids r) ->
       forall x, x ∈ ds -> exists y r, rs !! y = Some r /\ x ∈ kids r /\ (y = p \/ y ∈ ds) /\ p <= y < x)).
  - intros p r ds Hp _ IH x Hx. by apply (IH p r).
  - intros p r _ _ x Hx. by apply elem_of_nil in Hx.
  - intros c cs dc ds _ IH1 _ IH2 p r Hp Hin x. assert (Hc : c ∈ kids r) by (apply Hin; by left).
    pose proof (fo_above _ _ _ (Hf p r Hp) c Hc) as Hlt. rewrite elem_of_cons, elem_of_app. intros [->|[Hx|Hx]].
    + exists p, r. split_and!; [done|done|by left|lia|lia].
    + destruct (IH1 x Hx) as (y & yr & Hy & Hk & Hw & Hle). exists y, yr. split_and!; [done|done| |lia|lia]. right. rewrite elem_of_cons, elem_of_app. naive_solver.
    + destruct (IH2 p r Hp ltac:(intros; apply Hin; by right) x Hx) as (y & yr & Hy & Hk & Hw & Hle). exists y, yr. split_and!; [done|done| |lia|lia].
      rewrite elem_of_cons, elem_of_app. naive_solver.
Qed.

(** two children have nothing below them in common *)
Lemma below_disjoint p r c1 d1 c2 d2 : rs !! p = Some r -> c1 ∈ kids r -> c2 ∈ kids r -> c1 <> c2 -> below c1 d1 -> below c2 d2 ->
  forall n x, (Z.to_nat (x - p) < n)%nat -> p < x -> x ∈ c1 :: d1 -> x ∈ c2 :: d2 -> False.
Proof.
  intros Hp H1 H2 Hne B1 B2. pose proof (fo_above _ _ _ (Hf p r Hp)) as Habove. pose proof (Habove c1 H1) as A1. pose proof (Habove c2 H2) as A2.
  induction n as [|n IH]; intros x Hn Hx; [lia|]. rewrite !elem_of_cons. intros [->|X1] [E|X2]; [done|..].
  - destruct (below_parent c2 d2 B2 c1 X2) as (y & yr & Hy & Hk & _ & Hle).
    pose proof (fo_parent _ _ _ (Hf p r Hp) y yr c1 Hy H1 Hk). lia.
  - subst x. destruct (below_parent c1 d1 B1 c2 X1) as (y & yr & Hy & Hk & _ & Hle).
    pose proof (fo_parent _ _ _ (Hf p r Hp) y yr c2 Hy H2 Hk). lia.
  - destruct (below_parent c1 d1 B1 x X1) as (y & yr & Hy & Hk & Hw & Hle). destruct (below_parent c2 d2 B2 x X2) as (z & zr & Hz & Hkz & Hwz & Hlez).
    pose proof (fo_parent _ _ _ (Hf y yr Hy) z zr x Hz Hk Hkz) as ->.
    apply (IH y); [lia|lia|rewrite elem_of_cons; naive_solver..].
Qed.

Lemma below_nodup p ds : below p ds -> NoDup ds.
Proof.
  revert p ds. apply (below_mut (fun p ds => NoDup ds)
    (fun cs ds => forall p r, rs !! p = Some r -> (forall c, c ∈ cs -> c ∈ kids r) -> NoDup cs -> NoDup ds /\ forall x, x ∈ ds -> exists c dc, c ∈ cs /\ below c dc /\ x ∈ c :: dc)).
  - intros p r ds Hp _ IH. apply (IH p r Hp); [done|]. apply (fo_nodup _ _ _ (Hf p r Hp)).
  - intros p r _ _ _. split; [by apply base.NoDup_nil_2|]. intros x Hx. by apply elem_of_nil in Hx.
  - intros c cs dc ds Bc IH1 _ IH2 p r Hp Hin Hnd. apply list.NoDup_cons in Hnd as [Hni Hnd].
    assert (Hc : c ∈ kids r) by (apply Hin; by left). pose proof (fo_above _ _ _ (Hf p r Hp)) as Habove.
    destruct (IH2 p r Hp ltac:(intros; apply Hin; by right) Hnd) as [Hnd2 Hwhere].
    assert (Hsep : forall x, x ∈ c :: dc -> x ∉ ds).
    { intros x X1 X2. destruct (Hwhere x X2) as (c2 & d2 & Hc2 & B2 & X3). assert (Hk2 : c2 ∈ kids r) by (apply Hin; by right).
      apply (below_disjoint p r c dc c2 d2 Hp Hc Hk2) with (n := S (Z.to_nat (x - p))) (x := x); [by intros ->|done|done|lia| |done|done].
      pose proof (Habove c Hc). rewrite elem_of_cons in X1. destruct X1 as [->|X1]; [done|]. destruct (below_parent c dc Bc x X1) as (? & ? & _ & _ & _ & ?). lia. }
    split.
    + apply list.NoDup_cons. split.
      * rewrite elem_of_app. intros [Hx|Hx]; [destruct (below_parent c dc Bc c Hx) as (? & ? & _ & _ & _ & ?); lia|by apply (Hsep c); [left|]].
      * apply list.NoDup_app. split_and!; [done|intros x Hx; apply Hsep; by right|done].
    + intros x. rewrite elem_of_cons, elem_of_app. intros [->|[Hx|Hx]]; [exists c, dc; split_and!; [by left|done|by left]|exists c, dc; split_and!; [by left|done|by right]|].
      destruct (Hwhere x Hx) as (c2 & d2 & Hc2 & ?). exists c2, d2. split; [by right|done].
Qed.

Lemma below_live p ds : below p ds -> forall x, x ∈ ds -> is_Some (rs !! x).
Proof. intros Hb x Hx. destruct (below_parent p ds Hb x Hx) as (y & r & Hy & Hk & _). by eapply Hlive. Qed.

Lemma free_ok x pt (fr : frees) : (x, pt) ∉ fr -> free_part x pt fr = Ok ({[(x, pt)]} ∪ fr).
Proof. intros Hn. unfold free_part, live. by rewrite bool_decide_eq_false_2 by done. Qed.

(** the walk frees the parts of all routes below, once each *)
Lemma walk_ok p ds : below p ds -> forall fuel fr, (length ds < fuel)%nat -> NoDup (p :: ds) -> (p, PChildren) ∉ fr -> (forall x pt, x ∈ ds -> (x, pt) ∉ fr) ->
  Route_destroy_children fuel rs p fr = Ok (parts ds ∪ fr).
Proof.
  revert p ds. apply (below_mut (fun p ds => forall fuel fr, (length ds < fuel)%nat -> NoDup (p :: ds) -> (p, PChildren) ∉ fr -> (forall x pt, x ∈ ds -> (x, pt) ∉ fr) ->
      Route_destroy_children fuel rs p fr = Ok (parts ds ∪ fr))
    (fun cs ds => forall fuel p fr, (length ds <= fuel)%nat -> NoDup (p :: ds) -> (p, PChildren) ∉ fr -> (forall x pt, x ∈ ds -> (x, pt) ∉ fr) ->
      foldl (destroy_child rs (Route_destroy_children fuel rs) p) (Ok fr) cs = Ok (parts ds ∪ fr))).
  - intros p r ds Hp _ IH [|fuel] fr Hfu Hnd Hpc Hfr; [lia|]. cbn [Route_destroy_children]. rewrite Hp. cbn [need]. rewrite bind_ret. apply IH; [lia|done..].
  - intros fuel p fr _ _ _ _. cbn. f_equal. set_solver.
  - intros c cs dc ds Bc IH1 _ IH2 fuel p fr Hfu Hnd Hpc Hfr. cbn [foldl length] in *. rewrite length_app in Hfu.
    apply list.NoDup_cons in Hnd as [Hpn Hnd]. rewrite elem_of_cons, elem_of_app in Hpn. apply list.NoDup_cons in Hnd as [Hcn Hnd]. rewrite elem_of_app in Hcn.
    apply list.NoDup_app in Hnd as (Hn1 & Hsep & Hn2).
    assert (Hcr : exists cr, rs !! c = Some cr) by (inversion Bc; eauto). destruct Hcr as [cr Hcr].
    assert (Hc : forall pt, (c, pt) ∉ fr) by (intros; apply Hfr; by left).
    unfold destroy_child at 2. rewrite bind_ret. unfold live. rewrite bool_decide_eq_false_2, bind_ret by done. rewrite Hcr. cbn [need]. rewrite bind_ret.
    rewrite bool_decide_eq_false_2 by (by eapply Hname). unfold Heap_destroy. rewrite free_ok, bind_ret by done. rewrite free_ok, bind_ret by set_solver.
    rewrite IH1; [|lia|apply list.NoDup_cons; naive_solver|set_solver|].
    2: { intros x pt Hx. assert (x <> c) by (intros ->; naive_solver). assert ((x, pt) ∉ fr) by (apply Hfr; rewrite elem_of_cons, elem_of_app; auto). set_solver. }
    rewrite bind_ret, free_ok by (rewrite !elem_of_union, elem_parts; set_solver). set (fr1 := _ ∪ (parts dc ∪ _)).
    rewrite IH2; [|lia|apply list.NoDup_cons; naive_solver| |].
    + f_equal. apply set_eq. intros [x pt]. unfold fr1. rewrite !elem_of_union, !elem_of_singleton, !elem_parts, elem_of_cons, elem_of_app.
      split; [intros H; naive_solver|]. intros [[->|H]|H]; [destruct pt; naive_solver|naive_solver|naive_solver].
    + unfold fr1. rewrite !elem_of_union, !elem_of_singleton, elem_parts. naive_solver.
    + intros x pt Hx. assert (x <> c) by (intros ->; naive_solver). assert (x ∉ dc) by (intros Hd; by apply (Hsep x)).
      assert ((x, pt) ∉ fr) by (apply Hfr; rewrite elem_of_cons, elem_of_app; auto). unfold fr1. rewrite !elem_of_union, !elem_of_singleton, elem_parts. naive_solver.
Qed.
End Walk.

(** members and callbacks do not matter *)
Lemma same_shape_forest rs rs' : same_shape rs rs' -> tree_like rs -> tree_like rs'.
Proof.
  intros Hs Hf p r' Hp. assert (Hk : forall q x', rs' !! q = Some x' -> exists x, rs !! q = Some x /\ kids x' = kids x).
  { intros q x' Hq. destruct (same_shape_lookup rs rs' q x' Hs Hq) as (x & Hx & [= _ E]). exists x. split; [done|]. unfold kids. by rewrite E. }
  destruct (Hk p r' Hp) as (r & Hr & Er). destruct (Hf p r Hr) as [N A P]. split; rewrite ?Er; [done|done|].
  intros q x' c Hq Hc Hc'. destruct (Hk q x' Hq) as (x & Hx & Ex). rewrite Ex in Hc'. by eapply P.
Qed.

(** ** The theorem *)

(** C26: destroying a table: in a table the operations have built, where every route has one parent, [Route_destroy]
    of a route returns, nothing is freed twice, and exactly that route and those below it are gone. *)
Theorem route_destroy_frees w root rr :
  routes_ok w -> tree_like (w_routes w) -> w_routes w !! root = Some rr ->
  exists ds w', below (w_routes w) root ds /\ NoDup (root :: ds) /\ Route_destroy w root = Ok w' /\
    (forall x, w_routes w' !! x = if bool_decide (x ∈ root :: ds) then None else w_routes w !! x) /\
    w_heap w' = w_heap w /\ w_members w' = w_members w /\ w_next w' = w_next w.
Proof.
  intros Hok Hf Hr. set (rs := w_routes w) in *.
  assert (Hlive : forall p r c, rs !! p = Some r -> c ∈ kids r -> is_Some (rs !! c)) by (intros p r c Hp; by apply (ro_live _ _ _ _ (proj2 Hok p r Hp))).
  assert (Hname : forall p r, rs !! p = Some r -> r_name r <> None) by (intros p r Hp; destruct (ro_name _ _ _ _ (proj2 Hok p r Hp)) as (nm & -> & _); done).
  pose proof (ro_addr _ _ _ _ (proj2 Hok root rr Hr)) as Ha.
  destruct (below_exists rs Hf Hlive (Z.to_nat (w_next w - root)) root rr Hr) as [ds Hds].
  { intros q [qr Hq]. pose proof (ro_addr _ _ _ _ (proj2 Hok q qr Hq)). lia. }
  pose proof (below_nodup rs Hf root ds Hds) as Hnd.
  assert (Hni : root ∉ ds) by (intros Hx; destruct (below_parent rs Hf root ds Hds root Hx) as (? & ? & _ & _ & _ & ?); lia).
  assert (Hsz : (length ds < S (size rs))%nat).
  { assert (Hsub : list_to_set ds ⊆ dom rs).
    { intros x Hx. apply elem_of_list_to_set in Hx. apply elem_of_dom. by eapply (below_live rs Hf Hlive root ds). }
    apply subseteq_size in Hsub. rewrite size_list_to_set, size_dom in Hsub by done. lia. }
  assert (Hnd' : NoDup (root :: ds)) by (by apply list.NoDup_cons).
  exists ds. eexists. split; [done|]. split; [done|]. split.
  { unfold Route_destroy. fold rs. rewrite (walk_ok rs Hf Hlive Hname root ds Hds); [|done|done|set_solver|set_solver]. rewrite bind_ret. unfold get_route. fold rs. rewrite Hr. cbn [need].
    rewrite bind_ret, bool_decide_eq_false_2 by (by eapply Hname). unfold Heap_destroy.
    rewrite free_ok by (rewrite elem_of_union, elem_parts; set_solver). rewrite bind_ret, free_ok by (rewrite !elem_of_union, elem_parts; set_solver).
    rewrite bind_ret, free_ok by (rewrite !elem_of_union, elem_parts; set_solver). rewrite bind_ret. reflexivity. }
  split; [|done]. intros x. cbn [w_routes]. fold rs. destruct (rs !! x) as [r|] eqn:Ex.
  - case_bool_decide as Hx.
    + apply map_lookup_filter_None. right. intros r' _ Hn. apply Hn. rewrite !elem_of_union, elem_parts. apply elem_of_cons in Hx as [->|Hx]; set_solver.
    + apply map_lookup_filter_Some. split; [done|]. rewrite !elem_of_union, elem_parts. set_solver.
  - assert (filter (fun xr : Z * Route => (xr.1, PChildren) ∉ ({[(root, PChildren)]} ∪ ({[(root, PMembers)]} ∪ ({[(root, PName)]} ∪ (parts ds ∪ ∅))) : frees)) rs !! x = None) as ->
      by (apply map_lookup_filter_None; by left). by case_bool_decide.
Qed.

(** a table of two *)
Lemma route_destroy_frees_witness :
  exists q w1 w2, Route_extend_and_find Heap.ref_sort root_world 1 (Some 1%positive) = Ok (Some q, w1) /\ Route_destroy w1 1 = Ok w2 /\ w_routes w2 !! q = None.
Proof.
  destruct (extend_spec Heap.ref_sort root_world 1 _ 1%positive _ root_world_ok eq_refl root_world_spells) as (q & w1 & E1 & Hok & Hg & Hreach & Hq & _ & _ & (_ & Hfo & _) & _); [vm_compute; congruence|].
  destruct (Hg 1 _ eq_refl) as (rr & Hr & _).
  assert (Hf0 : tree_like (w_routes root_world)).
  { intros p r Hp. cbn in Hp. apply lookup_singleton_Some in Hp as [<- <-]. split; [apply base.NoDup_nil_2|intros c Hc; by apply elem_of_nil in Hc|intros ? ? c _ Hc; by apply elem_of_nil in Hc]. }
  destruct (route_destroy_frees w1 1 rr Hok (Hfo Hf0) Hr) as (ds & w2 & Hb & Hnd & E2 & Hl & _).
  exists q, w1, w2. split; [exact E1|]. split; [exact E2|]. rewrite Hl. case_bool_decide as Hx; [done|]. exfalso. apply Hx.
  inversion Hreach as [|? nm c ? ? Hc Hrest]; subst. inversion Hrest; subst. destruct Hc as (r & Hr' & Hk & _).
  inversion Hb as [? r0 ? Hr0 Hbs]; subst. assert (r0 = r) as -> by congruence. right. clear -Hbs Hk.
  induction Hbs as [|c cs dc ds _ Hbs IH]; [by apply elem_of_nil in Hk|]. apply elem_of_cons in Hk as [->|Hk]; [left|]. right. apply elem_of_app. right. by apply IH.
Defined.
End RoutingEnd.
