(* ===== verification/Members.v ===== *)
(** * Members: the map of logged-in members

    [src/src/hub/member.c].  The map is an SGLIB red-black tree, which is not part of the
    repository: its operations are a parameter with the documented laws ([MemberTree]),
    which hold for a comparison that is an order on the elements.  Whether
    [MEMBER_COMPARATOR] is one is a property of the keys. *)

From Stdlib Require Import ZArith Lia.
From S2P Require Import Prelude Cstdlib Node Heap Message Routing.
Import Cstdlib Node Routing.
Import Message(MsgQueue, heap, MsgQueue_delete, MsgQueue_destroy, MsgQueue_first, MsgQueue_mark_dead).
Local Open Scope Z_scope.

Module Members.

(** ** The comparison of keys *)

(** what the C standard says of [memcmp] on the first [n] bytes; its result is an [int] *)
Class Memcmp (memcmp : bytes -> bytes -> nat -> Z) := {
  memcmp_int : forall a b n, int_ok (memcmp a b n) = true;
  memcmp_first : forall a b n, memcmp a b n = memcmp (take n a) (take n b) n;
  memcmp_eq : forall a b n, memcmp a b n = 0 <-> take n a = take n b;
  memcmp_lt : forall a b n, memcmp a b n < 0 <-> 0 < memcmp b a n;
  memcmp_trans : forall a b c n, memcmp a b n <= 0 -> memcmp b c n <= 0 -> memcmp a c n <= 0
}.

(** the pointers that are compared: members of the map, and the variable [temp] of [Member_find] *)
Definition member_key (ms : gmap Z Member) (temp : option bytes) (x : Z) : option bytes :=
  if x =? TEMP then temp else ms !! x ≫= mb_key.

(** the result of [memcmp] and the difference of the lengths, which are added as [int]s *)
Definition key_sum (memcmp : bytes -> bytes -> nat -> Z) (a b : bytes) : res Z :=
  iadd (memcmp a b (Nat.min (length a) (length b))) (zlen a - zlen b).

(** the comparison, once the sum is known to be an [int] *)
Definition key_compare (memcmp : bytes -> bytes -> nat -> Z) (a b : bytes) : Z :=
  match key_sum memcmp a b with Ok d => d | Fault _ => 0 end.

(** the two keys are there and their sum is an [int], see [compare_ready] *)
Definition MEMBER_COMPARATOR (memcmp : bytes -> bytes -> nat -> Z) (ms : gmap Z Member) (temp : option bytes)
  : Heap.compare_fn :=
  fun x y => match member_key ms temp x, member_key ms temp y with
             | Some a, Some b => key_compare memcmp a b
             | _, _ => 0
             end.

(** ** The red-black tree *)

Class MemberTree (T : Type) := {
  tree_empty : T;
  tree_elems : T -> list Z;
  tree_add : Heap.compare_fn -> T -> Z -> T;
  tree_delete_if_member : Heap.compare_fn -> T -> Z -> option Z * T;
  tree_find_member : Heap.compare_fn -> T -> Z -> option Z
}.

(** the elements form a search tree for [cmp] *)
Definition searchable (cmp : Heap.compare_fn) (l : list Z) (x : Z) : Prop :=
  Heap.OrdersOn (fun y => y = x \/ y ∈ l) cmp.

(** the documented behaviour: duplicates may be added, searching and deleting go by the
    comparison *)
Class MemberTreeLaws (T : Type) `{!MemberTree T} := {
  tree_elems_empty : tree_elems tree_empty = [];
  tree_add_elems : forall cmp t x, searchable cmp (tree_elems t) x ->
    tree_elems (tree_add cmp t x) ≡ₚ x :: tree_elems t;
  tree_delete_elems : forall cmp t x, searchable cmp (tree_elems t) x ->
    match tree_delete_if_member cmp t x with
    | (Some y, t') => cmp y x = 0 /\ tree_elems t ≡ₚ y :: tree_elems t'
    | (None, t') => tree_elems t' = tree_elems t /\ forall y, y ∈ tree_elems t -> cmp y x <> 0
    end;
  tree_find_elems : forall cmp t x, searchable cmp (tree_elems t) x ->
    match tree_find_member cmp t x with
    | Some y => y ∈ tree_elems t /\ cmp y x = 0
    | None => forall y, y ∈ tree_elems t -> cmp y x <> 0
    end
}.

(** ** Operations *)

Section Ops.
Context {T : Type} `{!MemberTree T} (memcmp : bytes -> bytes -> nat -> Z).

(** [x] can be compared with [y]: both keys are there, and the two sums do not overflow *)
Definition comparable (ms : gmap Z Member) (temp : option bytes) (x y : Z) : res unit :=
  a ← need NullDeref (member_key ms temp x);
  b ← need NullDeref (member_key ms temp y);
  _ ← key_sum memcmp a b;
  _ ← key_sum memcmp b a;
  Ok tt.

Fixpoint comparable_all (ms : gmap Z Member) (temp : option bytes) (x : Z) (ys : list Z) : res unit :=
  match ys with
  | [] => Ok tt
  | y :: ys' => _ ← comparable ms temp x y; comparable_all ms temp x ys'
  end.

(** [x] is compared with elements of the tree *)
Definition compare_ready (ms : gmap Z Member) (temp : option bytes) (map : T) (x : Z) : res unit :=
  comparable_all ms temp x (tree_elems map).

Definition Member_find (w : world) (map : T) (pubkey : option bytes) : res (option Z) :=
  _ ← assert_ (bool_decide (pubkey <> None));
  _ ← compare_ready (w_members w) pubkey map TEMP;
  Ok (tree_find_member (MEMBER_COMPARATOR memcmp (w_members w) pubkey) map TEMP).

(** may have to sleep, see [Message.MsgQueue_first] *)
Definition Member_first_msg (w : world) (member : Z) : res Message.first :=
  m ← get_member w member; MsgQueue_first (mb_queue m).

Definition Member_delete_msg (w : world) (member : Z) : res (bool * world) :=
  m ← get_member w member;
  '(rc, q, H) ← MsgQueue_delete (mb_queue m) (w_heap w);
  Ok (rc, put_member member (set_queue q m) (put_heap H w)).

Definition drop_member (p : Z) (w : world) : world :=
  World (w_heap w) (w_routes w) (delete p (w_members w)) (w_next w).

Definition Member_destroy (w : world) (mb : Z) : res world :=
  m ← get_member w mb;
  H ← MsgQueue_destroy (mb_queue m) (w_heap w);
  Ok (drop_member mb (put_heap H w)).

Fixpoint destroy_members (w : world) (ms : list Z) : res world :=
  match ms with
  | [] => Ok w
  | m :: ms' => w ← Member_destroy w m; destroy_members w ms'
  end.

(** [root] is [*map], the member at the root of the tree; it is freed once more after the loop *)
Definition Member_destroy_map (w : world) (map : T) (root : option Z) : res world :=
  root ← need AssertFail root;
  w ← destroy_members w (tree_elems map);
  _ ← get_member w root;
  Ok (drop_member root w).

(** [key] is what [CryptState_export_key] gives for the peer *)
Definition Member_login (w : world) (map : T) (peer : Z) (key : option bytes)
  : res (option Z * T * world) :=
  '(e, w) ← Member_create w peer key;
  let '(ok, st) := check (w_store w) true in
  let w := put_store st w in
  if ok : bool then
    _ ← compare_ready (w_members w) None map e;
    Ok (Some e, tree_add (MEMBER_COMPARATOR memcmp (w_members w) None) map e, w)
  else
    w ← Member_destroy w e;
    Ok (None, map, w).

(** [Member_logout] up to its [taskyield]: the queue is dead and its readers are woken *)
Definition Member_logout_begin (w : world) (map : T) (member : Z) : res world :=
  _ ← assert_ (negb (bool_decide (tree_elems map = [])));
  m ← get_member w member;
  Ok (put_member member (set_queue (MsgQueue_mark_dead (mb_queue m)) m) w).

(** ... and after it *)
Definition Member_logout_end (w : world) (map : T) (member : Z) : res (T * world) :=
  _ ← compare_ready (w_members w) None map member;
  let '(_, map) := tree_delete_if_member (MEMBER_COMPARATOR memcmp (w_members w) None) map member in
  w ← Member_destroy w member;
  Ok (map, w).
End Ops.

(** ** The comparison orders keys of one length *)

Section Keys.
Context (memcmp : bytes -> bytes -> nat -> Z) `{!Memcmp memcmp}.

Definition keyed (n : nat) (ms : gmap Z Member) (temp : option bytes) (x : Z) : Prop :=
  exists k, member_key ms temp x = Some k /\ length k = n.

Lemma key_compare_same n a b :
  length a = n -> length b = n -> key_sum memcmp a b = Ok (memcmp a b n) /\ key_compare memcmp a b = memcmp a b n.
Proof.
  intros Ha Hb. assert (E : key_sum memcmp a b = Ok (memcmp a b n)); [|by unfold key_compare; rewrite E].
  unfold key_sum, iadd, zlen. by rewrite Ha, Hb, Nat.min_id, Z.sub_diag, Z.add_0_r, memcmp_int.
Qed.

#[export] Instance comparator_orders n ms temp :
  Heap.OrdersOn (keyed n ms temp) (MEMBER_COMPARATOR memcmp ms temp).
Proof.
  split; unfold MEMBER_COMPARATOR.
  - intros x y (a & -> & Ha) (b & -> & Hb). rewrite !(fun a b Ha Hb => proj2 (key_compare_same n a b Ha Hb)) by done.
    symmetry. apply memcmp_lt.
  - intros x y z (a & -> & Ha) (b & -> & Hb) (c & -> & Hc). rewrite !(fun a b Ha Hb => proj2 (key_compare_same n a b Ha Hb)) by done.
    apply memcmp_trans.
Qed.

Lemma comparator_zero n ms temp x y a b :
  member_key ms temp x = Some a -> member_key ms temp y = Some b -> length a = n -> length b = n ->
  (MEMBER_COMPARATOR memcmp ms temp x y = 0 <-> a = b).
Proof.
  intros Ea Eb Ha Hb. unfold MEMBER_COMPARATOR. rewrite Ea, Eb, (proj2 (key_compare_same n a b Ha Hb)), memcmp_eq.
  by rewrite !take_ge by lia.
Qed.

Lemma keyed_comparable n ms temp x y :
  keyed n ms temp x -> keyed n ms temp y -> comparable memcmp ms temp x y = Ok tt.
Proof.
  intros (a & Ea & Ha) (b & Eb & Hb). unfold comparable. rewrite Ea, Eb. cbn [need]. rewrite !bind_ret.
  by rewrite (proj1 (key_compare_same n a b Ha Hb)), (proj1 (key_compare_same n b a Hb Ha)), !bind_ret.
Qed.
End Keys.

(** ** The map *)

Section Map.
Context {T : Type} `{!MemberTree T} `{!MemberTreeLaws T}.
Context (memcmp : bytes -> bytes -> nat -> Z) `{!Memcmp memcmp} (n : nat).

(** every element is a live member at an allocated address, with a key of [n] bytes of its own *)
Record map_ok (w : world) (map : T) : Prop := MapOk {
  mo_live : forall x, x ∈ tree_elems map -> 0 < x < w_next w /\
    exists mb k, w_members w !! x = Some mb /\ mb_key mb = Some k /\ length k = n;
  mo_nodup : NoDup (tree_elems map);
  mo_keys : forall x y, x ∈ tree_elems map -> y ∈ tree_elems map ->
    member_key (w_members w) None x = member_key (w_members w) None y -> x = y
}.

(** the key of an element *)
Definition key_of (w : world) (x : Z) : option bytes := w_members w !! x ≫= mb_key.

Lemma member_key_pos ms temp x : 0 < x -> member_key ms temp x = ms !! x ≫= mb_key.
Proof. intros Hx. unfold member_key. by rewrite (proj2 (Z.eqb_neq _ _)) by (unfold TEMP; lia). Qed.

Lemma elem_keyed w map temp x : map_ok w map -> x ∈ tree_elems map -> keyed n (w_members w) temp x.
Proof.
  intros Hm Hx. destruct (mo_live w map Hm x Hx) as (Hpos & mb & k & Hmb & Hk & Hlen).
  exists k. rewrite member_key_pos, Hmb by lia. done.
Qed.

Lemma map_searchable w map temp x :
  map_ok w map -> keyed n (w_members w) temp x ->
  searchable (MEMBER_COMPARATOR memcmp (w_members w) temp) (tree_elems map) x /\
  compare_ready memcmp (w_members w) temp map x = Ok tt.
Proof.
  intros Hm Hx. assert (HD : forall y, y = x \/ y ∈ tree_elems map -> keyed n (w_members w) temp y).
  { intros y [->|Hy]; [done|by apply (elem_keyed w map)]. }
  split.
  - destruct (comparator_orders memcmp n (w_members w) temp) as [Ha Ht]. split.
    + intros a b Da Db. by apply Ha; apply HD.
    + intros a b c Da Db Dc. by apply Ht; apply HD.
  - unfold compare_ready. assert (Hall : forall y, y ∈ tree_elems map -> keyed n (w_members w) temp y) by auto.
    induction (tree_elems map) as [|y ys IH]; [done|]. cbn [comparable_all].
    rewrite (keyed_comparable memcmp n) by (done || apply Hall; by left). rewrite bind_ret. apply IH.
    + intros z [->|Hz]; [done|apply Hall; by right].
    + intros z Hz. apply Hall. by right.
Qed.

(** searching finds the member with the key *)
Lemma find_spec w map k :
  map_ok w map -> length k = n ->
  exists r, Member_find memcmp w map (Some k) = Ok r /\
    match r with
    | Some x => x ∈ tree_elems map /\ key_of w x = Some k
    | None => forall x, x ∈ tree_elems map -> key_of w x <> Some k
    end.
Proof.
  intros Hm Hk. assert (HT : keyed n (w_members w) (Some k) TEMP) by (by exists k).
  destruct (map_searchable w map (Some k) TEMP Hm HT) as [Hs Hr].
  unfold Member_find. rewrite assert_true, bind_ret, Hr, bind_ret by done. eexists; split; [done|].
  assert (Hz : forall y, y ∈ tree_elems map ->
    (MEMBER_COMPARATOR memcmp (w_members w) (Some k) y TEMP = 0 <-> key_of w y = Some k)).
  { intros y Hy. destruct (mo_live w map Hm y Hy) as (Hpos & mb & a & Hmb & Ha & Hlen).
    assert (E : member_key (w_members w) (Some k) y = Some a) by (by rewrite member_key_pos, Hmb by lia).
    rewrite (comparator_zero memcmp n _ _ y TEMP a k E eq_refl Hlen Hk).
    unfold key_of. rewrite Hmb. cbn. rewrite Ha. naive_solver. }
  pose proof (tree_find_elems _ map TEMP Hs) as Hf.
  destruct (tree_find_member _ map TEMP) as [y|].
  - destruct Hf as [Hy Hc]. split; [done|]. by apply Hz.
  - intros x Hx. rewrite <- Hz by done. by apply Hf.
Qed.

Lemma find_own w map x k :
  map_ok w map -> x ∈ tree_elems map -> key_of w x = Some k -> length k = n ->
  Member_find memcmp w map (Some k) = Ok (Some x).
Proof.
  intros Hm Hx Hk Hlen. destruct (find_spec w map k Hm Hlen) as (r & E & Hr). rewrite E.
  destruct r as [y|]; [|by destruct (Hr x Hx)]. destruct Hr as [Hy Hky].
  rewrite (mo_keys w map Hm y x Hy Hx); [done|].
  destruct (mo_live w map Hm x Hx) as [? _], (mo_live w map Hm y Hy) as [? _].
  rewrite !member_key_pos by lia. unfold key_of in *. congruence.
Qed.

(** the world with a new member *)
Definition with_member (w : world) (mb : Member) : world :=
  World (w_heap w) (w_routes w) (<[w_next w := mb]> (w_members w)) (w_next w + 1).

Lemma login_map w map mb k t' :
  map_ok w map -> 0 < w_next w -> mb_key mb = Some k -> length k = n ->
  (forall x, x ∈ tree_elems map -> key_of w x <> Some k) ->
  tree_elems t' ≡ₚ w_next w :: tree_elems map -> map_ok (with_member w mb) t'.
Proof.
  intros Hm Hpos Hk Hlen Hnew Hp.
  assert (Hold : forall x, x ∈ tree_elems map -> 0 < x < w_next w) by (intros x Hx; apply (mo_live w map Hm x Hx)).
  assert (Hkey : forall x, x ∈ tree_elems map ->
            member_key (w_members (with_member w mb)) None x = key_of w x).
  { intros x Hx. specialize (Hold x Hx). rewrite member_key_pos by lia. cbn. by rewrite lookup_insert_ne by lia. }
  assert (Hkn : member_key (w_members (with_member w mb)) None (w_next w) = Some k).
  { rewrite member_key_pos by lia. cbn. rewrite lookup_insert_eq. done. }
  split.
  - intros x. rewrite Hp, elem_of_cons. cbn. intros [->|Hx].
    + split; [lia|]. exists mb, k. by rewrite lookup_insert_eq.
    + specialize (Hold x Hx). destruct (mo_live w map Hm x Hx) as (_ & mx & kx & Hmx & Hkx & Hlx).
      split; [lia|]. exists mx, kx. by rewrite lookup_insert_ne by lia.
  - rewrite Hp. apply list.NoDup_cons. split; [|apply (mo_nodup w map Hm)].
    intros Hin. specialize (Hold _ Hin). lia.
  - intros x y. rewrite Hp, !elem_of_cons. intros [->|Hx] [->|Hy]; rewrite ?Hkn, ?Hkey by done;
      [done|intros E; by destruct (Hnew y Hy)|intros E; by destruct (Hnew x Hx)|].
    intros E. apply (mo_keys w map Hm); [done|done|]. destruct (Hold x Hx), (Hold y Hy).
    by rewrite !member_key_pos by lia.
Qed.

(** deleting by comparison deletes the element itself *)
Lemma delete_own w map m :
  map_ok w map -> m ∈ tree_elems map ->
  exists o map', tree_delete_if_member (MEMBER_COMPARATOR memcmp (w_members w) None) map m = (o, map') /\
    compare_ready memcmp (w_members w) None map m = Ok tt /\ tree_elems map ≡ₚ m :: tree_elems map'.
Proof.
  intros Hm Hin. destruct (map_searchable w map None m Hm (elem_keyed w map None m Hm Hin)) as [Hs Hr].
  pose proof (tree_delete_elems _ map m Hs) as Hd.
  destruct (tree_delete_if_member _ map m) as [o map']. exists o, map'. split_and!; [done..|].
  destruct (mo_live w map Hm m Hin) as (Hpos & mb' & k & Hmb' & Hk & Hlen).
  assert (Em : member_key (w_members w) None m = Some k) by (by rewrite member_key_pos, Hmb' by lia).
  destruct o as [y|]; [|destruct Hd as [_ Hd]; destruct (Hd m Hin); by apply (comparator_zero memcmp n _ _ m m k k)].
  destruct Hd as [Hc Hp]. assert (Hy : y ∈ tree_elems map) by (rewrite Hp; set_solver).
  destruct (mo_live w map Hm y Hy) as (Hypos & my & ky & Hmy & Hky & Hleny).
  assert (Ey : member_key (w_members w) None y = Some ky) by (by rewrite member_key_pos, Hmy by lia).
  apply (comparator_zero memcmp n _ _ y m ky k Ey Em Hleny Hlen) in Hc as ->.
  by rewrite <- (mo_keys w map Hm y m Hy Hin) by congruence.
Qed.

End Map.

Lemma removed_ok {T} `{!MemberTree T} n w (map map' : T) m H :
  map_ok n w map -> tree_elems map ≡ₚ m :: tree_elems map' ->
  (m ∉ tree_elems map') /\ map_ok n (drop_member m (put_heap H w)) map'.
Proof.
  intros Hm Hp. pose proof (mo_nodup n w map Hm) as Hn. rewrite Hp in Hn. apply list.NoDup_cons in Hn as [Hni Hn].
  split; [done|]. set (w' := drop_member m (put_heap H w)).
  assert (Hsub : forall x, x ∈ tree_elems map' -> x ∈ tree_elems map /\ x <> m) by (intros x Hx; rewrite Hp; set_solver).
  assert (Hk' : forall x, x ∈ tree_elems map' -> member_key (w_members w') None x = member_key (w_members w) None x).
  { intros x Hx. destruct (Hsub x Hx) as [Hx' Hxm]. destruct (mo_live n w map Hm x Hx') as [? _].
    rewrite !member_key_pos by lia. cbn. by rewrite lookup_delete_ne. }
  split; [|done|].
  - intros x Hx. destruct (Hsub x Hx) as [Hx' Hxm]. cbn. rewrite lookup_delete_ne by done. by apply (mo_live n w map Hm).
  - intros x y Hx Hy. rewrite !Hk' by done. apply (mo_keys n w map Hm); by apply Hsub.
Qed.

(** ** An instance of the laws: a list *)

#[local] Instance list_tree : MemberTree (list Z) := {
  tree_empty := [];
  tree_elems l := l;
  tree_add _ l x := x :: l;
  tree_delete_if_member cmp l x :=
    match list_find (fun y => cmp y x = 0) l with
    | Some (i, y) => (Some y, delete i l)
    | None => (None, l)
    end;
  tree_find_member cmp l x := snd <$> list_find (fun y => cmp y x = 0) l
}.

#[local] Instance list_tree_laws : MemberTreeLaws (list Z).
Proof.
  split; cbn.
  - done.
  - done.
  - intros cmp t x _. destruct (list_find (fun y => cmp y x = 0) t) as [[i y]|] eqn:E.
    + apply list_find_Some in E as (Hi & Hy & _). split; [done|]. by apply delete_Permutation.
    + split; [done|]. apply list_find_None in E. by rewrite list.Forall_forall in E.
  - intros cmp t x _. destruct (list_find (fun y => cmp y x = 0) t) as [[i y]|] eqn:E; cbn.
    + apply list_find_Some in E as (Hi & Hy & _). split; [|done]. by apply list_elem_of_lookup_2 with i.
    + apply list_find_None in E. by rewrite list.Forall_forall in E.
Qed.

(** byte by byte, the difference of the first two that differ *)
Fixpoint memcmp_ref (a b : bytes) (n : nat) : Z :=
  match n, a, b with
  | O, _, _ | _, [], [] => 0
  | _, [], _ :: _ => -1
  | _, _ :: _, [] => 1
  | S n', x :: a', y :: b' => if bv x - bv y =? 0 then memcmp_ref a' b' n' else bv x - bv y
  end.

#[local] Instance memcmp_ref_ok : Memcmp memcmp_ref.
Proof.
  split.
  - intros a b n. revert a b; induction n as [|n IH]; intros [|x a] [|y b]; try done. cbn [memcmp_ref].
    pose proof (bv_range x). pose proof (bv_range y). destruct (_ =? 0); [apply IH|]. unfold int_ok, INT_MIN, INT_MAX. lia.
  - intros a b n. revert a b; induction n as [|n IH]; intros [|x a] [|y b]; cbn; [done..|].
    by rewrite <- IH.
  - intros a b n. revert a b; induction n as [|n IH]; intros [|x a] [|y b]; cbn; [done..|].
    destruct (Z.eqb_spec (bv x - bv y) 0) as [E|E].
    + assert (x = y) as -> by (apply bv_inj; lia). rewrite IH. split; congruence.
    + split; [lia|]. intros [= -> _]. lia.
  - intros a b n. revert a b; induction n as [|n IH]; intros [|x a] [|y b]; cbn; [lia..|].
    destruct (Z.eqb_spec (bv x - bv y) 0), (Z.eqb_spec (bv y - bv x) 0); [apply IH|lia..].
  - intros a b c n. revert a b c; induction n as [|n IH]; intros [|x a] [|y b] [|z c]; cbn; try lia.
    destruct (Z.eqb_spec (bv x - bv y) 0), (Z.eqb_spec (bv y - bv z) 0), (Z.eqb_spec (bv x - bv z) 0);
      try lia. apply IH.
Qed.

(** ** Properties *)

(** a member that logs in is found by its key afterwards, and so is every member that was
    logged in before, provided that the exported keys have one length and the key is not
    in use; the map gains exactly the new member. *)
Theorem login_then_find {T} `{!MemberTree T} `{!MemberTreeLaws T} memcmp `{!Memcmp memcmp} n w (map : T) peer k :
  map_ok n w map -> 0 < w_next w -> errno (w_store w) = 0 -> length k = n ->
  (forall x, x ∈ tree_elems map -> key_of w x <> Some k) ->
  exists e map' w', Member_login memcmp w map peer (Some k) = Ok (Some e, map', w') /\
    map_ok n w' map' /\ tree_elems map' ≡ₚ e :: tree_elems map /\
    forall x a, x ∈ tree_elems map' -> key_of w' x = Some a -> Member_find memcmp w' map' (Some a) = Ok (Some x).
Proof.
  intros Hm Hpos He Hlen Hnew. unfold Member_login, Member_create.
  destruct (Message.holds_create MEMBER_MSG_QUEUE_LENGTH) as (q & -> & _); [unfold MEMBER_MSG_QUEUE_LENGTH; lia|].
  rewrite !bind_ret. set (mb := mkMember (Some k) peer q 0 (Heap.Heap_create None)).
  change (put_member (w_next w) mb _) with (with_member w mb).
  assert (Hck : check (w_store (with_member w mb)) true = (true, w_store w)).
  { unfold check. change (w_store (with_member w mb)) with (w_store w). by rewrite He. }
  rewrite Hck. replace (put_store (w_store w) (with_member w mb)) with (with_member w mb) by (by destruct w as [[] ? ? ?]).
  set (w1 := with_member w mb).
  assert (Hm1 : map_ok n w1 map).
  { destruct Hm as [Hl Hn Hk]. split; [|done|].
    - intros x Hx. destruct (Hl x Hx) as (Hr & m & a & Hma & ?). split; [cbn; lia|]. exists m, a. cbn.
      by rewrite lookup_insert_ne by lia.
    - intros x y Hx Hy. destruct (Hl x Hx) as [? _], (Hl y Hy) as [? _]. specialize (Hk x y Hx Hy).
      rewrite !member_key_pos in * by lia. cbn. by rewrite !lookup_insert_ne by lia. }
  assert (HD : keyed n (w_members w1) None (w_next w)).
  { exists k. rewrite member_key_pos by lia. cbn. by rewrite lookup_insert_eq. }
  destruct (map_searchable memcmp n w1 map None (w_next w) Hm1 HD) as [Hs ->]. rewrite bind_ret.
  pose proof (tree_add_elems _ map (w_next w) Hs) as Hp.
  eexists (w_next w), _, w1. split_and!; [done| |exact Hp|].
  - by apply (login_map n w map mb k).
  - intros x a Hx Ha. apply (find_own memcmp n); [by apply (login_map n w map mb k)|done|done|].
    destruct (mo_live n w1 _ (login_map n w map mb k _ Hm Hpos eq_refl Hlen Hnew Hp) x Hx) as (_ & m & a' & Hma & Hka & <-).
    unfold key_of in Ha. rewrite Hma in Ha. cbn in Ha. congruence.
Qed.

Definition two_keys : world :=
  World (Message.mkHeap empty_store ∅ 1%positive) ∅
    {[1 := mkMember (Some (lit "a")) 0 (Message.mkQueue [Message.Uninit] false 0 0 1) 0 (Heap.Heap_create None)]} 2.

Lemma two_keys_ok : map_ok 1 two_keys ([1] : list Z).
Proof.
  split.
  - intros x Hx. change (x ∈ [1]) in Hx. rewrite elem_of_cons, elem_of_nil in Hx. destruct Hx as [->|[]].
    split; [cbn; lia|]. do 2 eexists; split_and!; reflexivity.
  - apply (bool_decide_unpack _). vm_compute. exact I.
  - intros x y Hx Hy _. change (x ∈ [1]) in Hx. change (y ∈ [1]) in Hy. set_solver.
Qed.

Lemma login_then_find_witness :
  exists e map' w', Member_login memcmp_ref two_keys ([1] : list Z) 5 (Some (lit "b")) = Ok (Some e, map', w') /\
    map_ok 1 w' map'.
Proof.
  destruct (login_then_find memcmp_ref 1 two_keys ([1] : list Z) 5 (lit "b") two_keys_ok)
    as (e & map' & w' & E & Hm & _); [cbn; lia|done|done| |eauto].
  intros x Hx. change (x ∈ [1]) in Hx. rewrite elem_of_cons, elem_of_nil in Hx. destruct Hx as [->|[]]. done.
Defined.

(** the second half of [Member_logout] removes exactly the member from the map and frees it
    with its queue, releasing the queued messages in order; everybody else stays logged in
    and is found. *)
Theorem logout_removes {T} `{!MemberTree T} `{!MemberTreeLaws T} memcmp `{!Memcmp memcmp} n w (map : T) m mb l H' :
  map_ok n w map -> m ∈ tree_elems map -> w_members w !! m = Some mb -> Message.holds (mb_queue mb) l ->
  Message.fifo_drain l (w_heap w) = Ok H' ->
  exists map', Member_logout_end memcmp w map m = Ok (map', drop_member m (put_heap H' w)) /\
    tree_elems map ≡ₚ m :: tree_elems map' /\ map_ok n (drop_member m (put_heap H' w)) map' /\
    forall k, key_of w m = Some k -> Member_find memcmp (drop_member m (put_heap H' w)) map' (Some k) = Ok None.
Proof.
  intros Hm Hin Hmb Hq Hdr. set (w' := drop_member m (put_heap H' w)).
  destruct (delete_own memcmp n w map m Hm Hin) as (o & map' & E & Hr & Hp).
  destruct (removed_ok n w map map' m H' Hm Hp) as [Hne Hm']. fold w' in Hm'.
  unfold Member_logout_end. rewrite Hr, bind_ret, E.
  unfold Member_destroy, get_member. rewrite Hmb. cbn [need]. rewrite bind_ret.
  destruct (Message.holds_view _ _ Hq) as [_ Hv]. rewrite Hv, Hdr, !bind_ret. fold w'.
  exists map'. split_and!; [done|done|done|]. intros k Hk.
  destruct (mo_live n w map Hm m Hin) as (Hpos & mb' & k' & Hmb' & Hk' & Hlen).
  assert (k' = k) as -> by (unfold key_of in Hk; rewrite Hmb' in Hk; cbn in Hk; congruence).
  destruct (find_spec memcmp n w' map' k Hm' Hlen) as (r & -> & Hrr). destruct r as [x|]; [|done]. exfalso.
  destruct Hrr as [Hx Hkx]. apply Hne. rewrite <- (mo_keys n w map Hm x m); [done|rewrite Hp; set_solver|done|].
  destruct (mo_live n w' map' Hm' x Hx) as [Hxp _]. cbn in Hxp. rewrite !member_key_pos by lia.
  unfold key_of in Hk, Hkx. cbn in Hkx. rewrite lookup_delete_ne in Hkx; [congruence|]. intros ->. by apply Hne.
Qed.

Lemma logout_removes_witness :
  exists map', Member_logout_end memcmp_ref two_keys ([1] : list Z) 1
    = Ok (map', drop_member 1 (put_heap (w_heap two_keys) two_keys)) /\ [1] ≡ₚ 1 :: tree_elems map'.
Proof.
  destruct (logout_removes memcmp_ref 1 two_keys ([1] : list Z) 1 _ [] (w_heap two_keys) two_keys_ok
              ltac:(by left) eq_refl) as (map' & E & Hp & _); [|done|eauto].
  constructor; cbn; try (done || lia).
Defined.

(** C40: [MEMBER_COMPARATOR] is not an order on keys of different lengths: whatever [memcmp]
    the library provides, there are two different keys that compare equal, because the
    difference of the lengths is added to the result of [memcmp]. *)
Theorem comparator_confuses memcmp `{!Memcmp memcmp} :
  exists a b, a <> b /\ key_sum memcmp a b = Ok 0 /\ key_compare memcmp a b = 0.
Proof.
  assert (Hw : forall x y, x <> y -> 0 < memcmp [x] [y] 1%nat -> exists a b, a <> b /\ key_sum memcmp a b = Ok 0 /\ key_compare memcmp a b = 0).
  { intros x y Hxy Hr. set (r := memcmp [x] [y] 1%nat) in *. exists [x], (replicate (S (Z.to_nat r)) y). split.
    - cbn [replicate]. congruence.
    - unfold key_compare, key_sum, zlen. rewrite length_replicate. cbn [length].
      change (1 `min` S (Z.to_nat r))%nat with 1%nat.
      rewrite memcmp_first. cbn [take replicate]. rewrite take_0. fold r. unfold iadd.
      assert (r + (Z.of_nat 1 - Z.of_nat (S (Z.to_nat r))) = 0) as -> by lia. done. }
  destruct (Z.lt_total (memcmp [Byte.x61] [Byte.x62] 1%nat) 0) as [Hn|[Hz|Hp]].
  - apply memcmp_lt in Hn. by apply Hw in Hn.
  - by apply memcmp_eq in Hz.
  - by apply Hw in Hp.
Qed.

Lemma comparator_confuses_witness : exists a b, a <> b /\ key_sum memcmp_ref a b = Ok 0 /\ key_compare memcmp_ref a b = 0.
Proof. exact (comparator_confuses memcmp_ref). Defined.

(** nothing keeps a key from logging in twice, and the logout of one of two members with
    the same key can leave a freed member in the map: here the second login is removed in
    place of the first. *)
Theorem login_twice_dangles :
  exists m1 m2 t1 t2 t3 w1 w2 w3,
    Member_login memcmp_ref (World (Message.mkHeap empty_store ∅ 1%positive) ∅ ∅ 1) (tree_empty : list Z) 7 (Some (lit "k"))
      = Ok (Some m1, t1, w1) /\
    Member_login memcmp_ref w1 t1 8 (Some (lit "k")) = Ok (Some m2, t2, w2) /\
    Member_logout_end memcmp_ref w2 t2 m1 = Ok (t3, w3) /\
    m1 ∈ tree_elems t3 /\ w_members w3 !! m1 = None /\ (m2 ∉ tree_elems t3).
Proof.
  do 8 eexists. split; [reflexivity|]. split; [reflexivity|].
  split; [reflexivity|]. split_and!; [|reflexivity|]; (apply (bool_decide_unpack _); vm_compute; exact I).
Qed.

(** [Member_destroy_map] never returns: on an empty map it asserts, and otherwise the root of the tree,
    which is one of the members, is freed by the loop and again after it. *)
Lemma member_gone w m w' x : Member_destroy w m = Ok w' -> w_members w !! x = None -> w_members w' !! x = None.
Proof.
  unfold Member_destroy. destruct (get_member w m) as [mb|]; [|done]. rewrite bind_ret. destruct (MsgQueue_destroy _ _) as [H|]; [|done]. rewrite bind_ret. intros [= <-] Hx. cbn.
  destruct (decide (x = m)) as [->|]; [apply lookup_delete_eq|by rewrite lookup_delete_ne].
Qed.

Lemma destroy_members_gone ms : forall w w', destroy_members w ms = Ok w' -> forall x, x ∈ ms \/ w_members w !! x = None -> w_members w' !! x = None.
Proof.
  induction ms as [|m ms IH]; intros w w' E x Hx; cbn [destroy_members] in E.
  - injection E as <-. destruct Hx as [Hx|]; [by apply elem_of_nil in Hx|done].
  - destruct (Member_destroy w m) as [w1|] eqn:E1; [|done]. rewrite bind_ret in E. apply (IH w1 w' E). rewrite elem_of_cons in Hx. destruct Hx as [[->|Hx]|Hx]; [|by left|].
    + right. unfold Member_destroy in E1. destruct (get_member w m) as [mb|]; [|done]. rewrite bind_ret in E1. destruct (MsgQueue_destroy _ _); [|done].
      rewrite bind_ret in E1. injection E1 as <-. apply lookup_delete_eq.
    + right. by eapply member_gone.
Qed.

Lemma destroy_map_never_returns {T} `{!MemberTree T} w (map : T) root w' :
  root = None \/ (exists x, root = Some x /\ x ∈ tree_elems map) -> Member_destroy_map w map root <> Ok w'.
Proof.
  unfold Member_destroy_map. intros [->|(x & -> & Hx)]; [done|]. cbn [need]. rewrite bind_ret.
  destruct (destroy_members w (tree_elems map)) as [w1|] eqn:E1; [|done]. rewrite bind_ret. unfold get_member.
  by rewrite (destroy_members_gone _ _ _ E1 x) by (by left).
Qed.

End Members.
