(* ===== verification/Commands.v ===== *)
(** * Commands: the services of the hub

    [src/src/hub/commands.c] and [src/src/hub/info.c].  The file system, the clock and the
    names of the peers are parameters; a callback is identified by its entry of the
    [registrations] table. *)

From Stdlib Require Import ZArith Lia.
From S2P Require Import Prelude Cstdlib Node NodeFormat Heap Message Routing.
Import Cstdlib Node NodeFormat Routing.
Import Message(heap, Message, m_data, m_from, get_msg, set_store, h_store, Message_cons, Message_alloc, Message_ref_inc).
Local Open Scope Z_scope.

Module Commands.

(** ** info.c over a file system *)

(** a system call: its result or the error number *)
Record file_system := FileSystem {
  fs_opendir : bytes -> Z + list bytes;
  fs_stat : bytes -> Z + (Z * Z * Z);
  fs_fopen : bytes -> Z + bytes;
  fs_strerror : Z -> bytes
}.

Section Info.
Context (fs : file_system).

(** the data and the error of an operation; the path is read up to its first NUL *)
Definition info_result : Type := option bytes * option bytes.

Definition Info_list (path : bytes) : info_result :=
  match fs_opendir fs (cstr path) with
  | inl e => (None, Some (cstr (fs_strerror fs e)))
  | inr names =>
    let listing := foldl (fun l n => l ++ cstr n ++ [Byte.x0a]) [] names in
    if 64 * 1024 - 200 <? zlen listing
    then (Some listing, Some (lit "Requested listing is larger than allowed message size."))
    else (Some listing, None)
  end.

(** [printf("%d", n)] *)
Definition print_int (n : Z) : bytes :=
  if n <? 0 then lit "-" ++ print_dec (- n) else print_dec n.

(** the three numbers are passed for ["%d"], which reads [int]s *)
Definition Info_tag (path : bytes) : info_result :=
  match fs_stat fs (cstr path) with
  | inl e => (None, Some (cstr (fs_strerror fs e)))
  | inr (ino, size, mtime) =>
    (Some (print_int (i32 ino) ++ lit "-" ++ print_int (i32 size) ++ lit "-" ++ print_int (i32 mtime)), None)
  end.

Definition Info_get (path : bytes) : info_result :=
  match fs_fopen fs (cstr path) with
  | inl e => (None, Some (cstr (fs_strerror fs e)))
  | inr data => (Some data, None)
  end.

Definition Info_put (path data : bytes) : option bytes := None.
Definition Info_delete (path : bytes) : bool := true.
End Info.

(** ** The registrations *)

Inductive callback :=
  | Hub_route_register | Hub_route_unregister | Hub_route_members | Hub_route_children
  | Hub_member_register | Hub_member_mendicate | Hub_member_invite | Hub_member_send
  | Hub_info_get | Hub_info_list | Hub_info_tag | Hub_system_ping.

#[global] Instance callback_eq_dec : EqDecision callback.
Proof. solve_decision. Defined.

Record Registration := mkReg { reg_child : bytes; reg_root : bytes; reg_callback : callback }.

Definition registrations : list Registration :=
  [ mkReg (lit "register") (lit "route") Hub_route_register;
    mkReg (lit "unregister") (lit "route") Hub_route_unregister;
    mkReg (lit "members") (lit "route") Hub_route_members;
    mkReg (lit "children") (lit "route") Hub_route_children;
    mkReg (lit "register") (lit "member") Hub_member_register;
    mkReg (lit "mendicate") (lit "member") Hub_member_mendicate;
    mkReg (lit "invite") (lit "member") Hub_member_invite;
    mkReg (lit "send") (lit "member") Hub_member_send;
    mkReg (lit "get") (lit "info") Hub_info_get;
    mkReg (lit "list") (lit "info") Hub_info_list;
    mkReg (lit "tag") (lit "info") Hub_info_tag;
    mkReg (lit "ping") (lit "system") Hub_system_ping ].

(** the address of the code of a callback, and back *)
Definition code_of (c : callback) : Z :=
  match c with
  | Hub_route_register => 1 | Hub_route_unregister => 2 | Hub_route_members => 3 | Hub_route_children => 4
  | Hub_member_register => 5 | Hub_member_mendicate => 6 | Hub_member_invite => 7 | Hub_member_send => 8
  | Hub_info_get => 9 | Hub_info_list => 10 | Hub_info_tag => 11 | Hub_system_ping => 12
  end.

Definition callback_at (a : Z) : option callback :=
  find (fun c => code_of c =? a) (map reg_callback registrations).

(** ** The callbacks *)

Section Callbacks.
Context (sort : Heap.compare_fn -> list Z -> list Z).
Context (fs : file_system) (now : Z) (peer_name : Z -> option bytes) (root : Z).

Definition send_response (w : world) (member : Z) (response : option loc) (ty : bytes) : res world :=
  '(hdr, body, st) ← Message_cons (w_store w) 0 response (Some ty);
  let w := put_store st w in
  '(msg, H) ← Message_alloc (w_heap w) now hdr body;
  '(_, w) ← Member_send_msg (put_heap H w) member msg;
  Ok w.

Definition extract_message (w : world) (message : loc) : res (option loc) :=
  M ← get_msg (w_heap w) message;
  d ← load (w_store w) (m_data M);
  match child d with
  | Some c => n ← load (w_store w) (Some c); Ok (child n)
  | None => Ok None
  end.

(** a new string child of the response for every name *)
Fixpoint add_strings (st : store) (response : option loc) (names : list (option bytes)) : res store :=
  match names with
  | [] => Ok st
  | n :: names' => '(_, st) ← Node_new_string st response n; add_strings st response names'
  end.

(** [Member_name] of the members of a heap *)
Fixpoint member_names (w : world) (ms : list Z) : res (list (option bytes)) :=
  match ms with
  | [] => Ok []
  | m :: ms' => mb ← get_member w m; r ← member_names w ms'; Ok (peer_name (mb_peer mb) :: r)
  end.

Fixpoint route_names (w : world) (rs : list Z) : res (list (option bytes)) :=
  match rs with
  | [] => Ok []
  | p :: rs' => r ← get_route w p; l ← route_names w rs'; Ok (r_name r :: l)
  end.

Definition Hub_route_register_cb (w : world) (from : Z) (message : option loc) : res (bool * world) :=
  Route_register sort w root message from.

Definition Hub_route_unregister_cb (w : world) (from : Z) (message : option loc) : res (bool * world) :=
  Route_unregister w root message from.

(** "[b@w" with the path that was asked for *)
Definition path_response (w : world) (message : option loc) (nm : bytes) : res (option loc * world) :=
  path ← Node_bstr (w_store w) message true;
  '(response, st) ← Node_cons (w_store w) (lit "[b@w")
                      [CABstr (Some path); CACstr (Some (lit "@path")); CACstr (Some nm)];
  Ok (response, put_store st w).

Definition Hub_route_members_cb (w : world) (from : Z) (message : option loc) : res (bool * world) :=
  '(target, w) ← Route_find w root message;
  '(response, w) ← path_response w message (lit "members");
  names ← match target with
          | Some t => r ← get_route w t; member_names w (Heap.contents (r_members r))
          | None => Ok [Some (lit "Requested route does not exist.")]
          end;
  st ← add_strings (w_store w) response names;
  _ ← Node_dump st response true;
  w ← send_response (put_store st w) from response (if bool_decide (target = None) then lit "err" else lit "rpy");
  Ok (true, w).

Definition Hub_route_children_cb (w : world) (from : Z) (message : option loc) : res (bool * world) :=
  '(target, w) ← Route_find w root message;
  '(response, w) ← path_response w message (lit "children");
  names ← match target with
          | Some t => r ← get_route w t; route_names w (Heap.contents (r_children r))
          | None => Ok []
          end;
  st ← add_strings (w_store w) response names;
  _ ← Node_dump st response true;
  w ← send_response (put_store st w) from response (lit "rpy");
  Ok (true, w).

(** the replies of the member commands, which carry one word *)
Definition word_response (w : world) (from : Z) (nm : bytes) (dump : option (option loc)) : res (bool * world) :=
  '(response, st) ← Node_cons (w_store w) (lit "[w") [CACstr (Some nm)];
  _ ← match dump with Some message => Node_dump st message true | None => Ok [] end;
  w ← send_response (put_store st w) from response (lit "rpy");
  Ok (true, w).

Definition Hub_member_register_cb (w : world) (from : Z) (message : option loc) : res (bool * world) :=
  word_response w from (lit "registered") None.
Definition Hub_member_invite_cb (w : world) (from : Z) (message : option loc) : res (bool * world) :=
  word_response w from (lit "invited") (Some message).
Definition Hub_member_mendicate_cb (w : world) (from : Z) (message : option loc) : res (bool * world) :=
  word_response w from (lit "mendicated") None.
Definition Hub_member_send_cb (w : world) (from : Z) (message : option loc) : res (bool * world) :=
  word_response w from (lit "sent") (Some message).

Definition Hub_system_ping_cb (w : world) (from : Z) (message : option loc) : res (bool * world) :=
  n ← load (w_store w) message;
  let '(ok, st) := check (w_store w) (bool_decide (type n = TYPE_NUMBER)) in
  let w := put_store st w in
  if negb ok then Ok (false, w) else
  v ← match value n with VNumber v => Ok v | _ => Fault BadPointer end;
  '(response, st) ← Node_cons (w_store w) (lit "[nw") [CANum (u64 (now - v)); CACstr (Some (lit "pong"))];
  w ← send_response (put_store st w) from response (lit "rpy");
  Ok (true, w).

Definition Hub_info_generic (w : world) (message : option loc) (from : Z) (operation : bytes)
  (info_op : bytes -> info_result) : res (bool * world) :=
  '(rc, outs, st) ← Node_decons (w_store w) message false (lit "[sw") [DOut; DName (Some (lit "name"))];
  let info_name := match outs with DVStr _ s :: _ => s | _ => None end in
  let '(ok, st) := check st rc in
  if negb ok then Ok (false, put_store st w) else
  let '(ok, st) := check st (0 <? blength info_name) in
  if negb ok then Ok (false, put_store st w) else
  let '(data, error) := info_op (default [] info_name) in
  '(response, st) ←
    match error with
    | None =>
      _ ← assert_ (bool_decide (data <> None));
      Node_cons st (lit "[[sw[bww") [CABstr info_name; CACstr (Some (lit "name")); CABstr data;
                                     CACstr (Some operation); CACstr (Some (lit "info"))]
    | Some _ =>
      Node_cons st (lit "[[sw[sww") [CABstr info_name; CACstr (Some (lit "name")); CABstr error;
                                     CACstr (Some (lit "error")); CACstr (Some (lit "info"))]
    end;
  w ← send_response (put_store st w) from response (if bool_decide (error = None) then lit "rpy" else lit "err");
  Ok (true, w).

Definition Hub_info_tag_cb (w : world) (from : Z) (message : option loc) : res (bool * world) :=
  Hub_info_generic w message from (lit "tag") (Info_tag fs).
Definition Hub_info_get_cb (w : world) (from : Z) (message : option loc) : res (bool * world) :=
  Hub_info_generic w message from (lit "get") (Info_get fs).
Definition Hub_info_list_cb (w : world) (from : Z) (message : option loc) : res (bool * world) :=
  Hub_info_generic w message from (lit "list") (Info_list fs).

Definition run_callback (c : callback) : world -> Z -> option loc -> res (bool * world) :=
  match c with
  | Hub_route_register => Hub_route_register_cb
  | Hub_route_unregister => Hub_route_unregister_cb
  | Hub_route_members => Hub_route_members_cb
  | Hub_route_children => Hub_route_children_cb
  | Hub_member_register => Hub_member_register_cb
  | Hub_member_mendicate => Hub_member_mendicate_cb
  | Hub_member_invite => Hub_member_invite_cb
  | Hub_member_send => Hub_member_send_cb
  | Hub_info_get => Hub_info_get_cb
  | Hub_info_list => Hub_info_list_cb
  | Hub_info_tag => Hub_info_tag_cb
  | Hub_system_ping => Hub_system_ping_cb
  end.

(** ** Registration and service *)

Fixpoint register_loop (w : world) (regs : list Registration) : res (bool * world) :=
  match regs with
  | [] => Ok (true, w)
  | reg :: regs' =>
    '(node, st) ← Node_cons (w_store w) (lit "[[ww") [CACstr (Some (reg_child reg)); CACstr (Some (reg_root reg))];
    let '(ok, st) := check st (bool_decide (node <> None)) in
    let w := put_store st w in
    if negb ok then Ok (false, w) else
    '(rc, w) ← Route_register_callback sort w root node (code_of (reg_callback reg));
    let '(ok, st) := check (w_store w) rc in
    if negb ok then Ok (false, put_store st w) else
    st ← Node_destroy st node;
    register_loop (put_store st w) regs'
  end.

Definition Hub_commands_register (w : world) : res (bool * world) :=
  register_loop w registrations.

(** [msg] is [state->recv.msg] *)
Definition Hub_service_message (w : world) (msg : loc) : res (bool * world) :=
  let fail_path w := H ← Message_ref_inc (w_heap w) msg; Ok (false, put_heap H w) in
  M ← get_msg (w_heap w) msg;
  '(target, w) ← Route_find w root (m_data M);
  let '(ok, st) := check (w_store w) (bool_decide (target <> None)) in
  let w := put_store st w in
  match target with
  | Some t =>
    if negb ok then fail_path w else
    r ← get_route w t;
    if r_is_internal_callback r then
      message ← extract_message w msg;
      let '(ok, st) := check (w_store w) (bool_decide (message <> None)) in
      let w := put_store st w in
      if negb ok then fail_path w else
      c ← need BadPointer (callback_at (r_callback r));
      '(rc, w) ← run_callback c w (m_from M) message;
      let '(ok, st) := check (w_store w) rc in
      let w := put_store st w in
      if negb ok then fail_path w else Ok (true, w)
    else
      '(_, w) ← Route_deliver w t msg;
      Ok (true, w)
  | None => fail_path w
  end.
End Callbacks.

End Commands.
