(* ===== verification/CommandsProps.v ===== *)
(** * CommandsProps: what the services of the hub answer

    The registration table as the hub sets it up, and the replies of the callbacks: the
    document that is put into the queue of the member who asked. *)

From Stdlib Require Import ZArith Lia.
From S2P Require Import Prelude Cstdlib Node NodeFormat NodeRep NodeOpen NodeFormatProps Heap Message Routing RoutingProps Commands.
Import Cstdlib Node NodeFormat NodeRep NodeOpen NodeFormatProps Routing RoutingProps Commands.
Import Message(MsgQueue, heap, h_store, h_msgs, h_next, holds, q_dim, set_store, set_msg, set_ref, m_ref_count,
  m_body, m_hdr, m_type, m_msgid, mkMessage, header_name, Message_cons_spec, Message_alloc).
Local Open Scope Z_scope.

Module CommandsProps.

(** ** Replies *)

(** [from]'s queue gained one message with the type [ty] and the document [doc], referenced
    by the queue only; the header has the number 0, and nothing older changed *)
Record replied (w w' : world) (from : Z) (l : list loc) (ty : bytes) (doc : forest) : Prop := Replied {
  rp_routes : w_routes w' = w_routes w;
  rp_nodes : forall x, (x < next (w_store w))%positive -> nodes (w_store w') !! x = nodes (w_store w) !! x;
  rp_others : forall m, m <> from -> w_members w' !! m = w_members w !! m;
  rp_queue : exists mb' msg M body hdr Fb Fh,
    w_members w' !! from = Some mb' /\ holds (mb_queue mb') (l ++ [msg]) /\
    msgs w' !! msg = Some M /\ m_ref_count M = 1 /\ m_type M = Some ty /\
    m_body M = Some body /\ m_hdr M = Some hdr /\
    rep false (nodes (w_store w')) None (Some body) (FCons (Some ty) FGrp doc FNil) Fb /\
    rep true (nodes (w_store w')) None (Some hdr) (FCons (Some header_name) FGrp (flat [FNum 0]) FNil) Fh
}.

(** a member that can take one more message *)
Record can_reply (w : world) (from : Z) (l : list loc) : Prop := CanReply {
  cr_errno : errno (w_store w) = 0;
  cr_fresh : fresh (w_store w);
  cr_msg : msgs w !! h_next (w_heap w) = None;
  cr_member : exists mb, w_members w !! from = Some mb /\ holds (mb_queue mb) l /\ zlen l < q_dim (mb_queue mb) - 1
}.

Section Replies.
Context (now : Z).

Lemma send_response_spec w from l d nm v kids F ty :
  can_reply w from l -> rep false (nodes (w_store w)) None (Some d) (FCons nm v kids FNil) F -> Byte.x00 ∉ ty ->
  exists w', send_response now w from (Some d) ty = Ok w' /\ replied w w' from l ty (FCons nm v kids FNil).
Proof.
  intros [He Hf Hm (mb & Hmb & Hq & Hroom)] Hr Hty.
  destruct (Message_cons_spec (w_store w) 0 d nm v kids F ty Hr ltac:(lia) Hty He Hf)
    as (hdr & body & st' & Fh & E1 & He' & _ & Hkeep & Hbody & Hrh & Hrb & _).
  unfold send_response. rewrite E1, bind_ret. unfold Message_alloc.
  rewrite (load_Some _ _ _ (Hbody : nodes (h_store (w_heap (put_store st' w))) !! body = _)), !bind_ret.
  cbn [name]. set (msg := h_next (w_heap (put_store st' w))).
  set (M := mkMessage 0 (Some ty) now 0 None (Some hdr) (Some body) 0).
  set (H1 := Message.mkHeap _ _ _). set (w1 := put_heap H1 (put_store st' w)).
  pose proof (send_spec w1 from mb l msg M He' Hmb Hq ltac:(apply lookup_insert_eq)) as Hs.
  rewrite (proj2 (Z.eqb_neq _ _)) in Hs by lia. destruct Hs as (q' & E2 & Hq' & _).
  rewrite E2, bind_ret. eexists; split; [done|]. split; [done|exact Hkeep| |].
  - intros m Hne. cbn. by rewrite lookup_insert_ne.
  - exists (set_queue q' mb), msg, (set_ref 1 M), body, hdr. do 2 eexists. split_and!; [|exact Hq'| |done|done|done|done|exact Hrb|exact Hrh].
    + cbn. apply lookup_insert_eq.
    + unfold msgs. cbn. apply lookup_insert_eq.
Qed.

(** what [Node_cons_flat] leaves of the ability to reply *)
Lemma can_reply_store w st' from l :
  can_reply w from l -> errno st' = 0 -> fresh st' -> can_reply (put_store st' w) from l.
Proof. intros [He Hf Hm Hmb] He' Hf'. by split. Qed.

(** a reply with one flat group *)
Lemma flat_reply w from l vs nm ty :
  can_reply w from l -> Forall leaf vs -> Byte.x00 ∉ nm -> Byte.x00 ∉ ty ->
  exists st' w',
    Node_cons (w_store w) ((lit "[" ++ map code vs) ++ lit "w") (map cons_arg_of vs ++ [CACstr (Some nm)])
      = Ok (Some (next (w_store w)), st') /\
    (forall x, (x < next (w_store w))%positive -> nodes st' !! x = nodes (w_store w) !! x) /\
    send_response now (put_store st' w) from (Some (next (w_store w))) ty = Ok w' /\
    replied w w' from l ty (FCons (Some nm) FGrp (flat (rev vs)) FNil).
Proof.
  intros Hc Hvs Hnm Hty. pose proof Hc as [He Hf _ _].
  destruct (Node_cons_flat (w_store w) vs nm Hvs Hnm He Hf) as (st' & F & E & Hr & He' & Hf' & [Hnx Hk] & _).
  assert (Hkeep : forall x, (x < next (w_store w))%positive -> nodes st' !! x = nodes (w_store w) !! x).
  { intros x Hx. apply Hk; lia. }
  destruct (send_response_spec (put_store st' w) from l _ _ _ _ _ ty (can_reply_store w st' from l Hc He' Hf')
              (rep_weaken _ _ _ _ _ _ Hr) Hty) as (w' & E' & [Hrt Hns Hot Hqu]).
  exists st', w'. split_and!; [done|done|done|]. split; [done| |done|done].
  intros x Hx. rewrite Hns; [by apply Hkeep|]. cbn. lia.
Qed.
End Replies.

(** [system ping] answers a number [v] with a [pong] holding the clock minus [v] modulo 2^64,
    as the last message of the sender's queue; any other value fails without a reply. *)
Theorem ping_pong now w from l p n :
  can_reply w from l -> nodes (w_store w) !! p = Some n ->
  (forall v, type n = TYPE_NUMBER -> value n = VNumber v ->
     exists w', Hub_system_ping_cb now w from (Some p) = Ok (true, w') /\
       replied w w' from l (lit "rpy") (FCons (Some (lit "pong")) FGrp (flat [FNum (u64 (now - v))]) FNil)) /\
  (type n <> TYPE_NUMBER -> Hub_system_ping_cb now w from (Some p) = Ok (false, w)).
Proof.
  intros Hc Hp. pose proof Hc as [He _ _ _]. unfold Hub_system_ping_cb.
  rewrite (load_Some _ _ _ Hp), bind_ret, check_kept, put_store_same by done. split.
  - intros v Ht Hv. rewrite bool_decide_eq_true_2 by done. cbn [negb]. rewrite Hv, bind_ret.
    destruct (flat_reply now w from l [FNum (u64 (now - v))] (lit "pong") (lit "rpy") Hc)
      as (st' & w' & E & _ & E' & Hrep); [|by apply (bool_decide_unpack _)..|].
    { constructor; [apply u64_range|constructor]. }
    change ((lit "[" ++ map code [FNum (u64 (now - v))]) ++ lit "w") with (lit "[nw") in E.
    change (map cons_arg_of [FNum (u64 (now - v))] ++ [CACstr (Some (lit "pong"))])
      with [CANum (u64 (now - v)); CACstr (Some (lit "pong"))] in E.
    rewrite E, bind_ret, E', bind_ret. eauto.
  - intros Ht. by rewrite bool_decide_eq_false_2.
Qed.

(** a member with an empty queue, and the number 7 as the message *)
Definition ping_world : world :=
  World Message.one_node ∅
    {[3 := mkMember None 0 (Message.mkQueue (replicate 4 Message.Uninit) false 0 0 4) 0 (Heap.Heap_create None)]} 4.

Lemma ping_world_can : can_reply ping_world 3 [].
Proof.
  split; [done| |done|].
  - intros x Hx. change (next (w_store ping_world)) with 2%positive in Hx. cbn.
    apply lookup_singleton_ne. lia.
  - eexists; split; [reflexivity|]. split; [apply empty_holds; cbn; done || lia|vm_compute; reflexivity].
Qed.

Lemma ping_pong_witness :
  exists w', Hub_system_ping_cb 5 ping_world 3 (Some 1%positive) = Ok (true, w') /\
    replied ping_world w' 3 [] (lit "rpy") (FCons (Some (lit "pong")) FGrp (flat [FNum (2 ^ 64 - 2)]) FNil).
Proof.
  apply (proj1 (ping_pong 5 ping_world 3 [] 1%positive _ ping_world_can eq_refl) 7 eq_refl eq_refl).
Defined.

(** ** The member commands *)

(** the word each of them answers with *)
Definition member_word (c : callback) : option bytes :=
  match c with
  | Hub_member_register => Some (lit "registered")
  | Hub_member_mendicate => Some (lit "mendicated")
  | Hub_member_invite => Some (lit "invited")
  | Hub_member_send => Some (lit "sent")
  | _ => None
  end.

(** the member commands answer every message with their word and do nothing else: there is
    no membership state and [member send] delivers to nobody. *)
Theorem member_commands_answer sort fs now peer_name root c nm w from l p f F :
  member_word c = Some nm -> can_reply w from l ->
  rep false (nodes (w_store w)) None (Some p) f F -> vals_ok f ->
  exists w', run_callback sort fs now peer_name root c w from (Some p) = Ok (true, w') /\
    replied w w' from l (lit "rpy") (FCons (Some nm) FGrp FNil FNil).
Proof.
  intros Hw Hc Hr Hok. pose proof Hc as [_ Hf _ _].
  destruct (flat_reply now w from l [] nm (lit "rpy") Hc) as (st' & w' & E & Hk & E' & Hrep);
    [by apply Forall_nil|destruct c; (discriminate Hw || injection Hw as <-); by apply (bool_decide_unpack _)|by apply (bool_decide_unpack _)|].
  assert (Hd : exists o, Node_dump st' (Some p) true = Ok o).
  { unfold Node_dump. rewrite (Node_bstr_spec false st' None p f F); [rewrite bind_ret; eauto| |done].
    eapply rep_frame; [exact Hr|]. intros x Hx. apply Hk. exact (rep_lt _ _ _ _ _ _ _ Hf Hr Hx). }
  destruct Hd as [o Hd]. exists w'. split; [|exact Hrep].
  change ((lit "[" ++ map code []) ++ lit "w") with (lit "[w") in E. cbn [map app] in E.
  destruct c; (discriminate Hw || (cbn [member_word] in Hw; injection Hw as <-)); cbn [run_callback];
    unfold Hub_member_register_cb, Hub_member_mendicate_cb, Hub_member_invite_cb, Hub_member_send_cb, word_response;
    rewrite E, bind_ret, ?Hd, bind_ret, E', bind_ret; done.
Qed.

Lemma member_commands_answer_witness :
  exists w', run_callback Heap.ref_sort (FileSystem (fun _ => inl 2) (fun _ => inl 2) (fun _ => inl 2) (fun _ => []))
               0 (fun _ => None) 1 Hub_member_invite ping_world 3 (Some 1%positive) = Ok (true, w') /\
    replied ping_world w' 3 [] (lit "rpy") (FCons (Some (lit "invited")) FGrp FNil FNil).
Proof.
  apply (member_commands_answer _ _ _ _ _ Hub_member_invite (lit "invited") ping_world 3 [] 1%positive
           (FCons None (FNum 7) FNil FNil) ({[1%positive]} ∪ ∅ ∪ ∅)); [done|exact ping_world_can|exact Message.one_node_rep|].
  cbn. repeat split; lia.
Defined.

(** ** Registering the commands *)

(** the document "[[ww" of a command: its second word inside a group named by the first *)
Definition command_nodes (l : loc) (cw rw : bytes) (ns : gmap loc Node) : gmap loc Node :=
  <[l := mkNode (Some rw) TYPE_GROUP VZero None None (@Some loc (Pos.succ l))]>
    (<[Pos.succ l := mkNode (Some cw) TYPE_GROUP VZero (Some l) None None]> ns).

Lemma Node_cons_command st cw rw :
  Byte.x00 ∉ cw -> Byte.x00 ∉ rw -> errno st = 0 ->
  Node_cons st (lit "[[ww") [CACstr (Some cw); CACstr (Some rw)]
  = Ok (Some (next st), Store (command_nodes (next st) cw rw (nodes st)) (Pos.succ (Pos.succ (next st))) 0).
Proof.
  intros Hc Hr He. unfold Node_cons. change (cstr (lit "[[ww")) with [Byte.x5b; Byte.x5b; Byte.x77; Byte.x77].
  rewrite cons_loop_open. unfold Node_new_group at 1, Node_create. rewrite bind_ret. cbv beta iota zeta.
  rewrite cons_loop_open. unfold Node_new_group, Node_create. cbn [next nodes errno].
  set (l := next st). set (k := Pos.succ l). assert (Hne : l <> k) by lia.
  rewrite (update_Some _ k (mkNode None TYPE_GROUP VZero None None None)), bind_ret by (cbn; by simplify_map_eq).
  unfold list_add_child. rewrite (load_Some _ l (mkNode None TYPE_GROUP VZero None None None)), bind_ret by (cbn; by simplify_map_eq).
  rewrite (update_Some _ k (mkNode None TYPE_GROUP VZero (Some l) None None)), bind_ret by (cbn; by simplify_map_eq).
  rewrite (update_Some _ l (mkNode None TYPE_GROUP VZero None None None)), !bind_ret by (cbn; by simplify_map_eq).
  cbn [set_nodes nodes next errno set_parent set_sibling set_child name type value parent sibling child].
  rewrite (cons_loop_word cw _ _ _ _ k (mkNode None TYPE_GROUP VZero (Some l) None None) (Some l)); [|done|done|cbn; by simplify_map_eq|done].
  rewrite (cons_loop_word rw _ _ _ _ l (mkNode None TYPE_GROUP VZero None None (Some k)) None); [|done|done|cbn; by simplify_map_eq|done].
  cbn [cons_loop]. rewrite bind_ret. cbv beta iota. rewrite assert_true, bind_ret by done. unfold rename. cbn [nodes next errno]. rewrite ?He. do 2 f_equal. unfold set_nodes. cbn [next errno nodes]. rewrite ?He. f_equal.
  apply map_eq. intros x. unfold command_nodes, rename. cbn. fold k.
  destruct (decide (x = l)) as [->|]; [by simplify_map_eq|]. destruct (decide (x = k)) as [->|]; by simplify_map_eq.
Qed.

Section Command.
Context (st : store) (cw rw : bytes).
Context (Hcw : Byte.x00 ∉ cw) (Hrw : Byte.x00 ∉ rw) (Hat : bchar (Some cw) 0 <> Byte.x40) (Hf : fresh st).

(** the store while a command is registered *)
Definition command_store : store := Store (command_nodes (next st) cw rw (nodes st)) (Pos.succ (Pos.succ (next st))) 0.

Lemma command_child : nodes command_store !! Pos.succ (next st) = Some (mkNode (Some cw) TYPE_GROUP VZero (Some (next st)) None None).
Proof. cbn. unfold command_nodes. rewrite lookup_insert_ne by lia. apply lookup_insert_eq. Qed.

Lemma command_group : nodes command_store !! next st = Some (mkNode (Some rw) TYPE_GROUP VZero None None (@Some loc (Pos.succ (next st)))).
Proof. apply lookup_insert_eq. Qed.

Lemma command_spells : spells command_store (next st) [rw; cw].
Proof.
  split; [done|]. exists rw, [cw], [(Pos.succ (next st), mkNode (Some cw) TYPE_GROUP VZero (Some (next st)) None None)]. split_and!; [done|eexists; split_and!; [exact command_group|done|done]| |done|].
  - unfold children_of. rewrite (load_Some _ _ _ command_group), bind_ret. cbn [child].
    assert (exists k, size (nodes command_store) = S k) as [k ->].
    { destruct (size (nodes command_store)) eqn:E; [|eauto]. apply map_size_empty_inv in E. pose proof command_group as H. by rewrite E, lookup_empty in H. }
    cbn [siblings]. rewrite (load_Some _ _ _ command_child), bind_ret. cbn [sibling]. by rewrite bind_ret.
  - unfold words. rewrite filter_cons. cbn [snd]. rewrite decide_True; [|].
    + constructor; [|constructor]. eexists. split_and!; [exact command_child|done|done].
    + unfold is_word_group. cbn [type name]. rewrite !bool_decide_eq_true_2, bool_decide_eq_false_2 by done. done.
Qed.

Lemma command_destroy : Node_destroy command_store (Some (next st)) = Ok (Store (nodes st) (next command_store) 0).
Proof.
  rewrite (Node_destroy_rep true command_store None (Some (next st)) (FCons (Some rw) FGrp (FCons (Some cw) FGrp FNil FNil) FNil)
    ({[next st]} ∪ ({[Pos.succ (next st)]} ∪ ∅ ∪ ∅) ∪ ∅)).
  - unfold set_nodes. do 2 f_equal. apply map_eq. intros x. rewrite lookup_drop_nodes. case_decide as Hx.
    + symmetry. apply Hf. set_solver by lia.
    + cbn. unfold command_nodes. rewrite !lookup_insert_ne by set_solver. done.
  - refine (rep_cons true (nodes command_store) _ (next st) _ FGrp _ _ _ _ command_group eq_refl eq_refl (fun _ => eq_refl) _ (rep_nil _ _ _) _ _ _);
      [|set_solver by lia..].
    refine (rep_cons true (nodes command_store) _ (Pos.succ (next st)) _ FGrp _ _ _ _ command_child eq_refl eq_refl (fun _ => eq_refl) (rep_nil _ _ _) (rep_nil _ _ _) _ _ _);
      set_solver.
  - cbn. lia.
Qed.
End Command.


(** the table is ready for a registration below [root] *)
Record ready (w : world) (root : Z) : Prop := Ready {
  rd_routes : routes_ok w;
  rd_tree : tree_like (w_routes w);
  rd_root : is_Some (w_routes w !! root);
  rd_errno : errno (w_store w) = 0;
  rd_fresh : fresh (w_store w)
}.

(** the path [rw] [cw] leads to a route that calls [c] *)
Definition calls (rs : gmap Z Route) (root : Z) (rw cw : bytes) (c : callback) : Prop :=
  exists q r, reach rs root [rw; cw] q /\ rs !! q = Some r /\ r_is_internal_callback r = true /\ r_callback r = code_of c.

(** different paths lead to different routes *)
Lemma reach_two_inj rs p a b a' b' q : tree_like rs -> reach rs p [a; b] q -> reach rs p [a'; b'] q -> a = a' /\ b = b'.
Proof.
  intros Ht H1 H2. inversion H1 as [|? ? c ? ? Hc Hq]; subst. inversion Hq as [|? ? q1 ? ? Hq1 Hn]; subst. inversion Hn; subst.
  inversion H2 as [|? ? c' ? ? Hc' Hq']; subst. inversion Hq' as [|? ? q2 ? ? Hq2 Hn']; subst. inversion Hn'; subst.
  destruct Hq1 as (r & Hr & Hin & E1), Hq2 as (r' & Hr' & Hin' & E2).
  assert (c' = c) as -> by (by apply (fo_parent _ _ _ (Ht c r Hr) c' r' q)).
  destruct Hc as (? & _ & _ & E3), Hc' as (? & _ & _ & E4). split; congruence.
Qed.

Lemma same_shape_tree rs rs' : same_shape rs rs' -> tree_like rs -> tree_like rs'.
Proof.
  intros Hs Ht p r' Hp. destruct (same_shape_lookup _ _ p r' Hs Hp) as (r & Hr & [= _ Hk]). destruct (Ht p r Hr) as [N A P].
  unfold kids in *. rewrite Hk in *. split; [done|done|]. intros p' x' c Hp' Hc Hc'.
  destruct (same_shape_lookup _ _ p' x' Hs Hp') as (x & Hx & [= _ Hk']). apply (P p' x c Hx Hc). by rewrite Hk'.
Qed.

Lemma reach_live w p nms q : routes_ok w -> is_Some (w_routes w !! p) -> reach (w_routes w) p nms q -> is_Some (w_routes w !! q).
Proof. intros Hok Hp Hr. induction Hr as [|p nm c nms q Hc _ IH]; [done|]. apply IH. by apply (has_child_live w p nm). Qed.

Section Register.
Context (sort : Heap.compare_fn -> list Z -> list Z) `{!Heap.ArraySort sort} (root : Z).

(** what one registration does to the table *)
Record registers (w w' : world) (rw cw : bytes) (c : callback) : Prop := Registers {
  rg_ready : ready w' root;
  rg_nodes : nodes (w_store w') = nodes (w_store w);
  rg_members : w_members w' = w_members w;
  rg_next : w_next w <= w_next w' <= w_next w + ROUTE_MAX_PATH;
  rg_reach : forall p nms q, reach (w_routes w) p nms q -> reach (w_routes w') p nms q;
  rg_calls : calls (w_routes w') root rw cw c;
  rg_others : forall rw' cw' c', (rw', cw') <> (rw, cw) -> calls (w_routes w) root rw' cw' c' -> calls (w_routes w') root rw' cw' c';
  rg_only : forall q r', w_routes w' !! q = Some r' -> r_is_internal_callback r' = true ->
    reach (w_routes w') root [rw; cw] q \/ exists r, w_routes w !! q = Some r /\ r_is_internal_callback r = true
}.

(** the table after the route [q] was made or found, and given a callback *)
Lemma set_callback_registers w w1 st2 q rw cw c :
  ready w root -> routes_ok w1 -> tree_like (w_routes w1) -> grows (w_routes w) (w_routes w1) ->
  reach (w_routes w1) root [rw; cw] q -> w_members w1 = w_members w -> only_new w w1 ->
  w_next w1 <= w_next w + ROUTE_MAX_PATH -> errno st2 = 0 -> fresh st2 -> nodes st2 = nodes (w_store w) ->
  forall r, w_routes w1 !! q = Some r ->
  registers w (put_store st2 (put_route q (set_callback (code_of c) r) w1)) rw cw c.
Proof.
  intros [Hok Ht [rr Hr] _ _] Hok1 Ht1 Hg Hq Hm (Hn & _ & Hnew) Hmax He Hf Hns r Hqr. set (w2 := put_store st2 _).
  assert (Hsh : same_shape (w_routes w1) (w_routes w2)) by (by apply same_shape_insert with r).
  assert (Hq2 : reach (w_routes w2) root [rw; cw] q) by (by apply (same_shape_reach _ _ _ _ _ Hsh)).
  assert (Hup : forall p nms x, reach (w_routes w) p nms x -> reach (w_routes w2) p nms x).
  { intros p nms x Hx. apply (same_shape_reach _ _ _ _ _ Hsh). by apply (reach_grows w). }
  destruct (Hg root rr Hr) as (rr1 & Hr1 & _). destruct (same_shape_lookup _ _ root rr1 (same_shape_sym _ _ Hsh) Hr1) as (rr2 & Hr2 & _).
  split; [split; [by apply (same_shape_ok w1)|by apply (same_shape_tree (w_routes w1))|by eexists|done|done]|done|done|done|done| | |].
  - exists q, (set_callback (code_of c) r). split_and!; [done|apply lookup_insert_eq|done|done].
  - intros rw' cw' c' Hne (x & rx & Hx & Hrx & Hi & Hc). destruct (Hg x rx Hrx) as (rx1 & Hrx1 & _ & _ & Hi1 & Hc1 & _).
    assert (x <> q). { intros ->. destruct (reach_two_inj (w_routes w1) root rw' cw' rw cw q Ht1) as [-> ->]; [by apply (reach_grows w)|done|done]. }
    exists x, rx1. split_and!; [by apply Hup|by cbn; rewrite lookup_insert_ne|congruence|congruence].
  - intros x r'. destruct (decide (x = q)) as [->|Hne]; [by left|]. cbn. rewrite lookup_insert_ne by done. intros Hx Hi. right.
    destruct (Hnew x r' Hx) as [[r0 Hr0]|(_ & Hf0 & _)]; [|congruence]. destruct (Hg x r0 Hr0) as (r1 & Hr1' & _ & _ & Hi1 & _).
    exists r0. split; [done|]. congruence.
Qed.

(** a word that can name the second step of a path *)
Definition command_words (cw rw : bytes) : Prop := (Byte.x00 ∉ cw) /\ (Byte.x00 ∉ rw) /\ bchar (Some cw) 0 <> Byte.x40.

Lemma register_step w cw rw c regs :
  ready w root -> command_words cw rw -> w_next w + ROUTE_MAX_PATH <= Heap.MAX_COUNT ->
  exists w', register_loop sort root w (mkReg cw rw c :: regs) = register_loop sort root w' regs /\ registers w w' rw cw c.
Proof.
  intros Hrd (Hcw & Hrw & Hat) Hmax. pose proof Hrd as [Hok Ht [rr Hr] He Hf]. cbn [register_loop reg_child reg_root reg_callback].
  rewrite Node_cons_command, bind_ret by done. cbv beta iota. fold (command_store (w_store w) cw rw).
  set (s1 := command_store (w_store w) cw rw). rewrite check_clean, bool_decide_eq_true_2 by done. cbn [negb].
  destruct (extend_spec sort (put_store s1 w) root rr (next (w_store w)) [rw; cw]) as (q & w1 & E & Hok1 & Hg & Hq & [r Hqr] & Hs & Hm & Ho & Hn);
    [done|done|by apply command_spells|done|].
  unfold Route_register_callback. rewrite E, bind_ret. assert (He1 : errno (w_store w1) = 0) by (by rewrite Hs).
  rewrite check_kept, put_store_same, bool_decide_eq_true_2 by done. cbn [negb]. unfold get_route. rewrite Hqr. cbn [need]. rewrite !bind_ret.
  set (w2 := put_route q _ w1). change (w_store w2) with (w_store w1). rewrite check_clean by done. cbn [negb]. rewrite Hs.
  change (w_store (put_store s1 w)) with s1. unfold s1. rewrite command_destroy, bind_ret by done.
  eexists. split; [done|]. apply set_callback_registers; [done|done|by apply (proj1 (proj2 Ho))|done|done|done|exact Ho|done|done| |done|done].
  intros x Hx. apply Hf. cbn in Hx. lia.
Qed.

Abbreviation path := (fun reg => (reg_root reg, reg_child reg)).

(** all of them *)
Lemma register_all regs : forall w,
  ready w root -> Forall (fun reg => command_words (reg_child reg) (reg_root reg)) regs -> NoDup (map path regs) ->
  w_next w + ROUTE_MAX_PATH * zlen regs <= Heap.MAX_COUNT ->
  exists w', register_loop sort root w regs = Ok (true, w') /\ ready w' root /\ nodes (w_store w') = nodes (w_store w) /\
    w_members w' = w_members w /\ (forall p nms q, reach (w_routes w) p nms q -> reach (w_routes w') p nms q) /\
    (forall reg, reg ∈ regs -> calls (w_routes w') root (reg_root reg) (reg_child reg) (reg_callback reg)) /\
    (forall rw cw c, (rw, cw) ∉ map path regs -> calls (w_routes w) root rw cw c -> calls (w_routes w') root rw cw c) /\
    (forall q r', w_routes w' !! q = Some r' -> r_is_internal_callback r' = true ->
      (exists reg, reg ∈ regs /\ reach (w_routes w') root [reg_root reg; reg_child reg] q) \/
      exists r, w_routes w !! q = Some r /\ r_is_internal_callback r = true).
Proof.
  induction regs as [|[cw rw c] regs IH]; intros w Hrd Hw Hnd Hmax.
  { exists w. split_and!; [done|done|done|done|done| |done|]; [intros reg Hin; by apply elem_of_nil in Hin|eauto]. }
  apply list.Forall_cons in Hw as [Hw1 Hw]. cbn [map reg_root reg_child] in Hnd. apply list.NoDup_cons in Hnd as [Hni Hnd].
  rewrite zlen_cons in Hmax. pose proof (zlen_nonneg regs). unfold ROUTE_MAX_PATH in *.
  destruct (register_step w cw rw c regs Hrd Hw1) as (w1 & -> & [Hrd1 Hn1 Hm1 Hx1 Hr1 Hc1 Ho1 Hi1]); [unfold ROUTE_MAX_PATH; lia|].
  unfold ROUTE_MAX_PATH in *. destruct (IH w1 Hrd1 Hw Hnd) as (w2 & E & Hrd2 & Hn2 & Hm2 & Hr2 & Hc2 & Ho2 & Hi2); [lia|].
  exists w2. split_and!; [done|done|congruence|congruence|auto| | |].
  - intros reg Hin. apply elem_of_cons in Hin as [->|Hin]; [|by apply Hc2]. by apply Ho2.
  - intros rw' cw' c'. cbn [map reg_root reg_child]. rewrite not_elem_of_cons. intros [Hne Hnin] Hcl. by apply Ho2, Ho1.
  - intros q r' Hq Hi. destruct (Hi2 q r' Hq Hi) as [(reg & Hin & Hre)|(r & Hr & Hir)]; [left; exists reg; split; [by right|done]|].
    destruct (Hi1 q r Hr Hir) as [Hre|He]; [|by right]. left. exists (mkReg cw rw c). split; [by left|]. by apply Hr2.
Qed.
End Register.

(** ** Service *)

(** a message whose path leads to a callback is handed to it, and its failure is a failure of the service *)
Lemma service_calls sort fs now peer_name root w msg M d rw cw c p :
  routes_ok w -> is_Some (w_routes w !! root) -> calls (w_routes w) root rw cw c ->
  h_msgs (w_heap w) !! msg = Some M -> Message.m_data M = Some d -> spells (w_store w) d [rw; cw] ->
  extract_message w msg = Ok (Some p) ->
  Hub_service_message sort fs now peer_name root w msg
  = ('(rc, w') ← run_callback sort fs now peer_name root c w (Message.m_from M) (Some p);
     let '(ok, st) := check (w_store w') rc in
     let w' := put_store st w' in
     if ok : bool then Ok (true, w') else H ← Message.Message_ref_inc (w_heap w') msg; Ok (false, put_heap H w')).
Proof.
  intros Hok [rr Hr] (q & r & Hq & Hqr & Hi & Hc) HM Hd Hsp Hx. unfold Hub_service_message, Message.get_msg. rewrite HM. cbn [need]. rewrite bind_ret, Hd.
  rewrite (find_spelled w root rr d [rw; cw] q) by done. rewrite bind_ret, check_kept, put_store_same by apply Hsp.
  rewrite bool_decide_eq_true_2 by done. cbn [negb]. unfold get_route. rewrite Hqr. cbn [need]. rewrite bind_ret, Hi, Hx, bind_ret.
  rewrite check_kept, put_store_same by apply Hsp. rewrite bool_decide_eq_true_2 by done. cbn [negb]. rewrite Hc.
  assert (callback_at (code_of c) = Some c) as -> by (by destruct c). cbn [need]. rewrite bind_ret.
  destruct (run_callback _ _ _ _ _ _ _ _ _) as [[rc w']|]; [|done]. rewrite !bind_ret. destruct (check (w_store w') rc) as [[] st]; done.
Qed.

(** the commands of the hub, by the words of their paths *)
Definition command_of (rw cw : bytes) : option callback :=
  let same (s t : bytes) := bool_decide (s = t) in
  if same rw (lit "route") then
    if same cw (lit "register") then Some Hub_route_register else if same cw (lit "unregister") then Some Hub_route_unregister
    else if same cw (lit "members") then Some Hub_route_members else if same cw (lit "children") then Some Hub_route_children else None
  else if same rw (lit "member") then
    if same cw (lit "register") then Some Hub_member_register else if same cw (lit "mendicate") then Some Hub_member_mendicate
    else if same cw (lit "invite") then Some Hub_member_invite else if same cw (lit "send") then Some Hub_member_send else None
  else if same rw (lit "info") then
    if same cw (lit "get") then Some Hub_info_get else if same cw (lit "list") then Some Hub_info_list
    else if same cw (lit "tag") then Some Hub_info_tag else None
  else if same rw (lit "system") then if same cw (lit "ping") then Some Hub_system_ping else None
  else None.

(** the table the code registers holds these and nothing else *)
Lemma registrations_commands rw cw c : mkReg cw rw c ∈ registrations <-> command_of rw cw = Some c.
Proof.
  split.
  - intros H. assert (Hall : Forall (fun reg => command_of (reg_root reg) (reg_child reg) = Some (reg_callback reg)) registrations)
      by (repeat constructor). rewrite list.Forall_forall in Hall. exact (Hall _ H).
  - unfold command_of. repeat case_bool_decide; subst; intros [= <-]; repeat (first [by left|right]).
Qed.

Lemma registrations_words : Forall (fun reg => command_words (reg_child reg) (reg_root reg)) registrations.
Proof. repeat constructor; try done; apply (bool_decide_unpack _); vm_compute; exact I. Qed.

Lemma registrations_paths : NoDup (map (fun reg => (reg_root reg, reg_child reg)) registrations).
Proof. apply (bool_decide_unpack _). vm_compute. exact I. Qed.

(** C30: the hub registers its commands and dispatches by them.  For any sort that sorts, and any routing
    table below whose root twelve more paths fit, [Hub_commands_register] succeeds, leaves no node behind and keeps every
    path that was there; afterwards the routes with a callback are those of [command_of], and those there
    were before; and whenever a message arrives whose path is the two words of a command, [Hub_service_message] runs the
    callback [command_of] names, on the sender and the body of the message, and fails exactly
    when the callback does. *)
Theorem commands_dispatch sort `{!Heap.ArraySort sort} w root :
  ready w root -> w_next w + 12 * ROUTE_MAX_PATH <= Heap.MAX_COUNT ->
  exists w1, Hub_commands_register sort root w = Ok (true, w1) /\ ready w1 root /\
    nodes (w_store w1) = nodes (w_store w) /\ w_members w1 = w_members w /\
    (forall p nms q, reach (w_routes w) p nms q -> reach (w_routes w1) p nms q) /\
    (forall q r', w_routes w1 !! q = Some r' -> r_is_internal_callback r' = true ->
      (exists rw cw c, command_of rw cw = Some c /\ reach (w_routes w1) root [rw; cw] q) \/
      exists r, w_routes w !! q = Some r /\ r_is_internal_callback r = true) /\
    (forall fs now peer_name w2 msg M d rw cw c p,
      command_of rw cw = Some c -> routes_ok w2 -> w_routes w2 = w_routes w1 ->
      h_msgs (w_heap w2) !! msg = Some M -> Message.m_data M = Some d -> spells (w_store w2) d [rw; cw] ->
      extract_message w2 msg = Ok (Some p) ->
      Hub_service_message sort fs now peer_name root w2 msg
      = ('(rc, w') ← run_callback sort fs now peer_name root c w2 (Message.m_from M) (Some p);
         let '(ok, st) := check (w_store w') rc in
         let w' := put_store st w' in
         if ok : bool then Ok (true, w') else H ← Message.Message_ref_inc (w_heap w') msg; Ok (false, put_heap H w'))).
Proof.
  intros Hrd Hmax. destruct (register_all sort root registrations w Hrd registrations_words registrations_paths)
    as (w1 & E & Hrd1 & Hn & Hm & Hre & Hc & _ & Hi); [change (zlen registrations) with 12; lia|].
  exists w1. split_and!; [done|done|done|done|done| |].
  - intros q r' Hq Hir. destruct (Hi q r' Hq Hir) as [([cw rw c] & Hin & Hr)|Hr]; [|by right].
    left. exists rw, cw, c. split; [by apply registrations_commands|done].
  - intros fs now peer_name w2 msg M d rw cw c p Hcmd Hok Hrs HM Hd Hsp Hx. apply (service_calls _ _ _ _ _ _ _ _ d rw cw); try done.
    + rewrite Hrs. apply Hrd1.
    + rewrite Hrs. by apply (Hc (mkReg cw rw c)), registrations_commands.
Qed.

(** the root of a new table, and a message "[ [ 7 ] ping system" to it *)
Definition ping_store : store :=
  Store {[1%positive := mkNode (Some (lit "system")) TYPE_GROUP VZero None None (Some 2%positive);
          2%positive := mkNode (Some (lit "ping")) TYPE_GROUP VZero (Some 1%positive) None (Some 3%positive);
          3%positive := mkNode None TYPE_NUMBER (VNumber 7) (Some 2%positive) None None]} 4%positive 0.

Definition new_hub : world :=
  World (Message.mkHeap ping_store {[1%positive := mkMessage 0 None 0 3 (Some 1%positive) None None 0]} 2%positive)
    {[1 := new_route (lit "root")]} (w_members ping_world) 4.

Lemma new_hub_ready : ready new_hub 1.
Proof.
  assert (Hk : forall p r, w_routes new_hub !! p = Some r -> p = 1 /\ r = new_route (lit "root")) by (intros p r; cbn; by rewrite lookup_singleton_Some; intros [<- <-]).
  split; [| |by eexists|done|].
  - split; [done|]. intros p r [-> ->]%Hk. constructor; [cbn; lia| | | |cbn; lia|].
    + eexists; split; [done|]. apply (bool_decide_unpack _). vm_compute. exact I.
    + apply (Heap.create_wf _ (Some (Route_children_compare _ None))).
    + intros c Hc. by apply elem_of_nil in Hc.
    + intros c c' Hc. by apply elem_of_nil in Hc.
  - intros p r [-> ->]%Hk. split; [by apply base.NoDup_nil_2|intros c Hc; by apply elem_of_nil in Hc|intros ? ? c _ Hc; by apply elem_of_nil in Hc].
  - intros x Hx. cbn in *. rewrite !lookup_insert_ne, lookup_singleton_ne by lia. done.
Qed.

Lemma commands_dispatch_witness :
  exists w1, Hub_commands_register Heap.ref_sort 1 new_hub = Ok (true, w1) /\
    let w2 := World (w_heap new_hub) (w_routes w1) (w_members new_hub) (w_next w1) in
    forall fs, Hub_service_message Heap.ref_sort fs 9 (fun _ => None) 1 w2 1%positive
    = ('(rc, w') ← Hub_system_ping_cb 9 w2 3 (Some 3%positive);
       let '(ok, st) := check (w_store w') rc in
       let w' := put_store st w' in
       if ok : bool then Ok (true, w') else H ← Message.Message_ref_inc (w_heap w') 1%positive; Ok (false, put_heap H w')).
Proof.
  destruct (commands_dispatch Heap.ref_sort new_hub 1 new_hub_ready) as (w1 & E & Hrd & _ & _ & _ & _ & Hs); [vm_compute; congruence|].
  exists w1. split; [exact E|]. intros w2 fs.
  assert (Hsp : spells (w_store w2) 1%positive [lit "system"; lit "ping"]).
  { split; [reflexivity|].
    exists (lit "system"), [lit "ping"], [(2%positive, mkNode (Some (lit "ping")) TYPE_GROUP VZero (Some 1%positive) None (Some 3%positive))].
    split_and!; [done| |vm_compute; reflexivity|done|].
    - eexists. split_and!; [reflexivity|reflexivity|]. apply (bool_decide_unpack _). vm_compute. exact I.
    - constructor; [|constructor]. eexists. split_and!; [reflexivity|reflexivity|]. apply (bool_decide_unpack _). vm_compute. exact I. }
  assert (Hc : command_of (lit "system") (lit "ping") = Some Hub_system_ping) by (vm_compute; reflexivity).
  assert (Hx : extract_message w2 1%positive = Ok (Some 3%positive)) by (vm_compute; reflexivity).
  exact (Hs fs 9 (fun _ => None) w2 1%positive (mkMessage 0 None 0 3 (Some 1%positive) None None 0) 1%positive (lit "system") (lit "ping")
           Hub_system_ping 3%positive Hc (rd_routes w1 1 Hrd) eq_refl eq_refl eq_refl Hsp Hx).
Defined.

End CommandsProps.
