(* ===== verification/Connection.v ===== *)
(** * Connection: the state machine of a client connection

    [src/src/hub/connection.c], [src/src/hub/connection_state.c] and the data of
    [src/src/hub/hub.h].  An event runs the generated machine: the transition sets the
    state, then the actions run in order.  Two calls inside an action give up the
    processor: [Peer_establish_receiver] waits for the network, and [Member_logout]
    yields.  There the execution of an event is cut in two: what is left to do is a list
    of [micro] steps, which is resumed later.  Connections live at addresses, so that the
    list of closed ones is the linked list of the source. *)

From Stdlib Require Import ZArith Lia.
From S2P Require Import Prelude Cstdlib Ragel Node Heap Message Routing Members Commands.
Import Cstdlib Ragel Node Routing Members Commands.
Import Message(heap, set_store, set_msg, get_msg, m_msgid, m_from, Message_decons, Message_destroy, Message_ref_inc,
  mkMessage, m_type, m_received_at, m_data, m_hdr, m_body, m_ref_count).
Local Open Scope Z_scope.

Module Connection.

(** ** Data *)

Record ConnectionState := mkConn {
  cs : Z;
  recv_count : Z;
  send_count : Z;
  client : option Z;
  next : option Z;
  peer : option Z;
  member : option Z;
  recv_body : option loc;
  recv_hdr : option loc;
  recv_msg : option loc;
  send_msg : option loc
}.

(** what [calloc] or [memset] gives *)
Definition zero_conn : ConnectionState := mkConn 0 0 0 None None None None None None None None.

Definition set_cs (x : Z) (c : ConnectionState) : ConnectionState :=
  mkConn x (recv_count c) (send_count c) (client c) (next c) (peer c) (member c) (recv_body c) (recv_hdr c) (recv_msg c) (send_msg c).
Definition set_recv_count (x : Z) (c : ConnectionState) : ConnectionState :=
  mkConn (cs c) x (send_count c) (client c) (next c) (peer c) (member c) (recv_body c) (recv_hdr c) (recv_msg c) (send_msg c).
Definition set_send_count (x : Z) (c : ConnectionState) : ConnectionState :=
  mkConn (cs c) (recv_count c) x (client c) (next c) (peer c) (member c) (recv_body c) (recv_hdr c) (recv_msg c) (send_msg c).
Definition set_client (x : option Z) (c : ConnectionState) : ConnectionState :=
  mkConn (cs c) (recv_count c) (send_count c) x (next c) (peer c) (member c) (recv_body c) (recv_hdr c) (recv_msg c) (send_msg c).
Definition set_next (x : option Z) (c : ConnectionState) : ConnectionState :=
  mkConn (cs c) (recv_count c) (send_count c) (client c) x (peer c) (member c) (recv_body c) (recv_hdr c) (recv_msg c) (send_msg c).
Definition set_peer (x : option Z) (c : ConnectionState) : ConnectionState :=
  mkConn (cs c) (recv_count c) (send_count c) (client c) (next c) x (member c) (recv_body c) (recv_hdr c) (recv_msg c) (send_msg c).
Definition set_member (x : option Z) (c : ConnectionState) : ConnectionState :=
  mkConn (cs c) (recv_count c) (send_count c) (client c) (next c) (peer c) x (recv_body c) (recv_hdr c) (recv_msg c) (send_msg c).
Definition set_recv (b h m : option loc) (c : ConnectionState) : ConnectionState :=
  mkConn (cs c) (recv_count c) (send_count c) (client c) (next c) (peer c) (member c) b h m (send_msg c).
Definition set_send (m : option loc) (c : ConnectionState) : ConnectionState :=
  mkConn (cs c) (recv_count c) (send_count c) (client c) (next c) (peer c) (member c) (recv_body c) (recv_hdr c) (recv_msg c) m.

(** the fields of the hub that its own machine uses *)
Record Hub := mkHub {
  h_cs : Z;
  h_host : option bytes;
  h_port : option bytes;
  h_name : option bytes;
  h_key : option bytes;
  h_server : option Z;
  h_routes : Z
}.

(** the hub with its members and closed connections, and the resources in use *)
Record hubw (T : Type) := HubW {
  g_hub : Hub;
  g_world : world;
  g_members : T;
  g_closed : option Z;
  g_conns : gmap Z ConnectionState;
  g_clients : gset Z;
  g_peers : gset Z
}.
Arguments HubW {T}.
Arguments g_hub {T}.
Arguments g_world {T}.
Arguments g_members {T}.
Arguments g_closed {T}.
Arguments g_conns {T}.
Arguments g_clients {T}.
Arguments g_peers {T}.

Section Setters.
Context {T : Type}.
Implicit Types g : hubw T.

Definition put_hub (h : Hub) g := HubW h (g_world g) (g_members g) (g_closed g) (g_conns g) (g_clients g) (g_peers g).
Definition put_world (w : world) g := HubW (g_hub g) w (g_members g) (g_closed g) (g_conns g) (g_clients g) (g_peers g).
Definition put_members (t : T) g := HubW (g_hub g) (g_world g) t (g_closed g) (g_conns g) (g_clients g) (g_peers g).
Definition put_closed (c : option Z) g := HubW (g_hub g) (g_world g) (g_members g) c (g_conns g) (g_clients g) (g_peers g).
Definition put_conn (c : Z) (x : ConnectionState) g :=
  HubW (g_hub g) (g_world g) (g_members g) (g_closed g) (<[c := x]> (g_conns g)) (g_clients g) (g_peers g).
Definition put_clients (s : gset Z) g := HubW (g_hub g) (g_world g) (g_members g) (g_closed g) (g_conns g) s (g_peers g).
Definition put_peers (s : gset Z) g := HubW (g_hub g) (g_world g) (g_members g) (g_closed g) (g_conns g) (g_clients g) s.

Definition get_conn g (c : Z) : res ConnectionState := need BadPointer (g_conns g !! c).
Definition update_conn g (c : Z) (f : ConnectionState -> ConnectionState) : res (hubw T) :=
  x ← get_conn g c; Ok (put_conn c (f x) g).
End Setters.

(** ** The generated tables *)

Definition connection_tables : tables := {|
  t_actions := [0; 1; 2; 1; 3; 1; 4; 1; 5; 1; 6; 1; 8; 1; 10; 1; 14; 1; 15; 1; 16; 1; 17; 1;
                18; 1; 19; 1; 20; 1; 21; 2; 0; 1; 2; 12; 20; 2; 13; 8; 3; 11; 9; 7];
  t_key_offsets := [0; 0; 1; 4; 7; 10; 13; 18; 19; 20; 22; 24; 24; 26; 27];
  t_trans_keys := [79; 80; 114; 119; 49; 114; 119; 49; 114; 119; 49; 114; 119; 72; 81; 82;
                   114; 119; 104; 98; 86; 118; 48; 101; 114; 119; 115; 0];
  t_single_lengths := [0; 1; 3; 3; 3; 3; 5; 1; 1; 2; 2; 0; 2; 1; 0];
  t_range_lengths := [0; 0; 0; 0; 0; 0; 0; 0; 0; 0; 0; 0; 0; 0; 0];
  t_index_offsets := [0; 0; 2; 6; 10; 14; 18; 24; 26; 28; 31; 34; 35; 38; 40];
  t_indicies := Some [1; 0; 2; 3; 3; 0; 4; 3; 3; 0; 5; 3; 3; 0; 6; 3;
                      3; 0; 7; 8; 9; 3; 3; 0; 10; 0; 11; 0; 12; 13; 0; 14;
                      15; 0; 16; 17; 17; 0; 18; 0; 0; 0];
  t_trans_targs := [0; 2; 3; 12; 4; 5; 6; 7; 10; 13; 8; 9; 6; 6; 11; 6; 12; 14; 6];
  t_trans_actions := [25; 31; 1; 27; 3; 5; 7; 15; 13; 9; 17; 19; 21; 23; 11; 37; 34; 29; 40]
|}.

Definition ConnectionState_start : Z := 1.
Definition ConnectionState_first_final : Z := 14.
Definition ConnectionState_error : Z := 0.
Definition Aborting : Z := 11.

(** the events of [hub.h] *)
Inductive HubEvent :=
  | UEv_OPEN | UEv_CLOSE | UEv_KEY_PRESENT | UEv_PASS | UEv_FAIL | UEv_SVC_RECV | UEv_MSG_SENT | UEv_MSG_QUEUED
  | UEv_MSG_RECV | UEv_HATE_APPLY | UEv_HATE_CHALLENGE | UEv_HATE_PAID | UEv_HATE_VALID | UEv_HATE_INVALID
  | UEv_LISTEN | UEv_GEN_KEY | UEv_GEN_KEY_DONE | UEv_KEY_FILE_LOAD | UEv_DONE | UEv_READ_CLOSE | UEv_WRITE_CLOSE.

Definition event_char (e : HubEvent) : Z :=
  match e with
  | UEv_OPEN => 79 | UEv_CLOSE => 67 | UEv_KEY_PRESENT => 80 | UEv_PASS => 49 | UEv_FAIL => 48 | UEv_SVC_RECV => 115
  | UEv_MSG_SENT => 101 | UEv_MSG_QUEUED => 81 | UEv_MSG_RECV => 82 | UEv_HATE_APPLY => 72 | UEv_HATE_CHALLENGE => 104
  | UEv_HATE_PAID => 98 | UEv_HATE_VALID => 86 | UEv_HATE_INVALID => 118 | UEv_LISTEN => 76 | UEv_GEN_KEY => 75
  | UEv_GEN_KEY_DONE => 107 | UEv_KEY_FILE_LOAD => 70 | UEv_DONE => 68 | UEv_READ_CLOSE => 114 | UEv_WRITE_CLOSE => 119
  end.

(** ** The functions *)

(** what is left of the actions of an event *)
Inductive micro :=
  | Act (id : Z)
  | TuneEnd        (* [Peer_establish_receiver] is running *)
  | LogoutEnd      (* after the [taskyield] of [Member_logout] *)
  | RestClose.     (* the second half of the error action *)

(** how an action ends: the next one, [goto _again] in another state, or inside a call
    that gives up the processor, with the steps left of this action *)
Inductive step := Next | Again (cs : Z) | Blocked (todo : list micro).

(** the outside world, as far as the connection asks it directly *)
Record outside := Outside {
  o_sort : Heap.compare_fn -> list Z -> list Z;
  o_memcmp : bytes -> bytes -> nat -> Z;
  o_fs : file_system;
  o_now : Z;
  o_peer_name : Z -> option bytes;
  o_peer_key : Z -> option bytes;      (* [CryptState_export_key(peer->state, CRYPT_THEIR_KEY, PK_PUBLIC)] *)
  o_new_peer : Z                       (* the next [Peer] that is allocated *)
}.

Section Machine.
Context {T : Type} `{!MemberTree T} (o : outside).
Implicit Types g : hubw T.

Definition ConnectionState_done (x : ConnectionState) : bool :=
  (cs x =? ConnectionState_error) || (cs x =? ConnectionState_first_final).

Definition ConnectionState_invariant (x : ConnectionState) : Z :=
  if cs x =? ConnectionState_error then -1
  else if ConnectionState_first_final <=? cs x then 1 else 0.

Definition ConnectionState_init g (c : Z) : res (hubw T) :=
  x ← get_conn g c;
  _ ← assert_ (bool_decide (next x = None));
  Ok (put_conn c (set_cs ConnectionState_start x) g).

(** [server_destroy_client]: of the library, here the client is gone *)
Definition server_destroy_client g (k : Z) : res (hubw T) :=
  if bool_decide (k ∈ g_clients g) then Ok (put_clients (g_clients g ∖ {[k]}) g) else Fault BadPointer.

Definition Peer_destroy g (p : Z) : res (hubw T) :=
  if bool_decide (p ∈ g_peers g) then Ok (put_peers (g_peers g ∖ {[p]}) g) else Fault BadPointer.

(** [ConnectionState_half_close] up to the yield in [Member_logout]: its result when it is
    0, or whether the logout of a member is under way *)
Inductive half := HalfWas | HalfDone | HalfYield.

Definition half_close_begin g (c : Z) : res (half * hubw T) :=
  x ← get_conn g c;
  match client x with
  | Some k =>
    g ← server_destroy_client g k;
    let x := set_client None x in
    let g := put_conn c x g in
    match member x with
    | Some m =>
      '(_, w) ← Route_unregister_all (g_world g) m;
      w ← Member_logout_begin w (g_members g) m;
      Ok (HalfYield, put_world w g)
    | None => Ok (HalfDone, put_conn c (set_member None x) g)
    end
  | None => Ok (HalfWas, g)
  end.

(** ... and after it *)
Definition half_close_end g (c : Z) : res (hubw T) :=
  x ← get_conn g c;
  m ← need NullDeref (member x);
  '(t, w) ← Member_logout_end (o_memcmp o) (g_world g) (g_members g) m;
  Ok (put_conn c (set_member None x) (put_world w (put_members t g))).

(** [SGLIB_LIST_ADD] at the head of the closed connections *)
Definition ConnectionState_rest_close g (c : Z) : res (bool * hubw T) :=
  x ← get_conn g c;
  _ ← assert_ (bool_decide (client x = None));
  if bool_decide (g_closed g <> Some c) then
    Ok (true, put_closed (Some c) (put_conn c (set_next (g_closed g) x) g))
  else Ok (false, g).

(** ** The actions *)

Definition set_from (m : Z) (M : Message.Message) : Message.Message :=
  mkMessage (m_msgid M) (m_type M) (m_received_at M) m (m_data M) (m_hdr M) (m_body M) (m_ref_count M).

(** case 0: the lock is reset too *)
Definition act_begin g (c : Z) : res (hubw T * step) :=
  g ← update_conn g c (fun x => set_next None (set_recv_count 1 (set_send_count 1 x)));
  Ok (g, Next).

(** case 2; [Peer_create] never returns NULL *)
Definition act_key_prep g (c : Z) : res (hubw T * step) :=
  x ← get_conn g c;
  k ← need NullDeref (client x);
  let p := o_new_peer o in
  Ok (put_peers (g_peers g ∪ {[p]}) (put_conn c (set_peer (Some p) x) g), Next).

(** case 4 *)
Definition act_register g (c : Z) : res (hubw T * step) :=
  x ← get_conn g c;
  p ← need NullDeref (peer x);
  '(m, t, w) ← Member_login (o_memcmp o) (g_world g) (g_members g) p (o_peer_key o p);
  let g := put_conn c (set_member m x) (put_world w (put_members t g)) in
  Ok (g, if bool_decide (m = None) then Again Aborting else Next).

(** case 6 *)
Definition act_recv g (c : Z) : res (hubw T * step) :=
  x ← get_conn g c;
  match recv_hdr x, recv_body x with
  | Some _, Some _ =>
    '(m, H) ← Message_decons (w_heap (g_world g)) (o_now o) (recv_hdr x) (recv_body x);
    let g := put_conn c (set_recv (recv_body x) (recv_hdr x) m x) (put_world (put_heap H (g_world g)) g) in
    match m with
    | Some m =>
      M ← get_msg H m;
      Ok (put_world (put_heap (set_msg m (set_from (default 0 (member x)) M) H) (g_world g)) g, Next)
    | None => Ok (g, Again Aborting)
    end
  | _, _ => Ok (g, Again Aborting)
  end.

(** cases 7, 8 *)
Definition act_clear_recv g (c : Z) : res (hubw T * step) :=
  g ← update_conn g c (set_recv None None None); Ok (g, Next).
Definition act_clear_send g (c : Z) : res (hubw T * step) :=
  g ← update_conn g c (set_send None); Ok (g, Next).

(** case 9 *)
Definition act_service g (c : Z) : res (hubw T * step) :=
  x ← get_conn g c;
  m ← need NullDeref (recv_msg x);
  '(ok, w) ← Hub_service_message (o_sort o) (o_fs o) (o_now o) (o_peer_name o) (h_routes (g_hub g)) (g_world g) m;
  Ok (put_world w g, if (ok : bool) then Next else Again Aborting).

(** case 11 *)
Definition act_msgid_check g (c : Z) : res (hubw T * step) :=
  x ← get_conn g c;
  m ← need NullDeref (recv_msg x);
  M ← get_msg (w_heap (g_world g)) m;
  if m_msgid M =? recv_count x then
    Ok (put_conn c (set_recv_count (u64 (recv_count x + 1)) x) g, Next)
  else
    H ← Message_ref_inc (w_heap (g_world g)) m;
    Ok (put_world (put_heap H (g_world g)) g, Again Aborting).

(** case 13 *)
Definition act_sent g (c : Z) : res (hubw T * step) :=
  x ← get_conn g c;
  m ← need AssertFail (member x);
  '(_, w) ← Member_delete_msg (g_world g) m;
  Ok (put_world w g, Next).

(** case 19 *)
Definition act_error g (c : Z) : res (hubw T * step) :=
  '(h, g) ← half_close_begin g c;
  match h with
  | HalfYield => Ok (g, Blocked [LogoutEnd; RestClose])
  | _ => '(_, g) ← ConnectionState_rest_close g c; Ok (g, Next)
  end.

(** cases 20, 21 *)
Definition act_half_close g (c : Z) : res (hubw T * step) :=
  '(h, g) ← half_close_begin g c;
  Ok (g, match h with HalfYield => Blocked [LogoutEnd] | _ => Next end).
Definition act_rest_close g (c : Z) : res (hubw T * step) :=
  '(_, g) ← ConnectionState_rest_close g c; Ok (g, Next).

(** The [switch].  [open] runs the incoming task, which is the caller here; [established]
    starts the outgoing task; the others only trace. *)
Definition connection_action (a : Z) g (c : Z) : res (hubw T * step) :=
  match a with
  | 0 => act_begin g c
  | 2 => act_key_prep g c
  | 3 => Ok (g, Blocked [TuneEnd])
  | 4 => act_register g c
  | 6 => act_recv g c
  | 7 => act_clear_recv g c
  | 8 => act_clear_send g c
  | 9 => act_service g c
  | 11 => act_msgid_check g c
  | 13 => act_sent g c
  | 19 => act_error g c
  | 20 => act_half_close g c
  | 21 => act_rest_close g c
  | _ => Ok (g, Next)
  end.

(** ** Running an event *)

(** the loop over the actions, until it is done or blocked *)
Fixpoint run_micros (ms : list micro) g (c : Z) : res (hubw T * list micro) :=
  match ms with
  | [] => Ok (g, [])
  | Act a :: r =>
    '(g, s) ← connection_action a g c;
    match s with
    | Next => run_micros r g c
    | Again n => g ← update_conn g c (set_cs n); Ok (g, [])
    | Blocked todo => Ok (g, todo ++ r)
    end
  | RestClose :: r => '(_, g) ← ConnectionState_rest_close g c; run_micros r g c
  | (TuneEnd | LogoutEnd) :: _ => Ok (g, ms)
  end.

(** the result is that of the C function when no step is left *)
Definition finish_exec (r : hubw T * list micro) (c : Z) : res (Z * hubw T * list micro) :=
  let '(g, ms) := r in
  x ← get_conn g c;
  Ok (ConnectionState_invariant x, g, ms).

Definition ConnectionState_exec g (c : Z) (event : HubEvent) : res (Z * hubw T * list micro) :=
  x ← get_conn g c;
  if ConnectionState_done x then Ok (-1, g, [])
  else
    '(cs1, ids) ← transition connection_tables (cs x) (event_char event);
    r ← run_micros (map Act ids) (put_conn c (set_cs cs1 x) g) c;
    finish_exec r c.

(** after the network has answered: [rc] is the result of [Peer_establish_receiver] *)
Definition resume_tune g (c : Z) (rc : bool) (r : list micro) : res (Z * hubw T * list micro) :=
  if rc then r ← run_micros r g c; finish_exec r c
  else g ← update_conn g c (set_cs Aborting); finish_exec (g, []) c.

(** after the yield *)
Definition resume_logout g (c : Z) (r : list micro) : res (Z * hubw T * list micro) :=
  g ← half_close_end g c;
  r ← run_micros r g c; finish_exec r c.

(** [ConnectionState_confirm_key], the callback of the key exchange *)
Definition ConnectionState_confirm_key g (c : Z) : res (bool * hubw T * list micro) :=
  '(rc, g, ms) ← ConnectionState_exec g c UEv_PASS;
  Ok (rc =? 0, g, ms).

(** ** Finishing *)

Definition destroy_nodes (w : world) (p : option loc) : res world :=
  match p with
  | Some _ => st ← Node_destroy (w_store w) p; Ok (put_store st w)
  | None => Ok w
  end.
Definition destroy_msg (w : world) (m : option loc) : res world :=
  match m with
  | Some m => H ← Message_destroy (w_heap w) m; Ok (put_heap H w)
  | None => Ok w
  end.

Definition ConnectionState_finish g (c : Z) : res (Z * hubw T) :=
  x ← get_conn g c;
  let rc := ConnectionState_invariant x in
  w ← match recv_msg x with
      | Some _ => destroy_msg (g_world g) (recv_msg x)
      | None => w ← destroy_nodes (g_world g) (recv_body x); destroy_nodes w (recv_hdr x)
      end;
  w ← destroy_msg w (send_msg x);
  let g := put_conn c (set_send None (set_recv None None None x)) (put_world w g) in
  g ← match peer x with Some p => Peer_destroy g p | None => Ok g end;
  g ← update_conn g c (set_peer None);
  Ok (rc, g).

(** ** The tasks: one call each *)

(** [ConnectionState_dequeue_msg]: the result, or sleeping in [Member_first_msg] *)
Inductive dequeued := DeqMsg | DeqNone | DeqSleep.

Definition take_first g (c : Z) (f : Message.first) : res (dequeued * hubw T) :=
  match f with
  | Message.FirstSleep => Ok (DeqSleep, g)
  | Message.FirstMsg m => g ← update_conn g c (set_send (Some m)); Ok (DeqMsg, g)
  | Message.FirstNull => g ← update_conn g c (set_send None); Ok (DeqNone, g)
  end.

Definition ConnectionState_dequeue_msg g (c : Z) : res (dequeued * hubw T) :=
  x ← get_conn g c;
  if ConnectionState_done x then Ok (DeqNone, g)
  else
    m ← need AssertFail (member x);
    f ← Member_first_msg (g_world g) m;
    take_first g c f.

(** woken up in [MsgQueue_first]; the queue was that of member [m] *)
Definition dequeue_woken g (c m : Z) : res (dequeued * hubw T) :=
  mb ← get_member (g_world g) m;
  f ← Message.MsgQueue_first_woken (mb_queue mb);
  take_first g c f.

(** [ConnectionState_send_msg] up to [Peer_send], which gets the header and the body *)
Definition send_msg_begin g (c : Z) : res (option (option loc * option loc) * hubw T) :=
  x ← get_conn g c;
  if ConnectionState_done x then Ok (None, g)
  else
    '(hdr, st) ← Message.Message_cons_header (w_store (g_world g)) (send_count x);
    let g := put_world (put_store st (g_world g)) (put_conn c (set_send_count (u64 (send_count x + 1)) x) g) in
    m ← need NullDeref (member x);
    mb ← get_member (g_world g) m;
    msg ← need NullDeref (send_msg x);
    M ← get_msg (w_heap (g_world g)) msg;
    Ok (Some (hdr, m_body M), g).

(** ... and after it *)
Definition send_msg_end g (hdr : option loc) : res (hubw T) :=
  st ← Node_destroy (w_store (g_world g)) hdr;
  Ok (put_world (put_store st (g_world g)) g).

(** [ConnectionState_read_msg] up to [Peer_recv]: whether it reads *)
Definition read_msg_begin g (c : Z) : res bool :=
  x ← get_conn g c;
  if ConnectionState_done x || bool_decide (client x = None) then Ok false
  else
    m ← need NullDeref (member x);
    mb ← get_member (g_world g) m;
    Ok true.

(** ... and after it, with what came from the network *)
Definition read_msg_end g (c : Z) (hdr body : option loc) : res (bool * hubw T) :=
  x ← get_conn g c;
  Ok (bool_decide (body <> None), put_conn c (set_recv body hdr (recv_msg x) x) g).
End Machine.

End Connection.
