(* ===== verification/Hub.v ===== *)
(** * Hub: the hub's own state machine

    [src/src/hub/hub.c] and [src/src/hub/hub_state.c] over the world of [Connection].  The
    server object, the random numbers and the listening loop belong to libraries: their
    results are inputs. *)

From Stdlib Require Import ZArith Lia.
From S2P Require Import Prelude Cstdlib Ragel Node Heap Message Routing Members Commands Connection.
Import Cstdlib Ragel Node Routing Members Commands Connection.
Local Open Scope Z_scope.

Module Hub.

Definition hub_tables : tables := {|
  t_actions := [0; 1; 1; 1; 2; 1; 3; 1; 5; 1; 6; 1; 7; 2; 0; 4; 2; 0; 5];
  t_key_offsets := [0; 0; 2; 4; 7; 8];
  t_trans_keys := [70; 75; 68; 76; 67; 68; 79; 107; 0];
  t_single_lengths := [0; 2; 2; 3; 1; 0];
  t_range_lengths := [0; 0; 0; 0; 0; 0];
  t_index_offsets := [0; 0; 3; 6; 10; 12];
  t_indicies := None;
  t_trans_targs := [2; 4; 0; 5; 3; 0; 3; 5; 3; 0; 2; 0; 0; 0];
  t_trans_actions := [16; 13; 3; 1; 5; 3; 9; 1; 11; 3; 7; 3; 0; 0]
|}.

Definition Hub_start : Z := 1.
Definition Hub_first_final : Z := 5.
Definition Hub_error : Z := 0.

(** what the machine gets from libraries *)
Record hub_outside := HubOutside {
  ho_conn : outside;
  ho_gen_key : option bytes;   (* the private key of a new [CryptState] *)
  ho_server : Z                (* what [server_create] returns *)
}.

Section Machine.
Context {T : Type} `{!MemberTree T} (ho : hub_outside).
Implicit Types g : hubw T.

Definition with_hcs (x : Z) (h : Hub) : Hub :=
  mkHub x (h_host h) (h_port h) (h_name h) (h_key h) (h_server h) (h_routes h).
Definition with_key (k : option bytes) (h : Hub) : Hub :=
  mkHub (h_cs h) (h_host h) (h_port h) (h_name h) k (h_server h) (h_routes h).
Definition with_server (s : option Z) (h : Hub) : Hub :=
  mkHub (h_cs h) (h_host h) (h_port h) (h_name h) (h_key h) s (h_routes h).

Definition ConnectionState_destroy g (c : Z) : hubw T :=
  HubW (g_hub g) (g_world g) (g_members g) (g_closed g) (delete c (g_conns g)) (g_clients g) (g_peers g).

(** [SGLIB_LIST_MAP_ON_ELEMENTS] with it, which reads the next pointer first *)
Fixpoint destroy_closed (fuel : nat) g (p : option Z) : res (hubw T) :=
  match p with
  | None => Ok g
  | Some c =>
    match fuel with
    | O => Fault NoFuel
    | S f =>
      x ← get_conn g c;
      destroy_closed f (ConnectionState_destroy g c) (next x)
    end
  end.

(** case 1: the strings and the server are freed, the pointers to them stay *)
Definition act_cleanup g : res (hubw T) :=
  destroy_closed (S (size (g_conns g))) g (g_closed g).

(** cases 4, 5, 6 *)
Definition act_gen_key g : res (hubw T) :=
  _ ← assert_ (bool_decide (h_name (g_hub g) <> None));
  Ok (put_hub (with_key (ho_gen_key ho) (g_hub g)) g).
Definition act_keys_ready g : res (hubw T) :=
  Ok (put_hub (with_server (Some (ho_server ho)) (g_hub g)) g).
Definition act_close g : res (hubw T) :=
  c ← need AssertFail (g_closed g);
  '(_, g) ← ConnectionState_finish g c;
  Ok g.

(** cases 0, 2, 7 do nothing, and [listen] hands the processor to the server *)
Definition hub_action (a : Z) g : res (hubw T) :=
  match a with
  | 1 => act_cleanup g
  | 4 => act_gen_key g
  | 5 => act_keys_ready g
  | 6 => act_close g
  | _ => Ok g
  end.

Fixpoint hub_actions (ids : list Z) g : res (hubw T) :=
  match ids with
  | [] => Ok g
  | a :: r => g ← hub_action a g; hub_actions r g
  end.

Definition Hub_invariant g : Z :=
  if h_cs (g_hub g) =? Hub_error then -1
  else if Hub_first_final <=? h_cs (g_hub g) then 1 else 0.

Definition Hub_exec g (event : HubEvent) : res (Z * hubw T) :=
  if h_cs (g_hub g) =? Hub_error then Ok (Hub_invariant g, g)
  else
    '(cs1, ids) ← transition hub_tables (h_cs (g_hub g)) (event_char event);
    g ← hub_actions ids (put_hub (with_hcs cs1 (g_hub g)) g);
    Ok (Hub_invariant g, g).

(** the routes are freed with the hub; the result, and what is left of the world, with [errno] cleared *)
Definition Hub_destroy g : res (Z * world) :=
  '(_, g) ← Hub_exec g UEv_DONE;
  w ← Route_destroy (g_world g) (h_routes (g_hub g));
  Ok (Hub_invariant g, put_store (set_errno 0 (w_store w)) w).

(** [None] is the NULL return; [w] is the world before there is a hub *)
Definition Hub_create (w : world) (host port nm key : option bytes) : res (option (hubw T)) :=
  _ ← assert_ (bool_decide (host <> None));
  _ ← assert_ (bool_decide (port <> None));
  _ ← assert_ (bool_decide (nm <> None));
  '(root, w) ← Route_create_root (o_sort (ho_conn ho)) w (lit "root");
  '(_, w) ← Hub_commands_register (o_sort (ho_conn ho)) root w;
  let g := HubW (mkHub Hub_start host port nm None None root) w tree_empty None ∅ ∅ ∅ in
  let checked g (b : bool) := let '(ok, st) := check (w_store (g_world g)) b in
                              (ok, put_world (put_store st (g_world g)) g) in
  match key with
  | None =>
    '(rc, g) ← Hub_exec g UEv_GEN_KEY;
    let '(ok, g) := checked g (rc =? 0) in
    if negb ok then _ ← Hub_destroy g; Ok None else
    '(rc, g) ← Hub_exec g UEv_GEN_KEY_DONE;
    let '(ok, g) := checked g (rc =? 0) in
    if negb ok then _ ← Hub_destroy g; Ok None else
    Ok (Some g)
  | Some _ =>
    '(rc, g) ← Hub_exec g UEv_KEY_FILE_LOAD;
    let '(ok, g) := checked g (rc =? 0) in
    if negb ok then _ ← Hub_destroy g; Ok None else
    Ok (Some (put_hub (with_key key (g_hub g)) g))
  end.

(** ** Connections of the hub *)

(** [calloc] or the head of the closed list; [addr] is what [calloc] returns *)
Definition Hub_new_or_reuse_conn g (addr : Z) : res (Z * hubw T) :=
  match g_closed g with
  | Some c => x ← get_conn g c; Ok (c, put_conn c zero_conn (put_closed (next x) g))
  | None => Ok (addr, put_conn addr zero_conn g)
  end.

(** [Hub_queue_conn] up to [ConnectionState_exec(state, UEv_OPEN)], which does not return
    before the connection is done *)
Definition Hub_queue_conn_begin g (addr k : Z) : res (Z * hubw T) :=
  '(c, g) ← Hub_new_or_reuse_conn g addr;
  g ← update_conn g c (set_client (Some k));
  g ← ConnectionState_init g c;
  Ok (c, g).

(** [Hub_connection_handler] up to the same point *)
Definition Hub_connection_open g (addr k : Z) : res (Z * hubw T) :=
  '(_, g) ← Hub_exec (put_clients (g_clients g ∪ {[k]}) g) UEv_OPEN;
  Hub_queue_conn_begin g addr k.

(** ... and behind it *)
Definition Hub_connection_close g : res (hubw T) :=
  '(_, g) ← Hub_exec g UEv_CLOSE; Ok g.

Definition Hub_listen g : res (hubw T) := '(_, g) ← Hub_exec g UEv_LISTEN; Ok g.

(** the message goes to every member of the map, full queues are skipped *)
Fixpoint broadcast_to (w : world) (ms : list Z) (msg : loc) : res world :=
  match ms with
  | [] => Ok w
  | m :: ms' => '(_, w) ← Member_send_msg w m msg; broadcast_to w ms' msg
  end.

Definition Hub_broadcast g (msg : loc) : res (hubw T) :=
  _ ← Message.Message_dump (w_heap (g_world g)) msg;
  w ← broadcast_to (g_world g) (tree_elems (g_members g)) msg;
  Ok (put_world w g).
End Machine.

(** ** The charts of [hub.rl] and [connection.rl] *)

Inductive hub_state := H_start | H_GenKeys | H_CryptoReady | H_Listening | H_final | H_error.

#[global] Instance hub_state_eq_dec : EqDecision hub_state.
Proof. solve_decision. Defined.

Definition hub_code (s : hub_state) : Z :=
  match s with H_error => 0 | H_start => 1 | H_CryptoReady => 2 | H_Listening => 3 | H_GenKeys => 4 | H_final => 5 end.

(** the next state, and the actions by number *)
Definition hub_chart (s : hub_state) (e : HubEvent) : hub_state * list Z :=
  match s, e with
  | H_start, UEv_GEN_KEY => (H_GenKeys, [0; 4])
  | H_start, UEv_KEY_FILE_LOAD => (H_CryptoReady, [0; 5])
  | H_GenKeys, UEv_GEN_KEY_DONE => (H_CryptoReady, [5])
  | H_CryptoReady, UEv_LISTEN => (H_Listening, [3])
  | H_CryptoReady, UEv_DONE | H_Listening, UEv_DONE => (H_final, [1])
  | H_Listening, UEv_OPEN => (H_Listening, [7])
  | H_Listening, UEv_CLOSE => (H_Listening, [6])
  | (H_final | H_error), _ => (H_error, [])
  | _, _ => (H_error, [2])
  end.

Inductive conn_state :=
  | C_error | C_start | C_Accepting | C_KeyCheck | C_Tuning | C_Registering | C_Idle
  | C_Hated_start | C_Hated_Awaiting | C_Hated_Validating | C_Sending | C_Aborting | C_Closing | C_Delivering | C_final.

Definition conn_code (s : conn_state) : Z :=
  match s with
  | C_error => 0 | C_start => 1 | C_Accepting => 2 | C_KeyCheck => 3 | C_Tuning => 4 | C_Registering => 5 | C_Idle => 6
  | C_Hated_start => 7 | C_Hated_Awaiting => 8 | C_Hated_Validating => 9 | C_Sending => 10 | C_Aborting => 11
  | C_Closing => 12 | C_Delivering => 13 | C_final => 14
  end.

Definition conn_chart (s : conn_state) (e : HubEvent) : conn_state * list Z :=
  match s, e with
  | C_start, UEv_OPEN => (C_Accepting, [0; 1])
  | C_Accepting, UEv_KEY_PRESENT => (C_KeyCheck, [2])
  | C_KeyCheck, UEv_PASS => (C_Tuning, [3])
  | C_Tuning, UEv_PASS => (C_Registering, [4])
  | C_Registering, UEv_PASS => (C_Idle, [5])
  | (C_Accepting | C_KeyCheck | C_Tuning | C_Registering | C_Idle), (UEv_READ_CLOSE | UEv_WRITE_CLOSE) => (C_Closing, [20])
  | C_Idle, UEv_MSG_RECV => (C_Delivering, [6])
  | C_Idle, UEv_MSG_QUEUED => (C_Sending, [10])
  | C_Idle, UEv_HATE_APPLY => (C_Hated_start, [14])
  | C_Hated_start, UEv_HATE_CHALLENGE => (C_Hated_Awaiting, [15])
  | C_Hated_Awaiting, UEv_HATE_PAID => (C_Hated_Validating, [16])
  | C_Hated_Validating, UEv_HATE_VALID => (C_Idle, [17])
  | C_Hated_Validating, UEv_HATE_INVALID => (C_Idle, [18])
  | C_Closing, (UEv_READ_CLOSE | UEv_WRITE_CLOSE) => (C_final, [21])
  | C_Aborting, _ => (C_Closing, [12; 20])
  | C_Delivering, UEv_SVC_RECV => (C_Idle, [11; 9; 7])
  | C_Sending, UEv_MSG_SENT => (C_Idle, [13; 8])
  | C_Sending, UEv_FAIL => (C_Aborting, [8])
  | _, _ => (C_error, [19])
  end.

Lemma hub_transition s e :
  s <> H_error ->
  transition hub_tables (hub_code s) (event_char e)
    = Ok (hub_code (fst (hub_chart s e)), snd (hub_chart s e)).
Proof. intros Hs; destruct s, e; first [done|vm_compute; reflexivity]. Qed.

(** C23: the generated tables and the driver's search implement the charts of the grammar files:
    for every state the driver runs in and every event of [HubEvent] it finds, inside the
    tables, the chart's next state and its actions in order; for the hub and for the
    connection (where [ConnectionState_exec] does not run the driver in the final state). *)
Theorem charts_implemented s c e :
  (s <> H_error ->
   transition hub_tables (hub_code s) (event_char e)
     = Ok (hub_code (fst (hub_chart s e)), snd (hub_chart s e))) /\
  (c <> C_final -> c <> C_error ->
   transition connection_tables (conn_code c) (event_char e)
     = Ok (conn_code (fst (conn_chart c e)), snd (conn_chart c e))).
Proof.
  split; [apply hub_transition|]. intros Hf He. destruct c, e; first [done|vm_compute; reflexivity].
Qed.

Lemma charts_implemented_witness :
  transition hub_tables 3 67 = Ok (3, [6]) /\ transition connection_tables 11 67 = Ok (12, [12; 20]).
Proof.
  destruct (charts_implemented H_Listening C_Aborting UEv_CLOSE) as [H1 H2].
  split; [by apply H1|by apply H2].
Defined.

(** ** The life of a hub *)

Fixpoint hub_run (s : hub_state) (es : list HubEvent) : hub_state :=
  match es with
  | [] => s
  | e :: es' => hub_run (fst (hub_chart s e)) es'
  end.

(** the sequences of events of a complete life *)
Inductive connections : list HubEvent -> Prop :=
  | conn_nil : connections []
  | conn_open es : connections es -> connections (UEv_OPEN :: es)
  | conn_close es : connections es -> connections (UEv_CLOSE :: es).

Inductive life : list HubEvent -> Prop :=
  | life_idle keys : keys = [UEv_GEN_KEY; UEv_GEN_KEY_DONE] \/ keys = [UEv_KEY_FILE_LOAD] ->
      life (keys ++ [UEv_DONE])
  | life_listen keys es : keys = [UEv_GEN_KEY; UEv_GEN_KEY_DONE] \/ keys = [UEv_KEY_FILE_LOAD] ->
      connections es -> life (keys ++ UEv_LISTEN :: es ++ [UEv_DONE]).

Lemma hub_run_app s es es' : hub_run s (es ++ es') = hub_run (hub_run s es) es'.
Proof. revert s; induction es as [|e es IH]; intros s; cbn; [done|apply IH]. Qed.

Lemma hub_run_error es : hub_run H_error es = H_error.
Proof. induction es as [|e es IH]; [done|]. exact IH. Qed.

Lemma hub_run_final es : hub_run H_final es = H_final -> es = [].
Proof. destruct es as [|e es]; [done|]. cbn. by rewrite hub_run_error. Qed.

Lemma hub_run_listening es :
  hub_run H_Listening es = H_final <-> exists cs, connections cs /\ es = cs ++ [UEv_DONE].
Proof.
  split.
  - induction es as [|e es IH]; [done|]. cbn [hub_run].
    destruct e; cbn [hub_chart fst]; intros E; try (by rewrite hub_run_error in E).
    + destruct (IH E) as (cs & Hc & ->). exists (UEv_OPEN :: cs). split; [by constructor|done].
    + destruct (IH E) as (cs & Hc & ->). exists (UEv_CLOSE :: cs). split; [by constructor|done].
    + apply hub_run_final in E as ->. exists []. split; [constructor|done].
  - intros (cs & Hc & ->). rewrite hub_run_app. enough (hub_run H_Listening cs = H_Listening) as -> by done.
    induction Hc; done.
Qed.

Lemma hub_run_ready es :
  hub_run H_CryptoReady es = H_final <->
  es = [UEv_DONE] \/ exists cs, connections cs /\ es = UEv_LISTEN :: cs ++ [UEv_DONE].
Proof.
  split.
  - destruct es as [|e es]; [done|]. cbn [hub_run].
    destruct e; cbn [hub_chart fst]; intros E; try (by rewrite hub_run_error in E).
    + apply hub_run_listening in E as (cs & Hc & ->). right. eauto.
    + apply hub_run_final in E as ->. by left.
  - intros [->|(cs & Hc & ->)]; [done|]. cbn. apply hub_run_listening. eauto.
Qed.

Lemma hub_run_life es : hub_run H_start es = H_final <-> life es.
Proof.
  split.
  - destruct es as [|e es]; [done|]. cbn [hub_run].
    destruct e; cbn [hub_chart fst]; intros E; try (by rewrite hub_run_error in E).
    + destruct es as [|e' es]; [done|]. cbn [hub_run] in E.
      destruct e'; cbn [hub_chart fst] in E; try (by rewrite hub_run_error in E).
      apply hub_run_ready in E as [->|(cs & Hc & ->)].
      * apply (life_idle [UEv_GEN_KEY; UEv_GEN_KEY_DONE]). by left.
      * apply (life_listen [UEv_GEN_KEY; UEv_GEN_KEY_DONE]); [by left|done].
    + apply hub_run_ready in E as [->|(cs & Hc & ->)].
      * apply (life_idle [UEv_KEY_FILE_LOAD]). by right.
      * apply (life_listen [UEv_KEY_FILE_LOAD]); [by right|done].
  - intros [keys Hk|keys cs Hk Hc]; rewrite hub_run_app.
    + by destruct Hk as [-> | ->].
    + assert (hub_run H_start keys = H_CryptoReady) as -> by (by destruct Hk as [-> | ->]).
      apply hub_run_ready. right. eauto.
Qed.

(** the states that a sequence of [Hub_exec] goes through *)
Fixpoint machine_run (cs : Z) (es : list HubEvent) : res Z :=
  match es with
  | [] => Ok cs
  | e :: es' =>
    if cs =? Hub_error then Ok cs
    else '(cs1, _) ← transition hub_tables cs (event_char e); machine_run cs1 es'
  end.

Lemma machine_run_chart s es : machine_run (hub_code s) es = Ok (hub_code (hub_run s es)).
Proof.
  revert s; induction es as [|e es IH]; intros s; [done|]. cbn [machine_run hub_run].
  destruct (decide (s = H_error)) as [->|Hs].
  - cbn. by rewrite hub_run_error.
  - rewrite (proj2 (Z.eqb_neq _ _)) by (by destruct s). by rewrite hub_transition, bind_ret, IH.
Qed.

(** C24: the hub's machine ends in its final state on exactly the sequences of events of a
    complete life: keys generated or loaded, optionally listening with any opening and
    closing of connections, then done; no sequence leaves the tables. *)
Theorem hub_life es :
  (machine_run Hub_start es = Ok Hub_first_final <-> life es) /\ exists cs, machine_run Hub_start es = Ok cs.
Proof.
  change Hub_start with (hub_code H_start). rewrite machine_run_chart. split; [|eauto].
  rewrite <- hub_run_life. split; [|by intros ->]. intros [= E]. by destruct (hub_run H_start es).
Qed.

End Hub.
