(* ===== verification/ConnectionProps.v ===== *)
(** * ConnectionProps: what an event does to the control state of a connection

    The list of closed connections as a list, and for every event that the tasks send, in
    every state they send it in, the state, the client, the member and the membership in
    the closed list afterwards. *)

From Stdlib Require Import ZArith Lia.
From S2P Require Import Prelude Cstdlib Ragel Node Heap Message Routing Members Commands Connection Hub.
Import Cstdlib Ragel Node Routing Members Commands Connection Hub.
Local Open Scope Z_scope.

Module ConnectionProps.

(** ** The list of closed connections *)

Fixpoint is_list (conns : gmap Z ConnectionState) (p : option Z) (l : list Z) : Prop :=
  match l with
  | [] => p = None
  | d :: l' => p = Some d /\ exists x, conns !! d = Some x /\ is_list conns (next x) l'
  end.

Lemma is_list_insert conns p l d y y' :
  is_list conns p l -> conns !! d = Some y -> next y' = next y -> is_list (<[d := y']> conns) p l.
Proof.
  revert p; induction l as [|e l IH]; intros p Hl Hd Hn; [done|].
  destruct Hl as [-> (x & Hx & Hl)]. split; [done|]. destruct (decide (e = d)) as [->|Hne].
  - exists y'. rewrite lookup_insert_eq, Hn. simplify_eq. split; [done|]. by apply IH.
  - exists x. rewrite lookup_insert_ne by done. split; [done|]. by apply IH.
Qed.

Lemma is_list_outside conns p l d y :
  is_list conns p l -> d ∉ l -> is_list (<[d := y]> conns) p l.
Proof.
  revert p; induction l as [|e l IH]; intros p Hl Hd; [done|].
  destruct Hl as [-> (x & Hx & Hl)]. split; [done|]. apply not_elem_of_cons in Hd as [Hne Hd].
  exists x. rewrite lookup_insert_ne by done. split; [done|]. by apply IH.
Qed.

Lemma is_list_live conns p l d : is_list conns p l -> d ∈ l -> is_Some (conns !! d).
Proof.
  revert p; induction l as [|e l IH]; intros p Hl Hd; [by apply elem_of_nil in Hd|].
  destruct Hl as [-> (x & Hx & Hl)]. apply elem_of_cons in Hd as [->|Hd]; [eauto|by apply (IH (next x))].
Qed.

Lemma is_list_head conns d l : is_list conns (Some d) l -> d ∈ l.
Proof. destruct l as [|e l]; [done|]. intros [[= ->] _]. set_solver. Qed.

(** ** The control state of a connection *)

Section Control.
Context {T : Type} `{!MemberTree T} (o : outside) (c : Z).
Implicit Types g : hubw T.

(** the connection is [x], the closed connections are [l], each once, and the hub listens *)
Record at_ g (x : ConnectionState) (l : list Z) : Prop := At {
  at_conn : g_conns g !! c = Some x;
  at_list : is_list (g_conns g) (g_closed g) l;
  at_nodup : NoDup l;
  at_hub : h_cs (g_hub g) = hub_code H_Listening
}.

Lemma at_put g x x' l : at_ g x l -> next x' = next x -> at_ (put_conn c x' g) x' l.
Proof.
  intros [H1 H2 H3 H4] Hn. split; [apply lookup_insert_eq|by eapply is_list_insert|done|done].
Qed.

Lemma at_world g x l w : at_ g x l -> at_ (put_world w g) x l.
Proof. by intros [H1 H2 H3 H4]. Qed.
Lemma at_members g x l t : at_ g x l -> at_ (put_members t g) x l.
Proof. by intros [H1 H2 H3 H4]. Qed.
Lemma at_clients g x l s : at_ g x l -> at_ (put_clients s g) x l.
Proof. by intros [H1 H2 H3 H4]. Qed.
Lemma at_peers g x l s : at_ g x l -> at_ (put_peers s g) x l.
Proof. by intros [H1 H2 H3 H4]. Qed.

Lemma at_get g x l : at_ g x l -> get_conn g c = Ok x.
Proof. intros [H1 _ _ _]. unfold get_conn. by rewrite H1. Qed.

Lemma at_update g x l f : at_ g x l -> next (f x) = next x ->
  exists g', update_conn g c f = Ok g' /\ at_ g' (f x) l.
Proof.
  intros Ha Hn. unfold update_conn. rewrite (at_get _ _ _ Ha), bind_ret. eexists; split; [done|].
  by apply (at_put g x).
Qed.

(** ** Closing *)

Lemma rest_close_at g x l :
  at_ g x l -> client x = None -> c ∉ l ->
  exists g' x', ConnectionState_rest_close g c = Ok (true, g') /\ at_ g' x' (c :: l) /\
    cs x' = cs x /\ client x' = client x /\ member x' = member x /\ g_world g' = g_world g.
Proof.
  intros Ha Hc Hl. pose proof Ha as [H1 H2 H3 H4]. unfold ConnectionState_rest_close.
  rewrite (at_get _ _ _ Ha), bind_ret, assert_true, bind_ret by (by apply bool_decide_eq_true_2).
  rewrite bool_decide_eq_true_2.
  - exists (put_closed (Some c) (put_conn c (set_next (g_closed g) x) g)), (set_next (g_closed g) x).
    split_and!; [done| |done..].
    split; [apply lookup_insert_eq| |by apply list.NoDup_cons|done]. split; [done|].
    exists (set_next (g_closed g) x). cbn. split; [apply lookup_insert_eq|]. by apply is_list_outside.
  - intros E. apply Hl. rewrite E in H2. by eapply is_list_head.
Qed.

(** a member whose logout is under way: its queue is dead *)
Definition dying g (m : Z) : Prop :=
  exists mb, w_members (g_world g) !! m = Some mb /\ Message.q_dead (mb_queue mb) = true.

(** half closing a connection with a member starts the logout *)
Lemma half_begin_member g x l k m h g' :
  at_ g x l -> client x = Some k -> member x = Some m -> half_close_begin g c = Ok (h, g') ->
  h = HalfYield /\ at_ g' (set_client None x) l /\ dying g' m.
Proof.
  intros Ha Hc Hm. unfold half_close_begin. rewrite (at_get _ _ _ Ha), bind_ret, Hc.
  intros (g1 & E1 & E)%bind_Ok. unfold server_destroy_client in E1.
  destruct (bool_decide (k ∈ g_clients g)); [|done]. injection E1 as <-.
  cbn [member set_client] in E. rewrite Hm in E.
  apply bind_Ok in E as ([b w] & _ & E). apply bind_Ok in E as (w' & E2 & E). injection E as <- <-.
  split_and!; [done| |].
  - apply at_world, (at_put _ x); [by apply at_clients|done].
  - unfold Member_logout_begin in E2. apply bind_Ok in E2 as (_ & _ & E2). apply bind_Ok in E2 as (mb & _ & E2). injection E2 as <-.
    eexists; split; [cbn; apply lookup_insert_eq|done].
Qed.

Lemma set_member_id x : member x = None -> set_member None x = x.
Proof. destruct x; cbn. by intros ->. Qed.

Lemma half_begin_alone g x l k h g' :
  at_ g x l -> client x = Some k -> member x = None -> half_close_begin g c = Ok (h, g') ->
  h = HalfDone /\ at_ g' (set_client None x) l.
Proof.
  intros Ha Hc Hm. unfold half_close_begin. rewrite (at_get _ _ _ Ha), bind_ret, Hc.
  intros (g1 & E1 & E)%bind_Ok. unfold server_destroy_client in E1.
  destruct (bool_decide (k ∈ g_clients g)); [|done]. injection E1 as <-.
  cbn [member set_client] in E. rewrite Hm in E. injection E as <- <-. split; [done|].
  rewrite (set_member_id (set_client None x)) by done.
  apply (at_put _ (set_client None x)); [|done]. apply (at_put _ x); [by apply at_clients|done].
Qed.

Lemma half_begin_closed g x l :
  at_ g x l -> client x = None -> half_close_begin g c = Ok (HalfWas, g).
Proof. intros Ha Hc. unfold half_close_begin. by rewrite (at_get _ _ _ Ha), bind_ret, Hc. Qed.

Lemma half_end_at g x l g' :
  at_ g x l -> half_close_end o g c = Ok g' -> at_ g' (set_member None x) l.
Proof.
  intros Ha. unfold half_close_end. rewrite (at_get _ _ _ Ha), bind_ret.
  intros (m & _ & ([t w] & _ & E)%bind_Ok)%bind_Ok. injection E as <-.
  by apply (at_put _ x); [apply at_world, at_members|].
Qed.

(** the result when nothing is left to do *)
Lemma finish_exec_at g x l r q :
  at_ g x l -> finish_exec (g, r) c = Ok q -> q = (ConnectionState_invariant x, g, r).
Proof. intros Ha. unfold finish_exec. rewrite (at_get _ _ _ Ha), bind_ret. by intros [= <-]. Qed.

(** the start of an event *)
Lemma exec_start g x l e s n ids rc g' r :
  at_ g x l -> cs x = conn_code s -> conn_chart s e = (n, ids) -> s <> C_final -> s <> C_error ->
  ConnectionState_exec o g c e = Ok (rc, g', r) ->
  exists g1 r1, run_micros o (map Act ids) (put_conn c (set_cs (conn_code n) x) g) c = Ok (g1, r1) /\
    finish_exec (g1, r1) c = Ok (rc, g', r) /\ at_ (put_conn c (set_cs (conn_code n) x) g) (set_cs (conn_code n) x) l.
Proof.
  intros Ha Hcs Hch Hf He. unfold ConnectionState_exec. rewrite (at_get _ _ _ Ha), bind_ret.
  unfold ConnectionState_done. rewrite Hcs.
  assert (((conn_code s =? ConnectionState_error) || (conn_code s =? ConnectionState_first_final)) = false) as ->
    by (by destruct s).
  assert (transition connection_tables (conn_code s) (event_char e) = Ok (conn_code n, ids)) as ->.
  { replace (conn_code n) with (conn_code (fst (conn_chart s e))) by (by rewrite Hch).
    replace ids with (snd (conn_chart s e)) by (by rewrite Hch).
    destruct s, e; first [done|vm_compute; reflexivity]. }
  rewrite bind_ret. intros ([g1 r1] & E1 & E2)%bind_Ok. exists g1, r1. split_and!; [done|done|].
  by apply (at_put g x).
Qed.

Lemma exec_done g x l e rc g' r :
  at_ g x l -> ConnectionState_done x = true ->
  ConnectionState_exec o g c e = Ok (rc, g', r) -> rc = -1 /\ g' = g /\ r = [].
Proof.
  intros Ha Hd. unfold ConnectionState_exec. rewrite (at_get _ _ _ Ha), bind_ret, Hd. by intros [= <- <- <-].
Qed.

(** ** The events, by what they do *)

(** same client and member *)
Definition kept (x x' : ConnectionState) : Prop := client x' = client x /\ member x' = member x.

Lemma run_half_member ids g x l k m g1 r1 :
  ids = [20] \/ ids = [12; 20] -> at_ g x l -> client x = Some k -> member x = Some m ->
  run_micros o (map Act ids) g c = Ok (g1, r1) ->
  r1 = [LogoutEnd] /\ at_ g1 (set_client None x) l /\ dying g1 m.
Proof.
  intros Hids Ha Hc Hm E.
  assert (Hr : run_micros o [Act 20] g c = Ok (g1, r1)) by (by destruct Hids as [-> | ->]).
  cbn [run_micros connection_action] in Hr. unfold act_half_close in Hr.
  apply bind_Ok in Hr as ([g2 s2] & E1 & Hr). apply bind_Ok in E1 as ([h g3] & E1 & [= <- <-]).
  destruct (half_begin_member g x l k m h g3 Ha Hc Hm E1) as (-> & Ha3 & Hd).
  injection Hr as <- <-. done.
Qed.

Lemma exec_closing g x l s e ids rc g' r k m :
  at_ g x l -> cs x = conn_code s -> conn_chart s e = (C_Closing, ids) -> s <> C_final -> s <> C_error ->
  ids = [20] \/ ids = [12; 20] -> client x = Some k -> member x = Some m ->
  ConnectionState_exec o g c e = Ok (rc, g', r) ->
  r = [LogoutEnd] /\ at_ g' (set_client None (set_cs 12 x)) l /\ dying g' m.
Proof.
  intros Ha Hcs Hch Hf He Hids Hc Hm E.
  destruct (exec_start g x l e s _ _ rc g' r Ha Hcs Hch Hf He E) as (g1 & r1 & E1 & E2 & Ha1).
  destruct (run_half_member ids _ _ l k m g1 r1 Hids Ha1 Hc Hm E1) as (-> & Ha2 & Hd).
  apply (finish_exec_at _ _ _ _ _ Ha2) in E2. by injection E2 as -> -> ->.
Qed.

Lemma exec_closing_alone g x l s e ids rc g' r k :
  at_ g x l -> cs x = conn_code s -> conn_chart s e = (C_Closing, ids) -> s <> C_final -> s <> C_error ->
  ids = [20] \/ ids = [12; 20] -> client x = Some k -> member x = None ->
  ConnectionState_exec o g c e = Ok (rc, g', r) ->
  r = [] /\ at_ g' (set_client None (set_cs 12 x)) l.
Proof.
  intros Ha Hcs Hch Hf He Hids Hc Hm E.
  destruct (exec_start g x l e s _ _ rc g' r Ha Hcs Hch Hf He E) as (g1 & r1 & E1 & E2 & Ha1).
  assert (Hr : run_micros o [Act 20] (put_conn c (set_cs (conn_code C_Closing) x) g) c = Ok (g1, r1))
    by (by destruct Hids as [-> | ->]).
  cbn [run_micros connection_action] in Hr. unfold act_half_close in Hr.
  apply bind_Ok in Hr as ([g2 s2] & E3 & Hr). apply bind_Ok in E3 as ([h g3] & E3 & [= <- <-]).
  destruct (half_begin_alone _ _ l k h g3 Ha1 Hc Hm E3) as (-> & Ha3). injection Hr as <- <-.
  apply (finish_exec_at _ _ _ _ _ Ha3) in E2. by injection E2 as -> -> ->.
Qed.

(** the second close event *)
Lemma exec_final g x l e rc g' r :
  at_ g x l -> cs x = 12 -> e = UEv_READ_CLOSE \/ e = UEv_WRITE_CLOSE -> client x = None -> c ∉ l ->
  ConnectionState_exec o g c e = Ok (rc, g', r) ->
  r = [] /\ rc = 1 /\ exists x', at_ g' x' (c :: l) /\ cs x' = 14 /\ kept x x' /\ g_world g' = g_world g.
Proof.
  intros Ha Hcs He Hc Hl E.
  destruct (exec_start g x l e C_Closing C_final [21] rc g' r Ha Hcs) as (g1 & r1 & E1 & E2 & Ha1);
    [by destruct He as [-> | ->]|done|done|done|].
  cbn [map run_micros connection_action] in E1. unfold act_rest_close in E1.
  destruct (rest_close_at _ _ l Ha1 Hc Hl) as (g2 & x2 & E3 & Ha2 & Hcs2 & Hc2 & Hm2 & Hw2).
  rewrite E3, !bind_ret in E1. injection E1 as <- <-.
  apply (finish_exec_at _ _ _ _ _ Ha2) in E2. injection E2 as -> -> ->.
  split_and!; [done|unfold ConnectionState_invariant; by rewrite Hcs2|]. exists x2. by split_and!.
Qed.

(** an event that the state does not accept *)
Lemma exec_error_open g x l s e rc g' r k m :
  at_ g x l -> cs x = conn_code s -> conn_chart s e = (C_error, [19]) -> s <> C_final -> s <> C_error ->
  client x = Some k -> member x = Some m ->
  ConnectionState_exec o g c e = Ok (rc, g', r) ->
  r = [LogoutEnd; RestClose] /\ at_ g' (set_client None (set_cs 0 x)) l /\ dying g' m.
Proof.
  intros Ha Hcs Hch Hf He Hc Hm E.
  destruct (exec_start g x l e s _ _ rc g' r Ha Hcs Hch Hf He E) as (g1 & r1 & E1 & E2 & Ha1).
  cbn [map run_micros connection_action] in E1. unfold act_error in E1.
  apply bind_Ok in E1 as ([g2 s2] & E3 & E1). apply bind_Ok in E3 as ([h g3] & E3 & E4).
  destruct (half_begin_member _ _ l k m h g3 Ha1 Hc Hm E3) as (-> & Ha3 & Hd).
  injection E4 as <- <-. injection E1 as <- <-.
  apply (finish_exec_at _ _ _ _ _ Ha3) in E2. by injection E2 as -> -> ->.
Qed.

Lemma exec_error_closed g x l s e rc g' r :
  at_ g x l -> cs x = conn_code s -> conn_chart s e = (C_error, [19]) -> s <> C_final -> s <> C_error ->
  client x = None -> c ∉ l ->
  ConnectionState_exec o g c e = Ok (rc, g', r) ->
  r = [] /\ rc = -1 /\ exists x', at_ g' x' (c :: l) /\ cs x' = 0 /\ kept x x' /\ g_world g' = g_world g.
Proof.
  intros Ha Hcs Hch Hf He Hc Hl E.
  destruct (exec_start g x l e s _ _ rc g' r Ha Hcs Hch Hf He E) as (g1 & r1 & E1 & E2 & Ha1).
  cbn [map run_micros connection_action] in E1. unfold act_error in E1.
  rewrite (half_begin_closed _ _ l Ha1 Hc), bind_ret in E1.
  destruct (rest_close_at _ _ l Ha1 Hc Hl) as (g2 & x2 & E3 & Ha2 & Hcs2 & Hc2 & Hm2 & Hw2).
  rewrite E3, !bind_ret in E1. injection E1 as <- <-.
  apply (finish_exec_at _ _ _ _ _ Ha2) in E2. injection E2 as -> -> ->.
  split_and!; [done|unfold ConnectionState_invariant; by rewrite Hcs2|]. exists x2. by split_and!.
Qed.

(** the events that keep the connection open *)
Lemma exec_queued g x l rc g' r :
  at_ g x l -> cs x = 6 -> ConnectionState_exec o g c UEv_MSG_QUEUED = Ok (rc, g', r) ->
  r = [] /\ rc = 0 /\ at_ g' (set_cs 10 x) l.
Proof.
  intros Ha Hcs E. destruct (exec_start g x l UEv_MSG_QUEUED C_Idle C_Sending [10] rc g' r Ha Hcs) as (g1 & r1 & E1 & E2 & Ha1);
    [done..|]. cbn in E1. injection E1 as <- <-.
  apply (finish_exec_at _ _ _ _ _ Ha1) in E2. by injection E2 as -> -> ->.
Qed.

Lemma exec_established g x l rc g' r :
  at_ g x l -> cs x = 5 -> ConnectionState_exec o g c UEv_PASS = Ok (rc, g', r) ->
  r = [] /\ at_ g' (set_cs 6 x) l.
Proof.
  intros Ha Hcs E. destruct (exec_start g x l UEv_PASS C_Registering C_Idle [5] rc g' r Ha Hcs) as (g1 & r1 & E1 & E2 & Ha1);
    [done..|]. cbn in E1. injection E1 as <- <-.
  apply (finish_exec_at _ _ _ _ _ Ha1) in E2. by injection E2 as -> -> ->.
Qed.

Lemma exec_fail g x l rc g' r :
  at_ g x l -> cs x = 10 -> ConnectionState_exec o g c UEv_FAIL = Ok (rc, g', r) ->
  r = [] /\ exists x', at_ g' x' l /\ cs x' = 11 /\ kept x x'.
Proof.
  intros Ha Hcs E. destruct (exec_start g x l UEv_FAIL C_Sending C_Aborting [8] rc g' r Ha Hcs) as (g1 & r1 & E1 & E2 & Ha1);
    [done..|]. cbn [map run_micros connection_action] in E1. unfold act_clear_send in E1.
  destruct (at_update _ _ l (set_send None) Ha1) as (g2 & E3 & Ha2); [done|].
  rewrite E3, !bind_ret in E1. injection E1 as <- <-.
  apply (finish_exec_at _ _ _ _ _ Ha2) in E2. injection E2 as -> -> ->.
  split; [done|]. eexists; by split_and!.
Qed.

Lemma exec_sent g x l rc g' r :
  at_ g x l -> cs x = 10 -> ConnectionState_exec o g c UEv_MSG_SENT = Ok (rc, g', r) ->
  r = [] /\ exists x', at_ g' x' l /\ cs x' = 6 /\ kept x x'.
Proof.
  intros Ha Hcs E. destruct (exec_start g x l UEv_MSG_SENT C_Sending C_Idle [13; 8] rc g' r Ha Hcs) as (g1 & r1 & E1 & E2 & Ha1);
    [done..|]. cbn [map run_micros connection_action] in E1. unfold act_sent, act_clear_send in E1.
  rewrite (at_get _ _ _ Ha1) in E1. rewrite bind_ret in E1.
  apply bind_Ok in E1 as ([g2 s2] & E3 & E1). apply bind_Ok in E3 as (m & _ & E3).
  apply bind_Ok in E3 as ([b w] & _ & [= <- <-]).
  destruct (at_update _ _ l (set_send None) (at_world _ _ l w Ha1)) as (g3 & E3 & Ha3); [done|].
  cbn in E1, E3. rewrite E3, !bind_ret in E1. injection E1 as <- <-.
  apply (finish_exec_at _ _ _ _ _ Ha3) in E2. injection E2 as -> -> ->.
  split; [done|]. eexists; by split_and!.
Qed.

(** receiving: the message is taken apart, or the connection is aborted *)
Lemma exec_recv g x l rc g' r :
  at_ g x l -> cs x = 6 -> ConnectionState_exec o g c UEv_MSG_RECV = Ok (rc, g', r) ->
  r = [] /\ rc = 0 /\ exists x', at_ g' x' l /\ kept x x' /\
    ((cs x' = 13 /\ recv_msg x' <> None) \/ cs x' = 11).
Proof.
  intros Ha Hcs E. destruct (exec_start g x l UEv_MSG_RECV C_Idle C_Delivering [6] rc g' r Ha Hcs) as (g1 & r1 & E1 & E2 & Ha1);
    [done..|].
  assert (Hab : forall g2 x2, at_ g2 x2 l -> kept x x2 -> update_conn g2 c (set_cs Aborting) ≫= (fun g => Ok (g, [])) = Ok (g1, r1) ->
    r = [] /\ rc = 0 /\ exists x', at_ g' x' l /\ kept x x' /\ ((cs x' = 13 /\ recv_msg x' <> None) \/ cs x' = 11)).
  { intros g2 x2 Ha2 Hk Eu. destruct (at_update _ _ l (set_cs Aborting) Ha2) as (g3 & E3 & Ha3); [done|].
    rewrite E3, bind_ret in Eu. injection Eu as <- <-. apply (finish_exec_at _ _ _ _ _ Ha3) in E2.
    injection E2 as -> -> ->. split_and!; [done|done|]. eexists. split_and!; [exact Ha3|exact Hk|by right]. }
  cbn [map run_micros connection_action] in E1. unfold act_recv in E1. rewrite (at_get _ _ _ Ha1), bind_ret in E1.
  destruct (recv_hdr (set_cs _ x)) as [h|]; [|by eapply Hab; [exact Ha1|done|exact E1]].
  destruct (recv_body (set_cs _ x)) as [b|]; [|by eapply Hab; [exact Ha1|done|exact E1]].
  apply bind_Ok in E1 as ([g2 s2] & E3 & E1). apply bind_Ok in E3 as ([m H] & _ & E3).
  destruct m as [m|].
  - apply bind_Ok in E3 as (M & _ & [= <- <-]). injection E1 as <- <-.
    match type of E2 with finish_exec (?g, _) _ = _ => assert (Ha2 : exists x2, at_ g x2 l /\ kept x x2 /\ cs x2 = 13 /\ recv_msg x2 <> None) end.
    { eexists; split; [apply at_world, (at_put _ _ _ l (at_world _ _ l _ Ha1)); done|done]. }
    destruct Ha2 as (x2 & Ha2 & Hk & Hc & Hm). apply (finish_exec_at _ _ _ _ _ Ha2) in E2. injection E2 as -> -> ->.
    unfold ConnectionState_invariant. rewrite Hc. split_and!; [done|done|]. exists x2. split_and!; [done|exact Hk|by left].
  - injection E3 as <- <-. refine (Hab _ (set_recv (Some b) (Some h) None (set_cs 13 x)) _ _ E1); [|done].
    apply (at_put _ (set_cs 13 x)); [by apply at_world|done].
Qed.

(** the effect on the control state of one action of the service of a message *)
Definition quiet (f : hubw T -> res (hubw T * step)) : Prop :=
  forall g x l g' s, at_ g x l -> f g = Ok (g', s) ->
    exists x', at_ g' x' l /\ kept x x' /\ cs x' = cs x /\ (s = Next \/ s = Again Aborting).

Lemma quiet_msgid : quiet (fun g => act_msgid_check g c).
Proof.
  intros g x l g' s Ha. unfold act_msgid_check. rewrite (at_get _ _ _ Ha), bind_ret.
  intros (m & _ & (M & _ & E)%bind_Ok)%bind_Ok. destruct (Message.m_msgid M =? recv_count x).
  - injection E as <- <-. eexists. split; [by apply (at_put _ x)|]. split_and!; auto; done.
  - apply bind_Ok in E as (H & _ & [= <- <-]). exists x. split; [by apply at_world|]. split_and!; auto; done.
Qed.

Lemma quiet_service : quiet (fun g => act_service o g c).
Proof.
  intros g x l g' s Ha. unfold act_service. rewrite (at_get _ _ _ Ha), bind_ret.
  intros (m & _ & ([ok w] & _ & E)%bind_Ok)%bind_Ok. injection E as <- <-.
  exists x. split; [by apply at_world|]. split_and!; auto; [done..|]. destruct ok; auto.
Qed.

Lemma quiet_clear : quiet (fun g => act_clear_recv g c).
Proof.
  intros g x l g' s Ha. unfold act_clear_recv.
  destruct (at_update _ _ l (set_recv None None None) Ha) as (g3 & E3 & Ha3); [done|].
  rewrite E3, bind_ret. intros [= <- <-]. eexists; split; [exact Ha3|]. split_and!; auto; done.
Qed.

(** a list of quiet actions ends in the state of the event, or in [Aborting] *)
Lemma run_quiet ids : forall g x l g1 r1,
  Forall (fun a => quiet (fun g => connection_action o a g c)) ids -> at_ g x l ->
  run_micros o (map Act ids) g c = Ok (g1, r1) ->
  r1 = [] /\ exists x', at_ g1 x' l /\ kept x x' /\ (cs x' = cs x \/ cs x' = 11).
Proof.
  induction ids as [|a ids IH]; intros g x l g1 r1 Hq Ha E; cbn [map run_micros] in E.
  - injection E as <- <-. split; [done|]. exists x. split_and!; auto; done.
  - apply Forall_cons_1 in Hq as [Hqa Hq]. apply bind_Ok in E as ([g2 s] & E1 & E).
    destruct (Hqa g x l g2 s Ha E1) as (x2 & Ha2 & [Hk1 Hk2] & Hcs & [-> | ->]).
    + destruct (IH g2 x2 l g1 r1 Hq Ha2 E) as (-> & x3 & Ha3 & [Hk3 Hk4] & Hc3).
      split; [done|]. exists x3. split_and!; [done|split; congruence|rewrite <- Hcs; done].
    + destruct (at_update _ _ l (set_cs Aborting) Ha2) as (g3 & E3 & Ha3); [done|].
      rewrite E3, bind_ret in E. injection E as <- <-. split; [done|]. eexists; split_and!; [exact Ha3|by split|by right].
Qed.

Lemma exec_svc g x l rc g' r :
  at_ g x l -> cs x = 13 -> ConnectionState_exec o g c UEv_SVC_RECV = Ok (rc, g', r) ->
  r = [] /\ exists x', at_ g' x' l /\ kept x x' /\ (cs x' = 6 \/ cs x' = 11).
Proof.
  intros Ha Hcs E. destruct (exec_start g x l UEv_SVC_RECV C_Delivering C_Idle [11; 9; 7] rc g' r Ha Hcs) as (g1 & r1 & E1 & E2 & Ha1);
    [done..|].
  assert (Hq : Forall (fun a => quiet (fun g => connection_action o a g c)) [11; 9; 7]).
  { repeat constructor; [apply quiet_msgid|apply quiet_service|apply quiet_clear]. }
  destruct (run_quiet [11; 9; 7] _ _ l g1 r1 Hq Ha1 E1) as (-> & x2 & Ha2 & Hk & Hc).
  apply (finish_exec_at _ _ _ _ _ Ha2) in E2. injection E2 as -> -> ->. split; [done|]. by exists x2.
Qed.

(** logging in *)
Lemma exec_register g x l rc g' r :
  at_ g x l -> cs x = 4 -> ConnectionState_exec o g c UEv_PASS = Ok (rc, g', r) ->
  r = [] /\ rc = 0 /\ exists x', at_ g' x' l /\ client x' = client x /\
    ((cs x' = 5 /\ member x' <> None) \/ (cs x' = 11 /\ member x' = None)).
Proof.
  intros Ha Hcs E. destruct (exec_start g x l UEv_PASS C_Tuning C_Registering [4] rc g' r Ha Hcs) as (g1 & r1 & E1 & E2 & Ha1);
    [done..|].
  cbn [map run_micros connection_action] in E1. unfold act_register in E1. rewrite (at_get _ _ _ Ha1), bind_ret in E1.
  apply bind_Ok in E1 as ([g2 s2] & E3 & E1). apply bind_Ok in E3 as (p & _ & E3).
  apply bind_Ok in E3 as ([[m t] w] & _ & E3). injection E3 as <- <-.
  assert (Ha2 : at_ (put_conn c (set_member m (set_cs 5 x)) (put_world w (put_members t (put_conn c (set_cs 5 x) g))))
                  (set_member m (set_cs 5 x)) l) by (apply (at_put _ (set_cs 5 x)); [by apply at_world, at_members|done]).
  destruct m as [m|].
  - rewrite bool_decide_eq_false_2 in E1 by done. injection E1 as <- <-.
    apply (finish_exec_at _ _ _ _ _ Ha2) in E2. injection E2 as -> -> ->.
    split_and!; [done|done|]. eexists; split_and!; [exact Ha2|done|by left].
  - rewrite bool_decide_eq_true_2 in E1 by done.
    destruct (at_update _ _ l (set_cs Aborting) Ha2) as (g3 & E4 & Ha3); [done|].
    cbn in E1, E4. rewrite E4, bind_ret in E1. injection E1 as <- <-.
    apply (finish_exec_at _ _ _ _ _ Ha3) in E2. injection E2 as -> -> ->.
    split_and!; [done|done|]. eexists; split_and!; [exact Ha3|done|by right].
Qed.

(** opening, up to the key exchange *)
Lemma exec_opening g x l g1 g2 g3 rc1 rc2 rc3 r1 r2 r3 :
  at_ g x l -> cs x = 1 -> next x = None ->
  ConnectionState_exec o g c UEv_OPEN = Ok (rc1, g1, r1) ->
  ConnectionState_exec o g1 c UEv_KEY_PRESENT = Ok (rc2, g2, r2) ->
  ConnectionState_exec o g2 c UEv_PASS = Ok (rc3, g3, r3) ->
  r3 = [TuneEnd] /\ exists x', at_ g3 x' l /\ cs x' = 4 /\ kept x x'.
Proof.
  intros Ha Hcs Hnx E1 E2 E3.
  destruct (exec_start g x l UEv_OPEN C_start C_Accepting [0; 1] rc1 g1 r1 Ha Hcs) as (h1 & s1 & F1 & G1 & Ha1); [done..|].
  cbn [map run_micros connection_action] in F1. unfold act_begin in F1.
  destruct (at_update _ _ l (fun x => set_next None (set_recv_count 1 (set_send_count 1 x))) Ha1) as (i1 & U1 & Hb1); [done|].
  cbn in F1, U1. rewrite U1 in F1. cbn in F1. injection F1 as <- <-.
  apply (finish_exec_at _ _ _ _ _ Hb1) in G1. injection G1 as -> -> ->.
  destruct (exec_start _ _ l UEv_KEY_PRESENT C_Accepting C_KeyCheck [2] rc2 g2 r2 Hb1) as (h2 & s2 & F2 & G2 & Ha2); [done..|].
  cbn [map run_micros connection_action] in F2. unfold act_key_prep in F2. rewrite (at_get _ _ _ Ha2), bind_ret in F2.
  apply bind_Ok in F2 as ([j2 t2] & F3 & F2). apply bind_Ok in F3 as (k & _ & F3). injection F3 as <- <-. injection F2 as <- <-.
  match type of G2 with finish_exec (?g, _) _ = _ => assert (Ha3 : exists x2, at_ g x2 l /\ cs x2 = 3 /\ kept x x2) end.
  { eexists. split; [apply at_peers, (at_put _ _ _ l Ha2); done|done]. }
  destruct Ha3 as (x3 & Ha3 & Hc3 & Hk3). apply (finish_exec_at _ _ _ _ _ Ha3) in G2. injection G2 as -> -> ->.
  destruct (exec_start _ _ l UEv_PASS C_KeyCheck C_Tuning [3] rc3 g3 r3 Ha3) as (h4 & s4 & F4 & G4 & Ha4); [done..|].
  cbn in F4. injection F4 as <- <-. apply (finish_exec_at _ _ _ _ _ Ha4) in G4. injection G4 as -> -> ->.
  split; [done|]. eexists; split_and!; [exact Ha4|done|exact Hk3].
Qed.

(** ** After the yield *)

Lemma resume_closing g x l rc g' r :
  at_ g x l -> resume_logout o g c [] = Ok (rc, g', r) ->
  r = [] /\ rc = ConnectionState_invariant x /\ at_ g' (set_member None x) l.
Proof.
  intros Ha. unfold resume_logout. intros (g1 & E1 & E)%bind_Ok.
  pose proof (half_end_at g x l g1 Ha E1) as Ha1. cbn [run_micros] in E. rewrite bind_ret in E.
  apply (finish_exec_at _ _ _ _ _ Ha1) in E. by injection E as -> -> ->.
Qed.

Lemma resume_error g x l rc g' r :
  at_ g x l -> client x = None -> c ∉ l -> resume_logout o g c [RestClose] = Ok (rc, g', r) ->
  r = [] /\ exists x', at_ g' x' (c :: l) /\ cs x' = cs x /\ client x' = None /\ member x' = None.
Proof.
  intros Ha Hc Hl. unfold resume_logout. intros (g1 & E1 & E)%bind_Ok.
  pose proof (half_end_at g x l g1 Ha E1) as Ha1. cbn [run_micros] in E.
  destruct (rest_close_at _ _ l Ha1 Hc Hl) as (g2 & x2 & E3 & Ha2 & Hcs2 & Hc2 & Hm2 & _).
  rewrite E3, !bind_ret in E. apply (finish_exec_at _ _ _ _ _ Ha2) in E. injection E as -> -> ->.
  split; [done|]. exists x2. by rewrite Hc2.
Qed.

Lemma resume_tune_at g x l (b : bool) rc g' r :
  at_ g x l -> resume_tune o g c b [] = Ok (rc, g', r) ->
  at_ g' (if b then x else set_cs 11 x) l.
Proof.
  intros Ha. unfold resume_tune. destruct b; cbn [run_micros].
  - rewrite bind_ret. intros E. apply (finish_exec_at _ _ _ _ _ Ha) in E. by injection E as -> -> ->.
  - destruct (at_update _ _ l (set_cs Aborting) Ha) as (g3 & E3 & Ha3); [done|]. rewrite E3, bind_ret.
    intros E. apply (finish_exec_at _ _ _ _ _ Ha3) in E. by injection E as -> -> ->.
Qed.

(** ** The hub's close event *)

Lemma finish_other g d y g' rc :
  g_conns g !! d = Some y -> ConnectionState_finish g d = Ok (rc, g') ->
  g_closed g' = g_closed g /\ g_hub g' = g_hub g /\
  exists y', g_conns g' = <[d := y']> (g_conns g) /\ next y' = next y /\ cs y' = cs y /\ kept y y'.
Proof.
  intros Hd. unfold ConnectionState_finish, get_conn. rewrite Hd. cbn [need]. rewrite bind_ret.
  intros (w1 & _ & (w2 & _ & (g2 & E2 & E)%bind_Ok)%bind_Ok)%bind_Ok.
  set (g1 := put_conn d _ _) in E2.
  assert (Hg2 : g_closed g2 = g_closed g /\ g_hub g2 = g_hub g /\ g_conns g2 = g_conns g1).
  { destruct (peer y); [|by injection E2 as <-]. unfold Peer_destroy in E2.
    destruct (bool_decide _); [by injection E2 as <-|done]. }
  destruct Hg2 as (Hc2 & Hh2 & Hg2). unfold update_conn, get_conn in E. rewrite Hg2 in E. cbn in E.
  rewrite lookup_insert_eq in E. cbn in E. injection E as <- <-. cbn. rewrite Hc2, Hh2, Hg2. split_and!; [done|done|].
  cbn. rewrite insert_insert_eq. eexists; split_and!; [done|done..].
Qed.

Lemma hub_close_at ho g x l g' :
  at_ g x l -> Hub_connection_close ho g = Ok g' ->
  exists x', at_ g' x' l /\ cs x' = cs x /\ kept x x'.
Proof.
  intros Ha. pose proof Ha as [H1 H2 H3 H4]. unfold Hub_connection_close, Hub_exec. rewrite H4.
  change (hub_code H_Listening =? Hub_error) with false. rewrite hub_transition by done.
  cbn [hub_chart fst snd hub_actions hub_action]. rewrite bind_ret. unfold act_close. cbn [g_closed put_hub].
  intros ([z g1] & E1 & E)%bind_Ok. injection E as <-.
  apply bind_Ok in E1 as (g2 & E2 & [= <- <-]). apply bind_Ok in E2 as (g3 & E3 & [= <-]).
  apply bind_Ok in E3 as (d & Hd & E3). change (need AssertFail (g_closed g) = Ok d) in Hd.
  destruct (g_closed g) as [d'|] eqn:Ed; [|discriminate Hd]. injection Hd as ->.
  apply bind_Ok in E3 as ([rc g4] & E4 & [= <-]).
  destruct (is_list_live _ _ l d H2 (is_list_head _ _ _ H2)) as [y Hy].
  destruct (finish_other (put_hub (with_hcs (hub_code H_Listening) (g_hub g)) g) d y g4 rc Hy E4) as (Hc & Hh & y' & Hg & Hn & Hcs & Hk).
  assert (Hat : forall x', g_conns g4 !! c = Some x' -> at_ g4 x' l).
  { intros x' Hx'. split; [done| |done|by rewrite Hh]. rewrite Hg, Hc. cbn. rewrite Ed. by apply is_list_insert with y. }
  destruct (decide (d = c)) as [->|Hne].
  - exists y'. rewrite Hy in H1. injection H1 as ->. split_and!; [apply Hat; rewrite Hg; apply lookup_insert_eq|done|exact Hk].
  - exists x. split_and!; [apply Hat; rewrite Hg; cbn; by rewrite lookup_insert_ne|done|done].
Qed.
End Control.

End ConnectionProps.
