(* ===== verification/Tasks.v ===== *)
(** * Tasks: the two tasks of a connection, interleaved

    [ConnectionState_incoming] and [ConnectionState_outgoing] of
    [src/src/hub/connection_state.c] run as cooperative tasks: a task gives up the
    processor only while it waits for the network, for the queue or for the lock, and in
    [taskyield].  A program counter names the place where each task is stopped; a step
    runs one task from there to the next such place.  The network decides what
    [Peer_recv], [Peer_send] and [Peer_establish_receiver] return, and the other
    connections of the hub act between any two steps ([others]). *)

From Stdlib Require Import ZArith Lia.
From S2P Require Import Prelude Cstdlib Ragel Node Heap Message Routing Members Commands Connection Hub.
Import Cstdlib Ragel Node Routing Members Commands Connection Hub.
Local Open Scope Z_scope.

Module Tasks.

(** where the incoming task is stopped; the lists are the rest of an event under way *)
Inductive ipc :=
  | IStart                        (* in [ConnectionState_exec(state, UEv_OPEN)], at [open] *)
  | ITune (confirmed : bool) (r : list micro)   (* first [UEv_PASS], in the key exchange *)
  | IPass (r : list micro)        (* second [UEv_PASS] *)
  | IRead                         (* in [Peer_recv] *)
  | ILock                         (* in [ConnectionState_lock] *)
  | IRecv (r : list micro)        (* [UEv_MSG_RECV] *)
  | ISvc (r : list micro)         (* [UEv_SVC_RECV] *)
  | IYield                        (* in [ConnectionState_unlock] *)
  | IClose (r : list micro)       (* [UEv_READ_CLOSE] *)
  | IHub                          (* back in [Hub_connection_handler], before [UEv_CLOSE] *)
  | IDone.

(** where the outgoing task is stopped *)
Inductive opc :=
  | ONone                         (* not created yet *)
  | OReady                        (* at the loop condition *)
  | OWait (m : Z)                 (* asleep in [MsgQueue_first] of the member's queue *)
  | OLock                         (* in [ConnectionState_lock] *)
  | OQueued (r : list micro)      (* [UEv_MSG_QUEUED] *)
  | OSend (hdr : option loc)      (* in [Peer_send] *)
  | OSent (r : list micro)        (* [UEv_MSG_SENT] *)
  | OFail (r : list micro)        (* [UEv_FAIL] *)
  | OClose (r : list micro)       (* [UEv_WRITE_CLOSE] *)
  | ODone.

Inductive who := Incoming | Outgoing.

#[global] Instance who_eq_dec : EqDecision who.
Proof. solve_decision. Defined.
#[global] Instance micro_eq_dec : EqDecision micro.
Proof. solve_decision. Defined.

(** the hub, the connection's two tasks and the owner of its lock *)
Record config (T : Type) := Config {
  k_g : hubw T;
  k_i : ipc;
  k_o : opc;
  k_lock : option who
}.
Arguments Config {T}.
Arguments k_g {T}.
Arguments k_i {T}.
Arguments k_o {T}.
Arguments k_lock {T}.

Section Steps.
Context {T : Type} `{!MemberTree T} (ho : hub_outside) (c : Z).
Abbreviation o := (ho_conn ho).
Implicit Types g : hubw T.
Implicit Types k : config T.

(** ** The lock: [qlock] takes it or waits, [qunlock] hands it to a waiting task *)

Definition qunlock (i : ipc) (oo : opc) (w : who) : option who :=
  match w with
  | Incoming => match oo with OLock => Some Outgoing | _ => None end
  | Outgoing => match i with ILock => Some Incoming | _ => None end
  end.

(** ** The incoming task *)

(** behind the loop *)
Definition i_closed g (oo : opc) (l : option who) (r : list micro) : res (config T) :=
  match r with
  | [] => Ok (Config g IHub oo l)
  | _ => Ok (Config g (IClose r) oo l)
  end.

Definition i_finish g (oo : opc) (l : option who) : res (config T) :=
  '(_, g, r) ← ConnectionState_exec o g c UEv_READ_CLOSE;
  i_closed g oo l r.

(** the loop condition *)
Definition i_loop g (oo : opc) (l : option who) : res (config T) :=
  reads ← read_msg_begin g c;
  if (reads : bool) then Ok (Config g IRead oo l) else i_finish g oo l.

(** after the second [UEv_PASS]; the action [established] starts the other task *)
Definition i_passed g (oo : opc) (l : option who) (r : list micro) : res (config T) :=
  match r with
  | [] => i_loop g oo l
  | _ => Ok (Config g (IPass r) oo l)
  end.

Definition i_pass2 g (oo : opc) (l : option who) : res (config T) :=
  x ← get_conn g c;
  '(_, g, r) ← ConnectionState_exec o g c UEv_PASS;
  i_passed g (if cs x =? conn_code C_Registering then OReady else oo) l r.

(** the end of the critical section *)
Definition i_unlock g (oo : opc) : res (config T) :=
  Ok (Config g IYield oo (qunlock IYield oo Incoming)).

Definition i_serviced g (oo : opc) (l : option who) (r : list micro) : res (config T) :=
  match r with
  | [] => i_unlock g oo
  | _ => Ok (Config g (ISvc r) oo l)
  end.

Definition i_received g (oo : opc) (l : option who) (rc : Z) (r : list micro) : res (config T) :=
  match r with
  | [] =>
    x ← get_conn g c;
    if (rc =? 0) && bool_decide (recv_msg x <> None) then
      '(_, g, r) ← ConnectionState_exec o g c UEv_SVC_RECV;
      i_serviced g oo l r
    else i_unlock g oo
  | _ => Ok (Config g (IRecv r) oo l)
  end.

Definition i_locked g (oo : opc) : res (config T) :=
  '(rc, g, r) ← ConnectionState_exec o g c UEv_MSG_RECV;
  i_received g oo (Some Incoming) rc r.

(** [Peer_recv] has returned *)
Definition i_read g (oo : opc) (l : option who) (hdr body : option loc) : res (config T) :=
  '(more, g) ← read_msg_end g c hdr body;
  if (more : bool) then
    match l with
    | None => i_locked g oo
    | Some _ => Ok (Config g ILock oo l)
    end
  else i_finish g oo l.

(** ** The outgoing task *)

Definition o_closed g (i : ipc) (l : option who) (r : list micro) : res (config T) :=
  match r with
  | [] => Ok (Config g i ODone l)
  | _ => Ok (Config g i (OClose r) l)
  end.

Definition o_finish g (i : ipc) (l : option who) : res (config T) :=
  '(_, g, r) ← ConnectionState_exec o g c UEv_WRITE_CLOSE;
  o_closed g i l r.

Definition o_unlock g (i : ipc) : res (config T) :=
  Ok (Config g i OReady (qunlock i OReady Outgoing)).

Definition o_sent g (i : ipc) (l : option who) (r : list micro) : res (config T) :=
  match r with
  | [] => o_unlock g i
  | _ => Ok (Config g i (OSent r) l)
  end.

(** the [break] leaves the lock taken *)
Definition o_failed g (i : ipc) (l : option who) (r : list micro) : res (config T) :=
  match r with
  | [] => o_finish g i l
  | _ => Ok (Config g i (OFail r) l)
  end.

(** the result of [ConnectionState_send_msg] *)
Definition o_send_result g (i : ipc) (l : option who) (rc : bool) : res (config T) :=
  if rc then '(_, g, r) ← ConnectionState_exec o g c UEv_MSG_SENT; o_sent g i l r
  else '(_, g, r) ← ConnectionState_exec o g c UEv_FAIL; o_failed g i l r.

Definition o_queued g (i : ipc) (l : option who) (rc : Z) (r : list micro) : res (config T) :=
  match r with
  | [] =>
    if rc =? 0 then
      '(s, g) ← send_msg_begin g c;
      match s with
      | Some (hdr, body) =>
        _ ← assert_ (bool_decide (hdr <> None));
        _ ← assert_ (bool_decide (body <> None));
        Ok (Config g i (OSend hdr) l)
      | None => o_send_result g i l false
      end
    else o_unlock g i
  | _ => Ok (Config g i (OQueued r) l)
  end.

Definition o_locked g (i : ipc) : res (config T) :=
  '(rc, g, r) ← ConnectionState_exec o g c UEv_MSG_QUEUED;
  o_queued g i (Some Outgoing) rc r.

(** what the loop condition found *)
Definition o_dequeued g (i : ipc) (l : option who) (m : option Z) (d : dequeued) : res (config T) :=
  match d with
  | DeqSleep => m ← need AssertFail m; Ok (Config g i (OWait m) l)
  | DeqNone => o_finish g i l
  | DeqMsg =>
    match l with
    | None => o_locked g i
    | Some _ => Ok (Config g i OLock l)
    end
  end.

Definition o_loop g (i : ipc) (l : option who) : res (config T) :=
  x ← get_conn g c;
  '(d, g) ← ConnectionState_dequeue_msg g c;
  o_dequeued g i l (member x) d.

(** ** Steps *)

(** the queue of a sleeping reader is dead or has a message: it has been woken *)
Definition woken g (m : Z) : bool :=
  match w_members (g_world g) !! m with
  | Some mb => Message.q_dead (mb_queue mb) || negb (Message.MsgQueue_is_empty (mb_queue mb))
  | None => false
  end.

(** the task is in the run queue: [taskyield] of the other one returns after it has run *)
Definition i_ready k : bool :=
  match k_i k with
  | IYield => true
  | ILock => bool_decide (k_lock k = Some Incoming)
  | _ => false
  end.
Definition o_ready k : bool :=
  match k_o k with
  | OReady => true
  | OWait m => woken (k_g k) m
  | OLock => bool_decide (k_lock k = Some Outgoing)
  | _ => false
  end.

(** what the network, or the scheduler, lets happen next *)
Inductive input :=
  | InGo                                       (* the task runs on *)
  | InConfirm                                  (* the key exchange asks for confirmation *)
  | InEstablished (rc : bool)                  (* [Peer_establish_receiver] returns *)
  | InMessage (st : store) (hdr body : option loc)   (* [Peer_recv] returns, having allocated *)
  | InSent (rc : bool).                        (* [Peer_send] returns *)

(** a step of the incoming task; [None]: it cannot run with this input *)
Definition istep (k : config T) (n : input) : option (res (config T)) :=
  let '(Config g i oo l) := k in
  match i, n with
  | IStart, InGo => Some (
      '(_, g, _) ← ConnectionState_exec o g c UEv_OPEN;
      '(_, g, _) ← ConnectionState_exec o g c UEv_KEY_PRESENT;
      '(_, g, r) ← ConnectionState_exec o g c UEv_PASS;
      Ok (Config g (ITune false (tail r)) oo l))
  | ITune false r, InConfirm => Some (
      '(_, g, _) ← ConnectionState_confirm_key o g c;
      Ok (Config g (ITune true r) oo l))
  | ITune b r, InEstablished rc =>
    (* the peer is established only after the key was confirmed *)
    if rc && negb b then None
    else Some ('(_, g, _) ← resume_tune o g c rc r; i_pass2 g oo l)
  | IPass (LogoutEnd :: r), InGo =>
    if o_ready k then None else Some ('(_, g, r) ← resume_logout o g c r; i_passed g oo l r)
  | IRead, InMessage st hdr body => Some (i_read (put_world (put_store st (g_world g)) g) oo l hdr body)
  | ILock, InGo => if bool_decide (l = Some Incoming) then Some (i_locked g oo) else None
  | IRecv (LogoutEnd :: r), InGo =>
    if o_ready k then None else Some ('(rc, g, r) ← resume_logout o g c r; i_received g oo l rc r)
  | ISvc (LogoutEnd :: r), InGo =>
    if o_ready k then None else Some ('(_, g, r) ← resume_logout o g c r; i_serviced g oo l r)
  | IYield, InGo => Some (i_loop g oo l)
  | IClose (LogoutEnd :: r), InGo =>
    if o_ready k then None else Some ('(_, g, r) ← resume_logout o g c r; i_closed g oo l r)
  | IHub, InGo => Some (g ← Hub_connection_close ho g; Ok (Config g IDone oo l))
  | _, _ => None
  end.

(** a step of the outgoing task *)
Definition ostep (k : config T) (n : input) : option (res (config T)) :=
  let '(Config g i oo l) := k in
  match oo, n with
  | OReady, InGo => Some (o_loop g i l)
  | OWait m, InGo =>
    if woken g m then Some ('(d, g) ← dequeue_woken g c m; o_dequeued g i l (Some m) d) else None
  | OLock, InGo => if bool_decide (l = Some Outgoing) then Some (o_locked g i) else None
  | OQueued (LogoutEnd :: r), InGo =>
    if i_ready k then None else Some ('(rc, g, r) ← resume_logout o g c r; o_queued g i l rc r)
  | OSend hdr, InSent rc => Some (g ← send_msg_end g hdr; o_send_result g i l rc)
  | OSent (LogoutEnd :: r), InGo =>
    if i_ready k then None else Some ('(_, g, r) ← resume_logout o g c r; o_sent g i l r)
  | OFail (LogoutEnd :: r), InGo =>
    if i_ready k then None else Some ('(_, g, r) ← resume_logout o g c r; o_failed g i l r)
  | OClose (LogoutEnd :: r), InGo =>
    if i_ready k then None else Some ('(_, g, r) ← resume_logout o g c r; o_closed g i l r)
  | _, _ => None
  end.

(** a step of one of the tasks; the incoming task does not give up the processor before
    [UEv_CLOSE] *)
Definition task_step (k : config T) (w : who) (n : input) : option (res (config T)) :=
  match w, k_i k with
  | Incoming, _ => istep k n
  | Outgoing, IHub => None
  | Outgoing, _ => ostep k n
  end.

(** a schedule: the steps in order, stopping at a fault; [None] if a step is not enabled *)
Fixpoint run_schedule (k : config T) (ss : list (who * input)) : option (res (config T)) :=
  match ss with
  | [] => Some (Ok k)
  | (w, n) :: ss' =>
    match task_step k w n with
    | None => None
    | Some (Fault e) => Some (Fault e)
    | Some (Ok k') => run_schedule k' ss'
    end
  end.
End Steps.

End Tasks.
