(* ===== verification/TasksProps.v ===== *)
(** * TasksProps: the life of a connection under every interleaving

    An invariant that relates the places of the two tasks to the control state of the
    connection, proved by induction over the steps, and what follows: a connection is
    closed once, whoever closes it first, and the hub finds it in its list. *)

From Stdlib Require Import ZArith Lia.
From S2P Require Import Prelude Cstdlib Ragel Node Heap Message Routing Members Commands Connection Hub ConnectionProps Tasks.
Import Cstdlib Ragel Node Routing Members Commands Connection Hub ConnectionProps Tasks.
Local Open Scope Z_scope.

Module TasksProps.

Section Invariant.
Context {T : Type} `{!MemberTree T} (ho : hub_outside) (c : Z).
Implicit Types g : hubw T.
Implicit Types k : config T.
Implicit Types x : ConnectionState.

(** ** The invariant *)

(** half closed, or closed and in the list *)
Definition shut x (l : list Z) : Prop :=
  client x = None /\ ((cs x = 12 /\ c ∉ l) \/ ((cs x = 0 \/ cs x = 14) /\ c ∈ l)).

Definition is_send (oo : opc) : Prop := exists hdr, oo = OSend hdr.

(** places between two events *)
Definition i_between (i : ipc) : Prop := i = IRead \/ i = ILock \/ i = IYield.
Definition i_rest (i : ipc) (l : list Z) : Prop := i_between i \/ ((i = IHub \/ i = IDone) /\ c ∈ l).

Record lock_ok (i : ipc) (oo : opc) (lk : option who) : Prop := LockOk {
  lk_in : lk = Some Incoming -> i = ILock;
  lk_wait : oo = OLock -> lk <> None;
  lk_send : is_send oo -> lk = Some Outgoing
}.

Inductive ok g x (l : list Z) : ipc -> opc -> option who -> Prop :=
  | ok_start q : cs x = 1 -> next x = None -> client x = Some q -> member x = None -> c ∉ l ->
      ok g x l IStart ONone None
  | ok_tune (b : bool) q : client x = Some q -> c ∉ l ->
      (if b then cs x = 5 /\ member x <> None \/ cs x = 11 else cs x = 4) ->
      ok g x l (ITune b []) ONone None
  | ok_pass : client x = None -> cs x = 12 -> c ∉ l -> ok g x l (IPass [LogoutEnd]) ONone None
  | ok_early i : (i = IHub \/ i = IDone) -> shut x l -> c ∈ l -> ok g x l i ONone None
  | ok_open i oo lk q m : client x = Some q -> member x = Some m -> c ∉ l -> i_between i ->
      (oo = OReady \/ oo = OWait m \/ oo = OLock \/ is_send oo) ->
      ((cs x = 6 \/ cs x = 11) /\ ~ is_send oo \/ cs x = 10 /\ is_send oo) -> lock_ok i oo lk ->
      ok g x l i oo lk
  | ok_ilog i oo lk m : shut x l -> member x = Some m -> dying g m ->
      ((i = IRecv [LogoutEnd] \/ i = ISvc [LogoutEnd]) /\ lk = Some Incoming \/ i = IClose [LogoutEnd] /\ lk <> Some Incoming) ->
      (oo = OReady \/ oo = OWait m \/ oo = OLock /\ lk <> None \/ oo = ODone /\ c ∈ l) ->
      ok g x l i oo lk
  | ok_ierr oo lk : client x = None -> cs x = 0 -> c ∉ l ->
      (is_send oo \/ oo = OReady \/ oo = ODone) -> ok g x l (IClose [LogoutEnd; RestClose]) oo lk
  | ok_olog i oo lk : shut x l -> i_rest i l -> (oo = OQueued [LogoutEnd] \/ oo = OClose [LogoutEnd]) -> ok g x l i oo lk
  | ok_closed i oo lk : shut x l -> member x = None -> i_rest i l ->
      (oo = OReady \/ oo = OLock \/ is_send oo \/ oo = ODone) -> ok g x l i oo lk.

Definition inv k : Prop := exists x l, at_ c (k_g k) x l /\ ok (k_g k) x l (k_i k) (k_o k) (k_lock k).

(** ** Events on a connection that is shut *)

Abbreviation exec := (ConnectionState_exec (ho_conn ho)).

Lemma shut_done x l : shut x l -> c ∈ l -> ConnectionState_done x = true.
Proof.
  intros [_ [[_ Hn]|[Hc _]]] Hin; [done|]. unfold ConnectionState_done, ConnectionState_error, ConnectionState_first_final.
  destruct Hc as [-> | ->]; done.
Qed.

Definition close_event (e : HubEvent) : Prop := e = UEv_READ_CLOSE \/ e = UEv_WRITE_CLOSE.

#[local] Instance close_event_dec e : Decision (close_event e).
Proof. unfold close_event. destruct e; (by left; auto) || (right; naive_solver). Defined.

Lemma exec_shut g x l e rc g' r :
  at_ c g x l -> shut x l -> exec g c e = Ok (rc, g', r) ->
  r = [] /\ rc <> 0 /\ exists x' l', at_ c g' x' l' /\ shut x' l' /\ c ∈ l' /\ member x' = member x /\ g_world g' = g_world g.
Proof.
  intros Ha Hs E. pose proof Hs as [Hcl [[Hcs Hl]|[Hcs Hl]]].
  - destruct (decide (close_event e)) as [He|He].
    + destruct (exec_final _ c g x l e rc g' r Ha Hcs He Hcl Hl E) as (-> & -> & x' & Ha' & Hcs' & [Hk1 Hk2] & Hw).
      split_and!; [done|done|]. exists x', (c :: l). split_and!; [done| |set_solver|done|done]. split; [congruence|].
      right. split; [by right|set_solver].
    + destruct (exec_error_closed (ho_conn ho) c g x l C_Closing e rc g' r Ha Hcs) as (-> & -> & x' & Ha' & Hcs' & [Hk1 Hk2] & Hw);
        [destruct e; first [done|by destruct He; unfold close_event; auto]|done|done|done|done|done|].
      split_and!; [done|done|]. exists x', (c :: l). split_and!; [done| |set_solver|done|done]. split; [congruence|].
      right. split; [by left|set_solver].
  - destruct (exec_done _ c g x l e rc g' r Ha (shut_done x l Hs Hl) E) as (-> & -> & ->).
    split_and!; [done|done|]. exists x, l. split_and!; done.
Qed.

(** ** Pieces of the incoming task *)

Lemma i_finish_shut g x l oo lk k' :
  at_ c g x l -> shut x l -> i_finish ho c g oo lk = Ok k' ->
  exists g' x' l', k' = Config g' IHub oo lk /\ at_ c g' x' l' /\ shut x' l' /\ c ∈ l' /\ member x' = member x /\
    g_world g' = g_world g.
Proof.
  intros Ha Hs. unfold i_finish. intros ([[rc g'] r] & E1 & E)%bind_Ok.
  destruct (exec_shut g x l _ rc g' r Ha Hs E1) as (-> & _ & x' & l' & Ha' & Hs' & Hin & Hm & Hw).
  cbn in E. injection E as <-. by exists g', x', l'.
Qed.

Lemma shut_reads g x l b : at_ c g x l -> shut x l -> read_msg_begin g c = Ok b -> b = false.
Proof.
  intros Ha [Hc _]. unfold read_msg_begin. rewrite (at_get _ _ _ _ Ha), bind_ret, Hc.
  rewrite (bool_decide_eq_true_2 (None = None)), orb_true_r by done. by intros [= <-].
Qed.

Lemma i_loop_shut g x l oo lk k' :
  at_ c g x l -> shut x l -> i_loop ho c g oo lk = Ok k' ->
  exists g' x' l', k' = Config g' IHub oo lk /\ at_ c g' x' l' /\ shut x' l' /\ c ∈ l' /\ member x' = member x /\
    g_world g' = g_world g.
Proof.
  intros Ha Hs. unfold i_loop. intros (b & E1 & E)%bind_Ok. rewrite (shut_reads g x l b Ha Hs E1) in E.
  by eapply i_finish_shut.
Qed.

Lemma i_loop_open g x l oo lk k' q :
  at_ c g x l -> client x = Some q -> ConnectionState_done x = false -> i_loop ho c g oo lk = Ok k' ->
  k' = Config g IRead oo lk.
Proof.
  intros Ha Hc Hd. unfold i_loop, read_msg_begin. rewrite (at_get _ _ _ _ Ha), bind_ret, Hd, Hc.
  rewrite bool_decide_eq_false_2 by done. cbn [orb].
  intros (b & E1 & E)%bind_Ok. apply bind_Ok in E1 as (m & _ & (mb & _ & [= <-])%bind_Ok). by injection E as <-.
Qed.

(** the last event of the incoming task while the connection is open *)
Lemma i_finish_open g x l oo lk k' q m :
  at_ c g x l -> client x = Some q -> member x = Some m -> c ∉ l ->
  (oo = OReady \/ oo = OWait m \/ oo = OLock \/ is_send oo) ->
  ((cs x = 6 \/ cs x = 11) /\ ~ is_send oo \/ cs x = 10 /\ is_send oo) ->
  (oo = OLock -> lk <> None) -> lk <> Some Incoming ->
  i_finish ho c g oo lk = Ok k' -> inv k'.
Proof.
  intros Ha Hc Hm Hl Ho Hcs Hlk Hni. unfold i_finish. intros ([[rc g'] r] & E1 & E)%bind_Ok.
  destruct Hcs as [[Hcs Hns]|[Hcs Hs]].
  - assert (r = [LogoutEnd] /\ at_ c g' (set_client None (set_cs 12 x)) l /\ dying g' m) as (-> & Ha' & Hd).
    { destruct Hcs as [Hcs|Hcs].
      - by eapply (exec_closing (ho_conn ho) c g x l C_Idle _ [20]); eauto.
      - by eapply (exec_closing (ho_conn ho) c g x l C_Aborting _ [12; 20]); eauto. }
    injection E as <-. exists (set_client None (set_cs 12 x)), l. split; [done|].
    apply ok_ilog with m; [split; [done|by left]|done|done|by right|].
    destruct Ho as [->|[->|[->|?]]]; auto 6. done.
  - destruct (exec_error_open (ho_conn ho) c g x l C_Sending UEv_READ_CLOSE rc g' r q m Ha Hcs) as (-> & Ha' & Hd); [done..|].
    injection E as <-. exists (set_client None (set_cs 0 x)), l. split; [done|].
    apply ok_ierr; [done|done|done|by left].
Qed.

(** unlocking keeps the lock discipline *)
Lemma unlock_in oo : ~ is_send oo -> lock_ok IYield oo (qunlock IYield oo Incoming).
Proof.
  intros Hs. split; [by destruct oo|by intros ->|done].
Qed.

(** a received message, in the critical section of an open connection *)
Lemma i_locked_open g x l oo k' q m :
  at_ c g x l -> client x = Some q -> member x = Some m -> c ∉ l ->
  (oo = OReady \/ oo = OWait m \/ oo = OLock) -> cs x = 6 \/ cs x = 11 ->
  i_locked ho c g oo = Ok k' -> inv k'.
Proof.
  intros Ha Hc Hm Hl Ho Hcs. unfold i_locked. intros ([[rc g'] r] & E1 & E)%bind_Ok.
  assert (Hns : ~ is_send oo) by (intros [h ->]; naive_solver).
  assert (Hlog : forall g2 x2 i, at_ c g2 (set_client None (set_cs 12 x2)) l -> member x2 = Some m -> dying g2 m ->
            i = IRecv [LogoutEnd] \/ i = ISvc [LogoutEnd] -> inv (Config g2 i oo (Some Incoming))).
  { intros g2 x2 i Ha2 Hm2 Hd2 Hi. exists (set_client None (set_cs 12 x2)), l. split; [done|].
    apply ok_ilog with m; [split; [done|by left]|done|done|by left|]. naive_solver. }
  assert (Hgo : forall g2 x2, at_ c g2 x2 l -> kept x x2 -> cs x2 = 6 \/ cs x2 = 11 -> inv (Config g2 IYield oo (qunlock IYield oo Incoming))).
  { intros g2 x2 Ha2 [Hk1 Hk2] Hc2. exists x2, l. split; [done|].
    apply ok_open with q m; [congruence|congruence|done|unfold i_between; auto|naive_solver|by left|by apply unlock_in]. }
  destruct Hcs as [Hcs|Hcs].
  - destruct (exec_recv _ c g x l rc g' r Ha Hcs E1) as (-> & -> & x1 & Ha1 & [Hk1 Hk2] & Hc1).
    cbn [i_received] in E. rewrite (at_get _ _ _ _ Ha1), bind_ret in E.
    destruct (recv_msg x1) as [mm|] eqn:Em.
    + rewrite bool_decide_eq_true_2 in E by done. cbn [Z.eqb andb] in E. apply bind_Ok in E as ([[rc2 g2] r2] & E2 & E).
      destruct Hc1 as [[Hc1 _]|Hc1].
      * destruct (exec_svc _ c g' x1 l rc2 g2 r2 Ha1 Hc1 E2) as (-> & x2 & Ha2 & [Hk3 Hk4] & Hc2).
        injection E as <-. apply (Hgo g2 x2); [done|split; congruence|done].
      * destruct (exec_closing (ho_conn ho) c g' x1 l C_Aborting UEv_SVC_RECV [12; 20] rc2 g2 r2 q m) as (-> & Ha2 & Hd2);
          try done; [by right|congruence|congruence|]. injection E as <-.
        apply (Hlog g2 x1); [done|congruence|done|by right].
    + rewrite bool_decide_eq_false_2, andb_false_r in E by (by intros []). injection E as <-.
      apply (Hgo g' x1); [done|done|]. destruct Hc1 as [[_ ?]|?]; [done|by right].
  - destruct (exec_closing (ho_conn ho) c g x l C_Aborting UEv_MSG_RECV [12; 20] rc g' r q m) as (-> & Ha2 & Hd2);
      try done; [by right|]. injection E as <-. apply (Hlog g' x); [done|done|done|by left].
Qed.

Lemma i_locked_shut g x l oo k' :
  at_ c g x l -> shut x l -> i_locked ho c g oo = Ok k' ->
  exists g' x' l', k' = Config g' IYield oo (qunlock IYield oo Incoming) /\ at_ c g' x' l' /\ shut x' l' /\ c ∈ l' /\
    member x' = member x /\ g_world g' = g_world g.
Proof.
  intros Ha Hs. unfold i_locked. intros ([[rc g'] r] & E1 & E)%bind_Ok.
  destruct (exec_shut g x l _ rc g' r Ha Hs E1) as (-> & Hrc & x' & l' & Ha' & Hs' & Hin & Hm & Hw).
  cbn [i_received] in E. rewrite (at_get _ _ _ _ Ha'), bind_ret, (proj2 (Z.eqb_neq _ _) Hrc) in E.
  injection E as <-. by exists g', x', l'.
Qed.

(** ** Pieces of the outgoing task *)

Lemma o_finish_shut g x l i lk k' :
  at_ c g x l -> shut x l -> o_finish ho c g i lk = Ok k' ->
  exists g' x' l', k' = Config g' i ODone lk /\ at_ c g' x' l' /\ shut x' l' /\ c ∈ l' /\ member x' = member x /\
    g_world g' = g_world g.
Proof.
  intros Ha Hs. unfold o_finish. intros ([[rc g'] r] & E1 & E)%bind_Ok.
  destruct (exec_shut g x l _ rc g' r Ha Hs E1) as (-> & _ & x' & l' & Ha' & Hs' & Hin & Hm & Hw).
  cbn in E. injection E as <-. by exists g', x', l'.
Qed.

Lemma o_finish_open g x l i lk k' q m :
  at_ c g x l -> client x = Some q -> member x = Some m -> c ∉ l -> i_between i -> cs x = 6 \/ cs x = 11 ->
  o_finish ho c g i lk = Ok k' -> inv k'.
Proof.
  intros Ha Hc Hm Hl Hi Hcs. unfold o_finish. intros ([[rc g'] r] & E1 & E)%bind_Ok.
  assert (r = [LogoutEnd] /\ at_ c g' (set_client None (set_cs 12 x)) l /\ dying g' m) as (-> & Ha' & Hd).
  { destruct Hcs as [Hcs|Hcs].
    - by eapply (exec_closing (ho_conn ho) c g x l C_Idle _ [20]); eauto.
    - by eapply (exec_closing (ho_conn ho) c g x l C_Aborting _ [12; 20]); eauto. }
  injection E as <-. exists (set_client None (set_cs 12 x)), l. split; [done|].
  apply ok_olog; [split; [done|by left]|by left|by right].
Qed.

Lemma send_begin_at g x l s g' :
  at_ c g x l -> ConnectionState_done x = false -> send_msg_begin g c = Ok (s, g') ->
  exists hdr body x', s = Some (hdr, body) /\ at_ c g' x' l /\ cs x' = cs x /\ kept x x' /\ member x <> None.
Proof.
  intros Ha Hd. unfold send_msg_begin. rewrite (at_get _ _ _ _ Ha), bind_ret, Hd.
  intros ([hdr st] & _ & E)%bind_Ok. apply bind_Ok in E as (m & Hm & E). apply bind_Ok in E as (mb & _ & E).
  apply bind_Ok in E as (msg & _ & E). apply bind_Ok in E as (M & _ & [= <- <-]).
  eexists _, _, _. split_and!; [done|apply at_world, (at_put c _ x); done|done|done|]. by destruct (member x).
Qed.

Lemma unlock_out i : i_between i -> lock_ok i OReady (qunlock i OReady Outgoing).
Proof. intros Hi. split; [by destruct i|done|]. by intros [h ?]. Qed.

(** a queued message, in the critical section of an open connection *)
Lemma o_locked_open g x l i k' q m :
  at_ c g x l -> client x = Some q -> member x = Some m -> c ∉ l -> i_between i -> cs x = 6 \/ cs x = 11 ->
  o_locked ho c g i = Ok k' -> inv k'.
Proof.
  intros Ha Hc Hm Hl Hi Hcs. unfold o_locked. intros ([[rc g'] r] & E1 & E)%bind_Ok. destruct Hcs as [Hcs|Hcs].
  - destruct (exec_queued (ho_conn ho) c g x l rc g' r Ha Hcs E1) as (-> & -> & Ha1).
    cbn [o_queued Z.eqb] in E. apply bind_Ok in E as ([s g2] & E2 & E).
    destruct (send_begin_at g' _ l s g2 Ha1 eq_refl E2) as (hdr & body & x2 & -> & Ha2 & Hc2 & [Hk1 Hk2] & _).
    apply bind_Ok in E as (_ & _ & E). apply bind_Ok in E as (_ & _ & E). injection E as <-.
    exists x2, l. split; [done|].
    assert (Hs : is_send (OSend hdr)) by (by exists hdr).
    apply ok_open with q m; [by rewrite Hk1|by rewrite Hk2|done|done|auto|by right|]. split; done.
  - destruct (exec_closing (ho_conn ho) c g x l C_Aborting UEv_MSG_QUEUED [12; 20] rc g' r q m) as (-> & Ha2 & _);
      try done; [by right|]. injection E as <-. exists (set_client None (set_cs 12 x)), l. split; [done|].
    apply ok_olog; [split; [done|by left]|by left|by left].
Qed.

Lemma o_locked_shut g x l i k' :
  at_ c g x l -> shut x l -> o_locked ho c g i = Ok k' ->
  exists g' x' l', k' = Config g' i OReady (qunlock i OReady Outgoing) /\ at_ c g' x' l' /\ shut x' l' /\ c ∈ l' /\
    member x' = member x /\ g_world g' = g_world g.
Proof.
  intros Ha Hs. unfold o_locked. intros ([[rc g'] r] & E1 & E)%bind_Ok.
  destruct (exec_shut g x l _ rc g' r Ha Hs E1) as (-> & Hrc & x' & l' & Ha' & Hs' & Hin & Hm & Hw).
  cbn [o_queued] in E. rewrite (proj2 (Z.eqb_neq _ _) Hrc) in E. injection E as <-. by exists g', x', l'.
Qed.

(** the loop condition *)
Lemma take_first_at g x l f d g' :
  at_ c g x l -> take_first g c f = Ok (d, g') ->
  exists x', at_ c g' x' l /\ cs x' = cs x /\ kept x x' /\ g_world g' = g_world g /\
    match f with
    | Message.FirstSleep => d = DeqSleep
    | Message.FirstMsg _ => d = DeqMsg
    | Message.FirstNull => d = DeqNone
    end.
Proof.
  intros Ha. destruct f; cbn [take_first].
  - unfold update_conn. rewrite (at_get _ _ _ _ Ha), !bind_ret. intros [= <- <-].
    eexists; split; [by apply (at_put c _ x)|]. split_and!; done.
  - unfold update_conn. rewrite (at_get _ _ _ _ Ha), !bind_ret. intros [= <- <-].
    eexists; split; [by apply (at_put c _ x)|]. split_and!; done.
  - intros [= <- <-]. exists x. by split_and!.
Qed.

(** what the outgoing task does with an open connection after looking into the queue *)
Lemma o_dequeued_open g x l i lk k' q m d :
  at_ c g x l -> client x = Some q -> member x = Some m -> c ∉ l -> i_between i -> cs x = 6 \/ cs x = 11 ->
  (lk = Some Incoming -> i = ILock) ->
  o_dequeued ho c g i lk (Some m) d = Ok k' -> inv k'.
Proof.
  intros Ha Hc Hm Hl Hi Hcs Hlk. assert (Hns : forall oo, ~ is_send oo -> (cs x = 6 \/ cs x = 11) /\ ~ is_send oo \/ cs x = 10 /\ is_send oo)
    by (intros; by left).
  destruct d; cbn [o_dequeued].
  - destruct lk as [w|]; [|by eapply o_locked_open]. intros [= <-]. exists x, l. split; [done|].
    apply ok_open with q m; [done|done|done|done|auto|apply Hns; by intros []|]. split; [done|done|by intros []].
  - by eapply o_finish_open.
  - cbn. intros [= <-]. exists x, l. split; [done|].
    apply ok_open with q m; [done|done|done|done|auto|apply Hns; by intros []|]. split; [done|done|by intros []].
Qed.

Lemma o_loop_open g x l i lk k' q m :
  at_ c g x l -> client x = Some q -> member x = Some m -> c ∉ l -> i_between i -> cs x = 6 \/ cs x = 11 ->
  (lk = Some Incoming -> i = ILock) ->
  o_loop ho c g i lk = Ok k' -> inv k'.
Proof.
  intros Ha Hc Hm Hl Hi Hcs Hlk. unfold o_loop, ConnectionState_dequeue_msg.
  assert (Hd : ConnectionState_done x = false) by (unfold ConnectionState_done; by destruct Hcs as [-> | ->]).
  rewrite (at_get _ _ _ _ Ha), !bind_ret, Hd, Hm. cbn [need]. rewrite bind_ret.
  intros ([d g1] & E1 & E)%bind_Ok. apply bind_Ok in E1 as (f & _ & E1).
  destruct (take_first_at g x l f d g1 Ha E1) as (x1 & Ha1 & Hc1 & [Hk1 Hk2] & _).
  by eapply (o_dequeued_open g1 x1 l i lk k' q m d); try done; rewrite ?Hc1, ?Hk1, ?Hk2.
Qed.

(** the reader of a dying queue gets nothing *)
Lemma dying_first g m f : dying g m -> Member_first_msg (g_world g) m = Ok f -> f = Message.FirstNull.
Proof.
  intros (mb & Hmb & Hd). unfold Member_first_msg, get_member. rewrite Hmb. cbn [need]. rewrite bind_ret.
  unfold Message.MsgQueue_first. rewrite Hd. by intros [= <-].
Qed.

Lemma o_loop_dying g x l i lk k' m :
  at_ c g x l -> shut x l -> member x = Some m -> dying g m -> o_loop ho c g i lk = Ok k' ->
  exists g' x' l', k' = Config g' i ODone lk /\ at_ c g' x' l' /\ shut x' l' /\ c ∈ l' /\ member x' = member x /\
    g_world g' = g_world g.
Proof.
  intros Ha Hs Hm Hdy. unfold o_loop, ConnectionState_dequeue_msg. rewrite (at_get _ _ _ _ Ha), !bind_ret.
  destruct (ConnectionState_done x).
  - rewrite bind_ret. cbn [o_dequeued]. by apply (o_finish_shut g x l).
  - rewrite Hm. cbn [need]. rewrite bind_ret. intros ([d g1] & E1 & E)%bind_Ok. apply bind_Ok in E1 as (f & Ef & E1).
    rewrite (dying_first g m f Hdy Ef) in E1.
    destruct (take_first_at g x l _ d g1 Ha E1) as (x1 & Ha1 & Hc1 & [Hk1 Hk2] & Hw & ->). cbn [o_dequeued] in E.
    assert (Hs1 : shut x1 l) by (unfold shut in *; by rewrite Hc1, Hk1).
    destruct (o_finish_shut g1 x1 l i lk k' Ha1 Hs1 E) as (g' & x' & l' & -> & ? & ? & ? & ? & ?).
    exists g', x', l'. split_and!; try done; congruence.
Qed.

Lemma o_loop_done g x l i lk k' :
  at_ c g x l -> ConnectionState_done x = true -> o_loop ho c g i lk = Ok k' -> k' = Config g i ODone lk.
Proof.
  intros Ha Hd. unfold o_loop, ConnectionState_dequeue_msg. rewrite (at_get _ _ _ _ Ha), !bind_ret, Hd, bind_ret.
  cbn [o_dequeued]. unfold o_finish. intros ([[rc g'] r] & E1 & E)%bind_Ok.
  destruct (exec_done (ho_conn ho) c g x l _ rc g' r Ha Hd E1) as (_ & -> & ->). by injection E as <-.
Qed.

(** the end of a transmission *)
Lemma o_result_open g x l i lk k' q m (b : bool) :
  at_ c g x l -> client x = Some q -> member x = Some m -> c ∉ l -> i_between i -> cs x = 10 ->
  o_send_result ho c g i lk b = Ok k' -> inv k'.
Proof.
  intros Ha Hc Hm Hl Hi Hcs. unfold o_send_result. destruct b; intros ([[rc g'] r] & E1 & E)%bind_Ok.
  - destruct (exec_sent (ho_conn ho) c g x l rc g' r Ha Hcs E1) as (-> & x1 & Ha1 & Hc1 & [Hk1 Hk2]).
    injection E as <-. exists x1, l. split; [done|].
    apply ok_open with q m; [congruence|congruence|done|done|auto|left; split; [auto|by intros []]|by apply unlock_out].
  - destruct (exec_fail (ho_conn ho) c g x l rc g' r Ha Hcs E1) as (-> & x1 & Ha1 & Hc1 & [Hk1 Hk2]).
    cbn [o_failed] in E. apply (o_finish_open g' x1 l i lk k' q m); try done; [congruence|congruence|by right].
Qed.

Lemma o_result_done g x l i lk k' (b : bool) :
  at_ c g x l -> ConnectionState_done x = true -> o_send_result ho c g i lk b = Ok k' ->
  k' = if b then Config g i OReady (qunlock i OReady Outgoing) else Config g i ODone lk.
Proof.
  intros Ha Hd. unfold o_send_result. destruct b; intros ([[rc g'] r] & E1 & E)%bind_Ok;
    destruct (exec_done (ho_conn ho) c g x l _ rc g' r Ha Hd E1) as (_ & -> & ->).
  - by injection E as <-.
  - cbn [o_failed] in E. unfold o_finish in E. apply bind_Ok in E as ([[rc2 g2] r2] & E2 & E).
    destruct (exec_done (ho_conn ho) c g x l _ rc2 g2 r2 Ha Hd E2) as (_ & -> & ->). by injection E as <-.
Qed.

Lemma o_result_shut g x l i lk k' (b : bool) :
  at_ c g x l -> shut x l -> o_send_result ho c g i lk b = Ok k' ->
  exists g' x' l' oo lk', k' = Config g' i oo lk' /\ (oo = OReady \/ oo = ODone) /\ at_ c g' x' l' /\ shut x' l' /\ c ∈ l' /\
    member x' = member x.
Proof.
  intros Ha Hs. unfold o_send_result. destruct b; intros ([[rc g'] r] & E1 & E)%bind_Ok;
    destruct (exec_shut g x l _ rc g' r Ha Hs E1) as (-> & _ & x' & l' & Ha' & Hs' & Hin & Hm & Hw).
  - injection E as <-. exists g', x', l'. do 2 eexists. split_and!; [done|by left|done..].
  - cbn [o_failed] in E. destruct (o_finish_shut g' x' l' i lk k' Ha' Hs' E) as (g2 & x2 & l2 & -> & ? & ? & ? & ? & ?).
    exists g2, x2, l2. do 2 eexists. split_and!; [done|by right|done|done|done|congruence].
Qed.

(** ** The steps of the incoming task *)

Lemma inv_hub g x l oo lk :
  at_ c g x l -> shut x l -> c ∈ l -> oo = ONone /\ lk = None \/ (oo = OQueued [LogoutEnd] \/ oo = OClose [LogoutEnd]) \/
    member x = None /\ (oo = OReady \/ oo = OLock \/ is_send oo \/ oo = ODone) ->
  inv (Config g IHub oo lk).
Proof.
  intros Ha Hs Hin Ho. exists x, l. split; [done|]. cbn. destruct Ho as [[-> ->]|[Ho|[Hm Ho]]].
  - apply ok_early; auto.
  - apply ok_olog; [done|right; auto|done].
  - apply ok_closed; [done|done|right; auto|done].
Qed.

(** the read of the incoming task has ended, or it has got the lock *)
Lemma i_events g x l i oo lk k' :
  at_ c g x l -> ok g x l i oo lk -> i_between i ->
  (i_finish ho c g oo lk = Ok k' /\ i = IRead -> inv k') /\
  (i_locked ho c g oo = Ok k' /\ (lk = None \/ lk = Some Incoming) -> inv k') /\
  (i_loop ho c g oo lk = Ok k' /\ i = IYield -> inv k').
Proof.
  intros Ha Hok Hi.
  inversion Hok as [|b q ? ? ?|? ? ?|? Hi' ? ?|? ? ? q m Hc Hm Hl _ Ho Hcs Hlk|? ? ? m ? ? ? Hi' ?|? ? ? ? ? Ho|? ? ? Hs Hr Ho|? ? ? Hs Hm Hr Ho]; subst;
    try (exfalso; unfold i_between in Hi; naive_solver).
  - split_and!.
    + intros [E ->]. eapply (i_finish_open g x); eauto; [apply Hlk|]. intros Hni. by apply (lk_in _ _ _ Hlk) in Hni.
    + intros [E Hlk']. assert (Hns : ~ is_send oo) by (intros Hs; pose proof (lk_send _ _ _ Hlk Hs); destruct Hlk'; congruence).
      eapply (i_locked_open g x l oo k' q m); try done; [naive_solver|naive_solver].
    + intros [E ->]. eapply (i_loop_open g x) in E; [|done|done|unfold ConnectionState_done; destruct Hcs as [[[-> | ->] _]|[-> _]]; done].
      subst. exists x, l. split; [done|]. cbn. apply ok_open with q m; try done; [by left|].
      destruct Hlk as [H1 H2 H3]. split; [|done|done]. intros ->. by specialize (H1 eq_refl).
  - split_and!.
    + intros [E _]. destruct (i_finish_shut g x l oo lk k' Ha Hs E) as (g' & x' & l' & -> & ? & ? & ? & _). eapply inv_hub; eauto.
    + intros [E _]. destruct (i_locked_shut g x l oo k' Ha Hs E) as (g' & x' & l' & -> & ? & ? & ? & _).
      exists x', l'. split; [done|]. apply ok_olog; [done|left; unfold i_between; auto|done].
    + intros [E _]. destruct (i_loop_shut g x l oo lk k' Ha Hs E) as (g' & x' & l' & -> & ? & ? & ? & _). eapply inv_hub; eauto.
  - split_and!.
    + intros [E _]. destruct (i_finish_shut g x l oo lk k' Ha Hs E) as (g' & x' & l' & -> & ? & ? & ? & Hm' & _).
      eapply inv_hub; eauto. right; right. by rewrite Hm'.
    + intros [E _]. destruct (i_locked_shut g x l oo k' Ha Hs E) as (g' & x' & l' & -> & ? & ? & ? & Hm' & _).
      exists x', l'. split; [done|]. apply ok_closed; [done|by rewrite Hm'|left; unfold i_between; auto|done].
    + intros [E _]. destruct (i_loop_shut g x l oo lk k' Ha Hs E) as (g' & x' & l' & -> & ? & ? & ? & Hm' & _).
      eapply inv_hub; eauto. right; right. by rewrite Hm'.
Qed.

(** the invariant looks at the control state only *)
Lemma ok_frame g g' x x' l i oo lk :
  ok g x l i oo lk -> cs x' = cs x -> kept x x' -> next x' = next x -> (forall m, dying g m -> dying g' m) ->
  ok g' x' l i oo lk.
Proof.
  intros Hok Hcs [Hc Hm] Hn Hd.
  assert (Hs : shut x l -> shut x' l) by (unfold shut; by rewrite Hcs, Hc).
  destruct Hok; [eapply ok_start|eapply ok_tune|eapply ok_pass|eapply ok_early|eapply ok_open|eapply ok_ilog|eapply ok_ierr|eapply ok_olog|eapply ok_closed];
    rewrite ?Hcs, ?Hc, ?Hm, ?Hn; eauto.
Qed.

Lemma ok_wait g x l oo w : ok g x l IRead oo (Some w) -> ok g x l ILock oo (Some w).
Proof.
  assert (Hi : i_between ILock) by (unfold i_between; auto). intros Hok.
  inversion Hok as [| | | |? ? ? q m Hc Hm Hl _ Ho Hcs [H1 H2 H3]| | |? ? ? Hs Hr Ho|? ? ? Hs Hm Hr Ho]; subst; try naive_solver.
  - by apply ok_open with q m.
  - apply ok_olog; [done|by left|done].
  - apply ok_closed; [done|done|by left|done].
Qed.

Lemma istep_read g x l oo lk st hdr body k' :
  at_ c g x l -> ok g x l IRead oo lk ->
  i_read ho c (put_world (put_store st (g_world g)) g) oo lk hdr body = Ok k' -> inv k'.
Proof.
  intros Ha Hok. unfold i_read, read_msg_end. set (g1 := put_world _ g).
  assert (Ha1 : at_ c g1 x l) by (by apply at_world).
  rewrite (at_get _ _ _ _ Ha1), !bind_ret. set (x2 := set_recv body hdr (recv_msg x) x).
  assert (Ha2 : at_ c (put_conn c x2 g1) x2 l) by (by apply (at_put c g1 x)).
  assert (Hok2 : ok (put_conn c x2 g1) x2 l IRead oo lk) by (by eapply ok_frame).
  assert (Hi : i_between IRead) by (unfold i_between; auto).
  destruct (i_events _ _ l IRead oo lk k' Ha2 Hok2 Hi) as (H1 & H2 & _).
  destruct (bool_decide (body <> None)).
  - destruct lk as [w|]; [|intros E; apply H2; auto]. intros [= <-]. exists x2, l. split; [done|]. by apply ok_wait.
  - intros E. by apply H1.
Qed.

(** resuming from the yield of the logout *)
Lemma istep_logout g x l i oo lk r k' (f : Z -> hubw T -> list micro -> res (config T)) :
  at_ c g x l -> ok g x l i oo lk -> i = IRecv (LogoutEnd :: r) /\ f = (fun rc g r => i_received ho c g oo lk rc r) \/
    i = ISvc (LogoutEnd :: r) /\ f = (fun rc g r => i_serviced g oo lk r) \/
    i = IClose (LogoutEnd :: r) /\ f = (fun rc g r => i_closed g oo lk r) ->
  o_ready (Config g i oo lk) = false ->
  ('(rc, g, r) ← resume_logout (ho_conn ho) g c r; f rc g r) = Ok k' -> inv k'.
Proof.
  intros Ha Hok Hf Hr. intros ([[rc g'] r'] & E1 & E)%bind_Ok.
  assert (Hy : i_rest IYield l) by (left; unfold i_between; auto).
  inversion Hok as [|b ? ? ?|? ? ?|? [-> | ->] ? ?|? ? ? ? ? ? ? ? Hi|? ? ? m Hs Hm Hd Hi Ho|? ? Hc Hcs Hl Ho|? ? ? ? Hi|? ? ? ? ? Hi]; subst;
    try (exfalso; unfold i_rest, i_between in *; naive_solver).
  - assert (r = []) as -> by naive_solver.
    destruct (resume_closing (ho_conn ho) c g x l rc g' r' Ha E1) as (-> & Hrc & Ha').
    assert (Hs' : shut (set_member None x) l) by done.
    assert (Ho' : oo = OLock /\ lk <> None \/ oo = ODone /\ c ∈ l).
    { destruct Ho as [->|[->|Ho]]; [done| |done]. exfalso. cbn in Hr. unfold woken in Hr.
      destruct Hd as (mb & Hmb & Hdead). rewrite Hmb, Hdead in Hr. done. }
    assert (Hoo : forall g2 x2 l2, at_ c g2 x2 l2 -> shut x2 l2 -> member x2 = None ->
              inv (Config g2 IYield oo (qunlock IYield oo Incoming))).
    { intros g2 x2 l2 Ha2 Hs2 Hm2. exists x2, l2. split; [done|].
      apply ok_closed; [done|done|left; unfold i_between; auto|naive_solver]. }
    destruct Hf as [[-> ->]|[[-> ->]|[-> ->]]].
    + cbn [i_received] in E. rewrite (at_get _ _ _ _ Ha'), bind_ret in E.
      destruct ((rc =? 0) && _); [|injection E as <-; by eapply Hoo].
      apply bind_Ok in E as ([[rc2 g2] r2] & E2 & E).
      destruct (exec_shut g' _ l _ rc2 g2 r2 Ha' Hs' E2) as (-> & _ & x2 & l2 & Ha2 & Hs2 & _ & Hm2 & _).
      injection E as <-. by eapply Hoo.
    + injection E as <-. by eapply Hoo.
    + destruct Ho' as [[-> Hlk]|[-> Hin]].
      * exfalso. cbn in Hr. apply bool_decide_eq_false in Hr. destruct Hi as [[[?|?] _]|[_ Hi]]; [done..|].
        destruct lk as [[]|]; done.
      * injection E as <-. eapply inv_hub; [exact Ha'|done|done|auto 10].
  - destruct Hf as [[? _]|[[? _]|[[= <-] ->]]]; [done..|].
    destruct (resume_error (ho_conn ho) c g x l rc g' r' Ha Hc Hl E1) as (-> & x' & Ha' & Hcs' & Hc' & Hm').
    injection E as <-. eapply inv_hub; [exact Ha'| |set_solver|].
    + split; [done|]. right. split; [left; congruence|set_solver].
    + right; right. split; [done|]. naive_solver.
Qed.

(** the second pass event *)
Lemma i_pass2_inv g x l q k' :
  at_ c g x l -> client x = Some q -> c ∉ l -> cs x = 5 /\ member x <> None \/ cs x = 11 ->
  i_pass2 ho c g ONone None = Ok k' -> inv k'.
Proof.
  intros Ha Hc Hl Hcs. unfold i_pass2. rewrite (at_get _ _ _ _ Ha), bind_ret.
  intros ([[rc g'] r] & E1 & E)%bind_Ok. destruct Hcs as [[Hcs Hm]|Hcs]; rewrite Hcs in E; cbn [conn_code Z.eqb Pos.eqb] in E.
  - destruct (exec_established (ho_conn ho) c g x l rc g' r Ha Hcs E1) as (-> & Ha1). cbn [i_passed] in E.
    destruct (member x) as [m|] eqn:Em; [|done].
    rewrite (i_loop_open g' _ l OReady None k' q Ha1 Hc eq_refl E).
    exists (set_cs 6 x), l. split; [done|]. cbn.
    apply ok_open with q m; [done|done|done|unfold i_between; auto|auto|left; split; [auto|by intros []]|].
    split; [done|done|by intros []].
  - destruct (member x) as [m|] eqn:Em.
    + destruct (exec_closing (ho_conn ho) c g x l C_Aborting UEv_PASS [12; 20] rc g' r q m) as (-> & Ha1 & _); try done; [by right|].
      injection E as <-. exists (set_client None (set_cs 12 x)), l. split; [done|]. by apply ok_pass.
    + destruct (exec_closing_alone (ho_conn ho) c g x l C_Aborting UEv_PASS [12; 20] rc g' r q) as (-> & Ha1); try done; [by right|].
      assert (Hs : shut (set_client None (set_cs 12 x)) l) by (split; [done|by left]).
      destruct (i_loop_shut g' _ l ONone None k' Ha1 Hs E) as (g2 & x2 & l2 & -> & Ha2 & Hs2 & Hin & _).
      eapply inv_hub; [exact Ha2|done|done|auto].
Qed.

Lemma istep_hub g x l oo lk g' k' :
  at_ c g x l -> ok g x l IHub oo lk -> Hub_connection_close ho g = Ok g' -> k' = Config g' IDone oo lk -> inv k'.
Proof.
  intros Ha Hok E ->. destruct (hub_close_at c ho g x l g' Ha E) as (x' & Ha' & Hcs & Hk1 & Hk2).
  assert (Hsh : shut x l -> shut x' l) by (unfold shut; by rewrite Hcs, Hk1).
  exists x', l. split; [done|]. cbn.
  inversion Hok as [| | |? Hi Hs Hin|? ? ? ? ? ? ? ? Hi|? ? ? ? ? ? ? Hi ?| |? ? ? Hs Hr Ho|? ? ? Hs Hm Hr Ho]; subst;
    try (exfalso; unfold i_between in *; naive_solver).
  - apply ok_early; auto.
  - apply ok_olog; [auto|right; destruct Hr as [Hr|[_ Hr]]; [unfold i_between in Hr; naive_solver|auto]|done].
  - apply ok_closed; [auto|congruence|right; destruct Hr as [Hr|[_ Hr]]; [unfold i_between in Hr; naive_solver|auto]|done].
Qed.

(** the place is not one of this case *)
Ltac elsewhere :=
  exfalso; unfold i_rest, i_between in *;
  repeat match goal with H : _ \/ _ |- _ => destruct H | H : _ /\ _ |- _ => destruct H end; discriminate.

Lemma istep_inv k n k' : inv k -> istep ho c k n = Some (Ok k') -> inv k'.
Proof.
  intros (x & l & Ha & Hok). destruct k as [g i oo lk]. cbn [k_g k_i k_o k_lock] in *.
  destruct i as [|b r|r| | |r|r| |r| |], n as [| |rc|st hdr body|rc]; cbn [istep]; intros E; try done; try (by destruct b); try (by destruct r as [|[] r]).
  - (* IStart *)
    injection E as E. inversion Hok as [q Hcs Hn Hc Hm Hl| | | | | | | |]; subst; [|elsewhere..].
    apply bind_Ok in E as ([[rc1 g1] r1] & E1 & E). apply bind_Ok in E as ([[rc2 g2] r2] & E2 & E).
    apply bind_Ok in E as ([[rc3 g3] r3] & E3 & E).
    destruct (exec_opening (ho_conn ho) c g x l g1 g2 g3 _ _ _ _ _ _ Ha Hcs Hn E1 E2 E3) as (-> & x' & Ha' & Hcs' & Hk1 & Hk2).
    injection E as <-. exists x', l. split; [done|]. eapply ok_tune; [by rewrite Hk1|done|done].
  - (* ITune, confirm *)
    destruct b; cbn beta iota in E; [discriminate E|]. injection E as E.
    inversion Hok as [|b q Hc Hl Hcs| | | | | | |]; subst; [|elsewhere..].
    unfold ConnectionState_confirm_key in E. apply bind_Ok in E as ([[b g1] r1] & E1 & E).
    apply bind_Ok in E1 as ([[rc2 g2] r2] & E2 & [= <- <- <-]).
    destruct (exec_register (ho_conn ho) c g x l rc2 g2 r2 Ha Hcs E2) as (-> & -> & x' & Ha' & Hc' & Hcs').
    injection E as <-. exists x', l. split; [done|]. eapply ok_tune; [by rewrite Hc'|done|]. naive_solver.
  - (* ITune, established *)
    assert (Erb : rc = false \/ b = true) by (destruct b, rc; first [by left|by right|discriminate E]).
    replace (rc && negb b) with false in E by (destruct Erb as [-> | ->]; [done|by rewrite andb_false_r]).
    assert (E' : ('(_, g, _) ← resume_tune (ho_conn ho) g c rc r; i_pass2 ho c g oo lk) = Ok k') by (destruct b; congruence).
    clear E. rename E' into E. inversion Hok as [|b' q Hc Hl Hcs| | | | | | |]; subst; [|elsewhere..].
    apply bind_Ok in E as ([[rc2 g2] r2] & E2 & E).
    pose proof (resume_tune_at (ho_conn ho) c g x l rc rc2 g2 r2 Ha E2) as Ha2.
    eapply (i_pass2_inv g2 _ l q); [exact Ha2|by destruct rc|done| |exact E].
    destruct rc; [|by right]. by destruct Erb as [?| ->].
  - (* IPass *)
    inversion Hok as [| |Hc Hcs Hl| | | | | |]; subst; [|elsewhere..].
    cbn in E. injection E as E. apply bind_Ok in E as ([[rc2 g2] r2] & E2 & E).
    destruct (resume_closing (ho_conn ho) c g x l rc2 g2 r2 Ha E2) as (-> & _ & Ha2). cbn [i_passed] in E.
    assert (Hs : shut (set_member None x) l) by (split; [done|by left]).
    destruct (i_loop_shut g2 _ l ONone None k' Ha2 Hs E) as (g3 & x3 & l3 & -> & Ha3 & Hs3 & Hin & _).
    eapply inv_hub; [exact Ha3|done|done|auto].
  - (* IRead *) injection E as E. by eapply istep_read.
  - (* ILock *)
    case_bool_decide; [|done]. injection E as E. subst.
    destruct (i_events g x l ILock oo (Some Incoming) k' Ha Hok) as (_ & H & _); [unfold i_between; auto|by auto].
  - (* IRecv *)
    destruct r as [|[] r]; try done. destruct (o_ready _) eqn:Er; [done|]. injection E as E.
    eapply (istep_logout g x l _ oo lk r k'); [done|done|by left|done|exact E].
  - (* ISvc *)
    destruct r as [|[] r]; try done. destruct (o_ready _) eqn:Er; [done|]. injection E as E.
    eapply (istep_logout g x l _ oo lk r k'); [done|done|by right; left|done|exact E].
  - (* IYield *)
    injection E as E. destruct (i_events g x l IYield oo lk k' Ha Hok) as (_ & _ & H); [unfold i_between; auto|by auto].
  - (* IClose *)
    destruct r as [|[] r]; try done. destruct (o_ready _) eqn:Er; [done|]. injection E as E.
    eapply (istep_logout g x l _ oo lk r k'); [done|done|by right; right|done|exact E].
  - (* IHub *)
    injection E as E. apply bind_Ok in E as (g' & E1 & [= <-]). by eapply istep_hub.
Qed.
(** ** The steps of the outgoing task *)

(** nothing is left of the member: the loop condition ends the task or dereferences NULL *)
Lemma o_loop_alone g x l i lk k' :
  at_ c g x l -> shut x l -> member x = None -> o_loop ho c g i lk = Ok k' -> k' = Config g i ODone lk.
Proof.
  intros Ha Hs Hm E. destruct (ConnectionState_done x) eqn:Hd; [by eapply o_loop_done|].
  unfold o_loop, ConnectionState_dequeue_msg in E. rewrite (at_get _ _ _ _ Ha), !bind_ret, Hd, Hm in E. discriminate E.
Qed.

(** the reader of a dying queue wakes up to nothing *)
Lemma woken_dying g x l i lk m k' :
  at_ c g x l -> shut x l -> dying g m ->
  ('(d, g) ← dequeue_woken g c m; o_dequeued ho c g i lk (Some m) d) = Ok k' ->
  exists g' x' l', k' = Config g' i ODone lk /\ at_ c g' x' l' /\ shut x' l' /\ c ∈ l' /\ member x' = member x /\
    g_world g' = g_world g.
Proof.
  intros Ha Hs (mb & Hmb & Hdead) ([d g1] & E1 & E)%bind_Ok. unfold dequeue_woken, get_member in E1. rewrite Hmb in E1.
  cbn [need] in E1. rewrite bind_ret in E1. apply bind_Ok in E1 as (f & Ef & E1).
  unfold Message.MsgQueue_first_woken in Ef. rewrite Hdead in Ef. injection Ef as <-.
  destruct (take_first_at g x l _ d g1 Ha E1) as (x1 & Ha1 & Hc1 & [Hk1 Hk2] & Hw & ->). cbn [o_dequeued] in E.
  assert (Hs1 : shut x1 l) by (unfold shut in *; by rewrite Hc1, Hk1).
  destruct (o_finish_shut g1 x1 l i lk k' Ha1 Hs1 E) as (g' & x' & l' & -> & ? & ? & ? & ? & ?).
  exists g', x', l'. split_and!; try done; congruence.
Qed.

Lemma send_end_at g x l hdr g' : at_ c g x l -> send_msg_end g hdr = Ok g' -> at_ c g' x l.
Proof. intros Ha (st & _ & [= <-])%bind_Ok. by apply at_world. Qed.

Lemma ostep_open g x l i oo lk q m n k' :
  at_ c g x l -> client x = Some q -> member x = Some m -> c ∉ l -> i_between i ->
  (oo = OReady \/ oo = OWait m \/ oo = OLock \/ is_send oo) ->
  ((cs x = 6 \/ cs x = 11) /\ ~ is_send oo \/ cs x = 10 /\ is_send oo) -> lock_ok i oo lk ->
  ostep ho c (Config g i oo lk) n = Some (Ok k') -> inv k'.
Proof.
  intros Ha Hc Hm Hl Hi Ho Hcs Hlk.
  assert (Hcs' : ~ is_send oo -> cs x = 6 \/ cs x = 11) by naive_solver.
  destruct Ho as [->|[->|[->|[hdr ->]]]]; destruct n; cbn [ostep]; intros E; try done.
  - injection E as E. eapply (o_loop_open g x l i lk k' q m); try done; [apply Hcs'; by intros []|apply Hlk].
  - destruct (woken g m); [|done]. injection E as E. apply bind_Ok in E as ([d g1] & E1 & E).
    unfold dequeue_woken in E1. apply bind_Ok in E1 as (mb & _ & E1). apply bind_Ok in E1 as (f & _ & E1).
    destruct (take_first_at g x l f d g1 Ha E1) as (x1 & Ha1 & Hc1 & [Hk1 Hk2] & _).
    eapply (o_dequeued_open g1 x1 l i lk k' q m d); rewrite ?Hc1, ?Hk1, ?Hk2; try done; [apply Hcs'; by intros []|apply Hlk].
  - case_bool_decide; [|done]. injection E as E. eapply (o_locked_open g x); try done. apply Hcs'. by intros [].
  - injection E as E. apply bind_Ok in E as (g1 & E1 & E). pose proof (send_end_at _ _ _ _ _ Ha E1) as Ha1.
    eapply (o_result_open g1 x l i lk k' q m); try done. destruct Hcs as [[_ []]|[? _]]; [by exists hdr|done].
Qed.

Lemma ostep_ilog g x l i oo lk m n k' :
  at_ c g x l -> shut x l -> member x = Some m -> dying g m ->
  ((i = IRecv [LogoutEnd] \/ i = ISvc [LogoutEnd]) /\ lk = Some Incoming \/ i = IClose [LogoutEnd] /\ lk <> Some Incoming) ->
  (oo = OReady \/ oo = OWait m \/ oo = OLock /\ lk <> None \/ oo = ODone /\ c ∈ l) ->
  ostep ho c (Config g i oo lk) n = Some (Ok k') -> inv k'.
Proof.
  intros Ha Hs Hm Hdy Hi Ho.
  assert (Hend : (exists g' x' l', k' = Config g' i ODone lk /\ at_ c g' x' l' /\ shut x' l' /\ c ∈ l' /\ member x' = member x /\
    g_world g' = g_world g) -> inv k').
  { intros (g' & x' & l' & -> & Ha' & Hs' & Hin & Hm' & Hw). exists x', l'. split; [done|]. cbn.
    apply ok_ilog with m; [done|congruence|by unfold dying; rewrite Hw|done|auto]. }
  destruct Ho as [->|[->|[[-> Hn]|[-> _]]]]; destruct n; cbn [ostep]; intros E; try done.
  - injection E as E. by apply Hend, (o_loop_dying g x l i lk k' m).
  - destruct (woken g m); [|done]. injection E as E. by apply Hend, (woken_dying g x l i lk m k').
  - case_bool_decide as Hlk; [|done]. injection E as E. subst lk.
    destruct Hi as [[_ ?]|[-> _]]; [done|].
    destruct (o_locked_shut g x l _ k' Ha Hs E) as (g' & x' & l' & -> & Ha' & Hs' & Hin & Hm' & Hw).
    exists x', l'. split; [done|]. cbn. apply ok_ilog with m; [done|congruence|by unfold dying; rewrite Hw|by right|auto].
Qed.

Lemma ostep_olog g x l i oo lk n k' :
  at_ c g x l -> shut x l -> i_rest i l -> (oo = OQueued [LogoutEnd] \/ oo = OClose [LogoutEnd]) -> i <> IHub ->
  ostep ho c (Config g i oo lk) n = Some (Ok k') -> inv k'.
Proof.
  intros Ha Hs Hi Ho Hh. assert (Hs' : shut (set_member None x) l) by done.
  assert (Hok : forall oo' lk', oo' = OReady \/ oo' = ODone -> forall g', at_ c g' (set_member None x) l -> inv (Config g' i oo' lk')).
  { intros oo' lk' Ho' g' Ha'. exists (set_member None x), l. split; [done|]. cbn.
    apply ok_closed; [done|done|done|naive_solver]. }
  destruct Ho as [-> | ->]; destruct n; cbn [ostep]; intros E; try done; destruct (i_ready _); try done;
    injection E as E; apply bind_Ok in E as ([[rc g1] r1] & E1 & E);
    destruct (resume_closing (ho_conn ho) c g x l rc g1 r1 Ha E1) as (-> & Hrc & Ha1).
  - cbn [o_queued] in E. destruct (Z.eqb_spec rc 0) as [Hz|Hz]; [|injection E as <-; auto].
    exfalso. apply bind_Ok in E as ([s g2] & E2 & _).
    assert (Hd : ConnectionState_done (set_member None x) = false).
    { rewrite Hz in Hrc. unfold ConnectionState_done, ConnectionState_invariant in *. cbn.
      destruct (cs x =? ConnectionState_error); [done|].
      destruct (Z.leb_spec ConnectionState_first_final (cs x)); [done|]. by apply Z.eqb_neq; lia. }
    by destruct (send_begin_at g1 _ l s g2 Ha1 Hd E2) as (? & ? & ? & _ & _ & _ & _ & []).
  - injection E as <-. auto.
Qed.

Lemma ostep_closed g x l i oo lk n k' :
  at_ c g x l -> shut x l -> member x = None -> i_rest i l ->
  (oo = OReady \/ oo = OLock \/ is_send oo \/ oo = ODone) ->
  ostep ho c (Config g i oo lk) n = Some (Ok k') -> inv k'.
Proof.
  intros Ha Hs Hm Hi Ho.
  assert (Hok : forall g' x' l' oo' lk', at_ c g' x' l' -> shut x' l' -> c ∈ l' -> member x' = member x ->
    oo' = OReady \/ oo' = ODone -> inv (Config g' i oo' lk')).
  { intros g' x' l' oo' lk' Ha' Hs' Hin Hm' Ho'. exists x', l'. split; [done|]. cbn.
    apply ok_closed; [done|congruence| |naive_solver]. destruct Hi as [Hi|[Hi _]]; [by left|by right]. }
  destruct Ho as [->|[->|[[hdr ->]| ->]]]; destruct n; cbn [ostep]; intros E; try done.
  - injection E as E. rewrite (o_loop_alone g x l i lk k' Ha Hs Hm E). exists x, l. split; [done|]. apply ok_closed; auto.
  - case_bool_decide; [|done]. injection E as E.
    destruct (o_locked_shut g x l i k' Ha Hs E) as (g' & x' & l' & -> & ? & ? & ? & ? & _). eauto.
  - injection E as E. apply bind_Ok in E as (g1 & E1 & E). pose proof (send_end_at _ _ _ _ _ Ha E1) as Ha1.
    destruct (o_result_shut g1 x l i lk k' _ Ha1 Hs E) as (g' & x' & l' & oo & lk' & -> & ? & ? & ? & ? & ?). eauto.
Qed.

Lemma ostep_inv k n k' : inv k -> k_i k <> IHub -> ostep ho c k n = Some (Ok k') -> inv k'.
Proof.
  intros (x & l & Ha & Hok) Hh E. destruct k as [g i oo lk]. cbn [k_g k_i k_o k_lock] in *.
  inversion Hok as [| | | |? ? ? q m Hc Hm Hl Hi Ho Hcs Hlk|? ? ? m Hs Hm Hd Hi Ho|? ? Hc Hcs Hl Ho|? ? ? Hs Hi Ho|? ? ? Hs Hm Hi Ho]; subst;
    try (by destruct n).
  - by eapply ostep_open.
  - by eapply ostep_ilog.
  - assert (Hd : ConnectionState_done x = true) by (unfold ConnectionState_done; by rewrite Hcs).
    destruct Ho as [[hdr ->]|[-> | ->]]; destruct n; cbn [ostep] in E; try done; injection E as E.
    + apply bind_Ok in E as (g1 & E1 & E). pose proof (send_end_at _ _ _ _ _ Ha E1) as Ha1.
      rewrite (o_result_done g1 x l _ lk k' rc Ha1 Hd E). exists x, l. destruct rc; split; try done; apply ok_ierr; auto.
    + rewrite (o_loop_done g x l _ lk k' Ha Hd E). exists x, l. split; [done|]. apply ok_ierr; auto.
  - by eapply ostep_olog.
  - by eapply ostep_closed.
Qed.
(** ** Every interleaving *)

(** What the rest of the hub does between two steps: it may open and close other connections and change the members and
    routes; a queue that is dead stays dead.  This is an assumption, and it ends the life that is described here at
    one event: [Hub_new_or_reuse_conn] may hand the structure of this connection to a new client as soon as it is in
    the closed list, whether or not its two tasks have ended, and clears it ([reuse_while_running]).  Accepting a
    client in another structure is one of these steps ([open_others]). *)
Record others g g' : Prop := Others {
  ot_conn : g_conns g' !! c = g_conns g !! c;
  ot_hub : h_cs (g_hub g') = h_cs (g_hub g);
  ot_list : forall l, is_list (g_conns g) (g_closed g) l -> NoDup l ->
    exists l', is_list (g_conns g') (g_closed g') l' /\ NoDup l' /\ (c ∈ l' <-> c ∈ l);
  ot_dying : forall m, dying g m -> dying g' m
}.

Definition listening g : Prop :=
  h_cs (g_hub g) = hub_code H_Listening /\ exists l, is_list (g_conns g) (g_closed g) l /\ NoDup l.

Inductive reachable : config T -> Prop :=
  | reach_open g addr q g' : listening g -> Hub_connection_open ho g addr q = Ok (c, g') ->
      reachable (Config g' IStart ONone None)
  | reach_task k w n k' : reachable k -> task_step ho c k w n = Some (Ok k') -> reachable k'
  | reach_others g g' i oo lk : reachable (Config g i oo lk) -> i <> IHub -> others g g' ->
      reachable (Config g' i oo lk).

(** the structure of a connection that is accepted *)
Definition accepted (q : Z) : ConnectionState := set_cs ConnectionState_start (set_client (Some q) zero_conn).

(** accepting a client takes the first structure of the closed list, or a new one, and touches no other *)
Lemma open_spec g addr q l :
  h_cs (g_hub g) = hub_code H_Listening -> is_list (g_conns g) (g_closed g) l ->
  let d := default addr (g_closed g) in
  exists g', Hub_connection_open ho g addr q = Ok (d, g') /\ g_conns g' = <[d := accepted q]> (g_conns g) /\
    is_list (g_conns g) (g_closed g') (tail l) /\ g_world g' = g_world g /\ h_cs (g_hub g') = hub_code H_Listening.
Proof.
  intros Hh Hl d. unfold Hub_connection_open, Hub_exec. cbn [g_hub put_clients]. rewrite Hh.
  change (hub_code H_Listening =? Hub_error) with false. rewrite hub_transition by done.
  cbn [hub_chart fst snd hub_actions hub_action]. rewrite ?bind_ret. match goal with |- context [hub_actions ho ?a ?h] => change (hub_actions ho a h) with (Ok h) end. rewrite !bind_ret.
  unfold Hub_queue_conn_begin, Hub_new_or_reuse_conn, update_conn, ConnectionState_init, get_conn.
  cbn [g_closed put_hub put_clients g_conns]. destruct l as [|e l].
  - cbn in Hl. unfold d. rewrite Hl. cbn. rewrite lookup_insert_eq. cbn [need]. rewrite !bind_ret. cbn. rewrite lookup_insert_eq. cbn [need]. rewrite !bind_ret.
    eexists. split_and!; [done| |done|done|done]. cbn. by rewrite !insert_insert_eq.
  - destruct Hl as [He (y & Hy & Hl)]. unfold d. rewrite He. cbn. rewrite Hy. cbn [need]. rewrite !bind_ret. cbn. rewrite lookup_insert_eq. cbn [need].
    rewrite !bind_ret. cbn. rewrite lookup_insert_eq. cbn [need]. rewrite !bind_ret. eexists. split_and!; [done| |done|done|done]. cbn. by rewrite !insert_insert_eq.
Qed.

Lemma open_inv g addr q g' :
  listening g -> Hub_connection_open ho g addr q = Ok (c, g') -> inv (Config g' IStart ONone None).
Proof.
  intros [Hh (l & Hl & Hnd)] E. destruct (open_spec g addr q l Hh Hl) as (g1 & E1 & Hc & Hl1 & _ & Hh1). rewrite E1 in E. injection E as Hd <-.
  rewrite Hd in Hc. assert (Hn : c ∉ tail l).
  { destruct l as [|e l]; [apply not_elem_of_nil|]. destruct Hl as [He _]. rewrite He in Hd. cbn in Hd. subst e. apply list.NoDup_cons in Hnd as [Hn _]. exact Hn. }
  exists (accepted q), (tail l). split.
  - split; [by cbn; rewrite Hc, lookup_insert_eq|cbn; rewrite Hc; by apply is_list_outside| |done].
    destruct l as [|e l]; [constructor|]. apply list.NoDup_cons in Hnd as [_ Hnd]. exact Hnd.
  - cbn. by apply ok_start with q.
Qed.

(** accepting a client in another structure is a step of the others *)
Lemma open_others g addr q d g' :
  listening g -> Hub_connection_open ho g addr q = Ok (d, g') -> d <> c -> others g g'.
Proof.
  intros [Hh (l0 & Hl0 & Hnd0)] E Hd. destruct (open_spec g addr q l0 Hh Hl0) as (g1 & E1 & Hc & _ & Hw & Hh1). rewrite E1 in E. injection E as Hd1 ->.
  rewrite Hd1 in Hc. split.
  - by rewrite Hc, lookup_insert_ne.
  - by rewrite Hh1, Hh.
  - intros l Hl Hnd. destruct (open_spec g addr q l Hh Hl) as (g2 & E2 & _ & Hl2 & _). rewrite E1 in E2. injection E2 as <-.
    exists (tail l). rewrite Hc. destruct l as [|e l]; [split_and!; [by cbn in *|constructor|done]|].
    apply list.NoDup_cons in Hnd as [Hn Hnd]. destruct Hl as [He _]. rewrite He in Hd1. cbn in Hd1. subst e. cbn [tail] in *.
    split_and!; [by apply is_list_outside|done|]. rewrite elem_of_cons. naive_solver.
  - intros m. unfold dying. by rewrite Hw.
Qed.

Lemma ok_others g g' x l l' i oo lk :
  ok g x l i oo lk -> (c ∈ l' <-> c ∈ l) -> (forall m, dying g m -> dying g' m) -> ok g' x l' i oo lk.
Proof.
  intros Hok Hl Hd. assert (Hs : shut x l -> shut x l') by (unfold shut; by rewrite Hl).
  assert (Hr : forall j, i_rest j l -> i_rest j l') by (unfold i_rest; intros j; by rewrite Hl).
  destruct Hok; [eapply ok_start|eapply ok_tune|eapply ok_pass|eapply ok_early|eapply ok_open|eapply ok_ilog|eapply ok_ierr|eapply ok_olog|eapply ok_closed];
    rewrite ?Hl; eauto.
Qed.

Lemma reachable_inv k : reachable k -> inv k.
Proof.
  induction 1 as [g addr q g' Hg E|k w n k' Hk IH E|g g' i oo lk Hk IH Hi [H1 H2 H3 H4]].
  - by eapply open_inv.
  - destruct w; [by eapply istep_inv|]. cbn in E. apply ostep_inv with (k := k) (n := n); [done| |by destruct (k_i k)].
    intros Hi. by rewrite Hi in E.
  - destruct IH as (x & l & [G1 G2 G3 G4] & Hok). cbn in *. destruct (H3 l G2 G3) as (l' & Hl' & Hnd' & Hcl).
    exists x, l'. split; [split; [exact (eq_trans H1 G1)|done|done|exact (eq_trans H2 G4)]|by apply (ok_others g _ _ l)].
Qed.
End Invariant.

(** ** The theorems *)

Ltac place_cases :=
  unfold i_rest, i_between, is_send, shut in *;
  repeat match goal with
    | H : _ \/ _ |- _ => destruct H | H : _ /\ _ |- _ => destruct H | H : exists _, _ |- _ => destruct H
    end; subst; first [discriminate|done|congruence].

(** The structure of a connection that is first in the closed list is given to the next client, wherever the
    two tasks of the connection are: it is cleared and starts again with the client [q], and a task that has not ended
    goes on with it. *)
Theorem reuse_while_running {T} `{!MemberTree T} ho c (k : config T) addr q :
  reachable ho c k -> g_closed (k_g k) = Some c ->
  exists g', Hub_connection_open ho (k_g k) addr q = Ok (c, g') /\ g_conns g' !! c = Some (accepted q).
Proof.
  intros Hr Hc. destruct (reachable_inv ho c k Hr) as (x & l & [_ Hl _ Hh] & _).
  destruct (open_spec ho (k_g k) addr q l Hh Hl) as (g' & E & Hg & _). rewrite Hc in E, Hg. cbn in E, Hg.
  exists g'. split; [done|]. by rewrite Hg, lookup_insert_eq.
Qed.

(** C5: the life of a connection, under every interleaving of its two tasks with each other, with the
    network and with steps of the rest of the hub that leave this connection alone ([others]).  It is the
    life up to the reuse of the structure: that the hub does not hand the structure to a new client before both tasks
    have ended is assumed, not proved, and the code does not see to it ([reuse_while_running]).
    From [Hub_connection_open] on, in every state that is reached: the closed list of the hub is acyclic; the
    connection is in it only when its client is gone and its machine is done, in the final or the error
    state; when the incoming task is back in [Hub_connection_handler] the connection is in the list, so that
    the hub's [assert(closed)] on [UEv_CLOSE] holds; the two critical sections exclude each
    other, and a transmission on an open connection owns the lock and is in the state
    [Sending]; and when both tasks have ended the client and the member are gone. *)
Theorem connection_life {T} `{!MemberTree T} ho c (k : config T) :
  reachable ho c k ->
  exists x l, g_conns (k_g k) !! c = Some x /\ is_list (g_conns (k_g k)) (g_closed (k_g k)) l /\ NoDup l /\
    (c ∈ l -> client x = None /\ ConnectionState_done x = true) /\
    (k_i k = IHub \/ k_i k = IDone -> c ∈ l /\ g_closed (k_g k) <> None) /\
    ((exists r, k_i k = IRecv r \/ k_i k = ISvc r) -> ~ is_send (k_o k)) /\
    (client x <> None -> is_send (k_o k) -> k_lock k = Some Outgoing /\ cs x = conn_code C_Sending) /\
    (k_i k = IDone -> k_o k = ODone -> client x = None /\ member x = None).
Proof.
  intros Hr. destruct (reachable_inv ho c k Hr) as (x & l & Ha & Hok). destruct k as [g i oo lk]. cbn in *.
  exists x, l. split_and!; [apply Ha|apply Ha|apply Ha| | | | |].
  - intros Hin. assert (Hs : shut c x l) by (destruct Hok; done). split; [apply Hs|by eapply shut_done].
  - intros Hi. assert (Hin : c ∈ l) by (destruct Hok; place_cases).
    split; [done|]. pose proof (at_list _ _ _ _ Ha) as Hl. destruct l; [by apply elem_of_nil in Hin|]. by destruct Hl as [-> _].
  - intros [r Hi] [hdr Ho]. destruct Hok; place_cases.
  - intros Hc Hs. destruct Hok as [| | | | ? ? ? ? ? ? ? ? ? ? Hcs Hlk| | | |]; try place_cases.
    split; [by apply Hlk|]. by destruct Hcs as [[_ []]|[? _]].
  - intros Hi Ho. destruct Hok; place_cases.
Qed.

End TasksProps.
