(* ===== verification/TasksRuns.v ===== *)
(** * TasksRuns: sessions of a connection that go wrong

    Interleavings of the two tasks of [src/src/hub/connection_state.c].  In general: a client that hangs up while a
    message is on its way to it makes the hub free the message twice.  On a concrete hub: a complete session, one in
    which the structure of a connection is reused while a task still needs it, and two more that
    end badly.  A session is a list of moves that is evaluated; each state on the way is reachable in the
    sense of [TasksProps]. *)

From Stdlib Require Import ZArith Lia.
From S2P Require Import Prelude Cstdlib Ragel Node Heap Message Routing Members Commands Connection Hub ConnectionProps Tasks TasksProps.
Import Cstdlib Ragel Node Message Routing Members Commands Connection Hub ConnectionProps Tasks TasksProps.
Local Open Scope Z_scope.

Module TasksRuns.

(** a step of a task; [Peer_recv] returns these nodes (with NULL, the client has gone); or
    another connection sends the member a message *)
Inductive move := Task (w : who) (n : input) | Receive (hdr body : option loc) | Deliver (m : Z) (msg : loc).

Section Moves.
Context {T : Type} `{!MemberTree T} (ho : hub_outside) (c : Z).

Definition put_g (g : hubw T) (k : config T) : config T := Config g (k_i k) (k_o k) (k_lock k).

Definition make_move (k : config T) (m : move) : option (res (config T)) :=
  match m, k_i k with
  | Task w n, _ => task_step ho c k w n
  | Receive hdr body, _ => task_step ho c k Incoming (InMessage (w_store (g_world (k_g k))) hdr body)
  | Deliver _ _, IHub => None
  | Deliver m msg, _ => Some (
      '(_, w) ← Member_send_msg (g_world (k_g k)) m msg;
      Ok (put_g (put_world w (k_g k)) k))
  end.

Fixpoint play (k : config T) (ms : list move) : option (res (config T)) :=
  match ms with
  | [] => Some (Ok k)
  | m :: ms' =>
    match make_move k m with
    | Some (Ok k') => play k' ms'
    | r => r
    end
  end.

Lemma add_dead q H msg b q' H' : MsgQueue_add q H msg = Ok (b, q', H') -> q_dead q' = q_dead q.
Proof.
  unfold MsgQueue_add. destruct (MsgQueue_is_full q); [by intros [= <- <- <-]|].
  intros (H1 & _ & (ms & _ & [= <- <- <-])%bind_Ok)%bind_Ok. done.
Qed.

Lemma send_dying w m msg b w' g d :
  g_world g = w -> Member_send_msg w m msg = Ok (b, w') -> dying g d -> dying (T := T) (put_world w' g) d.
Proof.
  intros <-. unfold Member_send_msg. intros (mb & Hmb & E)%bind_Ok (mb' & Hmb' & Hd).
  destruct (check _ _) as [ok st]. destruct ok; cbn in E; [|injection E as <- <-; by exists mb'].
  apply bind_Ok in E as ([[rc q] H] & E1 & E). apply add_dead in E1. cbn in E. destruct (check _ _) as [ok' st']. injection E as <- <-.
  unfold dying. cbn. unfold get_member in Hmb. destruct (decide (d = m)) as [->|Hne].
  - rewrite lookup_insert_eq. eexists; split; [done|]. rewrite Hmb' in Hmb. injection Hmb as ->. cbn. congruence.
  - rewrite lookup_insert_ne by done. by exists mb'.
Qed.

Lemma move_reachable k m k' : reachable ho c k -> make_move k m = Some (Ok k') -> reachable ho c k'.
Proof.
  intros Hk. destruct m as [w n|hdr body|m msg]; cbn.
  - by apply reach_task.
  - by apply reach_task with (w := Incoming).
  - intros E. assert (Hi : k_i k <> IHub) by (intros Hi; by rewrite Hi in E). destruct k as [g i oo lk]. cbn in *.
    assert (E' : ('(_, w) ← Member_send_msg (g_world g) m msg; Ok (put_g (put_world w g) (Config g i oo lk))) = Ok k')
      by (destruct i; congruence).
    apply bind_Ok in E' as ([b w] & E1 & [= <-]). apply (reach_others ho c g); [done|done|].
    split; [done|done|by eauto|]. intros d. by eapply send_dying.
Qed.

Lemma play_reachable k ms k' : reachable ho c k -> play k ms = Some (Ok k') -> reachable ho c k'.
Proof.
  revert k; induction ms as [|m ms IH]; cbn; intros k Hk; [by intros [= <-]|].
  destruct (make_move k m) as [[k1|]|] eqn:E; [|done|done]. apply IH. by eapply move_reachable.
Qed.
End Moves.

(** ** A client that hangs up while a message is on its way to it *)

(** freeing a message takes it away when the reference was the last, and touches no other *)
Lemma destroy_msgs H m H' msg :
  Message_destroy H m = Ok H' ->
  (m <> msg -> h_msgs H' !! msg = h_msgs H !! msg) /\
  (m = msg -> exists M, h_msgs H !! msg = Some M /\ (m_ref_count M = 1 -> h_msgs H' !! msg = None)).
Proof.
  unfold Message_destroy, Message_ref_dec, get_msg. intros (H1 & E1 & E)%bind_Ok. apply bind_Ok in E1 as (M & HM & [= <-]).
  destruct (h_msgs H !! m) as [M0|] eqn:E0; [|done]. injection HM as ->. cbn in E. rewrite lookup_insert_eq in E. cbn [need] in E. rewrite bind_ret in E.
  apply bind_Ok in E as (_ & _ & E). cbn [m_ref_count set_ref] in E. destruct (i16 (m_ref_count M - 1) =? 0) eqn:Ez.
  - apply bind_Ok in E as (s1 & _ & E). apply bind_Ok in E as (s2 & _ & [= <-]). cbn. split.
    + intros Hne. by rewrite lookup_delete_ne, lookup_insert_ne.
    + intros ->. exists M. split; [done|]. intros _. apply lookup_delete_eq.
  - injection E as <-. cbn. split; [intros Hne; by rewrite lookup_insert_ne|]. intros ->. exists M. split; [done|]. intros H1. by rewrite H1 in Ez.
Qed.

Lemma drain_gone l : forall H H' msg, Message.fifo_drain l H = Ok H' -> h_msgs H !! msg = None -> h_msgs H' !! msg = None.
Proof.
  induction l as [|m l IH]; cbn [Message.fifo_drain]; intros H H' msg E Hn; [by injection E as <-|].
  apply bind_Ok in E as (H1 & E1 & E). apply (IH H1 H' msg E). destruct (destroy_msgs _ _ _ msg E1) as [Ho He].
  destruct (decide (m = msg)) as [->|Hne]; [|by rewrite Ho]. destruct (He eq_refl) as (M & HM & _). congruence.
Qed.

Lemma drain_frees l : forall H H' msg M,
  Message.fifo_drain l H = Ok H' -> h_msgs H !! msg = Some M -> m_ref_count M = 1 -> msg ∈ l -> h_msgs H' !! msg = None.
Proof.
  induction l as [|m l IH]; cbn [Message.fifo_drain]; intros H H' msg M E HM H1 Hin; [by apply elem_of_nil in Hin|].
  apply bind_Ok in E as (Hh & E1 & E). destruct (destroy_msgs _ _ _ msg E1) as [Ho He]. destruct (decide (m = msg)) as [->|Hne].
  - destruct (He eq_refl) as (M' & HM' & Hf). apply (drain_gone l Hh H' msg E). apply Hf. congruence.
  - apply (IH Hh H' msg M E); [by rewrite Ho|done|]. apply elem_of_cons in Hin as [->|Hin]; [done|done].
Qed.

(** the queue of [m] holds [msg], and nothing else refers to it *)
Definition queued_only (w : world) (m : Z) (msg : loc) : Prop :=
  exists mb l M, w_members w !! m = Some mb /\ Message.holds (mb_queue mb) l /\ msg ∈ l /\
    h_msgs (w_heap w) !! msg = Some M /\ m_ref_count M = 1.

Lemma leave_routes_keeps m rs : forall w w', leave_routes w m rs = Ok w' -> w_members w' = w_members w /\ w_heap w' = w_heap w.
Proof.
  induction rs as [|p rs IH]; cbn [leave_routes]; intros w w' E; [by injection E as <-|].
  apply bind_Ok in E as (r & _ & E). apply bind_Ok in E as ([i h] & _ & E). by apply IH in E.
Qed.

Section Hangup.
Context {T : Type} `{!MemberTree T} (ho : hub_outside) (c : Z).
Implicit Types g : hubw T.

(** the first half of the logout leaves the queue as it is *)
Lemma half_begin_queued g x l q m msg h g' :
  at_ c g x l -> client x = Some q -> member x = Some m -> half_close_begin g c = Ok (h, g') ->
  queued_only (g_world g) m msg -> queued_only (g_world g') m msg.
Proof.
  intros Ha Hc Hm E (mb & ms & M & Hmb & Hq & Hin & HM & H1). unfold half_close_begin in E. rewrite (at_get _ _ _ _ Ha), bind_ret, Hc in E.
  apply bind_Ok in E as (g1 & E1 & E). unfold server_destroy_client in E1. destruct (bool_decide _); [|done]. injection E1 as <-.
  cbn [member set_client] in E. rewrite Hm in E. apply bind_Ok in E as ([b w] & E2 & E). apply bind_Ok in E as (w' & E3 & [= _ <-]).
  unfold Route_unregister_all in E2. apply bind_Ok in E2 as (m0 & _ & E2). apply bind_Ok in E2 as (w1 & E4 & E2). apply bind_Ok in E2 as (m1 & Hm1 & [= _ <-]).
  apply leave_routes_keeps in E4 as [K1 K2]. unfold get_member in Hm1. rewrite K1 in Hm1. cbn in Hm1. rewrite Hmb in Hm1. injection Hm1 as <-.
  unfold Member_logout_begin in E3. apply bind_Ok in E3 as (_ & _ & E3). apply bind_Ok in E3 as (m2 & Hm2 & [= <-]).
  unfold get_member in Hm2. cbn in Hm2. rewrite lookup_insert_eq in Hm2. injection Hm2 as <-.
  eexists _, ms, M. cbn. rewrite lookup_insert_eq. split; [done|]. rewrite K2. split_and!; [|done|exact HM|done].
  destruct Hq. by constructor.
Qed.

(** ... and the second frees the message *)
Lemma half_end_frees g x l m msg g' :
  at_ c g x l -> member x = Some m -> half_close_end (ho_conn ho) g c = Ok g' ->
  queued_only (g_world g) m msg -> h_msgs (w_heap (g_world g')) !! msg = None.
Proof.
  intros Ha Hm E (mb & ms & M & Hmb & Hq & Hin & HM & H1). unfold half_close_end in E. rewrite (at_get _ _ _ _ Ha), bind_ret, Hm in E. cbn [need] in E.
  rewrite bind_ret in E. apply bind_Ok in E as ([t w] & E1 & [= <-]). unfold Member_logout_end in E1. apply bind_Ok in E1 as (_ & _ & E1).
  destruct (tree_delete_if_member _ _ _) as [el t']. apply bind_Ok in E1 as (w' & E2 & [= <- <-]).
  unfold Member_destroy, get_member in E2. rewrite Hmb in E2. cbn [need] in E2. rewrite bind_ret in E2. apply bind_Ok in E2 as (H' & E3 & [= <-]).
  rewrite (proj2 (Message.holds_view _ _ Hq)) in E3. cbn. by apply (drain_frees ms (w_heap (g_world g)) H' msg M).
Qed.

(** the hub's close event destroys what the connection still refers to *)
Lemma close_freed g x msg :
  h_cs (g_hub g) = hub_code H_Listening -> g_closed g = Some c -> g_conns g !! c = Some x ->
  recv_msg x = None -> recv_body x = None -> recv_hdr x = None -> send_msg x = Some msg ->
  h_msgs (w_heap (g_world g)) !! msg = None -> Hub_connection_close ho g = Fault BadPointer.
Proof.
  intros Hh Hcl Hx H1 H2 H3 Hs Hm. unfold Hub_connection_close, Hub_exec. rewrite Hh. change (hub_code H_Listening =? Hub_error) with false.
  rewrite hub_transition by done. cbn [hub_chart fst snd hub_actions hub_action]. rewrite bind_ret. unfold act_close. cbn [g_closed put_hub]. 
  unfold act_close. cbn. rewrite Hcl. cbn. unfold ConnectionState_finish, get_conn. cbn. rewrite Hx. cbn. rewrite H1, H2, H3, Hs. cbn.
  unfold Message_destroy, Message_ref_dec, get_msg. by rewrite Hm.
Qed.

(** the client is gone: [Peer_recv] returns NULL, the read side closes while the machine is in [Sending] *)
Lemma hangup_read g x l q m msg st hdr lk k1 :
  at_ c g x l -> client x = Some q -> member x = Some m -> cs x = conn_code C_Sending -> send_msg x = Some msg -> recv_msg x = None ->
  queued_only (g_world g) m msg ->
  task_step ho c (Config g IRead (OSend hdr) lk) Incoming (InMessage st None None) = Some (Ok k1) ->
  exists g1 x1, k1 = Config g1 (IClose [LogoutEnd; RestClose]) (OSend hdr) lk /\ at_ c g1 x1 l /\ client x1 = None /\ member x1 = Some m /\
    recv_msg x1 = None /\ recv_body x1 = None /\ recv_hdr x1 = None /\ send_msg x1 = Some msg /\ queued_only (g_world g1) m msg.
Proof.
  intros Ha Hc Hm Hcs Hs Hrm Hq E. cbn [task_step k_i istep] in E. injection E as E. unfold i_read, read_msg_end in E.
  set (g0 := put_world _ g) in E. assert (Ha0 : at_ c g0 x l) by (by apply at_world). rewrite (at_get _ _ _ _ Ha0), !bind_ret in E.
  rewrite bool_decide_eq_false_2 in E by (intros H; by apply H). unfold i_finish in E. set (x0 := set_recv None None (recv_msg x) x) in E.
  assert (Ha1 : at_ c (put_conn c x0 g0) x0 l) by (by apply (at_put c g0 x)).
  assert (Hq1 : queued_only (g_world (put_conn c x0 g0)) m msg) by exact Hq.
  apply bind_Ok in E as ([[rc g'] r] & E1 & E).
  destruct (exec_start (ho_conn ho) c _ x0 l UEv_READ_CLOSE C_Sending C_error [19] rc g' r Ha1 Hcs) as (g1 & r1 & E2 & E3 & Ha2); [done..|].
  cbn [map run_micros connection_action] in E2. unfold act_error in E2. apply bind_Ok in E2 as ([g2 s2] & E4 & E2). apply bind_Ok in E4 as ([h g3] & E4 & E5).
  destruct (half_begin_member c _ _ l q m h g3 Ha2 Hc Hm E4) as (-> & Ha3 & _).
  pose proof (half_begin_queued _ _ l q m msg _ g3 Ha2 Hc Hm E4 Hq1) as Hq3.
  injection E5 as <- <-. injection E2 as <- <-. apply (finish_exec_at c _ _ _ _ _ Ha3) in E3. injection E3 as -> -> ->. injection E as <-.
  eexists g3, _. split; [done|]. split; [exact Ha3|]. by split_and!.
Qed.

(** the logout frees the queue with the message, and the connection is put into the closed list *)
Lemma hangup_logout g x l m msg hdr lk k2 :
  at_ c g x l -> client x = None -> member x = Some m -> c ∉ l -> send_msg x = Some msg -> recv_msg x = None -> recv_body x = None -> recv_hdr x = None ->
  queued_only (g_world g) m msg ->
  task_step ho c (Config g (IClose [LogoutEnd; RestClose]) (OSend hdr) lk) Incoming InGo = Some (Ok k2) ->
  k_i k2 = IHub /\ h_msgs (w_heap (g_world (k_g k2))) !! msg = None /\ Hub_connection_close ho (k_g k2) = Fault BadPointer.
Proof.
  intros Ha Hc Hm Hl Hs H1 H2 H3 Hq E. cbn [task_step k_i istep o_ready k_o] in E. injection E as E. apply bind_Ok in E as ([[rc g'] r] & E1 & E).
  unfold resume_logout in E1. apply bind_Ok in E1 as (g1 & E2 & E1). pose proof (half_end_at _ c g x l g1 Ha E2) as Ha1.
  pose proof (half_end_frees g x l m msg g1 Ha Hm E2 Hq) as Hf. cbn [run_micros] in E1. unfold ConnectionState_rest_close in E1.
  rewrite (at_get _ _ _ _ Ha1), bind_ret in E1. cbn [client set_member] in E1. rewrite Hc in E1. cbn [assert_] in E1.
  assert (Hne : g_closed g1 <> Some c) by (intros Hg; apply Hl; pose proof (at_list _ _ _ _ Ha1) as Hli; rewrite Hg in Hli; by eapply is_list_head).
  rewrite (bool_decide_eq_true_2 (g_closed g1 <> Some c)) in E1 by done. rewrite bool_decide_eq_true_2 in E1 by done. cbn [assert_] in E1. rewrite !bind_ret in E1.
  unfold finish_exec, get_conn in E1. cbn in E1. rewrite lookup_insert_eq in E1. cbn in E1. injection E1 as <- <- <-. injection E as <-.
  split; [done|]. split; [exact Hf|]. eapply close_freed; [exact (at_hub _ _ _ _ Ha1)|done|cbn; apply lookup_insert_eq|done|done|done|exact Hs|exact Hf].
Qed.
End Hangup.

(** ** A hub and a session *)

#[local] Existing Instance Members.list_tree.

Definition no_files : file_system := FileSystem (fun _ => inl 2) (fun _ => inl 2) (fun _ => inl 2) (fun _ => []).
Definition demo_outside : hub_outside :=
  HubOutside (Outside Heap.ref_sort memcmp_ref no_files 0 (fun _ => Some (lit "alice")) (fun _ => Some (lit "key")) 50) None 1.

(** three numbers: the body of a message to be delivered, and what the client sends, which
    is no message *)
Definition demo_store : store :=
  let n := mkNode None TYPE_NUMBER (VNumber 7) None None None in
  Store (<[1%positive := n]> (<[2%positive := n]> {[3%positive := n]})) 4%positive 0.
Definition demo_world : world :=
  World (mkHeap demo_store {[1%positive := mkMessage 1 None 0 0 None None (Some 1%positive) 0]} 2%positive) ∅ ∅ 1.
Definition demo_hub : hubw (list Z) := HubW (mkHub 3 None None None None (Some 1) 7) demo_world [] None ∅ ∅ ∅.

Definition demo_start : config (list Z) :=
  match Hub_connection_open demo_outside demo_hub 100 9 with
  | Ok (_, g) => Config g IStart ONone None
  | Fault _ => Config demo_hub IStart ONone None
  end.

Lemma demo_reachable : reachable demo_outside 100 demo_start.
Proof.
  refine (reach_open demo_outside 100 demo_hub 100 9 _ _ _); [|reflexivity].
  split; [done|]. exists []. split; [done|constructor].
Qed.

Definition after (ms : list move) : config (list Z) :=
  match play demo_outside 100 demo_start ms with Some (Ok k) => k | _ => demo_start end.

Definition played (ms : list move) : bool :=
  match play demo_outside 100 demo_start ms with Some (Ok _) => true | _ => false end.

Lemma after_reachable ms : played ms = true -> reachable demo_outside 100 (after ms).
Proof.
  unfold played, after. destruct (play _ _ _ _) as [[k|]|] eqn:E; [|done|done]. intros _.
  exact (play_reachable demo_outside 100 demo_start ms k demo_reachable E).
Qed.

Definition go_in := Task Incoming InGo.
Definition go_out := Task Outgoing InGo.
Definition hangup := Receive None None.
Definition garbage := Receive (Some 2%positive) (Some 3%positive).
Definition mail := Deliver 1 1%positive.

(** up to the state [Idle], the incoming task reading and the outgoing one waiting *)
Definition login := [go_in; Task Incoming InConfirm; Task Incoming (InEstablished true); go_out].

(** a complete session: login, hang up, and both tasks end *)
Lemma connection_life_witness :
  let k := after (login ++ [hangup; go_out; go_in; go_in]) in
  k_i k = IDone /\ k_o k = ODone /\
  exists x l, g_conns (k_g k) !! 100 = Some x /\ is_list (g_conns (k_g k)) (g_closed (k_g k)) l /\ NoDup l /\
    100 ∈ l /\ client x = None /\ member x = None.
Proof.
  set (k := after _). assert (Hi : k_i k = IDone) by (vm_compute; reflexivity).
  assert (Ho : k_o k = ODone) by (vm_compute; reflexivity).
  assert (Hr : reachable demo_outside 100 k) by (apply after_reachable; vm_compute; reflexivity).
  clearbody k. split_and!; [done|done|].
  destruct (connection_life demo_outside 100 k Hr) as (x & l & H1 & H2 & H3 & _ & H4 & _ & _ & H5).
  exists x, l. destruct (H5 Hi Ho). destruct H4 as [H4 _]; [by right|]. split_and!; done.
Defined.

(** ** Sessions that go wrong *)

(** the client hangs up, the incoming task yields in the middle of the logout, the outgoing task ends and puts the
    connection into the closed list: the next client is given the structure that the incoming task goes on with *)
Lemma reuse_while_running_witness :
  let k := after (login ++ [hangup; go_out]) in
  k_i k = IClose [LogoutEnd] /\ k_o k = ODone /\
  exists g', Hub_connection_open demo_outside (k_g k) 200 12 = Ok (100, g') /\ g_conns g' !! 100 = Some (accepted 12).
Proof.
  set (k := after _). assert (Hi : k_i k = IClose [LogoutEnd]) by (vm_compute; reflexivity). assert (Ho : k_o k = ODone) by (vm_compute; reflexivity).
  assert (Hc : g_closed (k_g k) = Some 100) by (vm_compute; reflexivity).
  assert (Hr : reachable demo_outside 100 k) by (apply after_reachable; vm_compute; reflexivity).
  clearbody k. split_and!; [done|done|]. exact (reuse_while_running demo_outside 100 k 200 12 Hr Hc).
Defined.

(** C39: a client that hangs up while a message is on its way to it makes the hub free that message twice.  In any
    hub, whenever a connection that can be reached is sending a message that only the queue of its member refers to,
    and [Peer_recv] then finds the client gone: if the read side gets through its logout, that has destroyed the queue
    and freed the message, and the close event of the hub destroys it again through [send.msg], the
    program's next step. *)
Theorem hangup_while_sending_frees_twice {T} `{!MemberTree T} ho c (k : config T) hdr x m msg st k1 k2 :
  reachable ho c k -> k_i k = IRead -> k_o k = OSend hdr -> g_conns (k_g k) !! c = Some x ->
  client x <> None -> member x = Some m -> send_msg x = Some msg -> recv_msg x = None ->
  queued_only (g_world (k_g k)) m msg ->
  task_step ho c k Incoming (InMessage st None None) = Some (Ok k1) -> task_step ho c k1 Incoming InGo = Some (Ok k2) ->
  k_i k2 = IHub /\ h_msgs (w_heap (g_world (k_g k2))) !! msg = None /\
  task_step ho c k2 Incoming InGo = Some (Fault BadPointer).
Proof.
  intros Hr Hi Ho Hx Hc Hm Hs Hrm Hq E1 E2. destruct (reachable_inv ho c k Hr) as (x' & l & Ha & Hok). destruct k as [g i oo lk]. cbn in Hi, Ho, Hx, Hq, Ha, Hok.
  rewrite (at_conn _ _ _ _ Ha) in Hx. injection Hx as ->. subst i oo. destruct (client x) as [q|] eqn:Eq; [|done].
  assert (Hcl : cs x = conn_code C_Sending /\ c ∉ l).
  { inversion Hok as [| | | |? ? ? q' m' Hc' Hm' Hl Hi' Ho' Hcs Hlk|? ? ? ? [Hsh _]| |? ? ? [Hsh _]|? ? ? [Hsh _]]; subst; try congruence.
    split; [|done]. destruct Hcs as [[_ Hn]|[Hcs _]]; [destruct Hn; by exists hdr|done]. }
  destruct Hcl as [Hcs Hl].
  destruct (hangup_read ho c g x l q m msg st hdr lk k1 Ha Eq Hm Hcs Hs Hrm Hq E1) as (g1 & x1 & -> & Ha1 & Hc1 & Hm1 & R1 & R2 & R3 & Hs1 & Hq1).
  destruct (hangup_logout ho c g1 x1 l m msg hdr lk k2 Ha1 Hc1 Hm1 Hl Hs1 R1 R2 R3 Hq1 E2) as (Hi2 & Hf & Hcl). split_and!; [done|done|].
  destruct k2 as [g2 i2 o2 l2]. cbn in Hi2, Hcl |- *. subst i2. cbn [istep]. by rewrite Hcl.
Qed.

(** the session: a message is delivered, the client hangs up while it is sent *)
Lemma hangup_while_sending_frees_twice_witness :
  let k := after (login ++ [mail; go_out]) in
  exists k1 k2, task_step demo_outside 100 k Incoming (InMessage (w_store (g_world (k_g k))) None None) = Some (Ok k1) /\
    task_step demo_outside 100 k1 Incoming InGo = Some (Ok k2) /\ task_step demo_outside 100 k2 Incoming InGo = Some (Fault BadPointer).
Proof.
  set (k := after (login ++ [mail; go_out])).
  assert (Hr : reachable demo_outside 100 k) by (apply after_reachable; vm_compute; reflexivity).
  assert (Hx : (fun x => (client x, member x, send_msg x, recv_msg x)) <$> g_conns (k_g k) !! 100 = Some (Some 9, Some 1, Some 1%positive, None))
    by (vm_compute; reflexivity).
  assert (Hi : k_i k = IRead) by (vm_compute; reflexivity). assert (Ho : k_o k = OSend (Some 4%positive)) by (vm_compute; reflexivity).
  assert (Hmb : mb_queue <$> w_members (g_world (k_g k)) !! 1 = Some (mkQueue (Msg 1%positive :: replicate 29 Uninit) false 0 1 30)) by (vm_compute; reflexivity).
  assert (HM : h_msgs (w_heap (g_world (k_g k))) !! 1%positive = Some (mkMessage 1 None 0 0 None None (Some 1%positive) 1)) by (vm_compute; reflexivity).
  assert (Hrun : match task_step demo_outside 100 k Incoming (InMessage (w_store (g_world (k_g k))) None None) with
                 | Some (Ok k1) => match task_step demo_outside 100 k1 Incoming InGo with Some (Ok _) => true | _ => false end
                 | _ => false
                 end = true) by (vm_compute; reflexivity).
  clearbody k. destruct (g_conns (k_g k) !! 100) as [x|] eqn:Ex; [|done]. injection Hx as Hc Hm Hs Hrm.
  destruct (task_step demo_outside 100 k Incoming _) as [[k1|]|] eqn:E1; [|done..]. destruct (task_step demo_outside 100 k1 Incoming InGo) as [[k2|]|] eqn:E2; [|done..].
  exists k1, k2. split_and!; [done|done|].
  apply (hangup_while_sending_frees_twice demo_outside 100 k (Some 4%positive) x 1 1%positive (w_store (g_world (k_g k))) k1 k2); try done; [by rewrite Hc|].
  destruct (w_members (g_world (k_g k)) !! 1) as [mb|] eqn:Em; [|done]. injection Hmb as Hq. eexists mb, [1%positive], _.
  rewrite Hq. split_and!; [done| |by left|exact HM|done]. constructor; try (cbn; lia || done). intros [|i] y Hy; [|done]. injection Hy as <-. reflexivity.
Defined.

(** a client that sends no message but something else puts its connection into the state
    [Aborting]; if the next event is a message for it, the outgoing task closes the connection and
    goes on to send all the same: it dereferences the member, which is NULL by then. *)
Theorem aborting_send_crashes :
  exists k, reachable demo_outside 100 k /\
    (exists x, g_conns (k_g k) !! 100 = Some x /\ cs x = conn_code C_Closing) /\
    task_step demo_outside 100 k Outgoing InGo = Some (Fault NullDeref).
Proof.
  exists (after (login ++ [garbage; go_in; mail; go_out])).
  split_and!; [apply after_reachable; vm_compute; reflexivity| |vm_compute; reflexivity].
  eexists; split; vm_compute; reflexivity.
Qed.

(** when a transmission fails the outgoing task ends with the lock taken.  If the incoming task
    is waiting for it, the connection never ends: no step of either task is possible for
    any input, the machine is not done and the hub never hears of the close. *)
Theorem failed_send_keeps_lock :
  exists k x, reachable demo_outside 100 k /\ k_i k = ILock /\ k_o k = ODone /\ k_lock k = Some Outgoing /\
    g_conns (k_g k) !! 100 = Some x /\ ConnectionState_done x = false /\ client x = None /\
    forall w n, task_step demo_outside 100 k w n = None.
Proof.
  set (k := after (login ++ [mail; go_out; garbage; Task Outgoing (InSent false); go_out])).
  assert (Hi : k_i k = ILock) by (vm_compute; reflexivity). assert (Ho : k_o k = ODone) by (vm_compute; reflexivity).
  assert (Hl : k_lock k = Some Outgoing) by (vm_compute; reflexivity).
  assert (Hx : exists x, g_conns (k_g k) !! 100 = Some x /\ ConnectionState_done x = false /\ client x = None)
    by (eexists; split_and!; vm_compute; reflexivity).
  assert (Hr : reachable demo_outside 100 k) by (apply after_reachable; vm_compute; reflexivity).
  clearbody k. destruct Hx as (x & Hx & Hd & Hc). exists k, x. split_and!; [done..|].
  destruct k as [g i oo l]. cbn in Hi, Ho, Hl. subst. intros w n. by destruct w, n.
Qed.

End TasksRuns.
