(* ===== verification/Crypto.v ===== *)
(** * Crypto: the handshake and the packets of [src/src/protocol/crypto.c]

    The cryptographic primitives are those of LibTomCrypt, which is not in the repository:
    they are the parameter [Ltc], and [LtcLaws] states the documented behaviour the
    theorems rely on.  Everything [crypto.c] itself does is modelled: the state of a
    channel with both peers' names, keys, sessions and nonces, the messages of the key
    exchange on both sides, encryption and decryption of packets in place, fingerprints,
    signatures and the hate challenge.  A bstring field distinguishes NULL, a live string
    and a string that was freed; a packet's payload is decrypted inside its node. *)

From Stdlib Require Import ZArith Lia.
From S2P Require Import Prelude Cstdlib Node NodeFormat Stackish.
Import Cstdlib Node NodeFormat Stackish.
Local Open Scope Z_scope.

Module Crypto.

Inductive pk_type := PK_PUBLIC | PK_PRIVATE.
Inductive crypt_key_side := CRYPT_THEIR_KEY | CRYPT_MY_KEY.

(** ** The library: [E] is [ecc_key], [S] is [symmetric_key], [R] the generator's state.
    [None] is a result other than [CRYPT_OK]; [ccm_memory] overwrites its buffer whatever
    it returns. *)
Class Ltc (E S R : Type) := {
  ecc_zero : E;
  skey_zero : S;
  fortuna_read : R -> nat -> bytes * R;
  ecc_make_key : R -> Z -> option E * R;
  ecc_export : pk_type -> E -> option bytes;
  ecc_import : bytes -> option E;
  ecc_shared_secret : E -> E -> option bytes;
  rijndael_setup : bytes -> option S;
  ccm_memory (encrypt : bool) : S -> bytes -> bytes -> bytes -> bytes * option bytes;
  hash_memory : bytes -> option bytes;
  ecc_sign_hash : R -> bytes -> E -> option bytes * R;
  ecc_verify_hash : bytes -> bytes -> E -> option bool
}.

(** ** Data *)

Definition CRYPT_CHALLENGE_MSG := lit "challenge".
Definition CRYPT_ANSWER_MSG := lit "answer".
Definition CRYPT_INIT_MSG := lit "init".
Definition CRYPT_RECV_MSG := lit "recv".
Definition CRYPT_HEADER := lit "header".
Definition CRYPT_ENV_MSG := lit "env".
Definition NONCE_LENGTH : nat := 16.
Definition KEY_LENGTH : nat := 32.

(** the union: two numbers, or their 16 bytes in memory (little endian) *)
Record CryptNonce := mkNonce { n_left : Z; n_right : Z }.

Definition le8 (z : Z) : bytes := map (fun i => uchar (Z.shiftr z (8 * Z.of_nat i))) (seq 0 8).
Definition le_value (l : bytes) : Z := foldr (fun b acc => bv b + 256 * acc) 0 l.

Definition nonce_raw (n : CryptNonce) : bytes := le8 (n_left n) ++ le8 (n_right n).
Definition nonce_of_raw (raw : bytes) : CryptNonce := mkNonce (le_value (take 8 raw)) (le_value (take 8 (drop 8 raw))).
Definition zero_nonce : CryptNonce := mkNonce 0 0.

Definition CryptState_nonce_inc (n : CryptNonce) : CryptNonce := mkNonce (u64 (n_left n + 1)) (u64 (n_right n + 1)).
Definition CryptState_nonce_check (a b : CryptNonce) : bool := (n_left a =? n_left b) && (n_right a =? n_right b).

(** a [bstring] field, an [ecc_key] field *)
Inductive bstr := SNull | SLive (s : bytes) | SFreed.
Inductive ekey (E : Type) := KZero | KLive (k : E) | KFreed.
Arguments KZero {E}.
Arguments KLive {E}.
Arguments KFreed {E}.

Record CryptPeer (E S : Type) := mkPeer {
  p_name : bstr;
  p_nonce : CryptNonce;
  p_key : ekey E;
  p_session : bstr;
  p_skey : S
}.
Arguments mkPeer {E S}.
Arguments p_name {E S}.
Arguments p_nonce {E S}.
Arguments p_key {E S}.
Arguments p_session {E S}.
Arguments p_skey {E S}.

Record CryptState (E S : Type) := mkState {
  me : CryptPeer E S;
  them : CryptPeer E S;
  shared : S
}.
Arguments mkState {E S}.
Arguments me {E S}.
Arguments them {E S}.
Arguments shared {E S}.

(** the channel, the nodes and [errno], and the generator *)
Record cworld (E S R : Type) := CWorld {
  c_cs : CryptState E S;
  c_st : store;
  c_rng : R
}.
Arguments CWorld {E S R}.
Arguments c_cs {E S R}.
Arguments c_st {E S R}.
Arguments c_rng {E S R}.

Section Setters.
Context {E S R : Type}.
Implicit Types p : CryptPeer E S.
Implicit Types w : cworld E S R.

Definition set_pname x p : CryptPeer E S := mkPeer x (p_nonce p) (p_key p) (p_session p) (p_skey p).
Definition set_nonce x p : CryptPeer E S := mkPeer (p_name p) x (p_key p) (p_session p) (p_skey p).
Definition set_key (x : ekey E) p : CryptPeer E S := mkPeer (p_name p) (p_nonce p) x (p_session p) (p_skey p).
Definition set_session x p : CryptPeer E S := mkPeer (p_name p) (p_nonce p) (p_key p) x (p_skey p).
Definition set_skey (x : S) p : CryptPeer E S := mkPeer (p_name p) (p_nonce p) (p_key p) (p_session p) x.

Definition put_me p (s : CryptState E S) := mkState p (them s) (shared s).
Definition put_them p (s : CryptState E S) := mkState (me s) p (shared s).
Definition put_shared x (s : CryptState E S) := mkState (me s) (them s) x.

Definition put_cs s w : cworld E S R := CWorld s (c_st w) (c_rng w).
Definition put_st st w : cworld E S R := CWorld (c_cs w) st (c_rng w).
Definition put_rng r w : cworld E S R := CWorld (c_cs w) (c_st w) r.
Definition on_me (f : CryptPeer E S -> CryptPeer E S) w : cworld E S R := put_cs (put_me (f (me (c_cs w))) (c_cs w)) w.
Definition on_them (f : CryptPeer E S -> CryptPeer E S) w : cworld E S R := put_cs (put_them (f (them (c_cs w))) (c_cs w)) w.

Definition side_peer (my_key : crypt_key_side) (s : CryptState E S) : CryptPeer E S :=
  match my_key with CRYPT_MY_KEY => me s | CRYPT_THEIR_KEY => them s end.
Definition on_side (my_key : crypt_key_side) (f : CryptPeer E S -> CryptPeer E S) w : cworld E S R := match my_key with CRYPT_MY_KEY => on_me f w | CRYPT_THEIR_KEY => on_them f w end.

(** [check] and [Node_destroy] on the whole *)
Definition checkw w (b : bool) : bool * cworld E S R := let '(ok, st) := check (c_st w) b in (ok, put_st st w).
Definition destroy w (n : option loc) : res (cworld E S R) := st ← Node_destroy (c_st w) n; Ok (put_st st w).
End Setters.

(** reading a string field: NULL and freed strings are faults *)
Definition live (b : bstr) : res bytes :=
  match b with SLive s => Ok s | SNull => Fault NullDeref | SFreed => Fault BadPointer end.
(** [bstrcpy] gives NULL for NULL *)
Definition bstrcpy (b : bstr) : res (option bytes) :=
  match b with SLive s => Ok (Some s) | SNull => Ok None | SFreed => Fault BadPointer end.

(** what [Node_decons] wrote through its [i]-th pointer, which had the value [old] *)
Definition out_num (outs : list decons_val) (i : nat) (old : Z) : Z :=
  match outs !! i with Some (DVNum n) => n | _ => old end.
Definition out_str (outs : list decons_val) (i : nat) : option (option loc * bytes) :=
  match outs !! i with Some (DVStr a (Some s)) => Some (a, s) | _ => None end.
Definition out_bstr (outs : list decons_val) (i : nat) (old : bstr) : bstr :=
  match outs !! i with Some (DVStr _ (Some s)) => SLive s | Some (DVStr _ None) => SNull | _ => old end.

Section Ops.
Context {E S R : Type} `{!Ltc E S R}.
Abbreviation cw := (cworld E S R).
Implicit Types w : cw.

Definition zero_peer : CryptPeer E S := mkPeer SNull zero_nonce KZero SNull skey_zero.

(** the key of a side: a freed one must not be used *)
Definition use_key (k : ekey E) : res E :=
  match k with KZero => Ok ecc_zero | KLive k => Ok k | KFreed => Fault BadPointer end.

(** ** Initialisation: [calls] are the results of the registrations and self tests of the library, in the
    order of the source.  The result, and whether the library is initialised from now on. *)

Fixpoint ltc_all (st : store) (calls : list bool) : bool * store :=
  match calls with
  | [] => (true, st)
  | r :: calls' => let '(ok, st) := check st r in if ok : bool then ltc_all st calls' else (false, st)
  end.

Definition CryptState_init (st : store) (initialized : bool) (calls : list bool) : res (bool * bool * store) :=
  _ ← assert_ (errno st =? 0);
  if initialized then Ok (true, true, st) else
  let '(ok, st) := ltc_all st calls in
  Ok (ok, ok, st).

(** ** Life of a state *)

Definition free_bstr (b : bstr) : res bstr :=
  match b with SNull => Ok SNull | SLive _ => Ok SFreed | SFreed => Fault BadPointer end.
Definition free_key (k : ekey E) : res (ekey E) :=
  match k with KZero => Ok KZero | KLive _ => Ok KFreed | KFreed => Fault BadPointer end.

(** the pointers stay *)
Definition CryptState_peer_destroy w (my_key : crypt_key_side) : res cw :=
  let p := side_peer my_key (c_cs w) in
  k ← free_key (p_key p);
  nm ← free_bstr (p_name p);
  se ← free_bstr (p_session p);
  Ok (on_side my_key (fun _ => mkPeer nm zero_nonce k se skey_zero) w).

Definition CryptState_destroy w : res cw :=
  w ← CryptState_peer_destroy w CRYPT_MY_KEY;
  CryptState_peer_destroy w CRYPT_THEIR_KEY.

(** [None]: fewer bytes than asked for *)
Definition CryptState_rand w (len : nat) : option bytes * cw :=
  let '(b, r) := fortuna_read (c_rng w) len in
  (if bool_decide (length b = len) then Some b else None, put_rng r w).

Definition CryptState_rand_sess w : res cw :=
  let '(b, w) := CryptState_rand w KEY_LENGTH in
  b ← need AssertFail b;
  Ok (on_me (set_session (SLive b)) w).

Definition CryptState_create_nonce w : option CryptNonce * cw :=
  let '(b, w) := CryptState_rand w NONCE_LENGTH in (nonce_of_raw <$> b, w).

Definition CryptState_create_key w : bool * cw :=
  let '(k, r) := ecc_make_key (c_rng w) (Z.of_nat KEY_LENGTH) in
  let w := put_rng r w in
  checkw (match k with Some k => on_me (set_key (KLive k)) w | None => w end) (bool_decide (is_Some k)).

Definition CryptState_ecc_key_bstr w (key : ekey E) (type : pk_type) : res (option bytes * cw) :=
  k ← use_key key;
  let d := ecc_export type k in
  let '(ok, w) := checkw w (bool_decide (is_Some d)) in
  Ok (if ok : bool then d else None, w).

Definition CryptState_export_key w (my_key : crypt_key_side) (type : pk_type) : res (option bytes * cw) :=
  CryptState_ecc_key_bstr w (p_key (side_peer my_key (c_cs w))) type.

(** the result, and the key that is written *)
Definition CryptState_bstr_ecc_key w (from : option bytes) : res (bool * option E * cw) :=
  from ← need AssertFail from;
  let k := ecc_import from in
  let '(ok, w) := checkw w (bool_decide (is_Some k)) in
  Ok (ok, k, w).

Definition CryptState_import_key w (my_key : crypt_key_side) (from : option bytes) : res (bool * cw) :=
  '(ok, k, w) ← CryptState_bstr_ecc_key w from;
  Ok (ok, match k with Some k => on_side my_key (set_key (KLive k)) w | None => w end).

(** the state is returned whatever happened on the way *)
Definition CryptState_create (st : store) (rng : R) (name : option bytes) (prvkey : option bytes) : res cw :=
  nm ← need AssertFail name;
  let w := CWorld (mkState (set_pname (SLive nm) zero_peer) zero_peer skey_zero) st rng in
  '(rc, w) ← match prvkey with
             | Some k => CryptState_import_key w CRYPT_MY_KEY (Some k)
             | None => Ok (CryptState_create_key w)
             end;
  let '(ok, w) := checkw w rc in
  if negb ok then Ok w else CryptState_rand_sess w.

Definition CryptState_reset w : res cw :=
  w ← CryptState_peer_destroy w CRYPT_THEIR_KEY;
  let w := put_cs (put_shared skey_zero (c_cs w)) w in
  CryptState_rand_sess (on_me (fun p => set_skey skey_zero (set_nonce zero_nonce p)) w).

(** ** Packets *)

(** the payload's buffer is encrypted and goes into the message *)
Definition CryptState_encrypt_packet w (key : S) (header payload : bytes) : res (option loc * cw) :=
  let '(c, tag) := ccm_memory true key (nonce_raw (p_nonce (them (c_cs w)))) header payload in
  let '(ok, w) := checkw w (bool_decide (is_Some tag)) in
  if negb ok then Ok (None, w) else
  let w := on_them (fun p => set_nonce (CryptState_nonce_inc (p_nonce p)) p) w in
  '(msg, st) ← Node_cons (c_st w) (lit "[bbw") [CABstr (Some c); CABstr tag; CACstr (Some CRYPT_ENV_MSG)];
  Ok (msg, put_st st w).

Definition CryptState_encrypt_node w (key : S) (header : bytes) (payload : option loc) : res (option loc * cw) :=
  _ ← assert_ (bool_decide (payload <> None));
  pbuf ← Node_bstr (c_st w) payload true;
  let '(ok, w) := checkw w true in
  if negb ok then Ok (None, w) else
  '(msg, w) ← CryptState_encrypt_packet w key header pbuf;
  let '(ok, w) := checkw w (bool_decide (msg <> None)) in
  Ok (if ok : bool then msg else None, w).

(** The payload, which is still the string of a node of the packet.  The failure path of
    every check but the last returns it as it is. *)
Definition CryptState_decrypt_packet w (key : S) (header : bytes) (packet : option loc) : res (option bytes * cw) :=
  _ ← assert_ (bool_decide (packet <> None));
  '(rc, outs, st) ← Node_decons (c_st w) packet false (lit "[bbw") [DOut; DOut; DName (Some CRYPT_ENV_MSG)];
  let w := put_st st w in
  let rectag := out_str outs 0 in
  let payload := out_str outs 1 in
  let '(ok, w) := checkw w rc in
  if negb ok then Ok (snd <$> payload, w) else
  '(l, c) ← need NullDeref payload;
  let '(p, tag) := ccm_memory false key (nonce_raw (p_nonce (me (c_cs w)))) header c in
  st ← update (c_st w) l (set_value (VString (Some p)));
  let w := put_st st w in
  let '(ok, w) := checkw w (bool_decide (is_Some tag)) in
  if negb ok then Ok (Some p, w) else
  let w := on_me (fun q => set_nonce (CryptState_nonce_inc (p_nonce q)) q) w in
  let '(ok, w) := checkw w (bool_decide (tag = snd <$> rectag)) in
  if negb ok then
    st ← update (c_st w) l (set_value VFreed);
    Ok (None, put_st st w)
  else Ok (Some p, w).

Definition CryptState_decrypt_node w (key : S) (header : bytes) (packet : option loc) : res (option loc * cw) :=
  '(pbuf, w) ← CryptState_decrypt_packet w key header packet;
  let '(ok, w) := checkw w (match pbuf with Some b => 0 <? zlen b | None => false end) in
  if negb ok then Ok (None, w) else
  pbuf ← need NullDeref pbuf;
  '(payload, st) ← Node_parse pbuf (c_st w);
  let '(_, w) := checkw (put_st st w) (bool_decide (payload <> None)) in
  Ok (payload, w).

(** ** The key exchange *)

Section Exchange.
Context (key_confirm : CryptState E S -> bool).

Definition CryptState_create_shared_key w (header : option loc) (nonced : bool) : res (bool * cw) :=
  _ ← assert_ (bool_decide (header <> None));
  '(rc, outs, st) ← (if nonced
    then Node_decons (c_st w) header false (lit "[bnnw") [DOut; DOut; DOut; DName (Some CRYPT_HEADER)]
    else Node_decons (c_st w) header false (lit "[bw") [DOut; DName (Some CRYPT_HEADER)]);
  let w := put_st st w in
  let n := p_nonce (them (c_cs w)) in
  let w := if nonced then on_them (set_nonce (mkNonce (out_num outs 1 (n_left n)) (out_num outs 2 (n_right n)))) w else w in
  let '(ok, w) := checkw w rc in
  if negb ok then Ok (false, w) else
  '(rc, w) ← CryptState_import_key w CRYPT_THEIR_KEY (snd <$> out_str outs 0);
  let '(ok, w) := checkw w rc in
  if negb ok then Ok (false, w) else
  let '(ok, w) := checkw w (key_confirm (c_cs w)) in
  if negb ok then Ok (false, w) else
  a ← use_key (p_key (me (c_cs w)));
  b ← use_key (p_key (them (c_cs w)));
  let secret := ecc_shared_secret a b in
  let '(ok, w) := checkw w (bool_decide (is_Some secret)) in
  if negb ok then Ok (false, w) else
  secret ← need NullDeref secret;
  let k := rijndael_setup secret in
  let w := match k with Some k => put_cs (put_shared k (c_cs w)) w | None => w end in
  let '(ok, w) := checkw w (bool_decide (is_Some k)) in
  Ok (ok, w).

(** R->I: N,PubR *)
Definition CryptState_receiver_start w : res (option loc * cw) :=
  let '(n, w) := CryptState_create_nonce w in
  let w := match n with Some n => on_me (set_nonce n) w | None => w end in
  let '(ok, w) := checkw w (bool_decide (is_Some n)) in
  if negb ok then Ok (None, w) else
  '(key, w) ← CryptState_export_key w CRYPT_MY_KEY PK_PUBLIC;
  let n := p_nonce (me (c_cs w)) in
  '(msg, st) ← Node_cons (c_st w) (lit "[nnbw")
     [CANum (n_right n); CANum (n_left n); CABstr key; CACstr (Some CRYPT_HEADER)];
  let '(ok, w) := checkw (put_st st w) (bool_decide (msg <> None)) in
  Ok (if ok : bool then msg else None, w).

(** R<-I: PubI, Er(I,Kir,Ni) *)
Definition CryptState_receiver_process_response w (hbuf : bytes) (payload : option loc) : res (bool * cw) :=
  _ ← assert_ (bool_decide (payload <> None));
  '(header, st) ← Node_parse hbuf (c_st w);
  let '(ok, w) := checkw (put_st st w) (bool_decide (header <> None)) in
  if negb ok then Ok (false, w) else
  '(rc, w) ← CryptState_create_shared_key w header false;
  w ← destroy w header;
  let '(ok, w) := checkw w rc in
  if negb ok then Ok (false, w) else
  '(ident, w) ← CryptState_decrypt_node w (shared (c_cs w)) hbuf payload;
  let '(ok, w) := checkw w (bool_decide (ident <> None)) in
  if negb ok then Ok (false, w) else
  '(rc, outs, st) ← Node_decons (c_st w) ident true (lit "[nnbsw")
     [DOut; DOut; DOut; DOut; DName (Some CRYPT_INIT_MSG)];
  let w := put_st st w in
  let t := them (c_cs w) in
  let w := on_them (fun p => mkPeer (out_bstr outs 3 (p_name t))
             (mkNonce (out_num outs 0 (n_left (p_nonce t))) (out_num outs 1 (n_right (p_nonce t))))
             (p_key p) (out_bstr outs 2 (p_session t)) (p_skey p)) w in
  w ← destroy w ident;
  let '(ok, w) := checkw w rc in
  Ok (ok, w).

Definition empty_header : bytes := lit "[ header " ++ [Byte.x0a].

(** R->I: Ei(R,Kri,Ni,Nr); the message and the header *)
Definition CryptState_receiver_send_final w : res (option loc * bytes * cw) :=
  let hbuf := empty_header in
  let finish w msg payload := w ← destroy w payload; Ok (msg, hbuf, w) in
  let '(ok, w) := checkw w true in
  if negb ok then finish w None None else
  let '(n, w) := CryptState_create_nonce w in
  let w := match n with Some n => on_me (set_nonce n) w | None => w end in
  let '(ok, w) := checkw w (bool_decide (is_Some n)) in
  if negb ok then finish w None None else
  nm ← bstrcpy (p_name (me (c_cs w)));
  se ← bstrcpy (p_session (me (c_cs w)));
  let nt := p_nonce (them (c_cs w)) in
  let nm' := p_nonce (me (c_cs w)) in
  '(payload, st) ← Node_cons (c_st w) (lit "[sbnnnnw")
     [CABstr nm; CABstr se; CANum (n_right nt); CANum (n_left nt); CANum (n_right nm'); CANum (n_left nm');
      CACstr (Some CRYPT_RECV_MSG)];
  let '(ok, w) := checkw (put_st st w) (bool_decide (payload <> None)) in
  if negb ok then finish w None payload else
  '(msg, w) ← CryptState_encrypt_node w (shared (c_cs w)) hbuf payload;
  let '(_, w) := checkw w (bool_decide (msg <> None)) in
  finish w msg payload.

(** the session strings are wiped and set to NULL; the library does not accept the NULL
    that [bdata] gives for a missing one *)
Definition CryptState_finalize_session w : res (bool * cw) :=
  let setup (b : bstr) : res (option S) :=
    match b with SLive s => Ok (rijndael_setup s) | SNull => Fault NullDeref | SFreed => Fault BadPointer end in
  let finish w rc : res (bool * cw) :=
    _ ← free_bstr (p_session (me (c_cs w)));
    _ ← free_bstr (p_session (them (c_cs w)));
    let w := put_cs (put_shared skey_zero (c_cs w)) w in
    Ok (rc, on_them (set_session SNull) (on_me (set_session SNull) w)) in
  k ← setup (p_session (me (c_cs w)));
  let w := match k with Some k => on_me (set_skey k) w | None => w end in
  let '(ok, w) := checkw w (bool_decide (is_Some k)) in
  if negb ok then finish w (bool_decide (is_Some k)) else
  k ← setup (p_session (them (c_cs w)));
  let w := match k with Some k => on_them (set_skey k) w | None => w end in
  let '(_, w) := checkw w (bool_decide (is_Some k)) in
  finish w (bool_decide (is_Some k)).

(** R<-I: Er(Nr) *)
Definition CryptState_receiver_done w (header : bytes) (msg : option loc) : res (bool * cw) :=
  let finish w (payload : option loc) rc := w ← destroy w payload; Ok (rc, w) in
  _ ← assert_ (bool_decide (msg <> None));
  '(payload, w) ← CryptState_decrypt_node w (shared (c_cs w)) header msg;
  let '(ok, w) := checkw w (bool_decide (payload <> None)) in
  if negb ok then finish w payload false else
  '(rc, outs, st) ← Node_decons (c_st w) payload false (lit "[nnw") [DOut; DOut; DName (Some CRYPT_INIT_MSG)];
  let '(ok, w) := checkw (put_st st w) rc in
  if negb ok then finish w payload rc else
  let expected := CryptState_nonce_inc (mkNonce (out_num outs 0 0) (out_num outs 1 0)) in
  let '(ok, w) := checkw w (CryptState_nonce_check (p_nonce (me (c_cs w))) expected) in
  if negb ok then finish w payload false else
  '(rc, w) ← CryptState_finalize_session w;
  let '(_, w) := checkw w rc in
  finish w payload rc.

(** I<-R: N,PubR;  I->R: PubI, Er(I,Kir,Ni) *)
Definition CryptState_initiator_start w (recvhdr : option loc) : res (option loc * option bytes * cw) :=
  let finish w msg (header payload : option loc) hbuf :=
    w ← destroy w header; w ← destroy w payload; Ok (msg, hbuf, w) in
  _ ← assert_ (bool_decide (recvhdr <> None));
  '(rc, w) ← CryptState_create_shared_key w recvhdr true;
  let '(ok, w) := checkw w rc in
  if negb ok then finish w None None None None else
  '(key, w) ← CryptState_export_key w CRYPT_MY_KEY PK_PUBLIC;
  let '(ok, w) := checkw w (bool_decide (is_Some key)) in
  if negb ok then finish w None None None None else
  '(header, st) ← Node_cons (c_st w) (lit "[bw") [CABstr key; CACstr (Some CRYPT_HEADER)];
  let w := put_st st w in
  hbuf ← Node_bstr (c_st w) header true;
  let '(n, w) := CryptState_create_nonce w in
  let w := match n with Some n => on_me (set_nonce n) w | None => w end in
  let '(ok, w) := checkw w (bool_decide (is_Some n)) in
  if negb ok then finish w None header None (Some hbuf) else
  nm ← bstrcpy (p_name (me (c_cs w)));
  se ← bstrcpy (p_session (me (c_cs w)));
  let n := p_nonce (me (c_cs w)) in
  '(payload, st) ← Node_cons (c_st w) (lit "[sbnnw")
     [CABstr nm; CABstr se; CANum (n_right n); CANum (n_left n); CACstr (Some CRYPT_INIT_MSG)];
  let '(ok, w) := checkw (put_st st w) (bool_decide (payload <> None)) in
  if negb ok then finish w None header payload (Some hbuf) else
  '(msg, w) ← CryptState_encrypt_node w (shared (c_cs w)) hbuf payload;
  let '(_, w) := checkw w (bool_decide (msg <> None)) in
  finish w msg header payload (Some hbuf).
End Exchange.

(** I<-R: Ei(R,Kri,Ni,Nr); the result is that of the last [Node_decons], also when the
    nonce is wrong *)
Definition CryptState_initiator_process_response w (header : bytes) (msg : option loc) : res (bool * cw) :=
  let finish w (payload : option loc) rc := w ← destroy w payload; Ok (rc, w) in
  _ ← assert_ (bool_decide (msg <> None));
  '(payload, w) ← CryptState_decrypt_node w (shared (c_cs w)) header msg;
  let '(ok, w) := checkw w (bool_decide (payload <> None)) in
  if negb ok then finish w payload false else
  '(rc, outs, st) ← Node_decons (c_st w) payload true (lit "[nnnnbsw")
     [DOut; DOut; DOut; DOut; DOut; DOut; DName (Some CRYPT_RECV_MSG)];
  let w := put_st st w in
  let t := them (c_cs w) in
  let w := on_them (fun p => mkPeer (out_bstr outs 5 (p_name t))
             (mkNonce (out_num outs 0 (n_left (p_nonce t))) (out_num outs 1 (n_right (p_nonce t))))
             (p_key p) (out_bstr outs 4 (p_session t)) (p_skey p)) w in
  let '(ok, w) := checkw w (match p_name (them (c_cs w)) with SNull => false | _ => true end) in
  if negb ok then finish w payload rc else
  let '(ok, w) := checkw w rc in
  if negb ok then finish w payload rc else
  let me_nonce := CryptState_nonce_inc (mkNonce (out_num outs 2 0) (out_num outs 3 0)) in
  let '(_, w) := checkw w (CryptState_nonce_check (p_nonce (me (c_cs w))) me_nonce) in
  finish w payload rc.

(** I->R: Er(Nr); the message is returned even when the session was not set up *)
Definition CryptState_initiator_send_final w : res (option loc * bytes * cw) :=
  let hbuf := empty_header in
  let finish w (msg payload : option loc) := w ← destroy w payload; Ok (msg, hbuf, w) in
  let n := p_nonce (them (c_cs w)) in
  '(payload, st) ← Node_cons (c_st w) (lit "[nnw") [CANum (n_right n); CANum (n_left n); CACstr (Some CRYPT_INIT_MSG)];
  let '(ok, w) := checkw (put_st st w) (bool_decide (payload <> None)) in
  if negb ok then finish w None payload else
  '(msg, w) ← CryptState_encrypt_node w (shared (c_cs w)) hbuf payload;
  let '(ok, w) := checkw w (bool_decide (msg <> None)) in
  if negb ok then finish w msg payload else
  '(rc, w) ← CryptState_finalize_session w;
  let '(_, w) := checkw w rc in
  finish w msg payload.
End Ops.

End Crypto.
