(* ===== verification/Signing.v ===== *)
(** * Signing: fingerprints, signatures and the hate challenge of [src/src/protocol/crypto.c]

    The second half of [crypto.c], on the state and the library interface of [Crypto]. *)

From Stdlib Require Import ZArith Lia.
From S2P Require Import Prelude Cstdlib Node NodeFormat Stackish Crypto.
Import Cstdlib Node NodeFormat Stackish Crypto.
Local Open Scope Z_scope.

Module Signing.

(** [%02x] of a byte *)
Definition hex_digit (d : Z) : byte := if d <? 10 then digit d else uchar (87 + d).
Definition hex2 (b : byte) : bytes := [hex_digit (bv b / 16); hex_digit (bv b mod 16)].

(** the loop, from index [i] of the hash: all bytes but the last, a dash after every second *)
Fixpoint fp_loop (i : nat) (hash : bytes) : bytes :=
  match hash with
  | [] => []
  | [b] => hex2 b
  | b :: rest => (if Nat.odd i then hex2 b ++ lit "-" else hex2 b) ++ fp_loop (S i) rest
  end.

Section Ops.
Context {E S R : Type} `{!Ltc E S R}.
Abbreviation cw := (cworld E S R).
Implicit Types w : cw.

(** A hash of no bytes would make the loop run to [ULONG_MAX]. *)
Definition CryptState_fingerprint_bstr w (str : bytes) : res (option bytes * cw) :=
  let h := hash_memory str in
  let '(ok, w) := checkw w (bool_decide (is_Some h)) in
  if negb ok then Ok (None, w) else
  h ← need NullDeref h;
  _ ← (if bool_decide (h = []) then Fault OutOfBounds else Ok tt);
  Ok (Some (fp_loop 0 h), w).

Definition CryptState_fingerprint_key w (my_key : crypt_key_side) (type : pk_type) : res (option bytes * cw) :=
  '(outkey, w) ← CryptState_export_key w my_key type;
  let '(ok, w) := checkw w (bool_decide (is_Some outkey)) in
  if negb ok then Ok (None, w) else
  outkey ← need NullDeref outkey;
  CryptState_fingerprint_bstr w outkey.

(** what goes to stderr *)
Definition CryptState_print_key w (my_key : crypt_key_side) (type : pk_type) : res (bytes * cw) :=
  '(fp, w) ← CryptState_fingerprint_key w my_key type;
  let '(ok, w) := checkw w (bool_decide (is_Some fp)) in
  if negb ok then Ok ([], w) else
  Ok (match type with PK_PUBLIC => lit "PUBLIC: " | PK_PRIVATE => lit "PRIVATE: " end
        ++ default [] fp ++ [Byte.x0a], w).

Definition CryptState_hash w (data : bytes) : option bytes * cw :=
  let h := hash_memory data in
  let '(ok, w) := checkw w (bool_decide (is_Some h)) in
  (if ok then h else None, w).

Definition CryptState_hash_nonce w (n : CryptNonce) := CryptState_hash w (nonce_raw n).
Definition CryptState_hash_bstr w (b : bytes) := CryptState_hash w b.

Definition CryptState_sign_node w (private_key : ekey E) (name : bstr) (input : option loc) : res (option loc * cw) :=
  payload ← Node_bstr (c_st w) input true;
  let '(ok, w) := checkw w true in
  if negb ok then Ok (None, w) else
  let '(hash, w) := CryptState_hash_bstr w payload in
  let '(ok, w) := checkw w (bool_decide (is_Some hash)) in
  if negb ok then Ok (None, w) else
  hash ← need NullDeref hash;
  k ← use_key private_key;
  let '(signature, r) := ecc_sign_hash (c_rng w) hash k in
  let '(ok, w) := checkw (put_rng r w) (bool_decide (is_Some signature)) in
  if negb ok then Ok (None, w) else
  '(public_key, w) ← CryptState_ecc_key_bstr w private_key PK_PUBLIC;
  nm ← bstrcpy name;
  '(result, st) ← Node_cons (c_st w) (lit "[[bbbw[bbww")
     [CABstr (Some payload); CABstr (Some hash); CABstr signature; CACstr (Some (lit "message"));
      CABstr public_key; CABstr nm; CACstr (Some (lit "identity")); CACstr (Some (lit "signed"))];
  let '(ok, w) := checkw (put_st st w) (bool_decide (result <> None)) in
  Ok (if ok : bool then result else None, w).

(** the content, the key it came with and [*sig_stat] *)
Definition CryptState_verify_signature w (name : bstr) (input : option loc) (sig_stat : bool)
  : res (option loc * option E * bool * cw) :=
  '(rc, outs, st) ← Node_decons (c_st w) input false (lit "[[bbw[bbbww")
     [DOut; DOut; DName (Some (lit "identity")); DOut; DOut; DOut; DName (Some (lit "message")); DName (Some (lit "signed"))];
  let '(ok, w) := checkw (put_st st w) rc in
  if negb ok then Ok (None, None, sig_stat, w) else
  (* [biseq] gives -1 for NULL, which is true *)
  let same := match name, snd <$> out_str outs 0 with SLive a, Some b => bool_decide (a = b) | _, _ => true end in
  let '(ok, w) := checkw w same in
  if negb ok then Ok (None, None, sig_stat, w) else
  '(rc, key, w) ← CryptState_bstr_ecc_key w (snd <$> out_str outs 1);
  let '(ok, w) := checkw w rc in
  if negb ok then Ok (None, key, sig_stat, w) else
  k ← need NullDeref key;
  signature ← need NullDeref (out_str outs 2);
  hash ← need NullDeref (out_str outs 3);
  let v := ecc_verify_hash (snd signature) (snd hash) k in
  let sig_stat := default sig_stat v in
  let '(ok, w) := checkw w (bool_decide (is_Some v)) in
  if negb ok then Ok (None, key, sig_stat, w) else
  payload ← need NullDeref (out_str outs 4);
  '(result, st) ← Node_parse (snd payload) (c_st w);
  let '(_, w) := checkw (put_st st w) (bool_decide (result <> None)) in
  Ok (result, key, sig_stat, w).

(** ** The hate challenge *)

(** The signed challenge and the numbers expected back.  Shifting a 32-bit value by 32 or more is undefined. *)
Definition CryptState_generate_hate_challenge w (level : Z) : res (option loc * option CryptNonce * cw) :=
  let shift := u32 (level + 1) in
  _ ← (if shift <? 32 then Ok tt else Fault SignedOverflow);
  let level_max := u32 (Z.shiftl 1 shift) in
  let '(ok, w) := checkw w (0 <? level_max) in
  if negb ok then Ok (None, None, w) else
  let '(n, w) := CryptState_create_nonce w in
  let '(ok, w) := checkw w (bool_decide (is_Some n)) in
  if negb ok then Ok (None, n, w) else
  n ← need NullDeref n;
  let expecting := mkNonce (n_left n) (n_right n mod level_max) in
  let '(hash, w) := CryptState_hash_nonce w expecting in
  '(msg, st) ← Node_cons (c_st w) (lit "[nnnbw")
     [CANum level; CANum 0; CANum (n_left expecting); CABstr hash; CACstr (Some CRYPT_CHALLENGE_MSG)];
  let '(ok, w) := checkw (put_st st w) (bool_decide (msg <> None)) in
  if negb ok then w ← destroy w msg; Ok (None, Some expecting, w) else
  '(sign, w) ← CryptState_sign_node w (p_key (me (c_cs w))) (p_name (me (c_cs w))) msg;
  let '(ok, w) := checkw w (bool_decide (sign <> None)) in
  if negb ok then w ← destroy w msg; Ok (None, Some expecting, w) else
  Ok (sign, Some expecting, w).

(** the loop: the right number, or not found among the first [tries], or hashing failed *)
Inductive searched := Found (rgt : Z) | NotFound | HashFailed.

Fixpoint search (tries : nat) (lft rgt : Z) (hash : bytes) (errno : Z) : searched :=
  match tries with
  | O => NotFound
  | Datatypes.S tries' =>
    match hash_memory (nonce_raw (mkNonce lft rgt)) with
    | Some h =>
      if negb (errno =? 0) then HashFailed
      else if bool_decide (h = hash) then Found rgt else search tries' lft (rgt + 1) hash errno
    | None => HashFailed
    end
  end.

Definition CryptState_answer_hate_challenge w (challenge : option loc) (max_allowed_level : Z) : res (option loc * cw) :=
  _ ← assert_ (bool_decide (challenge <> None));
  _ ← assert_ (0 <? max_allowed_level);
  '(challenge, _, rc, w) ← CryptState_verify_signature w (p_name (them (c_cs w))) challenge false;
  let '(ok, w) := checkw w rc in
  if negb ok then Ok (None, w) else
  '(rc, outs, st) ← Node_decons (c_st w) challenge true (lit "[bnnnw")
     [DOut; DOut; DOut; DOut; DName (Some CRYPT_CHALLENGE_MSG)];
  let '(ok, w) := checkw (put_st st w) rc in
  if negb ok then Ok (None, w) else
  let level := out_num outs 3 0 in
  let '(ok, w) := checkw w (out_num outs 2 0 =? 0) in
  if negb ok then Ok (None, w) else
  let '(ok, w) := checkw w (level <=? max_allowed_level) in
  if negb ok then Ok (None, w) else
  let hash := snd <$> out_str outs 0 in
  let '(ok, w) := checkw w (bool_decide (is_Some hash)) in
  if negb ok then Ok (None, w) else
  hash ← need NullDeref hash;
  let shift := u64 (level + 1) in
  _ ← (if shift <? 64 then Ok tt else Fault SignedOverflow);
  let bound := u64 (Z.shiftl level shift) in
  '(answer, w) ← match search (Z.to_nat bound) (out_num outs 1 0) 0 hash (errno (c_st w)) with
    | Found rgt =>
      '(a, st) ← Node_cons (c_st w) (lit "[nnw") [CANum (out_num outs 1 0); CANum rgt; CACstr (Some CRYPT_ANSWER_MSG)];
      Ok (a, put_st st w)
    | NotFound => Ok (None, w)
    | HashFailed => Ok (None, put_st (set_errno 0 (c_st w)) w)
    end;
  let '(ok, w) := checkw w (bool_decide (answer <> None)) in
  if negb ok then w ← destroy w answer; Ok (None, w) else
  '(sign, w) ← CryptState_sign_node w (p_key (me (c_cs w))) (p_name (me (c_cs w))) answer;
  let '(ok, w) := checkw w (bool_decide (sign <> None)) in
  if negb ok then w ← destroy w answer; Ok (None, w) else
  Ok (sign, w).

Definition CryptState_validate_hate_challenge w (answer : option loc) (expecting : CryptNonce) : res (bool * cw) :=
  _ ← assert_ (bool_decide (answer <> None));
  '(answer, _, sig_stat, w) ← CryptState_verify_signature w (p_name (them (c_cs w))) answer false;
  let '(ok, w) := checkw w sig_stat in
  if negb ok then Ok (false, w) else
  '(rc, outs, st) ← Node_decons (c_st w) answer false (lit "[nnw") [DOut; DOut; DName (Some CRYPT_ANSWER_MSG)];
  let '(ok, w) := checkw (put_st st w) rc in
  if negb ok then Ok (false, w) else
  let '(ok, w) := checkw w ((n_left expecting =? out_num outs 1 0) && (n_right expecting =? out_num outs 0 0)) in
  Ok (ok, w).
End Ops.

End Signing.
