(* ===== verification/Frame.v ===== *)
(** * Frame: length-prefixed frames on a socket, [src/src/protocol/frame.c]

    A frame is a 16-bit length, the text of a header node and the text of a body node.  The
    buffers ([sbuf]) and the socket calls are those of the Myriad library, which is not in the
    repository: they are the parameter [Sbuf], and [SbufLaws] is their documented behaviour, with
    [contents] for what a buffer holds and [incoming] and [written] for the two directions
    of a socket. *)

From Stdlib Require Import ZArith Lia.
From S2P Require Import Prelude Cstdlib Node NodeFormat Stackish.
Import Cstdlib Node NodeFormat Stackish.
Local Open Scope Z_scope.

Module Frame.

(** what [io_read_sbuf] leaves: its result, the bytes read, [errno], socket and buffer *)
Record io_result (B F : Type) := IoResult { io_rc : bool; io_n : Z; io_errno : Z; io_fd : F; io_buf : B }.
Arguments IoResult {B F}.
Arguments io_rc {B F}.
Arguments io_n {B F}.
Arguments io_errno {B F}.
Arguments io_fd {B F}.
Arguments io_buf {B F}.

(** [B] is an [sbuf], [F] the socket behind a file descriptor *)
Class Sbuf (B F : Type) := {
  isvalidsock : F -> bool;
  sbuf_create : Z -> B;
  sbuf_data_avail : B -> Z;
  sbuf_space_avail : B -> Z;
  sbuf_get_ntohs : B -> option Z * B;
  sbuf_read_bstr : B -> Z -> option bytes * B;
  sbuf_put_htons : B -> Z -> bool * B;
  sbuf_write_bstr : B -> bytes -> bool * B;
  io_read_sbuf : F -> B -> io_result B F;
  io_flush_sbuf : F -> B -> io_result B F
}.

Record FrameSource (B F : Type) := mkFrame { f_out : B; f_in : B; f_fd : F }.
Arguments mkFrame {B F}.
Arguments f_out {B F}.
Arguments f_in {B F}.
Arguments f_fd {B F}.

Definition EBADF : Z := 9.

(** [errno] after a call that sets it or leaves it alone *)
Definition after_call (e : Z) (st : store) : store := if e =? 0 then st else set_errno e st.

Section Ops.
Context {B F : Type} `{!Sbuf B F}.
Abbreviation frame_source := (FrameSource B F).
Implicit Types fs : frame_source.

(** the [while] of [io_ensure_sbuf] *)
Fixpoint ensure_loop (fuel : nat) (st : store) fs (rc : bool) (length : Z) : res (bool * store * frame_source) :=
  match fuel with
  | O => Fault NoFuel
  | S fuel' =>
    if sbuf_data_avail (f_in fs) <? length then
      let r := io_read_sbuf (f_fd fs) (f_in fs) in
      let fs := mkFrame (f_out fs) (io_buf r) (io_fd r) in
      let rc := io_rc r in
      let st := after_call (io_errno r) st in
      if negb rc || negb (errno st =? 0) then Ok (rc, set_errno 0 st, fs)
      else
        let '(ok, st) := check st (negb (io_n r =? 0)) in
        if ok : bool then ensure_loop fuel' st fs rc length else Ok (rc, st, fs)
    else Ok (rc, st, fs)
  end.

(** every read brings a byte, or ends the loop *)
Definition io_ensure_sbuf (st : store) fs (length : Z) : res (bool * store * frame_source) :=
  _ ← assert_ (isvalidsock (f_fd fs));
  ensure_loop (S (Z.to_nat length)) st fs true length.

Record received := Received { r_msg : option loc; r_hbuf : option bytes; r_header : option loc }.

(** What was parsed is returned with every failure behind it. *)
Definition FrameSource_recv (st : store) fs : res (received * store * frame_source) :=
  '(rc, st, fs) ← io_ensure_sbuf st fs 2;
  if negb rc then Ok (Received None None None, st, fs) else
  let '(len, b) := sbuf_get_ntohs (f_in fs) in
  let fs := mkFrame (f_out fs) b (f_fd fs) in
  let '(ok, st) := check st (bool_decide (is_Some len)) in
  if negb ok then Ok (Received None None None, st, fs) else
  let len := default 0 len in
  let '(ok, st) := check st (0 <? len) in
  if negb ok then Ok (Received None None None, st, fs) else
  '(rc, st, fs) ← io_ensure_sbuf st fs len;
  let '(ok, st) := check st rc in
  if negb ok then Ok (Received None None None, st, fs) else
  let '(data, b) := sbuf_read_bstr (f_in fs) len in
  let fs := mkFrame (f_out fs) b (f_fd fs) in
  let '(ok, st) := check st (bool_decide (is_Some data)) in
  if negb ok then Ok (Received None None None, st, fs) else
  data ← need NullDeref data;
  let '(ok, st) := check st (zlen data =? len) in
  if negb ok then Ok (Received None None None, st, fs) else
  '(header, from, st) ← Node_parse_seq (parse_fuel data) data 0 st;
  let '(ok, st) := check st (bool_decide (header <> None)) in
  if negb ok then Ok (Received None None header, st, fs) else
  let hbuf := Some (take (Z.to_nat from) data) in
  if from <? len then
    '(msg, from, st) ← Node_parse_seq (parse_fuel data) data from st;
    let '(ok, st) := check st (bool_decide (msg <> None)) in
    if negb ok then Ok (Received msg hbuf header, st, fs) else
    let '(_, st) := check st (from =? len) in
    Ok (Received msg hbuf header, st, fs)
  else
    let '(_, st) := check st (from =? len) in
    Ok (Received None hbuf header, st, fs).

Definition FrameSource_send (st : store) fs (header : bytes) (msg : option loc) (flush : bool)
  : res (bool * store * frame_source) :=
  data ← Node_bstr st msg true;
  let '(ok, st) := check st true in
  if negb ok then Ok (false, st, fs) else
  let msg_len := u16 (zlen header + zlen data) in
  let put b fs := mkFrame b (f_in fs) (f_fd fs) in
  let do_flush st fs :=
    let r := io_flush_sbuf (f_fd fs) (f_out fs) in
    (io_rc r, after_call (io_errno r) st, mkFrame (io_buf r) (f_in fs) (io_fd r)) in
  (* room for the frame; [inl] is the early return *)
  let '(room, st, fs) :=
    if sbuf_space_avail (f_out fs) <? msg_len then
      let '(rc, st, fs) := do_flush st fs in
      let '(ok, st) := check st rc in
      if negb ok then (inl rc, st, fs) else
      let '(ok, st) := check st (msg_len <=? sbuf_space_avail (f_out fs)) in
      (if negb ok then inl false else inr tt, st, fs)
    else (inr tt, st, fs) in
  match room with
  | inl rc => Ok (rc, st, fs)
  | inr _ =>
    let '(rc, b) := sbuf_put_htons (f_out fs) msg_len in
    let fs := put b fs in
    let '(ok, st) := check st rc in
    if negb ok then Ok (rc, st, fs) else
    let '(rc, b) := sbuf_write_bstr (f_out fs) header in
    let fs := put b fs in
    let '(ok, st) := check st rc in
    if negb ok then Ok (rc, st, fs) else
    let '(rc, b) := sbuf_write_bstr (f_out fs) data in
    let fs := put b fs in
    let '(ok, st) := check st rc in
    if negb ok then Ok (rc, st, fs) else
    if flush then
      let '(rc, st, fs) := do_flush st fs in
      let '(_, st) := check st rc in
      Ok (rc, st, fs)
    else Ok (rc, st, fs)
  end.
End Ops.

End Frame.
