(* ===== verification/Peer.v ===== *)
(** * Peer: the two sides of a connection, [src/src/protocol/peer.c]

    A peer is a channel ([Crypto]) on a socket ([Frame]).  The local variables of the two
    establish functions are kept as they are: what is destroyed at the end, and which
    result is returned, depends on where the function stopped. *)

From Stdlib Require Import ZArith Lia.
From S2P Require Import Prelude Cstdlib Node NodeFormat Stackish Crypto Frame.
Import Cstdlib Node NodeFormat Stackish Crypto Frame.
Local Open Scope Z_scope.

Module Peer.

Definition PEER_DEFAULT_IO_BUF_SIZE : Z := 32 * 1024.

Record Peer (E S R B F : Type) := mkPeerw {
  pr_state : cworld E S R;
  pr_source : FrameSource B F
}.
Arguments mkPeerw {E S R B F}.
Arguments pr_state {E S R B F}.
Arguments pr_source {E S R B F}.

Section Ops.
Context {E S R B F : Type} `{!Ltc E S R} `{!Sbuf B F} (key_confirm : CryptState E S -> bool).
Abbreviation peer := (Peer E S R B F).
Implicit Types p : peer.

Definition put_state (w : cworld E S R) p : peer := mkPeerw w (pr_source p).

Definition Peer_create (state : cworld E S R) (fd : F) : peer :=
  mkPeerw state (mkFrame (sbuf_create PEER_DEFAULT_IO_BUF_SIZE) (sbuf_create PEER_DEFAULT_IO_BUF_SIZE) fd).

(** the peer is gone; [crypt_too] takes the state with it *)
Definition Peer_destroy p (crypt_too : bool) : res (cworld E S R) :=
  if crypt_too then CryptState_destroy (pr_state p) else Ok (pr_state p).

Definition checkp p (b : bool) : bool * peer := let '(ok, w) := checkw (pr_state p) b in (ok, put_state w p).
Definition destroyp p (n : option loc) : res peer := w ← destroy (pr_state p) n; Ok (put_state w p).

Definition send p (header : bytes) (msg : option loc) : res (bool * peer) :=
  '(rc, st, fs) ← FrameSource_send (c_st (pr_state p)) (pr_source p) header msg true;
  Ok (rc, mkPeerw (put_st st (pr_state p)) fs).

Definition recv p : res (received * peer) :=
  '(r, st, fs) ← FrameSource_recv (c_st (pr_state p)) (pr_source p);
  Ok (r, mkPeerw (put_st st (pr_state p)) fs).

(** the [ensure] at the end: the nodes still held, in order *)
Fixpoint let_go p (ns : list (option loc)) : res peer :=
  match ns with
  | [] => Ok p
  | n :: ns' => p ← destroyp p n; let_go p ns'
  end.

Definition finish p (rc : bool) (ns : list (option loc)) : res (bool * peer) := p ← let_go p ns; Ok (rc, p).

(** the end of [Peer_establish_receiver]: the initiator's last message; [rc] is still the result of sending *)
Definition receiver_last p (rc : bool) : res (bool * peer) :=
  '(r, p) ← recv p;
  let '(ok, p) := checkp p (bool_decide (r_msg r <> None)) in
  if negb ok then finish p rc [None; r_msg r; r_header r] else
  header ← need AssertFail (r_hbuf r);
  '(rc, w) ← CryptState_receiver_done (pr_state p) header (r_msg r);
  let '(_, p) := checkp (put_state w p) rc in
  finish p rc [None; r_msg r; r_header r].

(** the second half of [Peer_establish_receiver], after the initiator's identity was processed:
    [rc] is 1 *)
Definition receiver_rest p : res (bool * peer) :=
  '(rmsg, header, w) ← CryptState_receiver_send_final (pr_state p);
  let '(ok, p) := checkp (put_state w p) (bool_decide (rmsg <> None)) in
  if negb ok then finish p true [rmsg; None; None] else
  '(rc, p) ← send p header rmsg;
  let '(ok, p) := checkp p rc in
  if negb ok then finish p rc [rmsg; None; None] else
  p ← destroyp p rmsg;
  receiver_last p rc.

Definition Peer_establish_receiver p : res (bool * peer) :=
  '(rmsg, w) ← CryptState_receiver_start (pr_state p);
  '(rc, p) ← send (put_state w p) [] rmsg;
  let '(ok, p) := checkp p rc in
  if negb ok then finish p rc [rmsg; None; None] else
  p ← destroyp p rmsg;
  '(r, p) ← recv p;
  let '(ok, p) := checkp p (bool_decide (r_msg r <> None)) in
  if negb ok then finish p false [None; r_msg r; r_header r] else
  header ← need AssertFail (r_hbuf r);
  '(rc, w) ← CryptState_receiver_process_response key_confirm (pr_state p) header (r_msg r);
  let '(ok, p) := checkp (put_state w p) rc in
  if negb ok then finish p rc [None; r_msg r; r_header r] else
  p ← destroyp p (r_msg r);
  p ← destroyp p (r_header r);
  receiver_rest p.

(** the second half of [Peer_establish_initiator], after its identity was sent *)
Definition initiator_rest p (rc : bool) : res (bool * peer) :=
  '(r, p) ← recv p;
  let '(ok, p) := checkp p (bool_decide (r_msg r <> None)) in
  if negb ok then finish p rc [r_msg r; r_header r; None] else
  header ← need AssertFail (r_hbuf r);
  '(rc, w) ← CryptState_initiator_process_response (pr_state p) header (r_msg r);
  let '(ok, p) := checkp (put_state w p) rc in
  if negb ok then finish p rc [r_msg r; r_header r; None] else
  p ← destroyp p (r_msg r);
  '(imsg, header, w) ← CryptState_initiator_send_final (pr_state p);
  let '(ok, p) := checkp (put_state w p) (bool_decide (imsg <> None)) in
  if negb ok then finish p rc [None; r_header r; imsg] else
  '(rc, p) ← send p header imsg;
  let '(_, p) := checkp p rc in
  finish p rc [None; r_header r; imsg].

Definition Peer_establish_initiator p : res (bool * peer) :=
  '(r, p) ← recv p;
  let '(ok, p) := checkp p (bool_decide (r_msg r = None) && bool_decide (r_header r <> None)) in
  if negb ok then finish p false [r_msg r; r_header r; None] else
  '(imsg, header, w) ← CryptState_initiator_start key_confirm (pr_state p) (r_header r);
  let '(ok, p) := checkp (put_state w p) (bool_decide (imsg <> None)) in
  if negb ok then finish p false [None; r_header r; imsg] else
  p ← destroyp p (r_header r);
  header ← need AssertFail header;
  '(rc, p) ← send p header imsg;
  let '(ok, p) := checkp p rc in
  if negb ok then finish p rc [None; None; imsg] else
  p ← destroyp p imsg;
  initiator_rest p rc.

(** the message and its header *)
Definition Peer_recv p : res (option loc * option loc * peer) :=
  '(r, p) ← recv p;
  match r_msg r with
  | None => Ok (None, r_header r, p)
  | Some _ =>
    header ← need AssertFail (r_hbuf r);
    '(msg, w) ← CryptState_decrypt_node (pr_state p) (p_skey (me (c_cs (pr_state p)))) header (r_msg r);
    let '(_, p) := checkp (put_state w p) (bool_decide (msg <> None)) in
    p ← destroyp p (r_msg r);
    Ok (msg, r_header r, p)
  end.

Definition Peer_send p (header payload : option loc) : res (bool * peer) :=
  _ ← assert_ (bool_decide (header <> None));
  _ ← assert_ (bool_decide (payload <> None));
  hbuf ← Node_bstr (c_st (pr_state p)) header true;
  let '(ok, p) := checkp p true in
  if negb ok then Ok (false, p) else
  '(msg, w) ← CryptState_encrypt_node (pr_state p) (p_skey (them (c_cs (pr_state p)))) hbuf payload;
  let '(ok, p) := checkp (put_state w p) (bool_decide (msg <> None)) in
  if negb ok then Ok (false, p) else
  '(rc, p) ← send p hbuf msg;
  p ← destroyp p msg;
  let '(_, p) := checkp p rc in
  Ok (rc, p).
End Ops.

End Peer.
