(* ===== verification/FrameProps.v ===== *)
(** * FrameProps: frames arrive as they were sent

    What [SbufLaws] promises of the buffers and the socket is enough for [FrameSource_recv] to read,
    from whatever pieces the socket delivers, the header and the body that
    [FrameSource_send] wrote; and two limits of the frame layer. *)

From Stdlib Require Import ZArith Lia.
From S2P Require Import Prelude Cstdlib Ragel Node NodeFormat Stackish NodeRep NodeOpen NodeFormatProps StackishDfa StackishRt StackishProps Frame.
Import Cstdlib Node NodeFormat Stackish NodeRep NodeOpen NodeFormatProps StackishRt StackishProps Frame.
Local Open Scope Z_scope.

Module FrameProps.

(** ** Messages: a named group of values, newest first *)

Definition msgtree (nm : bytes) (vs : list fval) : forest := FCons (Some nm) FGrp (flat vs) FNil.
Definition msgtext (nm : bytes) (vs : list fval) : bytes := print_forest Byte.x20 (msgtree nm vs) ++ [Byte.x0a].

(** a value that can stand in a text *)
Definition plain (v : fval) : Prop := leaf v /\ leaf_ok v.

Record good (st : store) : Prop := Good { good_errno : errno st = 0; good_fresh : fresh st }.

(** nodes outside [F] are still there, unchanged *)
Definition keeps_but (F : gset loc) (st st' : store) : Prop :=
  forall l n, l ∉ F -> nodes st !! l = Some n -> nodes st' !! l = Some n.

Lemma keeps_but_refl F st : keeps_but F st st.
Proof. by intros l n _. Qed.

Lemma keeps_but_trans F s1 s2 s3 : keeps_but F s1 s2 -> keeps_but F s2 s3 -> keeps_but F s1 s3.
Proof. intros H1 H2 l n Hl Hn. by apply H2, H1. Qed.

Lemma keeps_but_mono F G s1 s2 : F ⊆ G -> keeps_but F s1 s2 -> keeps_but G s1 s2.
Proof. intros HF H l n Hl. apply H. set_solver. Qed.

Lemma extends_keeps F st st' : extends_by F st st' -> keeps_but ∅ st st'.
Proof. intros [H _] l n _ Hn. by apply (lookup_weaken _ _ _ _ Hn). Qed.

Lemma rep_keeps lk G st st' par p f F :
  rep lk (nodes st) par p f F -> keeps_but G st st' -> F ## G -> rep lk (nodes st') par p f F.
Proof.
  intros Hr Hk Hd. eapply rep_frame; [done|]. intros l Hl. pose proof (rep_dom _ _ _ _ _ _ Hr _ Hl) as [n Hn]%elem_of_dom.
  rewrite Hn. apply Hk; [set_solver|done].
Qed.

Lemma flat_wf vs : Forall plain vs -> wf (flat vs).
Proof.
  induction 1 as [|v vs [H1 H2] _ IH]; [done|]. cbn. destruct v; try done; cbn in *; split_and!; auto.
Qed.

Lemma msg_vals_ok nm vs : Forall plain vs -> vals_ok (msgtree nm vs).
Proof. intros H. cbn. split_and!; auto using forest_vals_ok, flat_wf. Qed.

Lemma flat_height vs : height (flat vs) = length vs.
Proof. induction vs as [|v vs IH]; cbn; [done|]. rewrite IH. lia. Qed.

Lemma ends_in_snoc t c : ends_in_space (t ++ [c]) = match c with Byte.x20 | Byte.x0a | Byte.x09 => true | _ => false end.
Proof.
  unfold ends_in_space. rewrite zlen_app. change (zlen [_]) with 1.
  assert (bchar (Some (t ++ [c])) (zlen t + 1 - 1) = c) as ->; [|done].
  unfold bchar. pose proof (zlen_nonneg t). rewrite zlen_app. change (zlen [_]) with 1.
  rewrite (proj2 (Z.leb_le _ _)), (proj2 (Z.ltb_lt _ _)) by lia.
  cbn [andb]. replace (Z.to_nat _) with (length t) by (unfold zlen; lia). by rewrite list_lookup_middle.
Qed.

Lemma ends_in_nl t : ends_in_space (t ++ [Byte.x0a]) = true.
Proof. apply ends_in_snoc. Qed.

Lemma msgtext_ends nm vs : ends_in_space (msgtext nm vs) = true.
Proof. apply ends_in_nl. Qed.

Lemma ends_in_space_app a b : b <> [] -> ends_in_space (a ++ b) = ends_in_space b.
Proof.
  intros Hb. assert (Hz : 0 < zlen b) by (destruct b as [|b0 b]; [done|rewrite zlen_cons; pose proof (zlen_nonneg b); lia]).
  pose proof (zlen_nonneg a). unfold ends_in_space.
  assert (bchar (Some (a ++ b)) (zlen (a ++ b) - 1) = bchar (Some b) (zlen b - 1)) as ->; [|done].
  unfold bchar. rewrite zlen_app.
  rewrite (proj2 (Z.leb_le 0 (zlen a + zlen b - 1))), (proj2 (Z.ltb_lt (zlen a + zlen b - 1) (zlen a + zlen b))) by lia.
  rewrite (proj2 (Z.leb_le 0 (zlen b - 1))), (proj2 (Z.ltb_lt (zlen b - 1) (zlen b))) by lia. cbn [andb].
  rewrite lookup_app_r by (unfold zlen in *; lia). do 2 f_equal. unfold zlen in *. lia.
Qed.

(** any named group, and its text *)
Definition grp (nm : bytes) (f : forest) : forest := FCons (Some nm) FGrp f FNil.
Definition gtext (nm : bytes) (f : forest) : bytes := print_forest Byte.x20 (grp nm f).

Lemma cons_items st i nm :
  items_ok i -> Byte.x00 ∉ nm -> good st ->
  exists l st' F, Node_cons st (item_fmt (IGroup nm i INil)) (item_args (IGroup nm i INil)) = Ok (Some l, st') /\
    rep true (nodes st') None (Some l) (grp nm (build i FNil)) F /\ good st' /\ extends_by F st st'.
Proof.
  intros Hi Hn [He Hf]. destruct (Node_cons_items st i nm Hi Hn He Hf) as (st' & F & E & Hr & He' & Hf' & Hk & Hnw).
  exists (next st), st', F. split_and!; [done|done|done|by apply keeps_extends].
Qed.

(** building, reading and freeing a message *)
Lemma cons_msg st vs nm :
  Forall leaf vs -> Byte.x00 ∉ nm -> good st ->
  exists l st' F, Node_cons st ((lit "[" ++ map code vs) ++ lit "w") (map cons_arg_of vs ++ [CACstr (Some nm)]) = Ok (Some l, st') /\
    rep true (nodes st') None (Some l) (msgtree nm (rev vs)) F /\ good st' /\ extends_by F st st'.
Proof.
  intros Hv Hn [He Hf]. destruct (Node_cons_flat st vs nm Hv Hn He Hf) as (st' & F & E & Hr & He' & Hf' & Hk & Hnw).
  exists (next st), st', F. split_and!; [done|done|done|by apply keeps_extends].
Qed.

(** the text with the newline of [Node_bstr] *)
Abbreviation line nm f := (gtext nm f ++ [Byte.x0a]).

Lemma parse_grp_at st nm f pre rest :
  let buf := pre ++ gtext nm f ++ rest in
  is_word nm -> wf f -> zlen buf < 2 ^ 31 -> ends_in_space buf = true -> good st ->
  exists l st' F, Node_parse_seq (parse_fuel buf) buf (zlen pre) st = Ok (Some l, zlen pre + zlen (gtext nm f) + skip_nl rest, st') /\
    rep true (nodes st') None (Some l) (grp nm f) F /\ good st' /\ extends_by F st st'.
Proof.
  intros buf Hw Hv Hlen Hend [He Hf]. set (t := gtext nm f) in *.
  destruct (parse_at (Some nm) f pre rest st) as (st' & F & E & Hr & He' & Hf' & Hx); [right; eauto|done..|].
  exists (next st), st', F. split_and!; [|done..]. fold (grp nm f) in E. fold (gtext nm f) in E. fold t in E. fold buf in E. rewrite E. cbv zeta.
  assert (Hp : zlen pre + 2 + zlen (print_forest Byte.x20 f) + stop_pos (Some nm) + 1 = zlen (pre ++ t)).
  { subst t. unfold gtext, grp. rewrite print_word_root, !zlen_app by done. cbn [stop_pos].
    change (zlen (lit "[ ")) with 2. change (zlen [_]) with 1. lia. }
  unfold buf. rewrite Hp, (app_assoc pre t), (proj2 (at_pos_prefix (pre ++ t) rest)). do 3 f_equal. rewrite zlen_app. lia.
Qed.

Lemma gtext_head nm f r : is_word nm -> head (gtext nm f ++ r) = Some Byte.x5b.
Proof. intros Hw. unfold gtext, grp. by rewrite print_word_root. Qed.

Lemma gtext_pos nm f : is_word nm -> 0 < zlen (gtext nm f).
Proof.
  intros Hw. unfold gtext, grp. rewrite print_word_root, !zlen_app by done. change (zlen (lit "[ ")) with 2. change (zlen [_]) with 1.
  pose proof (zlen_nonneg (print_forest Byte.x20 f)). pose proof (zlen_nonneg nm). lia.
Qed.

(** what may stand behind a structure: nothing, or newlines *)
Abbreviation newlines := (Forall (eq Byte.x0a)).

Lemma gtext_ends pre nm f z : is_word nm -> newlines z -> ends_in_space (pre ++ gtext nm f ++ z) = true.
Proof.
  intros Hw Hz. destruct z as [|c z _] using rev_ind.
  - unfold gtext, grp. rewrite app_nil_r, print_word_root by done. rewrite !app_assoc. apply ends_in_snoc.
  - apply Forall_app in Hz as [_ Hz]. apply Forall_cons_1 in Hz as [<- _]. rewrite !app_assoc. apply ends_in_nl.
Qed.

Lemma skip_newlines z r : newlines z -> head r <> Some Byte.x0a -> skip_nl (z ++ r) = zlen z.
Proof.
  intros Hz Hr. induction Hz as [|c z <- _ IH]; cbn [app skip_nl].
  - destruct r as [|c r]; [done|]. cbn in Hr. by destruct c.
  - rewrite IH, zlen_cons. lia.
Qed.

(** a header and a body in a row *)
Lemma parse_two st hn hf z1 bn bf z2 :
  let data := gtext hn hf ++ z1 ++ gtext bn bf ++ z2 in
  is_word hn -> is_word bn -> wf hf -> wf bf -> newlines z1 -> newlines z2 -> zlen data < 2 ^ 31 -> good st ->
  exists lh lb s1 s2 Fh Fb,
    Node_parse_seq (parse_fuel data) data 0 st = Ok (Some lh, zlen (gtext hn hf ++ z1), s1) /\
    Node_parse_seq (parse_fuel data) data (zlen (gtext hn hf ++ z1)) s1 = Ok (Some lb, zlen data, s2) /\
    good s1 /\ good s2 /\ keeps_but ∅ st s2 /\
    rep true (nodes s2) None (Some lh) (grp hn hf) Fh /\ rep true (nodes s2) None (Some lb) (grp bn bf) Fb /\ Fh ## Fb /\
    (Fh ∪ Fb) ## dom (nodes st).
Proof.
  intros data Hh Hb Hhv Hbv H1 H2 Hlen Hg.
  assert (Hd : data = (gtext hn hf ++ z1) ++ gtext bn bf ++ z2) by (unfold data; by rewrite <- app_assoc).
  assert (Hend : ends_in_space data = true) by (rewrite Hd; by apply gtext_ends).
  destruct (parse_grp_at st hn hf [] (z1 ++ gtext bn bf ++ z2) Hh Hhv) as (lh & s1 & Fh & E1 & Hr1 & Hg1 & Hx1); [done..|].
  cbn [app] in E1. fold data in E1. change (zlen []) with 0 in E1. rewrite skip_newlines, Z.add_0_l, <- zlen_app in E1 by (done || by rewrite gtext_head).
  destruct (parse_grp_at s1 bn bf (gtext hn hf ++ z1) z2 Hb Hbv) as (lb & s2 & Fb & E2 & Hr2 & Hg2 & Hx2); [by rewrite <- Hd..|done|].
  rewrite <- Hd in E2. rewrite <- (app_nil_r z2), skip_newlines, <- Z.add_assoc, <- zlen_app, <- zlen_app, <- Hd in E2 by done.
  exists lh, lb, s1, s2, Fh, Fb. pose proof (extends_keeps _ _ _ Hx1) as Hk1. pose proof (extends_keeps _ _ _ Hx2) as Hk2.
  pose proof (rep_dom _ _ _ _ _ _ Hr1) as Hd1. destruct Hx1 as [Hs1 Hf1], Hx2 as [Hs2 Hf2]. apply subseteq_dom in Hs1.
  split_and!; [done|done|done|done|by eapply keeps_but_trans|eapply rep_keeps; [done|exact Hk2|set_solver]|done|set_solver|set_solver].
Qed.

Lemma msgtext_line_len nm vs : zlen (msgtext nm vs) = zlen (gtext nm (flat vs)) + 1.
Proof. apply zlen_app. Qed.

Lemma parse_msg_at st nm vs pre rest :
  is_word nm -> Forall plain vs -> zlen (pre ++ msgtext nm vs ++ rest) < 2 ^ 31 ->
  ends_in_space (pre ++ msgtext nm vs ++ rest) = true -> head rest <> Some Byte.x0a -> good st ->
  exists l st' F, Node_parse_seq (parse_fuel (pre ++ msgtext nm vs ++ rest)) (pre ++ msgtext nm vs ++ rest) (zlen pre) st
      = Ok (Some l, zlen pre + zlen (msgtext nm vs), st') /\
    rep true (nodes st') None (Some l) (msgtree nm vs) F /\ good st' /\ extends_by F st st'.
Proof.
  assert (HT : msgtext nm vs ++ rest = gtext nm (flat vs) ++ [Byte.x0a] ++ rest) by (unfold msgtext; by rewrite <- app_assoc).
  rewrite HT. intros Hw Hv Hlen Hend Hrest Hg.
  destruct (parse_grp_at st nm (flat vs) pre ([Byte.x0a] ++ rest)) as (l & st' & F & E & H); [done|by apply flat_wf|done..|].
  exists l, st', F. split; [|done]. rewrite E.
  assert (skip_nl ([Byte.x0a] ++ rest) = 1) as -> by (cbn; destruct rest as [|[] rest]; cbn; done).
  rewrite msgtext_line_len. do 3 f_equal. lia.
Qed.

Lemma parse_grp st nm f :
  is_word nm -> wf f -> zlen (gtext nm f) < 2 ^ 31 - 1 -> good st ->
  exists l st' F, Node_parse (gtext nm f ++ [Byte.x0a]) st = Ok (Some l, st') /\
    rep true (nodes st') None (Some l) (grp nm f) F /\ good st' /\ extends_by F st st'.
Proof.
  intros Hw Hv Hlen Hg. destruct (parse_grp_at st nm f [] [Byte.x0a]) as (l & st' & F & E & H); cbn [app] in *;
    [done|done|rewrite zlen_app; change (zlen [_]) with 1; lia|apply ends_in_nl|done|].
  exists l, st', F. split; [|done]. unfold Node_parse. change 0 with (zlen (@nil byte)). by rewrite E.
Qed.

Lemma parse_msg st nm vs :
  is_word nm -> Forall plain vs -> zlen (msgtext nm vs) < 2 ^ 31 -> good st ->
  exists l st' F, Node_parse (msgtext nm vs) st = Ok (Some l, st') /\
    rep true (nodes st') None (Some l) (msgtree nm vs) F /\ good st' /\ extends_by F st st'.
Proof.
  intros Hw Hv Hlen Hg. apply parse_grp; [done|by apply flat_wf| |done].
  rewrite msgtext_line_len in Hlen. lia.
Qed.

Lemma bstr_grp st l nm f F :
  rep true (nodes st) None (Some l) (grp nm f) F -> wf f -> Node_bstr st (Some l) true = Ok (gtext nm f ++ [Byte.x0a]).
Proof. intros Hr Hv. apply (Node_bstr_spec true st None l _ F Hr). cbn. split_and!; auto using forest_vals_ok. Qed.

Lemma cat_grp st l nm f F acc :
  rep true (nodes st) None (Some l) (grp nm f) F -> wf f ->
  Node_catbstr (cat_fuel st) st acc (Some l) Byte.x20 true = Ok (acc ++ gtext nm f).
Proof.
  intros Hr Hv. eapply catbstr_spec; [done|exact Hr|cbn; split_and!; auto using forest_vals_ok|].
  pose proof (rep_fsize_le _ _ _ _ _ _ Hr). unfold cat_fuel. lia.
Qed.

Lemma destroy_grp st l nm f F :
  rep true (nodes st) None (Some l) (grp nm f) F -> (height f < 120)%nat -> good st ->
  exists st', Node_destroy st (Some l) = Ok st' /\ good st' /\ keeps_but F st st'.
Proof.
  intros Hr Hv [He Hf]. rewrite (Node_destroy_rep true st None (Some l) _ F Hr).
  - eexists; split; [done|]. split; [split; [done|]|].
    + intros x Hx. cbn. rewrite lookup_drop_nodes. case_decide; [done|]. by apply Hf.
    + intros x n Hx Hn. cbn. rewrite lookup_drop_nodes. by rewrite decide_False.
  - cbn [height grp]. lia.
Qed.

Lemma bstr_msg st l nm vs F :
  rep true (nodes st) None (Some l) (msgtree nm vs) F -> Forall plain vs -> Node_bstr st (Some l) true = Ok (msgtext nm vs).
Proof. intros Hr Hv. apply (bstr_grp st l nm _ F Hr). by apply flat_wf. Qed.

Lemma destroy_msg st l nm vs F :
  rep true (nodes st) None (Some l) (msgtree nm vs) F -> (length vs < 100)%nat -> good st ->
  exists st', Node_destroy st (Some l) = Ok st' /\ good st' /\ keeps_but F st st'.
Proof. intros Hr Hv. apply (destroy_grp st l nm (flat vs) F Hr). rewrite flat_height. lia. Qed.

Lemma check_good st b : good st -> check st b = (b, st).
Proof. intros [He _]. by apply check_clean. Qed.

(** ** The library's promises *)

(** [htons]: big endian *)
Definition be16 (n : Z) : bytes := [uchar (n / 256); uchar n].

Class SbufLaws (B F : Type) `{!Sbuf B F} := {
  contents : B -> bytes;
  capacity : B -> Z;
  incoming : F -> bytes;
  written : F -> bytes;
  create_law n : contents (sbuf_create n) = [] /\ capacity (sbuf_create n) = n;
  avail_law b : sbuf_data_avail b = zlen (contents b);
  space_law b : sbuf_space_avail b = capacity b - zlen (contents b);
  ntohs_law b h l rest : contents b = h :: l :: rest ->
    exists b', sbuf_get_ntohs b = (Some (256 * bv h + bv l), b') /\ contents b' = rest /\ capacity b' = capacity b;
  read_law b n : 0 <= n <= zlen (contents b) ->
    exists b', sbuf_read_bstr b n = (Some (take (Z.to_nat n) (contents b)), b') /\
      contents b' = drop (Z.to_nat n) (contents b) /\ capacity b' = capacity b;
  htons_law b n : 0 <= n < 2 ^ 16 -> 2 <= sbuf_space_avail b ->
    exists b', sbuf_put_htons b n = (true, b') /\ contents b' = contents b ++ be16 n /\ capacity b' = capacity b;
  write_law b s : zlen s <= sbuf_space_avail b ->
    exists b', sbuf_write_bstr b s = (true, b') /\ contents b' = contents b ++ s /\ capacity b' = capacity b;
  io_read_law fd b : isvalidsock fd = true -> incoming fd <> [] -> zlen (contents b) < capacity b ->
    exists chunk fd' b', io_read_sbuf fd b = IoResult true (zlen chunk) 0 fd' b' /\ chunk <> [] /\
      incoming fd = chunk ++ incoming fd' /\ contents b' = contents b ++ chunk /\ zlen (contents b') <= capacity b /\
      capacity b' = capacity b /\ written fd' = written fd /\ isvalidsock fd' = true;
  io_closed_law fd b : isvalidsock fd = true -> incoming fd = [] ->
    exists e, io_read_sbuf fd b = IoResult false 0 e fd b;
  io_flush_law fd b : isvalidsock fd = true ->
    exists fd' b', io_flush_sbuf fd b = IoResult true (zlen (contents b)) 0 fd' b' /\ contents b' = [] /\ capacity b' = capacity b /\
      written fd' = written fd ++ contents b /\ incoming fd' = incoming fd /\ isvalidsock fd' = true
}.

Section Frames.
Context {B F : Type} `{!Sbuf B F} `{!SbufLaws B F}.
Implicit Types fs : FrameSource B F.

(** what is still to be read, with nothing waiting to be written *)
Record idle fs (s : bytes) (w : bytes) : Prop := Idle {
  id_sock : isvalidsock (f_fd fs) = true;
  id_in : contents (f_in fs) ++ incoming (f_fd fs) = s;
  id_fits : zlen (contents (f_in fs)) <= capacity (f_in fs);
  id_cap_in : capacity (f_in fs) = 32768;
  id_out : contents (f_out fs) = [];
  id_cap_out : capacity (f_out fs) = 32768;
  id_written : written (f_fd fs) = w
}.

(** enough bytes on the way, or already there *)
Lemma ensure_loop_ok k st fs s w n :
  idle fs s w -> good st -> 0 <= n <= zlen s -> n <= 32768 -> (Z.to_nat (n - zlen (contents (f_in fs))) < k)%nat ->
  exists fs', ensure_loop k st fs true n = Ok (true, st, fs') /\ idle fs' s w /\ n <= zlen (contents (f_in fs')).
Proof.
  revert fs; induction k as [|k IH]; intros fs Hi Hg Hn Hc Hk; [lia|]. cbn [ensure_loop]. rewrite avail_law.
  destruct (Z.ltb_spec (zlen (contents (f_in fs))) n) as [Hlt|Hge]; [|by exists fs].
  pose proof Hi as [H1 H2 H3 H4 H5 H6 H7].
  destruct (io_read_law (f_fd fs) (f_in fs)) as (ch & fd' & b' & E & Hch & Hin & Hb & Hfit & Hcap & Hw & Hv); [done| |lia|].
  { intros Hemp. rewrite Hemp, app_nil_r in H2. rewrite H2 in Hlt. lia. }
  rewrite E. cbn [io_buf io_fd io_rc io_errno io_n after_call Z.eqb]. rewrite (good_errno st Hg). cbn [negb orb Z.eqb].
  assert (Hz : 0 < zlen ch) by (destruct ch; [done|rewrite zlen_cons; pose proof (zlen_nonneg ch); lia]).
  rewrite (proj2 (Z.eqb_neq _ _)) by lia. rewrite check_good by done. cbn [negb].
  apply IH; [|done|done|done|cbn [f_in]; rewrite Hb, zlen_app; lia].
  split; cbn [f_in f_out f_fd]; [done|by rewrite Hb, <- app_assoc, <- Hin|by rewrite Hcap|by rewrite Hcap|done|done|by rewrite Hw].
Qed.

Lemma ensure_ok st fs s w n :
  idle fs s w -> good st -> 0 <= n <= zlen s -> n <= 32768 ->
  exists fs', io_ensure_sbuf st fs n = Ok (true, st, fs') /\ idle fs' s w /\ n <= zlen (contents (f_in fs')).
Proof.
  intros Hi Hg Hn Hc. unfold io_ensure_sbuf. rewrite (id_sock fs s w Hi). cbn [assert_]. rewrite bind_ret.
  apply (ensure_loop_ok _ st fs s w n Hi Hg Hn Hc). pose proof (zlen_nonneg (contents (f_in fs))). lia.
Qed.

(** the socket has been closed *)
Lemma ensure_closed st fs w n :
  idle fs [] w -> good st -> 0 < n -> exists st' fs', io_ensure_sbuf st fs n = Ok (false, st', fs') /\ idle fs' [] w /\ good st' /\ nodes st' = nodes st.
Proof.
  intros Hi [He Hf] Hn. pose proof Hi as [H1 H2 H3 H4 H5 H6 H7]. apply app_nil in H2 as [H2 H2'].
  unfold io_ensure_sbuf. rewrite H1. cbn [assert_]. rewrite bind_ret. cbn [ensure_loop].
  rewrite avail_law, H2. change (zlen []) with 0. rewrite (proj2 (Z.ltb_lt _ _)) by done.
  destruct (io_closed_law (f_fd fs) (f_in fs) H1 H2') as [e E]. rewrite E. cbn [io_rc negb orb io_fd io_buf io_errno].
  eexists _, _. split; [done|]. split; [by destruct fs|]. split; [split; [done|]|].
  - intros l Hl. unfold after_call in *. destruct (e =? 0); cbn in *; by apply Hf.
  - unfold after_call. by destruct (e =? 0).
Qed.
(** ** Sending and receiving *)

Definition frame (data : bytes) : bytes := be16 (zlen data) ++ data.

Lemma send_ok st fs s w header msg data :
  idle fs s w -> good st -> Node_bstr st msg true = Ok data -> zlen header + zlen data + 2 <= 32768 ->
  exists fs', FrameSource_send st fs header msg true = Ok (true, st, fs') /\ idle fs' s (w ++ frame (header ++ data)).
Proof.
  intros Hi Hg Hb Hlen. pose proof Hi as [H1 H2 H3 H4 H5 H6 H7]. unfold FrameSource_send. rewrite Hb, bind_ret, check_good by done.
  pose proof (zlen_nonneg header). pose proof (zlen_nonneg data). cbn [negb].
  rewrite u16_small by lia. rewrite (proj2 (Z.ltb_ge _ _)) by (rewrite space_law, H5, H6; change (zlen []) with 0; lia).
  destruct (htons_law (f_out fs) (zlen header + zlen data)) as (b1 & E1 & C1 & K1); [lia|rewrite space_law, H5, H6; change (zlen []) with 0; lia|].
  rewrite E1, check_good by done. cbn [negb f_out]. rewrite H5 in C1. cbn [app] in C1.
  destruct (write_law b1 header) as (b2 & E2 & C2 & K2); [rewrite space_law, C1, K1, H6; change (zlen (be16 _)) with 2; lia|].
  rewrite E2, check_good by done. cbn [negb f_out f_in f_fd].
  destruct (write_law b2 data) as (b3 & E3 & C3 & K3); [rewrite space_law, C2, C1, K2, K1, H6, zlen_app; change (zlen (be16 _)) with 2; lia|].
  rewrite E3, check_good by done. cbn [negb f_out f_in f_fd].
  destruct (io_flush_law (f_fd fs) b3 H1) as (fd' & b4 & E4 & C4 & K4 & W4 & I4 & V4). rewrite E4.
  cbn [io_rc io_errno io_buf io_fd after_call Z.eqb]. rewrite check_good by done.
  eexists; split; [done|]. split; cbn [f_in f_out f_fd]; [done|by rewrite I4|done|done|done|by rewrite K4, K3, K2, K1|].
  rewrite W4, H7, C3, C2, C1. unfold frame. by rewrite zlen_app, <- !app_assoc.
Qed.

(** the bytes of one frame, and the socket behind it *)
Lemma recv_bytes st fs data more w :
  idle fs (frame data ++ more) w -> good st -> 0 < zlen data <= 32766 ->
  exists fs', idle fs' more w /\ FrameSource_recv st fs =
    ('(header, from, st) ← Node_parse_seq (parse_fuel data) data 0 st;
     let '(ok, st) := check st (bool_decide (header <> None)) in
     if negb ok then Ok (Received None None header, st, fs') else
     let hbuf := Some (take (Z.to_nat from) data) in
     if from <? zlen data then
       '(msg, from, st) ← Node_parse_seq (parse_fuel data) data from st;
       let '(ok, st) := check st (bool_decide (msg <> None)) in
       if negb ok then Ok (Received msg hbuf header, st, fs') else
       let '(_, st) := check st (from =? zlen data) in
       Ok (Received msg hbuf header, st, fs')
     else
       let '(_, st) := check st (from =? zlen data) in
       Ok (Received None hbuf header, st, fs')).
Proof.
  intros Hi Hg Hlen. unfold FrameSource_recv.
  destruct (ensure_ok st fs _ w 2 Hi Hg) as (f1 & -> & Hi1 & Hl1);
    [unfold frame; rewrite !zlen_app; change (zlen (be16 _)) with 2; pose proof (zlen_nonneg more); lia|lia|].
  rewrite bind_ret. cbn [negb]. pose proof Hi1 as [G1 G2 G3 G4 G5 G6 G7]. unfold frame, be16 in G2.
  destruct (contents (f_in f1)) as [|h [|l c]] eqn:Ec; [change (zlen []) with 0 in Hl1; lia|rewrite zlen_cons in Hl1; change (zlen []) with 0 in Hl1; lia|].
  cbn [app] in G2. injection G2 as -> -> G2.
  destruct (ntohs_law (f_in f1) _ _ _ Ec) as (b1 & -> & C1 & K1).
  assert (256 * bv (uchar (zlen data / 256)) + bv (uchar (zlen data)) = zlen data) as ->.
  { rewrite !bv_uchar. rewrite (Z.mod_small (zlen data / 256)); [pose proof (Z.div_mod (zlen data) 256); lia|].
    split; [apply Z.div_pos; lia|apply Z.div_lt_upper_bound; lia]. }
  rewrite check_good by done. rewrite bool_decide_eq_true_2 by eauto. cbn [negb].
  change (default 0 (Some (zlen data))) with (zlen data).
  rewrite check_good, (proj2 (Z.ltb_lt 0 (zlen data))) by (done || lia). cbn [negb].
  assert (Hi2 : idle (mkFrame (f_out f1) b1 (f_fd f1)) (data ++ more) w).
  { split; cbn [f_in f_out f_fd]; [done|by rewrite C1|rewrite C1, K1; rewrite !zlen_cons in G3; lia|by rewrite K1|done|done|done]. }
  destruct (ensure_ok st _ _ w (zlen data) Hi2 Hg) as (f2 & -> & Hi3 & Hl2);
    [rewrite zlen_app; pose proof (zlen_nonneg more); lia|lia|].
  rewrite bind_ret, check_good by done. cbn [negb]. pose proof Hi3 as [J1 J2 J3 J4 J5 J6 J7].
  destruct (read_law (f_in f2) (zlen data)) as (b3 & -> & C3 & K3); [lia|].
  assert (Hd : take (Z.to_nat (zlen data)) (contents (f_in f2)) = data).
  { apply (f_equal (take (Z.to_nat (zlen data)))) in J2. unfold zlen in *. rewrite Nat2Z.id in *.
    rewrite take_app_le in J2 by lia. by rewrite take_app_length in J2. }
  rewrite Hd. rewrite check_good, bool_decide_eq_true_2 by eauto. cbn [negb need]. rewrite bind_ret, check_good, Z.eqb_refl by done.
  cbn [negb]. exists (mkFrame (f_out f2) b3 (f_fd f2)). split; [|done].
  split; cbn [f_in f_out f_fd]; [done| |rewrite C3, K3; unfold zlen in *; rewrite length_drop; lia|by rewrite K3|done|done|done].
  rewrite C3. apply (f_equal (drop (Z.to_nat (zlen data)))) in J2. unfold zlen in *. rewrite Nat2Z.id in *.
  rewrite drop_app_le in J2 by lia. by rewrite drop_app_length in J2.
Qed.

Lemma msgtext_pos nm vs : 0 < zlen (msgtext nm vs).
Proof. unfold msgtext. rewrite zlen_app. change (zlen [_]) with 1. pose proof (zlen_nonneg (print_forest Byte.x20 (msgtree nm vs))). lia. Qed.

Lemma msgtext_head nm vs r : is_word nm -> head (msgtext nm vs ++ r) = Some Byte.x5b.
Proof. intros Hw. unfold msgtext, msgtree. by rewrite print_word_root. Qed.

(** a header and a body *)
Lemma recv_grps st fs hn hf z1 bn bf z2 more w :
  let data := gtext hn hf ++ z1 ++ gtext bn bf ++ z2 in
  is_word hn -> is_word bn -> wf hf -> wf bf -> newlines z1 -> newlines z2 ->
  zlen data <= 32766 -> idle fs (frame data ++ more) w -> good st ->
  exists fs' st' lh lb Fh Fb, FrameSource_recv st fs = Ok (Received (Some lb) (Some (gtext hn hf ++ z1)) (Some lh), st', fs') /\
    idle fs' more w /\ good st' /\ keeps_but ∅ st st' /\
    rep true (nodes st') None (Some lh) (grp hn hf) Fh /\ rep true (nodes st') None (Some lb) (grp bn bf) Fb /\ Fh ## Fb /\
    (Fh ∪ Fb) ## dom (nodes st).
Proof.
  intros data Hh Hb Hhv Hbv H1 H2 Hlen Hi Hg. pose proof (gtext_pos hn hf Hh). pose proof (gtext_pos bn bf Hb).
  assert (Hd : data = (gtext hn hf ++ z1) ++ gtext bn bf ++ z2) by (unfold data; by rewrite <- app_assoc).
  assert (Hld : zlen data = zlen (gtext hn hf ++ z1) + zlen (gtext bn bf) + zlen z2) by (rewrite Hd, (app_assoc _ (gtext bn bf)), !zlen_app; lia).
  pose proof (zlen_nonneg z2). pose proof (zlen_nonneg (gtext hn hf ++ z1)).
  destruct (recv_bytes st fs data more w Hi Hg) as (fs' & Hi' & ->); [lia|].
  destruct (parse_two st hn hf z1 bn bf z2) as (lh & lb & s1 & s2 & Fh & Fb & E1 & E2 & Hg1 & Hg2 & Hrest); [done..|fold data; lia|done|].
  fold data in E1, E2. rewrite E1, bind_ret, check_good by done. rewrite bool_decide_eq_true_2 by done. cbn [negb].
  rewrite (proj2 (Z.ltb_lt _ _)) by lia. rewrite E2, bind_ret, check_good by done. rewrite bool_decide_eq_true_2 by done. cbn [negb].
  rewrite check_good by done.
  assert (Ht : take (Z.to_nat (zlen (gtext hn hf ++ z1))) data = gtext hn hf ++ z1) by (unfold zlen; by rewrite Nat2Z.id, Hd, take_app_length).
  rewrite Ht. exists fs', s2, lh, lb, Fh, Fb. do 3 (split; [done|]). exact Hrest.
Qed.

Lemma recv_two st fs hn hv bn bvs more w :
  is_word hn -> is_word bn -> Forall plain hv -> Forall plain bvs ->
  let data := msgtext hn hv ++ msgtext bn bvs in
  zlen data <= 32766 -> idle fs (frame data ++ more) w -> good st ->
  exists fs' st' lh lb Fh Fb, FrameSource_recv st fs = Ok (Received (Some lb) (Some (msgtext hn hv)) (Some lh), st', fs') /\
    idle fs' more w /\ good st' /\ keeps_but ∅ st st' /\
    rep true (nodes st') None (Some lh) (msgtree hn hv) Fh /\ rep true (nodes st') None (Some lb) (msgtree bn bvs) Fb /\ Fh ## Fb /\
    (Fh ∪ Fb) ## dom (nodes st).
Proof.
  intros Hh Hb Hhv Hbv data Hlen Hi Hg.
  assert (Hd : data = gtext hn (flat hv) ++ [Byte.x0a] ++ gtext bn (flat bvs) ++ [Byte.x0a]) by (unfold data, msgtext; by rewrite <- app_assoc).
  apply (recv_grps st fs hn (flat hv) [Byte.x0a] bn (flat bvs) [Byte.x0a]); rewrite <- ?Hd; auto using flat_wf; by repeat constructor.
Qed.

(** a header alone *)
Lemma recv_one st fs hn hv more w :
  is_word hn -> Forall plain hv -> zlen (msgtext hn hv) <= 32766 -> idle fs (frame (msgtext hn hv) ++ more) w -> good st ->
  exists fs' st' lh Fh, FrameSource_recv st fs = Ok (Received None (Some (msgtext hn hv)) (Some lh), st', fs') /\
    idle fs' more w /\ good st' /\ keeps_but ∅ st st' /\ rep true (nodes st') None (Some lh) (msgtree hn hv) Fh /\ Fh ## dom (nodes st).
Proof.
  intros Hh Hhv Hlen Hi Hg. pose proof (msgtext_pos hn hv).
  destruct (recv_bytes st fs _ more w Hi Hg) as (fs' & Hi' & ->); [lia|].
  destruct (parse_msg_at st hn hv [] [] Hh Hhv) as (lh & s1 & Fh & E1 & Hr1 & Hg1 & Hx1); rewrite ?app_nil_r; cbn [app];
    [lia|apply msgtext_ends|done|done|].
  rewrite app_nil_r in E1. cbn [app] in E1. change (zlen []) with 0 in E1. rewrite E1, bind_ret, check_good by done.
  rewrite bool_decide_eq_true_2 by done. cbn [negb]. rewrite Z.add_0_l, Z.ltb_irrefl, check_good by done.
  rewrite take_ge by (unfold zlen; lia). exists fs', s1, lh, Fh. split_and!; [done|done|done|by eapply extends_keeps|done|apply Hx1].
Qed.

Lemma recv_closed st fs w :
  idle fs [] w -> good st ->
  exists fs' st', FrameSource_recv st fs = Ok (Received None None None, st', fs') /\ idle fs' [] w /\ good st' /\ nodes st' = nodes st.
Proof.
  intros Hi Hg. unfold FrameSource_recv. destruct (ensure_closed st fs w 2 Hi Hg) as (st' & fs' & -> & Hi' & Hg' & Hn); [lia|].
  rewrite bind_ret. by exists fs', st'.
Qed.
End Frames.

(** ** An instance of the promises: buffers and sockets in memory *)

Record membuf := MemBuf { mb_data : bytes; mb_size : Z }.
Record memsock := MemSock { ms_in : bytes; ms_out : bytes }.

(** a socket that delivers as much as fits *)
Definition mem_read (fd : memsock) (b : membuf) : io_result membuf memsock :=
  match ms_in fd with
  | [] => IoResult false 0 0 fd b
  | _ =>
    let n := Z.to_nat (mb_size b - zlen (mb_data b)) in
    IoResult true (zlen (take n (ms_in fd))) 0 (MemSock (drop n (ms_in fd)) (ms_out fd)) (MemBuf (mb_data b ++ take n (ms_in fd)) (mb_size b))
  end.

#[local] Instance mem_sbuf : Sbuf membuf memsock := {
  isvalidsock _ := true;
  sbuf_create n := MemBuf [] n;
  sbuf_data_avail b := zlen (mb_data b);
  sbuf_space_avail b := mb_size b - zlen (mb_data b);
  sbuf_get_ntohs b :=
    match mb_data b with
    | h :: l :: rest => (Some (256 * bv h + bv l), MemBuf rest (mb_size b))
    | _ => (None, b)
    end;
  sbuf_read_bstr b n :=
    if (0 <=? n) && (n <=? zlen (mb_data b))
    then (Some (take (Z.to_nat n) (mb_data b)), MemBuf (drop (Z.to_nat n) (mb_data b)) (mb_size b)) else (None, b);
  sbuf_put_htons b n :=
    if 2 <=? mb_size b - zlen (mb_data b) then (true, MemBuf (mb_data b ++ be16 n) (mb_size b)) else (false, b);
  sbuf_write_bstr b s :=
    if zlen s <=? mb_size b - zlen (mb_data b) then (true, MemBuf (mb_data b ++ s) (mb_size b)) else (false, b);
  io_read_sbuf := mem_read;
  io_flush_sbuf fd b := IoResult true (zlen (mb_data b)) 0 (MemSock (ms_in fd) (ms_out fd ++ mb_data b)) (MemBuf [] (mb_size b))
}.

#[local] Instance mem_laws : SbufLaws membuf memsock.
Proof.
  refine {| contents := mb_data; capacity := mb_size; incoming := ms_in; written := ms_out |}.
  - done.
  - done.
  - done.
  - intros b h l rest Hb. cbn. rewrite Hb. by eexists.
  - intros b n Hn. cbn. rewrite (proj2 (Z.leb_le _ _)), (proj2 (Z.leb_le _ _)) by lia. by eexists.
  - intros b n Hn Hs. cbn in *. rewrite (proj2 (Z.leb_le _ _)) by lia. by eexists.
  - intros b s Hs. cbn in *. rewrite (proj2 (Z.leb_le _ _)) by lia. by eexists.
  - intros fd b _ Hin Hfit. cbn. unfold mem_read. destruct (ms_in fd) as [|c cs] eqn:E; [done|].
    set (n := Z.to_nat _). eexists (take n (c :: cs)), _, _. split_and!; [done| |by cbn; rewrite take_drop|done| |done|done|done].
    + assert (n <> 0%nat) by lia. by destruct n.
    + cbn. rewrite zlen_app. assert (zlen (take n (c :: cs)) <= Z.of_nat n) by (unfold zlen; rewrite length_take; lia). lia.
  - intros fd b _ Hin. cbn. unfold mem_read. rewrite Hin. by eexists.
  - intros fd b _. cbn. eexists _, _. by split_and!.
Defined.

Lemma seven_good : good seven_store.
Proof.
  split; [done|]. intros l Hl. cbn in Hl. cbn [nodes seven_store]. by rewrite lookup_insert_ne, lookup_singleton_ne by lia.
Qed.

(** ** The theorems *)

(** C17: a frame arrives as it was sent: a header and a body, each a named group of values,
    sent by [FrameSource_send] are read back by [FrameSource_recv] from a socket that delivers
    those bytes in any pieces, with anything behind them: the same two trees, and the exact
    bytes of the header; what follows stays on the socket. *)
Theorem frame_roundtrip {B F} `{!Sbuf B F} `{!SbufLaws B F} st fs l hn hv bn bvs Fm s w st2 fs2 more w2 :
  is_word hn -> is_word bn -> Forall plain hv -> Forall plain bvs ->
  zlen (msgtext hn hv) + zlen (msgtext bn bvs) + 2 <= 32768 ->
  idle fs s w -> good st -> rep true (nodes st) None (Some l) (msgtree bn bvs) Fm ->
  idle fs2 (frame (msgtext hn hv ++ msgtext bn bvs) ++ more) w2 -> good st2 ->
  exists fs' fs2' st2' lh lb Fh Fb,
    FrameSource_send st fs (msgtext hn hv) (Some l) true = Ok (true, st, fs') /\
    idle fs' s (w ++ frame (msgtext hn hv ++ msgtext bn bvs)) /\
    FrameSource_recv st2 fs2 = Ok (Received (Some lb) (Some (msgtext hn hv)) (Some lh), st2', fs2') /\
    idle fs2' more w2 /\
    rep true (nodes st2') None (Some lh) (msgtree hn hv) Fh /\ rep true (nodes st2') None (Some lb) (msgtree bn bvs) Fb.
Proof.
  intros Hh Hb Hhv Hbv Hlen Hi Hg Hr Hi2 Hg2.
  destruct (send_ok st fs s w (msgtext hn hv) (Some l) (msgtext bn bvs) Hi Hg) as (fs' & E & Hi'); [by eapply bstr_msg|lia|].
  destruct (recv_two st2 fs2 hn hv bn bvs more w2 Hh Hb Hhv Hbv) as (fs2' & st2' & lh & lb & Fh & Fb & E2 & Hi2' & _ & _ & Hr1 & Hr2 & _);
    [rewrite zlen_app; lia|done|done|].
  exists fs', fs2', st2', lh, lb, Fh, Fb. by split_and!.
Qed.

Lemma frame_roundtrip_witness :
  exists fs' fs2' st2' lh lb,
    let fs := mkFrame (MemBuf [] 32768) (MemBuf [] 32768) (MemSock [] []) in
    let data := msgtext (lit "header") [FNum 1] ++ msgtext (lit "doc") [FNum 7] in
    FrameSource_send seven_store fs (msgtext (lit "header") [FNum 1]) (Some 1%positive) true = Ok (true, seven_store, fs') /\
    ms_out (f_fd fs') = frame data /\
    FrameSource_recv empty_store (mkFrame (MemBuf [] 32768) (MemBuf [] 32768) (MemSock (frame data) []))
      = Ok (Received (Some lb) (Some (msgtext (lit "header") [FNum 1])) (Some lh), st2', fs2').
Proof.
  set (data := msgtext (lit "header") [FNum 1] ++ msgtext (lit "doc") [FNum 7]).
  destruct (frame_roundtrip seven_store (mkFrame (MemBuf [] 32768) (MemBuf [] 32768) (MemSock [] [])) 1%positive
              (lit "header") [FNum 1] (lit "doc") [FNum 7] ({[1%positive]} ∪ ({[2%positive]} ∪ ∅ ∪ ∅) ∪ ∅) [] [] empty_store
              (mkFrame (MemBuf [] 32768) (MemBuf [] 32768) (MemSock (frame data) [])) [] [])
    as (fs' & fs2' & st2' & lh & lb & Fh & Fb & E1 & Hi & E2 & _).
  - cbn. repeat constructor.
  - cbn. repeat constructor.
  - repeat constructor; cbn; lia.
  - repeat constructor; cbn; lia.
  - vm_compute. done.
  - by split.
  - exact seven_good.
  - exact seven_rep.
  - split; done.
  - split; [done|]. intros l _. apply lookup_empty.
  - exists fs', fs2', st2', lh, lb. split_and!; [exact E1| |exact E2]. exact (id_written _ _ _ Hi).
Defined.

(** the check for trailing data has no effect: [FrameSource_recv] returns the body of a frame that
    goes on behind it, because the failure path returns the message that was parsed. *)
Theorem trailing_data_accepted {B F} `{!Sbuf B F} `{!SbufLaws B F} st fs hn hv bn bvs junk more w :
  is_word hn -> is_word bn -> Forall plain hv -> Forall plain bvs ->
  head junk <> Some Byte.x0a -> ends_in_space junk = true ->
  let data := msgtext hn hv ++ msgtext bn bvs ++ junk in
  zlen data <= 32766 -> idle fs (frame data ++ more) w -> good st ->
  exists fs' st' lh lb, FrameSource_recv st fs = Ok (Received (Some lb) (Some (msgtext hn hv)) (Some lh), st', fs') /\ idle fs' more w.
Proof.
  intros Hh Hb Hhv Hbv Hj Hje data Hlen Hi Hg. pose proof (msgtext_pos hn hv). pose proof (msgtext_pos bn bvs).
  assert (Hld : zlen data = zlen (msgtext hn hv) + zlen (msgtext bn bvs) + zlen junk) by (unfold data; rewrite !zlen_app; lia).
  pose proof (zlen_nonneg junk). destruct (recv_bytes st fs data more w Hi Hg) as (fs' & Hi' & ->); [lia|].
  assert (Hend : ends_in_space data = true).
  { unfold data. rewrite app_assoc, ends_in_space_app; [done|]. by destruct junk. }
  destruct (parse_msg_at st hn hv [] (msgtext bn bvs ++ junk) Hh Hhv) as (lh & s1 & Fh & E1 & Hr1 & Hg1 & Hx1);
    [cbn [app]; fold data; lia|exact Hend|by rewrite msgtext_head|done|].
  cbn [app] in E1. fold data in E1. change (zlen []) with 0 in E1. rewrite E1, bind_ret, check_good by done.
  rewrite bool_decide_eq_true_2 by done. cbn [negb]. rewrite (proj2 (Z.ltb_lt _ _)) by lia.
  destruct (parse_msg_at s1 bn bvs (msgtext hn hv) junk Hb Hbv) as (lb & s2 & Fb & E2 & Hr2 & Hg2 & Hx2);
    [fold data; lia|exact Hend|done|done|].
  fold data in E2. change (0 + zlen (msgtext hn hv)) with (zlen (msgtext hn hv)). rewrite E2, bind_ret, check_good by done.
  rewrite bool_decide_eq_true_2 by done. cbn [negb]. rewrite check_good by done.
  assert (Ht : take (Z.to_nat (zlen (msgtext hn hv))) data = msgtext hn hv).
  { unfold zlen. by rewrite Nat2Z.id; unfold data; rewrite take_app_length. }
  rewrite Ht. by exists fs', s2, lh, lb.
Qed.

Lemma trailing_data_accepted_witness :
  exists fs' st' lh lb,
    FrameSource_recv empty_store (mkFrame (MemBuf [] 32768) (MemBuf [] 32768)
        (MemSock (frame (msgtext (lit "header") [] ++ msgtext (lit "doc") [FNum 7] ++ lit "] ")) []))
    = Ok (Received (Some lb) (Some (msgtext (lit "header") [])) (Some lh), st', fs').
Proof.
  destruct (trailing_data_accepted empty_store
      (mkFrame (MemBuf [] 32768) (MemBuf [] 32768) (MemSock (frame (msgtext (lit "header") [] ++ msgtext (lit "doc") [FNum 7] ++ lit "] ")) []))
      (lit "header") [] (lit "doc") [FNum 7] (lit "] ") [] []) as (fs' & st' & lh & lb & E & _).
  - cbn. repeat constructor.
  - cbn. repeat constructor.
  - constructor.
  - repeat constructor; cbn; lia.
  - done.
  - reflexivity.
  - vm_compute. done.
  - split; done.
  - split; [done|]. intros l _. apply lookup_empty.
  - by exists fs', st', lh, lb.
Defined.

End FrameProps.
