(* ===== verification/CryptoProps.v ===== *)
(** * CryptoProps: packets and the messages of the key exchange

    [LtcLaws] is what the documentation of LibTomCrypt promises.  With it, what one
    side encrypts the other decrypts, and each function of the exchange has a specification as an
    equation on the state of the channel. *)

From Stdlib Require Import ZArith Lia.
From S2P Require Import Prelude Cstdlib Ragel Node NodeFormat Stackish NodeRep NodeOpen NodeFormatProps StackishDfa StackishRt StackishProps Frame FrameProps Crypto.
Import Cstdlib Node NodeFormat Stackish NodeRep NodeOpen NodeFormatProps StackishRt StackishProps FrameProps Crypto.
Local Open Scope Z_scope.

Module CryptoProps.

(** a decidable fact about constants *)
Ltac decided := apply (bool_decide_unpack _); vm_compute; exact I.

(** ** Reading without copying: the strings are those of the nodes *)

Definition out_at (x : loc) (v : fval) : decons_val :=
  match v with
  | FNum n => DVNum n
  | FStr s | FBlob s => DVStr (Some x) (Some s)
  | FFlt f => DVFloat f
  | FGrp => DVPun
  end.

(** the nodes of a list of siblings *)
Fixpoint spine (ns : gmap loc Node) (p : option loc) (xs : list loc) : Prop :=
  match xs with
  | [] => p = None
  | x :: xs' => p = Some x /\ exists n, ns !! x = Some n /\ spine ns (sibling n) xs'
  end.

Lemma decons_leaf_alias st v fmt args l n outs :
  errno st = 0 -> leaf v -> nodes st !! l = Some n -> type n = type_of v -> value n = value_of v ->
  decons_loop st false (code v :: fmt) (DOut :: args) (Some l) outs
  = decons_loop st false fmt args (next_sib n (Some l)) (outs ++ [out_at l v]).
Proof.
  intros He Hv Hl Ht Hval. destruct v as [x|s|s|x|]; try done;
    cbn [decons_loop code out_at]; rewrite (load_Some _ _ _ Hl), bind_ret, check_clean by done;
    cbn [non_null]; rewrite Ht, Hval; cbn [type_of value_of];
    rewrite ?bool_decide_eq_true_2 by done; done.
Qed.

Lemma decons_leaves_alias st vs fmt args par p F outs :
  errno st = 0 -> Forall leaf vs -> vs <> [] -> rep true (nodes st) par p (flat vs) F ->
  exists xs l n, spine (nodes st) p xs /\ Forall (fun x => x ∈ F) xs /\ length xs = length vs /\
    nodes st !! l = Some n /\ parent n = par /\
    decons_loop st false (map code vs ++ fmt) (outs_args vs ++ args) p outs
    = decons_loop st false fmt args (Some l) (outs ++ zip_with out_at xs vs).
Proof.
  intros He Hvs Hne Hr. revert Hvs Hne p F outs Hr.
  induction vs as [|v vs IH]; intros Hvs Hne p F outs Hr; [done|]. apply Forall_cons_1 in Hvs as [H0 Hvs].
  inversion Hr as [|? l n ? ? ? ? ? Hl Ht Hval Hpar _ Hsib]; subst.
  repeat match goal with H : name n = None |- _ => rewrite H in *; clear H end.
  cbn [map app outs_args]. rewrite (decons_leaf_alias st v _ _ _ _ _ He H0 Hl Ht Hval).
  destruct vs as [|v' vs].
  - assert (Hs : sibling n = None) by (by inversion Hsib). exists [l], l, n.
    split_and!; [cbn; eauto|constructor; [set_solver|constructor]|done|done|by apply Hpar|]. unfold next_sib. by rewrite Hs.
  - assert (next_sib n (Some l) = sibling n) as -> by (unfold next_sib; inversion Hsib; done).
    destruct (IH Hvs ltac:(done) (sibling n) _ (outs ++ [out_at l v]) Hsib) as (xs & l' & n' & Hx1 & Hx2 & Hx3 & Hx4 & Hx5 & E).
    exists (l :: xs), l', n'. split_and!; [cbn; eauto|constructor; [set_solver|eapply list.Forall_impl; [exact Hx2|set_solver]]|cbn in *; lia|done|done|].
    etransitivity; [exact E|]. cbn [zip_with]. by rewrite <- app_assoc.
Qed.

Lemma decons_alias st l nm nm' vs F :
  good st -> Forall leaf vs -> vs <> [] -> rep true (nodes st) None (Some l) (msgtree nm vs) F ->
  exists xs n, nodes st !! l = Some n /\ spine (nodes st) (child n) xs /\ Forall (fun x => x ∈ F) xs /\ length xs = length vs /\
    Node_decons st (Some l) false (lit "[" ++ map code vs ++ lit "w") (outs_args vs ++ [DName (Some nm')])
    = Ok (bool_decide (nm = cstr nm'), zip_with out_at xs vs, st).
Proof.
  intros [He Hf] Hvs Hne Hr. inversion Hr as [|? ? n ? ? ? Fk ? Hl Ht Hval Hpar Hk Hsib]; subst.
  destruct (decons_leaves_alias st vs [Byte.x77] [DName (Some nm')] (Some l) (child n) Fk [] He Hvs Hne Hk)
    as (xs & ll & nl & Hx1 & Hx2 & Hx3 & Hx4 & Hx5 & E).
  exists xs, n. split_and!; [done|done|eapply list.Forall_impl; [exact Hx2|set_solver]|done|].
  unfold Node_decons. rewrite assert_true, bind_ret by done. rewrite cstr_format by (cbn; set_solver).
  change (lit "[" ++ map code vs ++ lit "w") with (Byte.x5b :: map code vs ++ [Byte.x77]).
  cbn [decons_loop]. rewrite (load_Some _ _ _ Hl), bind_ret, E. cbn [decons_loop].
  rewrite (load_Some _ _ _ Hx4), bind_ret, Hx5, check_clean by done. rewrite bool_decide_eq_true_2 by done.
  rewrite (load_Some _ _ _ Hl), bind_ret, check_clean by done.
  match goal with H : name n = Some nm |- _ => rewrite H end. cbn [name_is app].
  case_bool_decide; [|done]. rewrite bind_ret, check_clean by done. done.
Qed.

Lemma decons_copy st l nm nm' vs F :
  good st -> Forall leaf vs -> vs <> [] -> rep true (nodes st) None (Some l) (msgtree nm vs) F ->
  Node_decons st (Some l) true (lit "[" ++ map code vs ++ lit "w") (outs_args vs ++ [DName (Some nm')])
  = Ok (bool_decide (nm = cstr nm'), map out_of vs, st).
Proof. intros [He Hf] Hvs Hne Hr. destruct vs as [|v vs]; [done|]. by apply (Node_decons_flat st l nm nm' v vs F). Qed.

Lemma spine_in ns par p f F xs i x :
  rep true ns par p f F -> spine ns p xs -> xs !! i = Some x -> x ∈ F.
Proof.
  intros Hr. revert xs i. induction Hr as [|par l n v kids rest Fk Fr Hl _ _ _ _ _ _ IHs _ _ _]; intros xs i Hsp Hx.
  - destruct xs; [done|]. by destruct Hsp.
  - destruct xs as [|x0 xs]; [done|]. destruct Hsp as [[= <-] (n' & Hn' & Hsp)]. rewrite Hl in Hn'. injection Hn' as <-.
    destruct i as [|i]; cbn in Hx; [injection Hx as <-; set_solver|]. pose proof (IHs xs i Hsp Hx). set_solver.
Qed.

(** overwriting the string of a node *)
Lemma rep_overwrite ns par p vs F xs i x n s v' val :
  rep true ns par p (flat vs) F -> spine ns p xs -> xs !! i = Some x -> ns !! x = Some n -> vs !! i = Some (FBlob s) ->
  type_of v' = TYPE_BLOB -> value_of v' = val ->
  rep true (<[x := set_value val n]> ns) par p (flat (<[i := v']> vs)) F.
Proof.
  intros Hr. revert xs i. remember (flat vs) as f eqn:Ef. revert vs Ef.
  induction Hr as [par|par l m v kids rest Fk Fr Hl Ht Hval Hpar Hk IHk Hs IHs Hn1 Hn2 Hd]; intros vs Ef xs i Hsp Hx Hn Hv Hty Hval'.
  - by destruct vs.
  - destruct vs as [|v0 vs]; [done|]. injection Ef as Hnm -> -> ->. destruct xs as [|x0 xs]; [done|].
    destruct Hsp as [[= <-] (m' & Hm' & Hsp)]. rewrite Hl in Hm'. injection Hm' as <-.
    assert (Fk = ∅) as -> by (by inversion Hk). assert (Hch : child m = None) by (by inversion Hk).
    destruct i as [|i]; cbn in Hx, Hv.
    + injection Hx as <-. injection Hv as ->. rewrite Hl in Hn. injection Hn as <-. cbn [insert list_insert flat].
      rewrite <- Hnm. change (name m) with (name (set_value val m)).
      eapply rep_cons; [apply lookup_insert_eq|cbn in *; congruence|done|done|cbn; rewrite Hch; constructor| |done|done|set_solver].
      cbn. eapply rep_frame; [exact Hs|]. intros y Hy. rewrite lookup_insert_ne; [done|set_solver].
    + assert (Hne : x <> l) by (pose proof (spine_in _ _ _ _ _ _ _ _ Hs Hsp Hx); set_solver).
      cbn [insert list_insert flat]. rewrite <- Hnm.
      eapply rep_cons; [by rewrite lookup_insert_ne|done|done|done|rewrite Hch; constructor|by eapply IHs|done|done|set_solver].
Qed.

(** ** The library's promises *)

Class LtcLaws (E S R : Type) `{!Ltc E S R} := {
  fortuna_law r n : length (fst (fortuna_read r n)) = n;
  export_law k b : ecc_export PK_PUBLIC k = Some b -> zlen b <= 256 /\ is_Some (ecc_import b);
  (* both sides of a Diffie-Hellman exchange get the same secret *)
  dh_law a b ea eb a' b' : ecc_export PK_PUBLIC a = Some ea -> ecc_import ea = Some a' ->
    ecc_export PK_PUBLIC b = Some eb -> ecc_import eb = Some b' -> ecc_shared_secret a b' = ecc_shared_secret b a';
  secret_law a b s : ecc_shared_secret a b = Some s -> length s = 32%nat;
  aes_law s : length s = 32%nat -> is_Some (rijndael_setup s);
  (* CCM decrypts what it encrypted and computes the same tag *)
  ccm_law k n h p : exists c t, ccm_memory true k n h p = (c, Some t) /\ length c = length p /\ zlen t <= 256 /\
    ccm_memory false k n h c = (p, Some t)
}.

Section Packets.
Context {E S R : Type} `{!Ltc E S R}.
Implicit Types w : cworld E S R.

Definition inc_nonce (p : CryptPeer E S) : CryptPeer E S := set_nonce (CryptState_nonce_inc (p_nonce p)) p.

Lemma checkw_good w b : good (c_st w) -> checkw w b = (b, w).
Proof. intros Hg. unfold checkw. rewrite check_good by done. by destruct w. Qed.

Lemma put_st_same w : put_st (c_st w) w = w.
Proof. by destruct w. Qed.

Lemma env_plain c t : Forall plain [FBlob t; FBlob c].
Proof. by repeat constructor. Qed.

(** the ciphertext and the tag of a text, and of a message *)
Definition sealed_text (key : S) (n : CryptNonce) (header text c t : bytes) : Prop :=
  ccm_memory true key (nonce_raw n) header text = (c, Some t).
Definition sealed (key : S) (n : CryptNonce) (header nm : bytes) (vs : list fval) (c t : bytes) : Prop :=
  sealed_text key n header (msgtext nm vs) c t.

Lemma sealed_text_exists `{!LtcLaws E S R} key n header text : exists c t, sealed_text key n header text c t.
Proof. destruct (ccm_law key (nonce_raw n) header text) as (c & t & H & _). by exists c, t. Qed.

Lemma sealed_text_opens `{!LtcLaws E S R} key n header text c t :
  sealed_text key n header text c t ->
  zlen c = zlen text /\ zlen t <= 256 /\ ccm_memory false key (nonce_raw n) header c = (text, Some t).
Proof.
  unfold sealed_text. destruct (ccm_law key (nonce_raw n) header text) as (c' & t' & -> & Hl & Ht & Hd). intros [= <- <-].
  split_and!; [|done|done]. unfold zlen. by rewrite Hl.
Qed.

Lemma sealed_exists `{!LtcLaws E S R} key n header nm vs : exists c t, sealed key n header nm vs c t.
Proof. apply sealed_text_exists. Qed.

Lemma sealed_opens `{!LtcLaws E S R} key n header nm vs c t :
  sealed key n header nm vs c t ->
  zlen c = zlen (msgtext nm vs) /\ zlen t <= 256 /\ ccm_memory false key (nonce_raw n) header c = (msgtext nm vs, Some t).
Proof. apply sealed_text_opens. Qed.

Lemma encrypt_grp_ok w key header l nm f F c t :
  good (c_st w) -> rep true (nodes (c_st w)) None (Some l) (grp nm f) F -> wf f ->
  sealed_text key (p_nonce (them (c_cs w))) header (gtext nm f ++ [Byte.x0a]) c t ->
  exists l' st' F', CryptState_encrypt_node w key header (Some l) = Ok (Some l', put_st st' (on_them inc_nonce w)) /\
    rep true (nodes st') None (Some l') (msgtree CRYPT_ENV_MSG [FBlob t; FBlob c]) F' /\ good st' /\ extends_by F' (c_st w) st'.
Proof.
  unfold sealed_text. intros Hg Hr Hv Hse. unfold CryptState_encrypt_node. rewrite assert_true, bind_ret by done.
  rewrite (bstr_grp _ _ _ _ _ Hr Hv), bind_ret, checkw_good by done. cbn [negb]. unfold CryptState_encrypt_packet.
  rewrite Hse.
  rewrite checkw_good, bool_decide_eq_true_2 by eauto. cbn [negb].
  destruct (cons_msg (c_st w) [FBlob c; FBlob t] CRYPT_ENV_MSG) as (l' & st' & F' & E' & Hr' & Hg' & Hx);
    [by repeat constructor|decided|done|].
  change (Node_cons (c_st w) (lit "[bbw") [CABstr (Some c); CABstr (Some t); CACstr (Some CRYPT_ENV_MSG)] = Ok (Some l', st')) in E'.
  change (c_st (on_them _ w)) with (c_st w). rewrite E', bind_ret. rewrite bind_ret, checkw_good by done.
  rewrite bool_decide_eq_true_2 by done. exists l', st', F'. by split_and!.
Qed.

Lemma encrypt_node_ok w key header l nm vs F c t :
  good (c_st w) -> rep true (nodes (c_st w)) None (Some l) (msgtree nm vs) F -> Forall plain vs ->
  sealed key (p_nonce (them (c_cs w))) header nm vs c t ->
  exists l' st' F', CryptState_encrypt_node w key header (Some l) = Ok (Some l', put_st st' (on_them inc_nonce w)) /\
    rep true (nodes st') None (Some l') (msgtree CRYPT_ENV_MSG [FBlob t; FBlob c]) F' /\ good st' /\ extends_by F' (c_st w) st'.
Proof. intros Hg Hr Hv. apply (encrypt_grp_ok w key header l nm (flat vs) F c t Hg Hr). by apply flat_wf. Qed.

Lemma decrypt_packet_ok w key header l c t F p :
  good (c_st w) -> rep true (nodes (c_st w)) None (Some l) (msgtree CRYPT_ENV_MSG [FBlob t; FBlob c]) F ->
  ccm_memory false key (nonce_raw (p_nonce (me (c_cs w)))) header c = (p, Some t) ->
  exists st', CryptState_decrypt_packet w key header (Some l) = Ok (Some p, put_st st' (on_me inc_nonce w)) /\
    rep true (nodes st') None (Some l) (msgtree CRYPT_ENV_MSG [FBlob t; FBlob p]) F /\ good st' /\ keeps_but F (c_st w) st' /\
    next st' = next (c_st w) /\ dom (nodes st') = dom (nodes (c_st w)).
Proof.
  intros Hg Hr Hccm. unfold CryptState_decrypt_packet. rewrite assert_true, bind_ret by done.
  destruct (decons_alias (c_st w) l CRYPT_ENV_MSG CRYPT_ENV_MSG [FBlob t; FBlob c] F Hg) as (xs & n & Hl & Hsp & HF & Hlx & E');
    [by repeat constructor|done|done|].
  change (Node_decons (c_st w) (Some l) false (lit "[bbw") [DOut; DOut; DName (Some CRYPT_ENV_MSG)]
          = Ok (true, zip_with out_at xs [FBlob t; FBlob c], c_st w)) in E'.
  destruct xs as [|x1 [|x2 [|x3 xs]]]; try done. rewrite E', bind_ret. cbv beta iota. rewrite put_st_same, checkw_good by done.
  cbn [negb zip_with out_at out_str lookup list_lookup fmap option_fmap option_map snd need]. rewrite bind_ret, Hccm.
  destruct Hsp as [Hc (n1 & Hn1 & [Hs1 (n2 & Hn2 & Hs2)])].
  assert (Hx2 : x2 ∈ F) by (apply Forall_cons_1 in HF as [_ HF]; by apply Forall_cons_1 in HF as [HF _]).
  rewrite (update_Some _ _ _ _ Hn2), bind_ret. set (st' := set_nodes _ (c_st w)).
  assert (Hg' : good st').
  { destruct Hg as [He Hf]. split; [done|]. intros y Hy. cbn. rewrite lookup_insert_ne; [by apply Hf|].
    intros ->. by rewrite Hf in Hn2. }
  rewrite checkw_good by done. rewrite bool_decide_eq_true_2 by eauto. cbn [negb]. rewrite checkw_good by done.
  rewrite bool_decide_eq_true_2 by done. cbn [negb]. exists st'. split_and!; [done| |done| |done|].
  - inversion Hr as [|? ? m v ? ? Fk Fr Hl' Ht Hval Hpar Hk Hsib HnFk HnFr Hdd]; subst. rewrite Hl in Hl'. injection Hl' as <-.
    assert (HxFk : x2 ∈ Fk) by (by eapply (spine_in _ _ _ _ _ [x1; x2] 1%nat x2 Hk); [cbn; eauto 8|]).
    assert (Hr2 : rep true (<[x2 := set_value (VString (Some p)) n2]> (nodes (c_st w))) (Some l) (child n) (flat (<[1%nat := FBlob p]> [FBlob t; FBlob c])) Fk).
    { eapply (rep_overwrite _ _ _ _ _ [x1; x2] 1%nat x2 n2 c); try done. cbn; eauto 8. }
    unfold msgtree. match goal with H : name n = Some _ |- _ => rewrite <- H end.
    eapply rep_cons; [cbn; rewrite lookup_insert_ne; [done|set_solver]|done|done|done|exact Hr2| |done|done|done].
    assert (sibling n = None) as -> by (by inversion Hsib). assert (Fr = ∅) as -> by (by inversion Hsib). constructor.
  - intros y m Hy Hm. cbn. rewrite lookup_insert_ne; [done|]. intros ->. done.
  - cbn. rewrite dom_insert_L. assert (x2 ∈ dom (nodes (c_st w))) by (by apply elem_of_dom). set_solver.
Qed.

Lemma decrypt_grp_ok w key header l c t F nm f :
  good (c_st w) -> rep true (nodes (c_st w)) None (Some l) (msgtree CRYPT_ENV_MSG [FBlob t; FBlob c]) F ->
  ccm_memory false key (nonce_raw (p_nonce (me (c_cs w)))) header c = (gtext nm f ++ [Byte.x0a], Some t) ->
  is_word nm -> wf f -> zlen (gtext nm f) < 2 ^ 31 - 1 ->
  exists l' st' F', CryptState_decrypt_node w key header (Some l) = Ok (Some l', put_st st' (on_me inc_nonce w)) /\
    rep true (nodes st') None (Some l') (grp nm f) F' /\
    rep true (nodes st') None (Some l) (msgtree CRYPT_ENV_MSG [FBlob t; FBlob (gtext nm f ++ [Byte.x0a])]) F /\
    good st' /\ keeps_but F (c_st w) st' /\ F' ## dom (nodes (c_st w)).
Proof.
  intros Hg Hr Hccm Hw Hv Hlen. unfold CryptState_decrypt_node.
  destruct (decrypt_packet_ok w key header l c t F _ Hg Hr Hccm) as (s1 & -> & Hr1 & Hg1 & Hk1 & Hn1 & Hd1).
  rewrite bind_ret, checkw_good by done. rewrite (proj2 (Z.ltb_lt _ _)) by (rewrite zlen_app; pose proof (zlen_nonneg (gtext nm f)); change (zlen [_]) with 1; lia). cbn [negb need].
  rewrite bind_ret. destruct (parse_grp s1 nm f Hw Hv Hlen Hg1) as (l' & s2 & F' & E' & Hr2 & Hg2 & Hx).
  change (c_st (put_st s1 (on_me inc_nonce w))) with s1. rewrite E', bind_ret, checkw_good by done.
  exists l', s2, F'. pose proof (extends_keeps _ _ _ Hx) as Hk2. destruct Hx as [_ Hdis].
  split_and!; [done|done|eapply rep_keeps; [exact Hr1|exact Hk2|set_solver]|done| |by rewrite <- Hd1].
  eapply keeps_but_trans; [exact Hk1|]. eapply keeps_but_mono; [|exact Hk2]. set_solver.
Qed.
Lemma decrypt_node_ok w key header l c t F nm vs :
  good (c_st w) -> rep true (nodes (c_st w)) None (Some l) (msgtree CRYPT_ENV_MSG [FBlob t; FBlob c]) F ->
  ccm_memory false key (nonce_raw (p_nonce (me (c_cs w)))) header c = (msgtext nm vs, Some t) ->
  is_word nm -> Forall plain vs -> zlen (msgtext nm vs) < 2 ^ 31 ->
  exists l' st' F', CryptState_decrypt_node w key header (Some l) = Ok (Some l', put_st st' (on_me inc_nonce w)) /\
    rep true (nodes st') None (Some l') (msgtree nm vs) F' /\
    rep true (nodes st') None (Some l) (msgtree CRYPT_ENV_MSG [FBlob t; FBlob (msgtext nm vs)]) F /\
    good st' /\ keeps_but F (c_st w) st' /\ F' ## dom (nodes (c_st w)).
Proof.
  intros Hg Hr Hccm Hw Hv Hlen. apply (decrypt_grp_ok w key header l c t F nm (flat vs) Hg Hr Hccm Hw); [by apply flat_wf|].
  rewrite msgtext_line_len in Hlen. lia.
Qed.
End Packets.

(** ** The messages of the exchange *)

Definition nonce_ok (n : CryptNonce) : Prop := 0 <= n_left n < 2 ^ 64 /\ 0 <= n_right n < 2 ^ 64.

(** lists of values that are plain, or leaves *)
Ltac solve_plain :=
  repeat match goal with
  | |- Forall _ (_ :: _) => apply list.Forall_cons; split
  | |- Forall _ [] => apply list.Forall_nil; exact I
  | |- plain _ => split
  end;
  first [done | match goal with H : nonce_ok ?n |- _ => first [exact (proj1 H) | exact (proj2 H)] end | idtac].

Lemma le_value_bound l : 0 <= le_value l < 256 ^ zlen l.
Proof.
  induction l as [|b l IH]; [done|]. rewrite zlen_cons, Z.pow_add_r by (try apply zlen_nonneg; lia).
  cbn [le_value foldr]. fold (le_value l). pose proof (bv_range b). lia.
Qed.

Lemma raw_nonce_ok raw : length raw = 16%nat -> nonce_ok (nonce_of_raw raw).
Proof.
  intros Hl. unfold nonce_of_raw, nonce_ok; cbn [n_left n_right].
  pose proof (le_value_bound (take 8 raw)) as H1. pose proof (le_value_bound (take 8 (drop 8 raw))) as H2.
  unfold zlen in *. rewrite length_take, ?length_drop in *. rewrite Hl in *. done.
Qed.

(** ** How long a message is *)

Lemma dec_digits_len fuel n : zlen (dec_digits fuel n) <= Z.of_nat fuel.
Proof.
  revert n; induction fuel as [|f IH]; intros n; [done|]. cbn [dec_digits]. case_match; [change (zlen [_]) with 1; lia|].
  rewrite zlen_app. change (zlen [_]) with 1. specialize (IH (n / 10)). lia.
Qed.

Lemma print_dec_len n : 0 <= n < 2 ^ 64 -> zlen (print_dec n) <= 64.
Proof.
  intros Hn. unfold print_dec. etransitivity; [apply dec_digits_len|].
  destruct (Z.eq_dec n 0) as [->|]; [done|]. pose proof (Z.log2_nonneg n). assert (Z.log2 n < 64) by (apply Z.log2_lt_pow2; lia). lia.
Qed.

Lemma cstr_len s : zlen (cstr s) <= zlen s.
Proof. induction s as [|b s IH]; [done|]. cbn [cstr]. case_bool_decide; rewrite ?zlen_cons; pose proof (zlen_nonneg s); change (zlen []) with 0; lia. Qed.

(** a bound on the values of a message, and on the message *)
Definition short (b : Z) (v : fval) : Prop :=
  match v with FNum _ => 70 <= b | FStr s | FBlob s => zlen s < 2 ^ 64 /\ zlen s + 70 <= b | _ => False end.

Lemma msgtext_len b nm vs : is_word nm -> Forall plain vs -> Forall (short b) vs -> 0 <= b -> zlen (msgtext nm vs) <= 4 + zlen nm + b * zlen vs.
Proof.
  intros Hw Hp Hs Hb. unfold msgtext, msgtree. rewrite print_word_root by done.
  assert (Hk : zlen (print_forest Byte.x20 (flat vs)) <= b * zlen vs).
  { clear Hw. induction Hs as [|v vs Hv _ IH]; [change (zlen (print_forest Byte.x20 (flat []))) with 0; change (zlen []) with 0; lia|]. apply Forall_cons_1 in Hp as [[Hl Ho] Hp]. specialize (IH Hp).
    cbn [flat print_forest]. rewrite !zlen_app, zlen_cons. change (zlen (print_name Byte.x20 None)) with 0.
    assert (zlen (print_value Byte.x20 None v) <= b); [|destruct v; try done; change (zlen []) with 0; lia].
    destruct v as [x|t|t|x|]; try done; cbn [print_value short app lit] in *; rewrite ?zlen_cons, ?zlen_app, ?zlen_cons, ?zlen_app, ?zlen_cons; change (zlen []) with 0.
    - pose proof (print_dec_len x Hl). lia.
    - pose proof (cstr_len t). lia.
    - change (zlen (lit "'")) with 1; change (zlen (lit ":")) with 1; pose proof (zlen_nonneg t). pose proof (print_dec_len (zlen t)). lia. }
  rewrite !zlen_app. change (zlen (lit "[ ")) with 2. change (zlen [_]) with 1. lia.
Qed.

Ltac solve_short :=
  repeat match goal with |- Forall _ (_ :: _) => apply list.Forall_cons; split | |- Forall _ [] => apply list.Forall_nil; exact I end;
  cbn [short]; try lia.

(** stores in a row, each keeping all but a part of the set *)
Ltac keeps_chain :=
  repeat match goal with
  | |- keeps_but _ ?a ?a => apply keeps_but_refl
  | H : keeps_but ?G ?a ?b |- keeps_but ?F ?a ?c =>
    apply (keeps_but_trans F a b c); [apply (keeps_but_mono G F a b); [clear; set_solver|exact H]|]
  end.

Section Exchange.
Context {E S R : Type} `{!Ltc E S R} `{!LtcLaws E S R}.
Implicit Types key_confirm : CryptState E S -> bool.
Implicit Types w : cworld E S R.
Abbreviation W := (@CWorld E S R).
Abbreviation St := (@mkState E S).
Abbreviation P := (@mkPeer E S).

(** what the generator gives for a nonce *)
Definition fresh_nonce (r : R) : CryptNonce * R := let '(b, r') := fortuna_read r NONCE_LENGTH in (nonce_of_raw b, r').

Lemma fresh_ok r n r' : fresh_nonce r = (n, r') -> nonce_ok n.
Proof.
  unfold fresh_nonce. pose proof (fortuna_law r NONCE_LENGTH) as Hl. destruct (fortuna_read r NONCE_LENGTH) as [b r0].
  intros [= <- <-]. by apply raw_nonce_ok.
Qed.

Lemma create_nonce_ok w n r' : fresh_nonce (c_rng w) = (n, r') -> CryptState_create_nonce w = (Some n, put_rng r' w).
Proof.
  unfold CryptState_create_nonce, CryptState_rand, fresh_nonce. pose proof (fortuna_law (c_rng w) NONCE_LENGTH) as Hl.
  destruct (fortuna_read (c_rng w) NONCE_LENGTH) as [b r]. cbn in Hl. intros [= <- <-]. by rewrite bool_decide_eq_true_2 by done.
Qed.

Lemma export_ok w k b :
  good (c_st w) -> p_key (me (c_cs w)) = KLive k -> ecc_export PK_PUBLIC k = Some b ->
  CryptState_export_key w CRYPT_MY_KEY PK_PUBLIC = Ok (Some b, w).
Proof.
  intros Hg Hk Hb. unfold CryptState_export_key, CryptState_ecc_key_bstr. cbn [side_peer]. rewrite Hk. cbn [use_key].
  by rewrite bind_ret, checkw_good, Hb, bool_decide_eq_true_2 by eauto.
Qed.

Lemma destroy_ok w l nm vs F :
  rep true (nodes (c_st w)) None (Some l) (msgtree nm vs) F -> (length vs < 100)%nat -> good (c_st w) ->
  exists st', destroy w (Some l) = Ok (put_st st' w) /\ good st' /\ keeps_but F (c_st w) st'.
Proof.
  intros Hr Hl Hg. destruct (destroy_msg _ _ _ _ _ Hr Hl Hg) as (st' & E' & H). exists st'. split; [|done].
  unfold destroy. by rewrite E', bind_ret.
Qed.

Lemma destroy_none w : destroy w None = Ok w.
Proof. unfold destroy. cbn. by destruct w. Qed.

(** what the peers make of each other's public key *)
Lemma shared_key_ok key_confirm cs st r l (nonced : bool) F eb b' a sec K n :
  let vs := if nonced then [FBlob eb; FNum (n_left n); FNum (n_right n)] else [FBlob eb] in
  good st -> rep true (nodes st) None (Some l) (msgtree CRYPT_HEADER vs) F -> nonce_ok n ->
  ecc_import eb = Some b' -> p_key (me cs) = KLive a -> ecc_shared_secret a b' = Some sec -> rijndael_setup sec = Some K ->
  let t := them cs in
  let them' := P (p_name t) (if nonced then n else p_nonce t) (KLive b') (p_session t) (p_skey t) in
  key_confirm (St (me cs) them' (shared cs)) = true ->
  CryptState_create_shared_key key_confirm (W cs st r) (Some l) nonced = Ok (true, W (St (me cs) them' K) st r).
Proof.
  intros vs Hg Hr Hn Hi Ha Hs HK t them' Hc. unfold CryptState_create_shared_key. rewrite assert_true, bind_ret by done.
  assert (Hdec : exists x1 x2 x3, (if nonced then Node_decons st (Some l) false (lit "[bnnw") [DOut; DOut; DOut; DName (Some CRYPT_HEADER)]
            else Node_decons st (Some l) false (lit "[bw") [DOut; DName (Some CRYPT_HEADER)])
      = Ok (true, zip_with out_at (if nonced then [x1; x2; x3] else [x1]) vs, st)).
  { destruct nonced; subst vs.
    - destruct (decons_alias st l CRYPT_HEADER CRYPT_HEADER [FBlob eb; FNum (n_left n); FNum (n_right n)] F Hg) as (xs & m & _ & _ & _ & Hlx & E');
        [solve_plain|done|exact Hr|]. destruct xs as [|x1 [|x2 [|x3 [|]]]]; try done. by exists x1, x2, x3.
    - destruct (decons_alias st l CRYPT_HEADER CRYPT_HEADER [FBlob eb] F Hg) as (xs & m & _ & _ & _ & Hlx & E');
        [by repeat constructor|done|exact Hr|]. destruct xs as [|x1 [|]]; try done. by exists x1, x1, x1. }
  destruct Hdec as (x1 & x2 & x3 & E'). cbn [c_st]. rewrite E', bind_ret. cbv beta iota.
  assert (Hst : (if nonced then on_them (set_nonce (mkNonce (out_num (zip_with out_at (if nonced then [x1; x2; x3] else [x1]) vs) 1 (n_left (p_nonce t)))
                                                        (out_num (zip_with out_at (if nonced then [x1; x2; x3] else [x1]) vs) 2 (n_right (p_nonce t)))))
                     (put_st st (W cs st r)) else put_st st (W cs st r))
      = W (St (me cs) (P (p_name t) (if nonced then n else p_nonce t) (p_key t) (p_session t) (p_skey t)) (shared cs)) st r).
  { subst vs t. destruct nonced; cbn; [by destruct n|]. by destruct cs as [? [] ?]. }
  change (them (c_cs (put_st st (W cs st r)))) with t. rewrite Hst.
  assert (Hos : out_str (zip_with out_at (if nonced then [x1; x2; x3] else [x1]) vs) 0 = Some (Some x1, eb)) by (by subst vs; destruct nonced).
  rewrite Hos, checkw_good by done. cbn [negb fmap option_fmap option_map snd]. unfold CryptState_import_key, CryptState_bstr_ecc_key.
  cbn [need]. rewrite bind_ret, Hi, checkw_good, bool_decide_eq_true_2 by eauto. rewrite bind_ret. cbv beta iota.
  rewrite bind_ret. cbn [on_side].
  change (on_them (set_key (KLive b')) (W (St (me cs) (P (p_name t) (if nonced then n else p_nonce t) (p_key t) (p_session t) (p_skey t)) (shared cs)) st r))
    with (W (St (me cs) them' (shared cs)) st r).
  rewrite checkw_good by done. cbn [negb]. rewrite checkw_good by done. cbn [c_cs]. rewrite Hc. cbn [negb].
  cbn [me them]. rewrite Ha. cbn [use_key them' p_key]. rewrite !bind_ret, checkw_good, Hs, bool_decide_eq_true_2 by eauto.
  cbn [negb need]. rewrite bind_ret, HK. rewrite checkw_good, bool_decide_eq_true_2 by eauto. done.
Qed.

Lemma header_len eb : zlen eb <= 256 -> zlen (msgtext CRYPT_HEADER [FBlob eb]) <= 400.
Proof.
  intros He. etransitivity; [apply (msgtext_len 330); [decided|solve_plain|solve_short|done]|].
  change (zlen [_]) with 1. change (zlen CRYPT_HEADER) with 6. lia.
Qed.

(** the call of [Node_cons] whose outcome is known *)
Ltac use_cons E' :=
  match type of E' with ?L = _ => match goal with |- context [Node_cons ?a ?b ?c] => change (Node_cons a b c) with L end end;
  rewrite E', bind_ret; cbv beta iota.

(** and of [Node_decons] *)
Ltac use_decons E' :=
  match type of E' with _ -> _ -> _ -> ?L = _ => match goal with |- context [Node_decons ?a ?b ?c ?d ?e] => change (Node_decons a b c d e) with L end end;
  rewrite E'; [rewrite (bool_decide_eq_true_2 (_ = cstr _)) by reflexivity; rewrite bind_ret; cbv beta iota|..].

(** the key of a side that gets the exported key [eb] of the other *)
Definition pairing (a : E) (eb : bytes) (b' : E) (K : S) : Prop :=
  ecc_import eb = Some b' /\ exists sec, ecc_shared_secret a b' = Some sec /\ rijndael_setup sec = Some K.

Definition no_nul (nm : bytes) : Prop := Byte.x00 ∉ nm.

(** a message just made: a tree of new nodes, nothing else changed *)
Record made st st' l nm vs F : Prop := Made {
  made_rep : rep true (nodes st') None (Some l) (msgtree nm vs) F;
  made_good : good st';
  made_keeps : keeps_but ∅ st st';
  made_new : F ## dom (nodes st)
}.

Lemma made_extends st st' l nm vs F :
  rep true (nodes st') None (Some l) (msgtree nm vs) F -> good st' -> extends_by F st st' -> made st st' l nm vs F.
Proof. intros Hr Hg Hx. split; [done|done|by eapply extends_keeps|apply Hx]. Qed.

Lemma keeps_new F st st' : keeps_but F st st' -> F ## dom (nodes st) -> keeps_but ∅ st st'.
Proof. intros H Hd x n _ Hn. apply H; [|done]. apply elem_of_dom_2 in Hn. set_solver. Qed.

Lemma keeps_dom st st' : keeps_but ∅ st st' -> dom (nodes st) ⊆ dom (nodes st').
Proof. intros H x [n Hn]%elem_of_dom. apply elem_of_dom. exists n. apply H; [set_solver|done]. Qed.

Lemma rep_sub lk st par p f F : rep lk (nodes st) par p f F -> F ⊆ dom (nodes st).
Proof. intros Hr x. apply (rep_dom _ _ _ _ _ _ Hr). Qed.

(** throwing away a tree that was made before *)
Lemma destroy_temp cs r st1 st2 l nm vs F G :
  rep true (nodes st1) None (Some l) (msgtree nm vs) F -> keeps_but G st1 st2 -> F ## G -> good st2 -> (length vs < 100)%nat ->
  exists st3, destroy (W cs st2 r) (Some l) = Ok (W cs st3 r) /\ good st3 /\ keeps_but F st2 st3.
Proof. intros Hr Hk Hd Hg Hl. apply (destroy_ok (W cs st2 r) l nm vs F); [|done|done]. by eapply rep_keeps. Qed.

Lemma receiver_start_ok cs st r n r' a ea :
  good st -> fresh_nonce r = (n, r') -> p_key (me cs) = KLive a -> ecc_export PK_PUBLIC a = Some ea ->
  exists l st' F, CryptState_receiver_start (W cs st r) = Ok (Some l, W (St (set_nonce n (me cs)) (them cs) (shared cs)) st' r') /\
    made st st' l CRYPT_HEADER [FBlob ea; FNum (n_left n); FNum (n_right n)] F.
Proof.
  intros Hg Hf Ha He. unfold CryptState_receiver_start. pose proof (fresh_ok _ _ _ Hf) as Hn.
  rewrite (create_nonce_ok (W cs st r) n r') by done. cbv beta iota.
  rewrite checkw_good by done. rewrite bool_decide_eq_true_2 by done. cbn [negb].
  set (cs' := St (set_nonce n (me cs)) (them cs) (shared cs)). change (on_me (set_nonce n) (put_rng r' (W cs st r))) with (W cs' st r').
  rewrite (export_ok (W cs' st r') a ea) by done. rewrite bind_ret. cbv beta iota.
  destruct (cons_msg st [FNum (n_right n); FNum (n_left n); FBlob ea] CRYPT_HEADER) as (l & st' & F & E' & Hr & Hg' & Hx);
    [solve_plain|decided|done|].
  use_cons E'. rewrite checkw_good by done. rewrite bool_decide_eq_true_2 by done.
  exists l, st', F. split; [done|]. by apply made_extends.
Qed.

Definition init_payload (n : CryptNonce) (se nm : bytes) : list fval := [FNum (n_left n); FNum (n_right n); FBlob se; FStr nm].

Lemma initiator_start_ok key_confirm me0 them0 sh st r n1 r' l0 F0 n0 a ea eb b' K nm se c t :
  good st -> fresh_nonce r = (n1, r') -> rep true (nodes st) None (Some l0) (msgtree CRYPT_HEADER [FBlob eb; FNum (n_left n0); FNum (n_right n0)]) F0 -> nonce_ok n0 ->
  p_key me0 = KLive a -> ecc_export PK_PUBLIC a = Some ea -> pairing a eb b' K ->
  p_name me0 = SLive nm -> p_session me0 = SLive se -> plain (FStr nm) ->
  key_confirm (St me0 (P (p_name them0) n0 (KLive b') (p_session them0) (p_skey them0)) sh) = true ->
  sealed K n0 (msgtext CRYPT_HEADER [FBlob ea]) CRYPT_INIT_MSG (init_payload n1 se nm) c t ->
  exists l st' F,
    CryptState_initiator_start key_confirm (W (St me0 them0 sh) st r) (Some l0)
      = Ok (Some l, Some (msgtext CRYPT_HEADER [FBlob ea]),
          W (St (set_nonce n1 me0) (P (p_name them0) (CryptState_nonce_inc n0) (KLive b') (p_session them0) (p_skey them0)) K) st' r') /\
    made st st' l CRYPT_ENV_MSG [FBlob t; FBlob c] F.
Proof.
  intros Hg Hf Hr0 Hn0 Ha He (Hi & sec & Hs & HK) Hnm Hse Hpl Hc Hct. pose proof (fresh_ok _ _ _ Hf) as Hn1. unfold CryptState_initiator_start. rewrite assert_true, bind_ret by done.
  rewrite (shared_key_ok key_confirm (St me0 them0 sh) st r l0 true F0 eb b' a sec K n0) by done. rewrite bind_ret. cbv beta iota.
  rewrite checkw_good by done. cbn [negb me them shared]. set (t1 := P (p_name them0) n0 (KLive b') (p_session them0) (p_skey them0)).
  rewrite (export_ok (W (St me0 t1 K) st r) a ea) by done. rewrite bind_ret. cbv beta iota. rewrite checkw_good by done.
  rewrite bool_decide_eq_true_2 by done. cbn [negb c_st].
  destruct (cons_msg st [FBlob ea] CRYPT_HEADER) as (l1 & s1 & F1 & E1 & Hr1 & Hg1 & Hx1); [solve_plain|decided|done|].
  use_cons E1. change (c_st (put_st s1 (W (St me0 t1 K) st r))) with s1. rewrite (bstr_msg s1 l1 CRYPT_HEADER [FBlob ea] F1), bind_ret by (try done; solve_plain).
  rewrite (create_nonce_ok (put_st s1 (W (St me0 t1 K) st r)) n1 r') by done. cbv beta iota.
  rewrite checkw_good by done. rewrite bool_decide_eq_true_2 by done. cbn [negb].
  set (m1 := set_nonce n1 me0).
  change (on_me (set_nonce n1) (put_rng r' (put_st s1 (W (St me0 t1 K) st r)))) with (W (St m1 t1 K) s1 r'). cbn [c_cs me c_st].
  change (p_name m1) with (p_name me0). change (p_session m1) with (p_session me0). change (p_nonce m1) with n1. rewrite Hnm, Hse. cbn [bstrcpy]. rewrite !bind_ret.
  destruct (cons_msg s1 [FStr nm; FBlob se; FNum (n_right n1); FNum (n_left n1)] CRYPT_INIT_MSG) as (l2 & s2 & F2 & E2 & Hr2 & Hg2 & Hx2);
    [solve_plain|decided|done|].
  use_cons E2. rewrite checkw_good by done. rewrite bool_decide_eq_true_2 by done. cbn [negb].
  change (put_st s2 (W (St m1 t1 K) s1 r')) with (W (St m1 t1 K) s2 r'). cbn [c_cs shared].
  destruct (encrypt_node_ok (W (St m1 t1 K) s2 r') K (msgtext CRYPT_HEADER [FBlob ea]) l2 CRYPT_INIT_MSG (init_payload n1 se nm) F2 c t)
    as (l3 & s3 & F3 & -> & Hr3 & Hg3 & Hx3); [done|done|unfold init_payload; solve_plain; apply Hpl|done|].
  rewrite bind_ret. cbv beta iota. rewrite checkw_good by done.
  pose proof (extends_keeps _ _ _ Hx1) as K1. pose proof (extends_keeps _ _ _ Hx2) as K2. pose proof (extends_keeps _ _ _ Hx3) as K3.
  destruct Hx1 as [_ D1], Hx2 as [_ D2], Hx3 as [_ D3]. cbn [c_st] in *.
  pose proof (rep_sub _ _ _ _ _ _ Hr1). pose proof (rep_sub _ _ _ _ _ _ Hr2). pose proof (keeps_dom _ _ K1). pose proof (keeps_dom _ _ K2).
  change (put_st s3 (on_them inc_nonce (W (St m1 t1 K) s2 r'))) with (W (St m1 (inc_nonce t1) K) s3 r').
  destruct (destroy_temp (St m1 (inc_nonce t1) K) r' s1 s3 l1 CRYPT_HEADER [FBlob ea] F1 ∅) as (s4 & -> & Hg4 & K4);
    [done|by eapply keeps_but_trans|set_solver|done|cbn; lia|].
  rewrite bind_ret.
  destruct (destroy_temp (St m1 (inc_nonce t1) K) r' s2 s4 l2 CRYPT_INIT_MSG (init_payload n1 se nm) F2 F1) as (s5 & -> & Hg5 & K5);
    [done|by eapply keeps_but_trans; [apply (keeps_but_mono ∅); [set_solver|]|]|set_solver|done|cbn; lia|].
  exists l3, s5, F3. split; [done|].
  split; [|done| |set_solver].
  - eapply (rep_keeps _ F2 s4); [|exact K5|set_solver]. by eapply (rep_keeps _ F1 s3); [exact Hr3|exact K4|set_solver].
  - apply (keeps_new (F1 ∪ F2)); [|set_solver]. keeps_chain.
Qed.

Lemma receiver_process_response_ok key_confirm me0 them0 sh st r l F n0 n1 a eb b' K nm se c t :
  let hbuf := msgtext CRYPT_HEADER [FBlob eb] in
  good st -> rep true (nodes st) None (Some l) (msgtree CRYPT_ENV_MSG [FBlob t; FBlob c]) F ->
  p_key me0 = KLive a -> p_nonce me0 = n0 -> zlen eb <= 256 -> pairing a eb b' K -> nonce_ok n1 -> plain (FStr nm) ->
  key_confirm (St me0 (P (p_name them0) (p_nonce them0) (KLive b') (p_session them0) (p_skey them0)) sh) = true ->
  sealed K n0 hbuf CRYPT_INIT_MSG (init_payload n1 se nm) c t ->
  zlen (msgtext CRYPT_INIT_MSG (init_payload n1 se nm)) < 2 ^ 31 ->
  exists st', CryptState_receiver_process_response key_confirm (W (St me0 them0 sh) st r) hbuf (Some l)
      = Ok (true, W (St (set_nonce (CryptState_nonce_inc n0) me0) (P (SLive nm) n1 (KLive b') (SLive se) (p_skey them0)) K) st' r) /\
    rep true (nodes st') None (Some l) (msgtree CRYPT_ENV_MSG [FBlob t; FBlob (msgtext CRYPT_INIT_MSG (init_payload n1 se nm))]) F /\
    good st' /\ keeps_but F st st'.
Proof.
  intros hbuf Hg Hr Ha Hn0 Hle (Hi & sec & Hs & HK) Hn1 Hpl Hc (_ & _ & Hccm)%sealed_opens Hlen. unfold CryptState_receiver_process_response.
  rewrite assert_true, bind_ret by done. pose proof (header_len eb Hle).
  destruct (parse_msg st CRYPT_HEADER [FBlob eb]) as (l1 & s1 & F1 & E1 & Hr1 & Hg1 & Hx1); [decided|solve_plain|lia|done|].
  cbn [c_st]. fold hbuf in E1. rewrite E1, bind_ret. cbv beta iota. rewrite checkw_good by done. rewrite bool_decide_eq_true_2 by done. cbn [negb].
  change (put_st s1 (W (St me0 them0 sh) st r)) with (W (St me0 them0 sh) s1 r).
  rewrite (shared_key_ok key_confirm (St me0 them0 sh) s1 r l1 false F1 eb b' a sec K n1) by done. rewrite bind_ret. cbv beta iota. cbn [me them shared].
  set (t1 := P (p_name them0) (p_nonce them0) (KLive b') (p_session them0) (p_skey them0)).
  pose proof (extends_keeps _ _ _ Hx1) as K1. destruct Hx1 as [_ D1]. pose proof (rep_sub _ _ _ _ _ _ Hr) as S0.
  destruct (destroy_temp (St me0 t1 K) r s1 s1 l1 CRYPT_HEADER [FBlob eb] F1 ∅ Hr1) as (s2 & -> & Hg2 & K2); [keeps_chain|set_solver|done|cbn; lia|].
  rewrite bind_ret, checkw_good by done. cbn [negb c_cs shared].
  assert (Hr2 : rep true (nodes s2) None (Some l) (msgtree CRYPT_ENV_MSG [FBlob t; FBlob c]) F).
  { eapply (rep_keeps _ F1 s1); [|exact K2|set_solver]. eapply (rep_keeps _ ∅ st); [exact Hr|done|set_solver]. }
  destruct (decrypt_node_ok (W (St me0 t1 K) s2 r) K hbuf l c t F CRYPT_INIT_MSG (init_payload n1 se nm)) as (l3 & s3 & F3 & -> & Hr3 & Hr3' & Hg3 & K3 & D3);
    [done|done|cbn [c_cs me]; by rewrite Hn0|decided|unfold init_payload; solve_plain; apply Hpl|done|].
  rewrite bind_ret. cbv beta iota. rewrite checkw_good by done. rewrite bool_decide_eq_true_2 by done. cbn [negb].
  change (put_st s3 (on_me inc_nonce (W (St me0 t1 K) s2 r))) with (W (St (inc_nonce me0) t1 K) s3 r).
  pose proof (decons_copy s3 l3 CRYPT_INIT_MSG CRYPT_INIT_MSG (init_payload n1 se nm) F3 Hg3) as E3.
  cbn [c_st]. use_decons E3; [|unfold init_payload; solve_plain|done|done]. cbn [c_st c_cs].
  change (put_st s3 (W (St (inc_nonce me0) t1 K) s3 r)) with (W (St (inc_nonce me0) t1 K) s3 r).
  match goal with |- context [destroy ?w (Some l3)] => set (w' := w) end.
  assert (w' = W (St (set_nonce (CryptState_nonce_inc n0) me0) (P (SLive nm) n1 (KLive b') (SLive se) (p_skey them0)) K) s3 r) as ->.
  { subst w' t1 n0. by destruct n1. }
  destruct (destroy_temp (St (set_nonce (CryptState_nonce_inc n0) me0) (P (SLive nm) n1 (KLive b') (SLive se) (p_skey them0)) K) r s3 s3 l3
              CRYPT_INIT_MSG (init_payload n1 se nm) F3 ∅ Hr3) as (s4 & -> & Hg4 & K4); [keeps_chain|set_solver|done|cbn; lia|].
  rewrite bind_ret, checkw_good by done. exists s4. cbn [c_st] in *. pose proof (rep_sub _ _ _ _ _ _ Hr2).
  split_and!; [done|eapply (rep_keeps _ F3 s3); [exact Hr3'|done|set_solver]|done|].
  assert (K12 : keeps_but ∅ st s2) by (apply (keeps_new F1); [keeps_chain|done]).
  intros x m Hx Hm. apply K12 in Hm; [|set_solver]. apply K4; [|by apply K3]. apply elem_of_dom_2 in Hm. set_solver.
Qed.

(** a payload is encrypted and thrown away *)
Lemma seal_ok cs st s2 r K h l2 nm vs F2 c t :
  made st s2 l2 nm vs F2 -> Forall plain vs -> (length vs < 100)%nat -> sealed K (p_nonce (them cs)) h nm vs c t ->
  exists l3 s3 s4 F3,
    CryptState_encrypt_node (W cs s2 r) K h (Some l2) = Ok (Some l3, W (St (me cs) (inc_nonce (them cs)) (shared cs)) s3 r) /\
    good s3 /\ (forall cs', destroy (W cs' s3 r) (Some l2) = Ok (W cs' s4 r)) /\
    made st s4 l3 CRYPT_ENV_MSG [FBlob t; FBlob c] F3.
Proof.
  intros [Hr2 Hg2 K2 D2] Hp Hl Hct.
  destruct (encrypt_node_ok (W cs s2 r) K h l2 nm vs F2 c t) as (l3 & s3 & F3 & -> & Hr3 & Hg3 & Hx3); [done|done|done|done|].
  cbn [c_st c_cs] in *. pose proof (extends_keeps _ _ _ Hx3) as K3. destruct Hx3 as [_ D3]. pose proof (rep_sub _ _ _ _ _ _ Hr2).
  pose proof (keeps_dom _ _ K2).
  assert (Hr2' : rep true (nodes s3) None (Some l2) (msgtree nm vs) F2) by (eapply (rep_keeps _ ∅ s2); [done|done|set_solver]).
  destruct (destroy_msg s3 l2 nm vs F2 Hr2' Hl Hg3) as (s4 & E4 & Hg4 & K4).
  exists l3, s3, s4, F3. split_and!; [done|done|intros cs'; unfold destroy; cbn [c_st]; by rewrite E4|].
  split; [eapply (rep_keeps _ F2 s3); [done|done|set_solver]|done| |set_solver].
  apply (keeps_new F2); [keeps_chain|done].
Qed.

Definition recv_payload (n nt : CryptNonce) (se nm : bytes) : list fval :=
  [FNum (n_left n); FNum (n_right n); FNum (n_left nt); FNum (n_right nt); FBlob se; FStr nm].

Lemma empty_header_text : empty_header = msgtext CRYPT_HEADER [].
Proof. reflexivity. Qed.

Lemma receiver_send_final_ok me0 them0 K st r n2 r' nm se n1 c t :
  good st -> fresh_nonce r = (n2, r') ->
  p_name me0 = SLive nm -> p_session me0 = SLive se -> plain (FStr nm) -> p_nonce them0 = n1 -> nonce_ok n1 ->
  sealed K n1 empty_header CRYPT_RECV_MSG (recv_payload n2 n1 se nm) c t ->
  exists l st' F,
    CryptState_receiver_send_final (W (St me0 them0 K) st r)
      = Ok (Some l, empty_header, W (St (set_nonce n2 me0) (inc_nonce them0) K) st' r') /\
    made st st' l CRYPT_ENV_MSG [FBlob t; FBlob c] F.
Proof.
  intros Hg Hf Hnm Hse Hpl Hn1 Hno Hct. pose proof (fresh_ok _ _ _ Hf) as Hn2. unfold CryptState_receiver_send_final. rewrite checkw_good by done. cbn [negb].
  rewrite (create_nonce_ok (W (St me0 them0 K) st r) n2 r') by done. cbv beta iota.
  rewrite checkw_good by done. rewrite bool_decide_eq_true_2 by done. cbn [negb].
  set (m1 := set_nonce n2 me0). change (on_me (set_nonce n2) (put_rng r' (W (St me0 them0 K) st r))) with (W (St m1 them0 K) st r').
  cbn [c_cs me them c_st]. change (p_name m1) with (p_name me0). change (p_session m1) with (p_session me0). change (p_nonce m1) with n2.
  rewrite Hnm, Hse, Hn1. cbn [bstrcpy]. rewrite !bind_ret.
  destruct (cons_msg st [FStr nm; FBlob se; FNum (n_right n1); FNum (n_left n1); FNum (n_right n2); FNum (n_left n2)] CRYPT_RECV_MSG)
    as (l2 & s2 & F2 & E2 & Hr2 & Hg2 & Hx2); [solve_plain|decided|done|].
  use_cons E2. rewrite checkw_good by done. rewrite bool_decide_eq_true_2 by done. cbn [negb].
  change (put_st s2 (W (St m1 them0 K) st r')) with (W (St m1 them0 K) s2 r'). cbn [c_cs shared].
  destruct (seal_ok (St m1 them0 K) st s2 r' K empty_header l2 CRYPT_RECV_MSG (recv_payload n2 n1 se nm) F2 c t)
    as (l3 & s3 & s4 & F3 & -> & Hg3 & E4 & Hm);
    [by apply made_extends|unfold recv_payload; solve_plain; apply Hpl|cbn; lia|cbn [them]; by rewrite Hn1|].
  rewrite bind_ret. cbv beta iota. rewrite checkw_good by done. rewrite E4, bind_ret.
  by exists l3, s4, F3.
Qed.

Lemma initiator_process_response_ok me0 them0 K st r l F n1 n2 nm se c t :
  good st -> rep true (nodes st) None (Some l) (msgtree CRYPT_ENV_MSG [FBlob t; FBlob c]) F ->
  p_nonce me0 = n1 -> nonce_ok n1 -> nonce_ok n2 -> plain (FStr nm) ->
  sealed K n1 empty_header CRYPT_RECV_MSG (recv_payload n2 n1 se nm) c t ->
  zlen (msgtext CRYPT_RECV_MSG (recv_payload n2 n1 se nm)) < 2 ^ 31 ->
  exists st', CryptState_initiator_process_response (W (St me0 them0 K) st r) empty_header (Some l)
      = Ok (true, W (St (inc_nonce me0) (P (SLive nm) n2 (p_key them0) (SLive se) (p_skey them0)) K) st' r) /\
    rep true (nodes st') None (Some l) (msgtree CRYPT_ENV_MSG [FBlob t; FBlob (msgtext CRYPT_RECV_MSG (recv_payload n2 n1 se nm))]) F /\
    good st' /\ keeps_but F st st'.
Proof.
  intros Hg Hr Hn1 Hno1 Hno2 Hpl (_ & _ & Hccm)%sealed_opens Hlen. unfold CryptState_initiator_process_response. rewrite assert_true, bind_ret by done. cbn [c_cs shared].
  destruct (decrypt_node_ok (W (St me0 them0 K) st r) K empty_header l c t F CRYPT_RECV_MSG (recv_payload n2 n1 se nm)) as (l3 & s3 & F3 & -> & Hr3 & Hr3' & Hg3 & K3 & D3);
    [done|done|cbn [c_cs me]; by rewrite Hn1|decided|unfold recv_payload; solve_plain; apply Hpl|done|].
  rewrite bind_ret. cbv beta iota. rewrite checkw_good by done. rewrite bool_decide_eq_true_2 by done. cbn [negb].
  change (put_st s3 (on_me inc_nonce (W (St me0 them0 K) st r))) with (W (St (inc_nonce me0) them0 K) s3 r).
  pose proof (decons_copy s3 l3 CRYPT_RECV_MSG CRYPT_RECV_MSG (recv_payload n2 n1 se nm) F3 Hg3) as E3.
  cbn [c_st]. use_decons E3; [|unfold recv_payload; solve_plain|done|done].
  set (cs' := St (inc_nonce me0) (P (SLive nm) n2 (p_key them0) (SLive se) (p_skey them0)) K).
  match goal with |- context [checkw ?w _] => set (w' := w) end.
  assert (w' = W cs' s3 r) as -> by (subst w' cs'; by destruct n2).
  rewrite checkw_good by done. cbn [c_cs them cs' p_name negb]. rewrite checkw_good by done. cbn [negb]. rewrite checkw_good by done.
  destruct (destroy_temp cs' r s3 s3 l3 CRYPT_RECV_MSG (recv_payload n2 n1 se nm) F3 ∅ Hr3) as (s4 & -> & Hg4 & K4); [keeps_chain|set_solver|done|cbn; lia|].
  rewrite bind_ret. exists s4. cbn [c_st] in *. pose proof (rep_sub _ _ _ _ _ _ Hr).
  split_and!; [done|eapply (rep_keeps _ F3 s3); [exact Hr3'|done|set_solver]|done|].
  intros x m Hx Hm. apply K4; [|by apply K3]. apply elem_of_dom_2 in Hm. set_solver.
Qed.

(** the session keys are set, the shared key and the session strings are gone *)
Definition finalized (k1 k2 : S) (cs : CryptState E S) : CryptState E S :=
  St (P (p_name (me cs)) (p_nonce (me cs)) (p_key (me cs)) SNull k1)
     (P (p_name (them cs)) (p_nonce (them cs)) (p_key (them cs)) SNull k2) skey_zero.

Lemma finalize_ok cs st r s1 s2 k1 k2 :
  good st -> p_session (me cs) = SLive s1 -> p_session (them cs) = SLive s2 -> rijndael_setup s1 = Some k1 -> rijndael_setup s2 = Some k2 ->
  CryptState_finalize_session (W cs st r) = Ok (true, W (finalized k1 k2 cs) st r).
Proof.
  intros Hg H1 H2 Hk1 Hk2. unfold CryptState_finalize_session. cbn [c_cs]. rewrite H1, Hk1, bind_ret. cbv beta iota.
  rewrite checkw_good by done. rewrite bool_decide_eq_true_2 by done. cbn [negb].
  change (them (c_cs (on_me (set_skey k1) (W cs st r)))) with (them cs). rewrite H2, Hk2, bind_ret. cbv beta iota.
  rewrite checkw_good by done. cbn [c_cs on_them on_me put_cs put_me put_them me them set_skey p_session]. by rewrite H1, H2.
Qed.

Definition final_payload (n : CryptNonce) : list fval := [FNum (n_left n); FNum (n_right n)].

Lemma initiator_send_final_ok me0 them0 K st r n2 s1 s2 k1 k2 c t :
  good st -> p_nonce them0 = n2 -> nonce_ok n2 ->
  p_session me0 = SLive s1 -> p_session them0 = SLive s2 -> rijndael_setup s1 = Some k1 -> rijndael_setup s2 = Some k2 ->
  sealed K n2 empty_header CRYPT_INIT_MSG (final_payload n2) c t ->
  exists l st' F,
    CryptState_initiator_send_final (W (St me0 them0 K) st r)
      = Ok (Some l, empty_header, W (finalized k1 k2 (St me0 (inc_nonce them0) K)) st' r) /\
    made st st' l CRYPT_ENV_MSG [FBlob t; FBlob c] F.
Proof.
  intros Hg Hn Hno H1 H2 Hk1 Hk2 Hct. unfold CryptState_initiator_send_final. cbn [c_cs them c_st]. rewrite Hn.
  destruct (cons_msg st [FNum (n_right n2); FNum (n_left n2)] CRYPT_INIT_MSG) as (l2 & s2' & F2 & E2 & Hr2 & Hg2 & Hx2); [solve_plain|decided|done|].
  use_cons E2. rewrite checkw_good by done. rewrite bool_decide_eq_true_2 by done. cbn [negb].
  change (put_st s2' (W (St me0 them0 K) st r)) with (W (St me0 them0 K) s2' r). cbn [c_cs shared].
  destruct (seal_ok (St me0 them0 K) st s2' r K empty_header l2 CRYPT_INIT_MSG (final_payload n2) F2 c t)
    as (l3 & s3 & s4 & F3 & -> & Hg3 & E4 & Hm);
    [by apply made_extends|unfold final_payload; solve_plain|cbn; lia|cbn [them]; by rewrite Hn|].
  rewrite bind_ret. cbv beta iota. rewrite checkw_good by done. rewrite bool_decide_eq_true_2 by done. cbn [negb me them shared].
  rewrite (finalize_ok (St me0 (inc_nonce them0) K) s3 r s1 s2 k1 k2) by done. rewrite bind_ret. cbv beta iota.
  rewrite checkw_good by done. rewrite E4, bind_ret.
  by exists l3, s4, F3.
Qed.

Lemma receiver_done_ok me0 them0 K st r l F n2 c t s1 s2 k1 k2 :
  good st -> rep true (nodes st) None (Some l) (msgtree CRYPT_ENV_MSG [FBlob t; FBlob c]) F ->
  p_nonce me0 = n2 -> nonce_ok n2 ->
  p_session me0 = SLive s1 -> p_session them0 = SLive s2 -> rijndael_setup s1 = Some k1 -> rijndael_setup s2 = Some k2 ->
  sealed K n2 empty_header CRYPT_INIT_MSG (final_payload n2) c t ->
  zlen (msgtext CRYPT_INIT_MSG (final_payload n2)) < 2 ^ 31 ->
  exists st', CryptState_receiver_done (W (St me0 them0 K) st r) empty_header (Some l)
      = Ok (true, W (finalized k1 k2 (St (inc_nonce me0) them0 K)) st' r) /\
    rep true (nodes st') None (Some l) (msgtree CRYPT_ENV_MSG [FBlob t; FBlob (msgtext CRYPT_INIT_MSG (final_payload n2))]) F /\
    good st' /\ keeps_but F st st'.
Proof.
  intros Hg Hr Hn Hno H1 H2 Hk1 Hk2 (_ & _ & Hccm)%sealed_opens Hlen. unfold CryptState_receiver_done. rewrite assert_true, bind_ret by done. cbn [c_cs shared].
  destruct (decrypt_node_ok (W (St me0 them0 K) st r) K empty_header l c t F CRYPT_INIT_MSG (final_payload n2)) as (l3 & s3 & F3 & -> & Hr3 & Hr3' & Hg3 & K3 & D3);
    [done|done|cbn [c_cs me]; by rewrite Hn|decided|unfold final_payload; solve_plain|done|].
  rewrite bind_ret. cbv beta iota. rewrite checkw_good by done. rewrite bool_decide_eq_true_2 by done. cbn [negb].
  change (put_st s3 (on_me inc_nonce (W (St me0 them0 K) st r))) with (W (St (inc_nonce me0) them0 K) s3 r). cbn [c_st].
  destruct (decons_alias s3 l3 CRYPT_INIT_MSG CRYPT_INIT_MSG (final_payload n2) F3 Hg3) as (xs & m & _ & _ & _ & Hlx & E3);
    [unfold final_payload; solve_plain|done|done|].
  destruct xs as [|x1 [|x2 [|]]]; try done. rewrite bool_decide_eq_true_2 in E3 by reflexivity.
  match type of E3 with ?L = _ => match goal with |- context [Node_decons ?a ?b ?c ?d ?e] => change (Node_decons a b c d e) with L end end.
  rewrite E3, bind_ret. cbv beta iota. rewrite checkw_good by done. cbn [negb].
  change (put_st s3 (W (St (inc_nonce me0) them0 K) s3 r)) with (W (St (inc_nonce me0) them0 K) s3 r).
  rewrite checkw_good by done.
  match goal with |- context [CryptState_nonce_check ?a ?b] => assert (CryptState_nonce_check a b = true) as -> end.
  { cbn. rewrite Hn. unfold CryptState_nonce_check. cbn. by rewrite !Z.eqb_refl. }
  cbn [negb]. rewrite (finalize_ok (St (inc_nonce me0) them0 K) s3 r s1 s2 k1 k2) by done. rewrite bind_ret. cbv beta iota.
  rewrite checkw_good by done.
  destruct (destroy_temp (finalized k1 k2 (St (inc_nonce me0) them0 K)) r s3 s3 l3 CRYPT_INIT_MSG (final_payload n2) F3 ∅ Hr3)
    as (s4 & -> & Hg4 & K4); [keeps_chain|set_solver|done|cbn; lia|].
  rewrite bind_ret. exists s4. cbn [c_st] in *. pose proof (rep_sub _ _ _ _ _ _ Hr).
  split_and!; [done|eapply (rep_keeps _ F3 s3); [exact Hr3'|done|set_solver]|done|].
  intros x m' Hx Hm. apply K4; [|by apply K3]. apply elem_of_dom_2 in Hm. set_solver.
Qed.
End Exchange.

End CryptoProps.
