(* ===== verification/PeerProps.v ===== *)
(** * PeerProps: the handshake and the session of two peers

    The two establish functions of [Peer] run against each other's output: with the
    promises of the two libraries ([LtcLaws], [SbufLaws]) both succeed, and what they
    leave behind fits together.  Then each message one side sends is the message the
    other gets.  The rest of the file is what goes wrong when the other side does not
    play by the rules. *)

From Stdlib Require Import ZArith Lia.
From S2P Require Import Prelude Cstdlib Ragel Node NodeFormat Stackish NodeRep NodeOpen NodeFormatProps StackishDfa StackishRt StackishProps Crypto Frame Peer FrameProps CryptoProps.
Import Cstdlib Node NodeFormat Stackish NodeRep NodeOpen NodeFormatProps StackishRt StackishProps Crypto Frame Peer FrameProps CryptoProps.
Local Open Scope Z_scope.

Module PeerProps.

Lemma blob_len b : zlen b < 2 ^ 64 -> zlen (print_value Byte.x20 None (FBlob b)) <= zlen b + 70.
Proof.
  intros Hb. cbn [print_value]. rewrite !zlen_app. change (zlen (lit "'")) with 1. change (zlen (lit ":")) with 1. change (zlen [_]) with 1.
  pose proof (zlen_nonneg b). pose proof (print_dec_len (zlen b)). lia.
Qed.

Lemma env_text_len c t : zlen c <= 32768 -> zlen t <= 256 -> zlen (msgtext CRYPT_ENV_MSG [FBlob t; FBlob c]) <= zlen c + zlen t + 150.
Proof.
  intros Hc Ht. unfold msgtext, msgtree. rewrite print_word_root by decided. cbn [flat print_forest]. rewrite !zlen_app.
  change (zlen (print_name Byte.x20 None)) with 0. change (zlen []) with 0. change (zlen [_]) with 1. change (zlen (lit "[ ")) with 2.
  change (zlen CRYPT_ENV_MSG) with 3. pose proof (blob_len c). pose proof (blob_len t). lia.
Qed.

Lemma env_len c t : zlen c <= 8000 -> zlen t <= 256 -> zlen (msgtext CRYPT_ENV_MSG [FBlob t; FBlob c]) <= 20000.
Proof. intros Hc Ht. pose proof (env_text_len c t). lia. Qed.

Lemma payload_len nm vs : is_word nm -> zlen nm <= 10 -> Forall plain vs -> Forall (short 1100) vs -> zlen vs <= 6 -> zlen (msgtext nm vs) <= 8000.
Proof. intros Hw Hn Hp Hs Hl. pose proof (msgtext_len 1100 nm vs Hw Hp Hs). lia. Qed.

Lemma start_len ea n : nonce_ok n -> zlen ea <= 256 -> zlen (msgtext CRYPT_HEADER [FBlob ea; FNum (n_left n); FNum (n_right n)]) <= 1000.
Proof.
  intros Hn He. etransitivity; [apply (msgtext_len 330); [decided|solve_plain|solve_short|done]|].
  change (zlen [_; _; _]) with 3. change (zlen CRYPT_HEADER) with 6. lia.
Qed.

Section Peers.
Context {E S R B F : Type} `{!Ltc E S R} `{!LtcLaws E S R} `{!Sbuf B F} `{!SbufLaws B F}.
Implicit Types key_confirm : CryptState E S -> bool.
Implicit Types fs : FrameSource B F.
Abbreviation W := (@CWorld E S R).
Abbreviation St := (@mkState E S).
Abbreviation P := (@mkPeer E S).
Abbreviation PW := (@mkPeerw E S R B F).

(** ** One frame *)

Lemma checkp_good (p : Peer E S R B F) b : good (c_st (pr_state p)) -> checkp p b = (b, p).
Proof. intros Hg. unfold checkp. rewrite checkw_good by done. by destruct p. Qed.

Lemma destroyp_none (p : Peer E S R B F) : destroyp p None = Ok p.
Proof. unfold destroyp. rewrite destroy_none, bind_ret. by destruct p. Qed.

Lemma send_peer cs st r fs s w h l nm vs Fm :
  good st -> idle fs s w -> rep true (nodes st) None (Some l) (msgtree nm vs) Fm -> Forall plain vs ->
  zlen h + zlen (msgtext nm vs) + 2 <= 32768 ->
  exists fs', send (PW (W cs st r) fs) h (Some l) = Ok (true, PW (W cs st r) fs') /\ idle fs' s (w ++ frame (h ++ msgtext nm vs)).
Proof.
  intros Hg Hi Hr Hv Hlen. destruct (send_ok st fs s w h (Some l) (msgtext nm vs) Hi Hg) as (fs' & E' & Hi'); [by eapply bstr_msg|done|].
  exists fs'. split; [|done]. unfold send. cbn [pr_state c_st pr_source]. by rewrite E', bind_ret.
Qed.

Lemma destroy_peer cs r fs st1 st2 l nm vs Fm G :
  rep true (nodes st1) None (Some l) (msgtree nm vs) Fm -> keeps_but G st1 st2 -> Fm ## G -> good st2 -> (length vs < 100)%nat ->
  exists st3, destroyp (PW (W cs st2 r) fs) (Some l) = Ok (PW (W cs st3 r) fs) /\ good st3 /\ keeps_but Fm st2 st3.
Proof.
  intros Hr Hk Hd Hg Hl. destruct (destroy_temp cs r st1 st2 l nm vs Fm G Hr Hk Hd Hg Hl) as (st3 & E' & H). exists st3. split; [|done].
  unfold destroyp. cbn [pr_state]. by rewrite E'.
Qed.

Lemma recv_peer_two cs st r fs hn hv bn bvs more w :
  is_word hn -> is_word bn -> Forall plain hv -> Forall plain bvs ->
  zlen (msgtext hn hv) + zlen (msgtext bn bvs) <= 32766 -> idle fs (frame (msgtext hn hv ++ msgtext bn bvs) ++ more) w -> good st ->
  exists fs' st' lh lb Fh Fb,
    recv (PW (W cs st r) fs) = Ok (Received (Some lb) (Some (msgtext hn hv)) (Some lh), PW (W cs st' r) fs') /\
    idle fs' more w /\ good st' /\ rep true (nodes st') None (Some lh) (msgtree hn hv) Fh /\
    rep true (nodes st') None (Some lb) (msgtree bn bvs) Fb /\ Fh ## Fb.
Proof.
  intros Hh Hb Hhv Hbv Hlen Hi Hg. destruct (recv_two st fs hn hv bn bvs more w Hh Hb Hhv Hbv)
    as (fs' & st' & lh & lb & Fh & Fb & E' & Hi' & Hg' & _ & Hr1 & Hr2 & Hd & _); [by rewrite zlen_app|done|done|].
  exists fs', st', lh, lb, Fh, Fb. split_and!; try done. unfold recv. cbn [pr_state c_st pr_source]. by rewrite E'.
Qed.

(** a sealed message behind its header; whether the last line has its newline does not matter *)
Definition env_frame (z h c t : bytes) : bytes := frame (h ++ gtext CRYPT_ENV_MSG (flat [FBlob t; FBlob c]) ++ z).
Definition line_end (z : bytes) : Prop := newlines z /\ zlen z <= 1.

Lemma line_end_nl : line_end [Byte.x0a].
Proof. split; [by repeat constructor|done]. Qed.

Lemma line_end_nil : line_end [].
Proof. split; [constructor|done]. Qed.

Lemma recv_peer_env cs st r fs hn hf z c t more w :
  is_word hn -> wf hf -> line_end z ->
  zlen (line hn hf) + zlen (msgtext CRYPT_ENV_MSG [FBlob t; FBlob c]) <= 32766 -> idle fs (env_frame z (line hn hf) c t ++ more) w -> good st ->
  exists fs' st' lh lb Fh Fb,
    recv (PW (W cs st r) fs) = Ok (Received (Some lb) (Some (line hn hf)) (Some lh), PW (W cs st' r) fs') /\
    idle fs' more w /\ good st' /\ rep true (nodes st') None (Some lh) (grp hn hf) Fh /\
    rep true (nodes st') None (Some lb) (msgtree CRYPT_ENV_MSG [FBlob t; FBlob c]) Fb /\ Fh ## Fb /\ keeps_but ∅ st st' /\
    (Fh ∪ Fb) ## dom (nodes st).
Proof.
  intros Hh Hhv [Hz1 Hz2] Hlen Hi Hg. unfold env_frame in Hi. rewrite <- app_assoc in Hi.
  destruct (recv_grps st fs hn hf [Byte.x0a] CRYPT_ENV_MSG (flat [FBlob t; FBlob c]) z more w)
    as (fs' & st' & lh & lb & Fh & Fb & E' & Hi' & Hg' & K' & Hr1 & Hr2 & Hd & Hd'); [done|decided|done|by apply flat_wf, env_plain|by repeat constructor|done| |done|done|].
  { rewrite msgtext_line_len in Hlen. rewrite app_assoc, !zlen_app in *. change (zlen [_]) with 1 in *. lia. }
  exists fs', st', lh, lb, Fh, Fb. split_and!; try done. unfold recv. cbn [pr_state c_st pr_source]. by rewrite E'.
Qed.

Lemma recv_peer_msg cs st r fs hn hv z c t more w :
  is_word hn -> Forall plain hv -> line_end z ->
  zlen (msgtext hn hv) + zlen (msgtext CRYPT_ENV_MSG [FBlob t; FBlob c]) <= 32766 -> idle fs (env_frame z (msgtext hn hv) c t ++ more) w -> good st ->
  exists fs' st' lh lb Fh Fb,
    recv (PW (W cs st r) fs) = Ok (Received (Some lb) (Some (msgtext hn hv)) (Some lh), PW (W cs st' r) fs') /\
    idle fs' more w /\ good st' /\ rep true (nodes st') None (Some lh) (msgtree hn hv) Fh /\
    rep true (nodes st') None (Some lb) (msgtree CRYPT_ENV_MSG [FBlob t; FBlob c]) Fb /\ Fh ## Fb.
Proof.
  intros Hh Hhv Hz Hlen Hi Hg. destruct (recv_peer_env cs st r fs hn (flat hv) z c t more w) as (fs' & st' & lh & lb & Fh & Fb & H); [done|by apply flat_wf|done..|].
  exists fs', st', lh, lb, Fh, Fb. destruct H as (H1 & H2 & H3 & H4 & H5 & H6 & _). by split_and!.
Qed.

(** ** The sides of the handshake *)

(** a state as [CryptState_create] leaves it *)
Record ready (cs : CryptState E S) (a : E) (ea nm se : bytes) (k : S) : Prop := Ready {
  rd_key : p_key (me cs) = KLive a;
  rd_export : ecc_export PK_PUBLIC a = Some ea;
  rd_name : p_name (me cs) = SLive nm;
  rd_plain : plain (FStr nm);
  rd_short : zlen nm <= 1000;
  rd_session : p_session (me cs) = SLive se;
  rd_len : length se = 32%nat;
  rd_skey : rijndael_setup se = Some k
}.

Lemma create_ready st r nm prv a ea se r' k :
  good st -> ecc_import prv = Some a -> ecc_export PK_PUBLIC a = Some ea -> plain (FStr nm) -> zlen nm <= 1000 ->
  fortuna_read r KEY_LENGTH = (se, r') -> rijndael_setup se = Some k ->
  exists cs, CryptState_create st r (Some nm) (Some prv) = Ok (W cs st r') /\ ready cs a ea nm se k.
Proof.
  intros Hg Hi He Hp Hs Hf Hk. pose proof (fortuna_law r KEY_LENGTH) as Hl. rewrite Hf in Hl. cbn [fst] in Hl.
  unfold CryptState_create. cbn [need]. rewrite bind_ret. unfold CryptState_import_key, CryptState_bstr_ecc_key. cbn [need].
  rewrite bind_ret, Hi, checkw_good by done. rewrite bool_decide_eq_true_2 by eauto. rewrite !bind_ret. cbv beta iota. cbn [on_side].
  rewrite checkw_good by done. cbn [negb]. unfold CryptState_rand_sess, CryptState_rand. cbn [c_rng on_me put_cs].
  rewrite Hf, bool_decide_eq_true_2 by done. cbn [need]. rewrite bind_ret. eexists. split; [done|]. by split.
Qed.

Definition msg_r1 ea n0 : bytes := frame (msgtext CRYPT_HEADER [FBlob ea; FNum (n_left n0); FNum (n_right n0)]).
Definition msg_env h c t : bytes := env_frame [Byte.x0a] h c t.

(** the two states at the end *)
Definition receiver_end (cs : CryptState E S) b' n1 n2 nmI kR kI : CryptState E S :=
  St (P (p_name (me cs)) (CryptState_nonce_inc n2) (p_key (me cs)) SNull kR)
     (P (SLive nmI) (CryptState_nonce_inc n1) (KLive b') SNull kI) skey_zero.

(** the receiver's answer is on its way *)
Lemma receiver_rest_sends me0 them0 K st r r2 fs s w n1 n2 nmR seR c2 t2 :
  good st -> fresh_nonce r = (n2, r2) ->
  p_name me0 = SLive nmR -> p_session me0 = SLive seR -> plain (FStr nmR) -> zlen nmR <= 1000 -> length seR = 32%nat ->
  p_nonce them0 = n1 -> nonce_ok n1 ->
  sealed K n1 empty_header CRYPT_RECV_MSG (recv_payload n2 n1 seR nmR) c2 t2 -> idle fs s w ->
  exists st' fs', receiver_rest (PW (W (St me0 them0 K) st r) fs)
      = receiver_last (PW (W (St (set_nonce n2 me0) (inc_nonce them0) K) st' r2) fs') true /\
    idle fs' s (w ++ msg_env empty_header c2 t2) /\ good st'.
Proof.
  intros Hg Hf Hnm Hse Hpl Hsh Hls Hn1 Hno1 Hs2 Hi. pose proof (fresh_ok _ _ _ Hf) as Hno2. unfold receiver_rest. cbn [pr_state].
  destruct (receiver_send_final_ok me0 them0 K st r n2 r2 nmR seR n1 c2 t2) as (l & s1 & F1 & -> & [Hr1 Hg1 _ _]); [done..|].
  rewrite bind_ret. cbv beta iota. rewrite checkp_good by done. rewrite bool_decide_eq_true_2 by done. cbn [negb].
  set (cs1 := St (set_nonce n2 me0) (inc_nonce them0) K). change (put_state (W cs1 s1 r2) (PW (W (St me0 them0 K) st r) fs)) with (PW (W cs1 s1 r2) fs).
  apply sealed_opens in Hs2 as (Hc2 & Ht2 & _).
  assert (Hp2 : zlen c2 <= 8000).
  { rewrite Hc2. apply payload_len; [decided|done|unfold recv_payload; solve_plain; apply Hpl| |done].
    unfold recv_payload; solve_short; unfold zlen; rewrite Hls; lia. }
  pose proof (env_len c2 t2 Hp2 Ht2) as Hl2.
  destruct (send_peer cs1 s1 r2 fs s w empty_header l CRYPT_ENV_MSG [FBlob t2; FBlob c2] F1 Hg1 Hi Hr1) as (fs1 & -> & Hi1); [solve_plain|change (zlen empty_header) with 10; lia|].
  rewrite bind_ret. cbv beta iota. rewrite checkp_good by done. cbn [negb].
  destruct (destroy_peer cs1 r2 fs1 s1 s1 l CRYPT_ENV_MSG [FBlob t2; FBlob c2] F1 ∅ Hr1) as (s2 & -> & Hg2 & _); [keeps_chain|set_solver|done|cbn; lia|].
  rewrite bind_ret. exists s2, fs1. by split_and!.
Qed.

Lemma receiver_last_ok me0 them0 K st r rc fs more w n2 seR kR seI kI c3 t3 z :
  line_end z -> good st -> p_session me0 = SLive seR -> p_nonce me0 = n2 -> nonce_ok n2 -> p_session them0 = SLive seI ->
  rijndael_setup seR = Some kR -> rijndael_setup seI = Some kI ->
  sealed K n2 empty_header CRYPT_INIT_MSG (final_payload n2) c3 t3 -> idle fs (env_frame z empty_header c3 t3 ++ more) w ->
  exists st' fs', receiver_last (PW (W (St me0 them0 K) st r) fs) rc = Ok (true, PW (W (finalized kR kI (St (inc_nonce me0) them0 K)) st' r) fs') /\
    idle fs' more w /\ good st'.
Proof.
  intros Hz Hg Hse Hn2 Hno2 Hst HkR HkI Hs3 Hi. unfold receiver_last. apply sealed_opens in Hs3 as Ho3. destruct Ho3 as (Hc3 & Ht3 & _).
  assert (Hp3 : zlen c3 <= 8000) by (rewrite Hc3; apply payload_len; [decided|done|unfold final_payload; solve_plain|unfold final_payload; solve_short|done]).
  pose proof (env_len c3 t3 Hp3 Ht3) as Hl3.
  destruct (recv_peer_msg (St me0 them0 K) st r fs CRYPT_HEADER [] z c3 t3 more w)
    as (fs2 & s3 & lh & lb & Fh & Fb & -> & Hi2 & Hg3 & Hrh & Hrb & Hd); [decided|solve_plain|done|rewrite <- empty_header_text; change (zlen empty_header) with 10; lia|done|done|].
  rewrite bind_ret. cbv beta iota. cbn [r_msg r_hbuf r_header]. rewrite checkp_good by done. rewrite bool_decide_eq_true_2 by done. cbn [negb need].
  rewrite bind_ret, <- empty_header_text. cbn [pr_state].
  destruct (receiver_done_ok me0 them0 K s3 r lb Fb n2 c3 t3 seR seI kR kI) as (s4 & -> & Hr4 & Hg4 & K4); [done..|lia|].
  rewrite bind_ret. cbv beta iota. rewrite checkp_good by done. unfold finish. cbn [let_go].
  set (cs2 := finalized kR kI (St (inc_nonce me0) them0 K)).
  change (put_state (W cs2 s4 r) (PW (W (St me0 them0 K) s3 r) fs2)) with (PW (W cs2 s4 r) fs2). rewrite destroyp_none, bind_ret.
  destruct (destroy_peer cs2 r fs2 s4 s4 lb CRYPT_ENV_MSG _ Fb ∅ Hr4) as (s5 & -> & Hg5 & K5); [keeps_chain|set_solver|done|cbn; lia|].
  rewrite bind_ret. destruct (destroy_peer cs2 r fs2 s3 s5 lh CRYPT_HEADER [] Fh Fb Hrh) as (s6 & -> & Hg6 & _); [keeps_chain|done|done|cbn; lia|].
  rewrite !bind_ret. exists s6, fs2. by split_and!.
Qed.

(** the initiator's identity, as the receiver gets it *)
Lemma init_payload_ok n se nm : nonce_ok n -> plain (FStr nm) -> zlen nm <= 1000 -> length se = 32%nat ->
  zlen (msgtext CRYPT_INIT_MSG (init_payload n se nm)) <= 8000.
Proof.
  intros Hn Hp Hs Hl. apply payload_len; [decided|done|unfold init_payload; solve_plain; apply Hp| |done].
  unfold init_payload; solve_short; unfold zlen; rewrite Hl; lia.
Qed.

(** the handshake of the receiver up to its last message *)
Lemma receiver_prefix_ok key_confirm cs a ea nmR seR kR eb b' K nmI seI r r1 n0 n1 c1 t1 st fs more w z :
  let hI := msgtext CRYPT_HEADER [FBlob eb] in
  line_end z -> ready cs a ea nmR seR kR -> pairing a eb b' K -> zlen eb <= 256 ->
  key_confirm (St (set_nonce n0 (me cs)) (P (p_name (them cs)) (p_nonce (them cs)) (KLive b') (p_session (them cs)) (p_skey (them cs))) (shared cs)) = true ->
  fresh_nonce r = (n0, r1) -> nonce_ok n1 -> plain (FStr nmI) -> zlen nmI <= 1000 -> length seI = 32%nat ->
  sealed K n0 hI CRYPT_INIT_MSG (init_payload n1 seI nmI) c1 t1 ->
  good st -> idle fs (env_frame z hI c1 t1 ++ more) w ->
  exists st' fs', Peer_establish_receiver key_confirm (PW (W cs st r) fs)
      = receiver_rest (PW (W (St (set_nonce (CryptState_nonce_inc n0) (me cs)) (P (SLive nmI) n1 (KLive b') (SLive seI) (p_skey (them cs))) K) st' r1) fs') /\
    idle fs' more (w ++ msg_r1 ea n0) /\ good st'.
Proof.
  intros hI Hz [Ha He Hnm Hpl Hsh Hse Hls HkR] HpairK Hleb Hc Hf0 Hno1 HplI HshI HlsI Hs1 Hg Hi.
  pose proof (fresh_ok _ _ _ Hf0) as Hno0. unfold Peer_establish_receiver. cbn [pr_state].
  destruct (receiver_start_ok cs st r n0 r1 a ea) as (l & s1 & F1 & -> & [Hr1 Hg1 _ _]); [done..|]. rewrite bind_ret. cbv beta iota.
  set (cs1 := St (set_nonce n0 (me cs)) (them cs) (shared cs)). change (put_state (W cs1 s1 r1) (PW (W cs st r) fs)) with (PW (W cs1 s1 r1) fs).
  pose proof (start_len ea n0 Hno0 (proj1 (export_law _ _ He))) as Hl0. pose proof (header_len eb Hleb) as HlI.
  destruct (send_peer cs1 s1 r1 fs _ w [] l CRYPT_HEADER _ F1 Hg1 Hi Hr1) as (fs1 & -> & Hi1); [solve_plain|change (zlen []) with 0; lia|].
  rewrite bind_ret. cbv beta iota. rewrite checkp_good by done. cbn [negb].
  destruct (destroy_peer cs1 r1 fs1 s1 s1 l CRYPT_HEADER _ F1 ∅ Hr1) as (s2 & -> & Hg2 & _); [keeps_chain|set_solver|done|cbn; lia|].
  rewrite bind_ret. apply sealed_opens in Hs1 as Ho1. destruct Ho1 as (Hc1 & Ht1 & _).
  pose proof (init_payload_ok n1 seI nmI Hno1 HplI HshI HlsI) as Hp1. pose proof (env_len c1 t1 ltac:(lia) Ht1) as Hl1.
  destruct (recv_peer_msg cs1 s2 r1 fs1 CRYPT_HEADER [FBlob eb] z c1 t1 _ _ ltac:(decided) ltac:(solve_plain) Hz ltac:(lia) Hi1 Hg2) as (fs2 & s3 & lh & lb & Fh & Fb & -> & Hi2 & Hg3 & Hrh & Hrb & Hd).
  rewrite bind_ret. cbv beta iota. cbn [r_msg r_hbuf r_header]. rewrite checkp_good by done. rewrite bool_decide_eq_true_2 by done. cbn [negb need].
  rewrite bind_ret. cbn [pr_state].
  destruct (receiver_process_response_ok key_confirm (set_nonce n0 (me cs)) (them cs) (shared cs) s3 r1 lb Fb n0 n1 a eb b' K nmI seI c1 t1)
    as (s4 & E4 & Hr4 & Hg4 & K4); [done..|lia|].
  fold cs1 in E4. rewrite E4, bind_ret. cbv beta iota. rewrite checkp_good by done. cbn [negb].
  set (me1 := set_nonce (CryptState_nonce_inc n0) (set_nonce n0 (me cs))). set (them1 := P (SLive nmI) n1 (KLive b') (SLive seI) (p_skey (them cs))).
  change (put_state (W (St me1 them1 K) s4 r1) (PW (W cs1 s3 r1) fs2)) with (PW (W (St me1 them1 K) s4 r1) fs2).
  destruct (destroy_peer (St me1 them1 K) r1 fs2 s4 s4 lb CRYPT_ENV_MSG _ Fb ∅ Hr4) as (s5 & -> & Hg5 & K5); [keeps_chain|set_solver|done|cbn; lia|].
  rewrite bind_ret. destruct (destroy_peer (St me1 them1 K) r1 fs2 s3 s5 lh CRYPT_HEADER _ Fh Fb Hrh) as (s6 & -> & Hg6 & _); [keeps_chain|done|done|cbn; lia|].
  rewrite bind_ret.
  exists s6, fs2. by split_and!.
Qed.

Lemma establish_receiver_ok key_confirm cs a ea nmR seR kR eb b' K nmI seI kI r r1 r2 n0 n1 n2 c1 t1 c2 t2 c3 t3 st fs more w z :
  let hI := msgtext CRYPT_HEADER [FBlob eb] in
  line_end z -> ready cs a ea nmR seR kR -> pairing a eb b' K -> zlen eb <= 256 ->
  key_confirm (St (set_nonce n0 (me cs)) (P (p_name (them cs)) (p_nonce (them cs)) (KLive b') (p_session (them cs)) (p_skey (them cs))) (shared cs)) = true ->
  fresh_nonce r = (n0, r1) -> fresh_nonce r1 = (n2, r2) -> nonce_ok n1 ->
  plain (FStr nmI) -> zlen nmI <= 1000 -> length seI = 32%nat -> rijndael_setup seI = Some kI ->
  sealed K n0 hI CRYPT_INIT_MSG (init_payload n1 seI nmI) c1 t1 ->
  sealed K n1 empty_header CRYPT_RECV_MSG (recv_payload n2 n1 seR nmR) c2 t2 ->
  sealed K n2 empty_header CRYPT_INIT_MSG (final_payload n2) c3 t3 ->
  good st -> idle fs (env_frame z hI c1 t1 ++ env_frame z empty_header c3 t3 ++ more) w ->
  exists st' fs', Peer_establish_receiver key_confirm (PW (W cs st r) fs)
      = Ok (true, PW (W (receiver_end cs b' n1 n2 nmI kR kI) st' r2) fs') /\
    idle fs' more (w ++ msg_r1 ea n0 ++ msg_env empty_header c2 t2) /\ good st'.
Proof.
  intros hI Hz Hrd Hp Hleb Hc Hf0 Hf2 Hno1 HplI HshI HlsI HkI Hs1 Hs2 Hs3 Hg Hi. pose proof Hrd as [Ha He Hnm Hpl Hsh Hse Hls HkR].
  destruct (receiver_prefix_ok key_confirm cs a ea nmR seR kR eb b' K nmI seI r r1 n0 n1 c1 t1 st fs (env_frame z empty_header c3 t3 ++ more) w z)
    as (s6 & fs2 & -> & Hi2 & Hg6); [done..|].
  set (me1 := set_nonce (CryptState_nonce_inc n0) (me cs)). set (them1 := P (SLive nmI) n1 (KLive b') (SLive seI) (p_skey (them cs))).
  destruct (receiver_rest_sends me1 them1 K s6 r1 r2 fs2 (env_frame z empty_header c3 t3 ++ more) (w ++ msg_r1 ea n0) n1 n2 nmR seR c2 t2)
    as (s7 & fs3 & -> & Hi7 & Hg7); [done..|]. pose proof (fresh_ok _ _ _ Hf2).
  destruct (receiver_last_ok (set_nonce n2 me1) (inc_nonce them1) K s7 r2 true fs3 more ((w ++ msg_r1 ea n0) ++ msg_env empty_header c2 t2) n2 seR kR seI kI c3 t3 z)
    as (s8 & fs4 & E8 & Hi8 & Hg8); [done..|].
  exists s8, fs4. split_and!; [exact E8| |done]. rewrite app_assoc. exact Hi8.
Qed.

Definition initiator_end (cs : CryptState E S) a' n1 n2 nmR kI kR : CryptState E S :=
  St (P (p_name (me cs)) (CryptState_nonce_inc n1) (p_key (me cs)) SNull kI)
     (P (SLive nmR) (CryptState_nonce_inc n2) (KLive a') SNull kR) skey_zero.

Lemma initiator_rest_ok me0 them0 K st r fs more w n1 n2 nmR seR kR seI kI c2 t2 c3 t3 :
  good st -> p_nonce me0 = n1 -> nonce_ok n1 -> nonce_ok n2 -> plain (FStr nmR) -> zlen nmR <= 1000 -> length seR = 32%nat ->
  p_session me0 = SLive seI -> rijndael_setup seI = Some kI -> rijndael_setup seR = Some kR ->
  sealed K n1 empty_header CRYPT_RECV_MSG (recv_payload n2 n1 seR nmR) c2 t2 ->
  sealed K n2 empty_header CRYPT_INIT_MSG (final_payload n2) c3 t3 ->
  idle fs (msg_env empty_header c2 t2 ++ more) w ->
  exists st' fs', initiator_rest (PW (W (St me0 them0 K) st r) fs) true
      = Ok (true, PW (W (finalized kI kR (St (inc_nonce me0) (P (SLive nmR) (CryptState_nonce_inc n2) (p_key them0) (SLive seR) (p_skey them0)) K)) st' r) fs') /\
    idle fs' more (w ++ msg_env empty_header c3 t3) /\ good st'.
Proof.
  intros Hg Hn1 Hno1 Hno2 Hpl Hsh Hls Hse HkI HkR Hs2 Hs3 Hi. unfold initiator_rest.
  apply sealed_opens in Hs2 as Ho2. destruct Ho2 as (Hc2 & Ht2 & _). apply sealed_opens in Hs3 as Ho3. destruct Ho3 as (Hc3 & Ht3 & _).
  assert (Hp2 : zlen (msgtext CRYPT_RECV_MSG (recv_payload n2 n1 seR nmR)) <= 8000).
  { apply payload_len; [decided|done|unfold recv_payload; solve_plain; apply Hpl| |done].
    unfold recv_payload; solve_short; unfold zlen; rewrite Hls; lia. }
  assert (Hp3 : zlen c3 <= 8000) by (rewrite Hc3; apply payload_len; [decided|done|unfold final_payload; solve_plain|unfold final_payload; solve_short|done]).
  pose proof (env_len c2 t2 ltac:(lia) Ht2) as Hl2. pose proof (env_len c3 t3 Hp3 Ht3) as Hl3.
  destruct (recv_peer_msg (St me0 them0 K) st r fs CRYPT_HEADER [] [Byte.x0a] c2 t2 more w)
    as (fs2 & s3 & lh & lb & Fh & Fb & -> & Hi2 & Hg3 & Hrh & Hrb & Hd); [decided|solve_plain|apply line_end_nl|rewrite <- empty_header_text; change (zlen empty_header) with 10; lia|done|done|].
  rewrite bind_ret. cbv beta iota. cbn [r_msg r_hbuf r_header]. rewrite checkp_good by done. rewrite bool_decide_eq_true_2 by done. cbn [negb need].
  rewrite bind_ret, <- empty_header_text. cbn [pr_state].
  destruct (initiator_process_response_ok me0 them0 K s3 r lb Fb n1 n2 nmR seR c2 t2) as (s4 & -> & Hr4 & Hg4 & K4); [done..|lia|].
  rewrite bind_ret. cbv beta iota. rewrite checkp_good by done. cbn [negb].
  set (me1 := inc_nonce me0). set (them1 := P (SLive nmR) n2 (p_key them0) (SLive seR) (p_skey them0)).
  change (put_state (W (St me1 them1 K) s4 r) (PW (W (St me0 them0 K) s3 r) fs2)) with (PW (W (St me1 them1 K) s4 r) fs2).
  destruct (destroy_peer (St me1 them1 K) r fs2 s4 s4 lb CRYPT_ENV_MSG _ Fb ∅ Hr4) as (s5 & -> & Hg5 & K5); [keeps_chain|set_solver|done|cbn; lia|].
  rewrite bind_ret. cbn [pr_state].
  destruct (initiator_send_final_ok me1 them1 K s5 r n2 seI seR kI kR c3 t3) as (l & s6 & F6 & -> & [Hr6 Hg6 K6 D6]); [done..|].
  rewrite bind_ret. cbv beta iota. rewrite checkp_good by done. rewrite bool_decide_eq_true_2 by done. cbn [negb].
  set (cs2 := finalized kI kR (St me1 (inc_nonce them1) K)).
  change (put_state (W cs2 s6 r) (PW (W (St me1 them1 K) s5 r) fs2)) with (PW (W cs2 s6 r) fs2).
  destruct (send_peer cs2 s6 r fs2 _ w empty_header l CRYPT_ENV_MSG [FBlob t3; FBlob c3] F6 Hg6 Hi2 Hr6) as (fs3 & -> & Hi3);
    [solve_plain|change (zlen empty_header) with 10; lia|].
  rewrite bind_ret. cbv beta iota. rewrite checkp_good by done. unfold finish. cbn [let_go]. rewrite destroyp_none, bind_ret.
  assert (Hd6 : F6 ## Fh).
  { assert (Fh ⊆ dom (nodes s5)); [|set_solver]. apply (rep_sub true s5 None (Some lh) (msgtree CRYPT_HEADER [])).
    eapply (rep_keeps _ Fb s4); [|done|done]. by eapply (rep_keeps _ Fb s3). }
  destruct (destroy_peer cs2 r fs3 s3 s6 lh CRYPT_HEADER [] Fh Fb Hrh) as (s7 & -> & Hg7 & K7); [keeps_chain|done|done|cbn; lia|].
  rewrite bind_ret. destruct (destroy_peer cs2 r fs3 s6 s7 l CRYPT_ENV_MSG _ F6 Fh Hr6) as (s8 & -> & Hg8 & _); [keeps_chain|done|done|cbn; lia|].
  rewrite !bind_ret. exists s8, fs3. by split_and!.
Qed.

Lemma establish_initiator_ok key_confirm cs b eb nmI seI kI ea a' K nmR seR kR r r1 n0 n1 n2 c1 t1 c2 t2 c3 t3 st fs more w :
  let hI := msgtext CRYPT_HEADER [FBlob eb] in
  ready cs b eb nmI seI kI -> pairing b ea a' K -> zlen ea <= 256 ->
  key_confirm (St (me cs) (P (p_name (them cs)) n0 (KLive a') (p_session (them cs)) (p_skey (them cs))) (shared cs)) = true ->
  fresh_nonce r = (n1, r1) -> nonce_ok n0 -> nonce_ok n2 ->
  plain (FStr nmR) -> zlen nmR <= 1000 -> length seR = 32%nat -> rijndael_setup seR = Some kR ->
  sealed K n0 hI CRYPT_INIT_MSG (init_payload n1 seI nmI) c1 t1 ->
  sealed K n1 empty_header CRYPT_RECV_MSG (recv_payload n2 n1 seR nmR) c2 t2 ->
  sealed K n2 empty_header CRYPT_INIT_MSG (final_payload n2) c3 t3 ->
  good st -> idle fs (msg_r1 ea n0 ++ msg_env empty_header c2 t2 ++ more) w ->
  exists st' fs', Peer_establish_initiator key_confirm (PW (W cs st r) fs)
      = Ok (true, PW (W (initiator_end cs a' n1 n2 nmR kI kR) st' r1) fs') /\
    idle fs' more (w ++ msg_env hI c1 t1 ++ msg_env empty_header c3 t3) /\ good st'.
Proof.
  intros hI [Hb He Hnm Hpl Hsh Hse Hls HkI] HpairK Hlea Hc Hf Hno0 Hno2 HplR HshR HlsR HkR Hs1 Hs2 Hs3 Hg Hi.
  pose proof (fresh_ok _ _ _ Hf) as Hno1. unfold Peer_establish_initiator. pose proof (start_len ea n0 Hno0 Hlea) as Hl0.
  destruct (recv_one st fs CRYPT_HEADER [FBlob ea; FNum (n_left n0); FNum (n_right n0)] (msg_env empty_header c2 t2 ++ more) w)
    as (fs1 & s1 & lh & Fh & E1 & Hi1 & Hg1 & _ & Hrh & _); [decided|solve_plain|lia|done|done|].
  unfold recv at 1. cbn [pr_state c_st pr_source]. rewrite E1. rewrite !bind_ret. cbv beta iota. cbn [r_msg r_hbuf r_header].
  rewrite checkp_good by done. rewrite !bool_decide_eq_true_2 by done. cbn [negb andb pr_state].
  change (put_st s1 (W cs st r)) with (W cs s1 r).
  destruct (initiator_start_ok key_confirm (me cs) (them cs) (shared cs) s1 r n1 r1 lh Fh n0 b eb ea a' K nmI seI c1 t1) as (l & s2 & F2 & E2 & [Hr2 Hg2 K2 D2]);
    [done..|].
  replace (St (me cs) (them cs) (shared cs)) with cs in E2 by (by destruct cs). rewrite E2, bind_ret. cbv beta iota.
  rewrite checkp_good by done. rewrite bool_decide_eq_true_2 by done. cbn [negb].
  set (me1 := set_nonce n1 (me cs)). set (them1 := P (p_name (them cs)) (CryptState_nonce_inc n0) (KLive a') (p_session (them cs)) (p_skey (them cs))).
  change (put_state (W (St me1 them1 K) s2 r1) (PW (W cs s1 r) fs1)) with (PW (W (St me1 them1 K) s2 r1) fs1).
  destruct (destroy_peer (St me1 them1 K) r1 fs1 s1 s2 lh CRYPT_HEADER _ Fh ∅ Hrh) as (s3 & -> & Hg3 & K3); [keeps_chain|set_solver|done|cbn; lia|].
  rewrite bind_ret. cbn [need]. rewrite bind_ret. pose proof (rep_sub _ _ _ _ _ _ Hrh) as HFh.
  assert (Hr3 : rep true (nodes s3) None (Some l) (msgtree CRYPT_ENV_MSG [FBlob t1; FBlob c1]) F2) by (eapply (rep_keeps _ Fh s2); [done|done|set_solver]).
  apply sealed_opens in Hs1 as Ho1. destruct Ho1 as (Hc1 & Ht1 & _). pose proof (init_payload_ok n1 seI nmI Hno1 Hpl Hsh Hls) as Hp1.
  pose proof (env_len c1 t1 ltac:(lia) Ht1) as Hl1. pose proof (header_len eb (proj1 (export_law _ _ He))) as HlI.
  fold hI. destruct (send_peer (St me1 them1 K) s3 r1 fs1 _ w hI l CRYPT_ENV_MSG _ F2 Hg3 Hi1 Hr3) as (fs2 & -> & Hi2); [solve_plain|subst hI; lia|].
  rewrite bind_ret. cbv beta iota. rewrite checkp_good by done. cbn [negb].
  destruct (destroy_peer (St me1 them1 K) r1 fs2 s3 s3 l CRYPT_ENV_MSG _ F2 ∅ Hr3) as (s4 & -> & Hg4 & _); [keeps_chain|set_solver|done|cbn; lia|].
  rewrite bind_ret.
  destruct (initiator_rest_ok me1 them1 K s4 r1 fs2 more (w ++ msg_env hI c1 t1) n1 n2 nmR seR kR seI kI c2 t2 c3 t3) as (s5 & fs3 & E5 & Hi5 & Hg5); [done..|].
  exists s5, fs3. split_and!; [exact E5| |done]. rewrite app_assoc. exact Hi5.
Qed.

(** ** The session *)

(** what one side sends with, the other receives with *)
Record in_sync (x y : CryptState E S) : Prop := InSync {
  sy_send : p_skey (them x) = p_skey (me y);
  sy_send_nonce : p_nonce (them x) = p_nonce (me y);
  sy_recv : p_skey (me x) = p_skey (them y);
  sy_recv_nonce : p_nonce (me x) = p_nonce (them y)
}.

Lemma in_sync_sym x y : in_sync x y -> in_sync y x.
Proof. by intros []. Qed.

Lemma peer_send_ok cs st r fs s w lh lb hn hf bn bf Fh Fb c t :
  good st -> idle fs s w -> rep true (nodes st) None (Some lh) (grp hn hf) Fh -> rep true (nodes st) None (Some lb) (grp bn bf) Fb ->
  wf hf -> wf bf -> zlen (line hn hf) + zlen (line bn bf) <= 32000 ->
  sealed_text (p_skey (them cs)) (p_nonce (them cs)) (line hn hf) (line bn bf) c t ->
  exists st' fs', Peer_send (PW (W cs st r) fs) (Some lh) (Some lb) = Ok (true, PW (W (St (me cs) (inc_nonce (them cs)) (shared cs)) st' r) fs') /\
    idle fs' s (w ++ msg_env (line hn hf) c t) /\ good st' /\ keeps_but ∅ st st'.
Proof.
  intros Hg Hi Hrh Hrb Hhv Hbv Hlen Hs. apply sealed_text_opens in Hs as Ho. destruct Ho as (Hc & Ht & _).
  pose proof (zlen_nonneg (line hn hf)). pose proof (env_text_len c t). unfold Peer_send. rewrite !assert_true, !bind_ret by done. cbn [pr_state c_st].
  rewrite (bstr_grp _ _ _ _ _ Hrh Hhv), bind_ret, checkp_good by done. cbn [negb pr_state c_cs].
  destruct (encrypt_grp_ok (W cs st r) (p_skey (them cs)) (line hn hf) lb bn bf Fb c t) as (l & s1 & F1 & -> & Hr1 & Hg1 & Hx1); [done..|].
  rewrite bind_ret. cbv beta iota. rewrite checkp_good by done. rewrite bool_decide_eq_true_2 by done. cbn [negb].
  set (cs1 := St (me cs) (inc_nonce (them cs)) (shared cs)).
  change (put_state (put_st s1 (on_them inc_nonce (W cs st r))) (PW (W cs st r) fs)) with (PW (W cs1 s1 r) fs).
  destruct (send_peer cs1 s1 r fs s w (line hn hf) l CRYPT_ENV_MSG _ F1 Hg1 Hi Hr1) as (fs1 & -> & Hi1); [solve_plain|lia|].
  rewrite bind_ret. cbv beta iota.
  destruct (destroy_peer cs1 r fs1 s1 s1 l CRYPT_ENV_MSG _ F1 ∅ Hr1) as (s2 & -> & Hg2 & K2); [keeps_chain|set_solver|done|cbn; lia|].
  rewrite bind_ret, checkp_good by done. exists s2, fs1. split_and!; [done|done|done|].
  pose proof (extends_keeps _ _ _ Hx1) as K1. apply (keeps_new F1); [keeps_chain|apply Hx1].
Qed.

Lemma peer_recv_ok cs st r fs more w hn hf bn bf c t z :
  line_end z -> is_word hn -> is_word bn -> wf hf -> wf bf -> zlen (line hn hf) + zlen (line bn bf) <= 32000 ->
  sealed_text (p_skey (me cs)) (p_nonce (me cs)) (line hn hf) (line bn bf) c t -> good st -> idle fs (env_frame z (line hn hf) c t ++ more) w ->
  exists lh lb Fh Fb st' fs', Peer_recv (PW (W cs st r) fs) = Ok (Some lb, Some lh, PW (W (St (inc_nonce (me cs)) (them cs) (shared cs)) st' r) fs') /\
    rep true (nodes st') None (Some lh) (grp hn hf) Fh /\ rep true (nodes st') None (Some lb) (grp bn bf) Fb /\ Fh ## Fb /\
    idle fs' more w /\ good st'.
Proof.
  intros Hz Hh Hb Hhv Hbv Hlen Hs Hg Hi. apply sealed_text_opens in Hs as Ho. destruct Ho as (Hc & Ht & Hd).
  pose proof (zlen_nonneg (line hn hf)). pose proof (env_text_len c t). unfold Peer_recv.
  destruct (recv_peer_env cs st r fs hn hf z c t more w) as (fs1 & s1 & lh & l & Fh & F1 & -> & Hi1 & Hg1 & Hrh & Hr1 & Hdis & _);
    [done|done|done|lia|done|done|].
  rewrite bind_ret. cbv beta iota. cbn [r_msg r_hbuf r_header need]. rewrite bind_ret. cbn [pr_state c_cs].
  destruct (decrypt_grp_ok (W cs s1 r) (p_skey (me cs)) (line hn hf) l c t F1 bn bf) as (lb & s2 & F2 & -> & Hr2 & Hr2' & Hg2 & K2 & D2);
    [done..|rewrite (zlen_app (gtext bn bf)) in Hlen; change (zlen [_]) with 1 in Hlen; lia|].
  rewrite bind_ret. cbv beta iota. rewrite checkp_good by done.
  set (cs1 := St (inc_nonce (me cs)) (them cs) (shared cs)).
  change (put_state (put_st s2 (on_me inc_nonce (W cs s1 r))) (PW (W cs s1 r) fs1)) with (PW (W cs1 s2 r) fs1).
  destruct (destroy_peer cs1 r fs1 s2 s2 l CRYPT_ENV_MSG _ F1 ∅ Hr2') as (s3 & -> & Hg3 & K3); [keeps_chain|set_solver|done|cbn; lia|].
  rewrite bind_ret. cbn [c_st] in *. pose proof (rep_sub _ _ _ _ _ _ Hrh). pose proof (rep_sub _ _ _ _ _ _ Hr1).
  exists lh, lb, Fh, F2, s3, fs1. split_and!; [done| | |set_solver|done|done].
  - eapply (rep_keeps _ F1 s2); [|done|set_solver]. eapply (rep_keeps _ F1 s1); [done|done|set_solver].
  - eapply (rep_keeps _ F1 s2); [done|done|set_solver].
Qed.
End Peers.

(** ** A small instance of the cryptographic library *)

Definition toy_secret (a b : byte) : bytes := replicate 32 (uchar (bv a + bv b)).

#[local] Instance toy_ltc : Ltc byte bytes Z := {
  ecc_zero := Byte.x00;
  skey_zero := [];
  fortuna_read r n := (replicate n (uchar r), r + 1);
  ecc_make_key r _ := (Some (uchar r), r + 1);
  ecc_export _ k := Some [k];
  ecc_import b := match b with [k] => Some k | _ => None end;
  ecc_shared_secret a b := Some (toy_secret a b);
  rijndael_setup s := Some s;
  ccm_memory _ k n _ p := (rev p, Some (take 8 k ++ take 16 n));
  hash_memory b := Some [uchar (zlen b)];
  ecc_sign_hash r h k := (Some (k :: h), r + 1);
  ecc_verify_hash s h k := Some (bool_decide (s = k :: h))
}.

#[local] Instance toy_laws : LtcLaws byte bytes Z.
Proof.
  split.
  - intros r n. apply length_replicate.
  - intros k b [= <-]. split; [done|]. by eexists.
  - intros a b ea eb a' b' [= <-] [= <-] [= <-] [= <-]. cbn. unfold toy_secret. by rewrite Z.add_comm.
  - intros a b s [= <-]. done.
  - intros s _. by eexists.
  - intros k n h p. eexists _, _. split; [done|]. split; [apply length_rev|]. split; [|cbn; by rewrite rev_involutive].
    unfold zlen. rewrite length_app, !length_take. lia.
Qed.

(** ** The theorems *)

Section Claims.
Context {E S R B F : Type} `{!Ltc E S R} `{!LtcLaws E S R} `{!Sbuf B F} `{!SbufLaws B F}.
Abbreviation W := (@CWorld E S R).
Abbreviation PW := (@mkPeerw E S R B F).

(** C2: the handshake: there are four frames such that the receiver, given those of the initiator
    in any pieces, succeeds and writes its own two, and the initiator, given those of the
    receiver, succeeds and writes its own.  Afterwards each side has the other's name and public
    key, what one sends with (key and nonce) is what the other receives with in both
    directions, and the session strings are gone. *)
Theorem handshake_agrees (kcR kcI : CryptState E S -> bool) csR csI a b ea eb a' b' nmR nmI seR seI kR kI sec rR rI :
  ready csR a ea nmR seR kR -> ready csI b eb nmI seI kI ->
  ecc_import ea = Some a' -> ecc_import eb = Some b' -> ecc_shared_secret a b' = Some sec ->
  (forall cs, p_key (them cs) = KLive b' -> kcR cs = true) -> (forall cs, p_key (them cs) = KLive a' -> kcI cs = true) ->
  exists r1 r2 i1 i2 csR' csI' rR' rI',
    (forall st (fs : FrameSource B F) more w, good st -> idle fs (i1 ++ i2 ++ more) w ->
       exists st' fs', Peer_establish_receiver kcR (PW (W csR st rR) fs) = Ok (true, PW (W csR' st' rR') fs') /\
         idle fs' more (w ++ r1 ++ r2) /\ good st') /\
    (forall st (fs : FrameSource B F) more w, good st -> idle fs (r1 ++ r2 ++ more) w ->
       exists st' fs', Peer_establish_initiator kcI (PW (W csI st rI) fs) = Ok (true, PW (W csI' st' rI') fs') /\
         idle fs' more (w ++ i1 ++ i2) /\ good st') /\
    in_sync csR' csI' /\ p_skey (me csR') = kR /\ p_skey (me csI') = kI /\
    p_name (them csR') = SLive nmI /\ p_name (them csI') = SLive nmR /\
    p_key (them csR') = KLive b' /\ p_key (them csI') = KLive a' /\
    p_session (me csR') = SNull /\ p_session (them csR') = SNull /\ p_session (me csI') = SNull /\ p_session (them csI') = SNull.
Proof.
  intros HR HI Hia Hib Hsec HcR HcI. pose proof HR as [_ HeR _ ? ? _ ? ?]. pose proof HI as [_ HeI _ ? ? _ ? ?].
  destruct (aes_law sec (secret_law _ _ _ Hsec)) as [K HK].
  assert (Hsec' : ecc_shared_secret b a' = Some sec) by (by rewrite <- (dh_law a b ea eb a' b')).
  destruct (fresh_nonce rR) as [n0 r1] eqn:Hf0. destruct (fresh_nonce rI) as [n1 rI'] eqn:Hf1. destruct (fresh_nonce r1) as [n2 r2] eqn:Hf2.
  pose proof (fresh_ok _ _ _ Hf0). pose proof (fresh_ok _ _ _ Hf1). pose proof (fresh_ok _ _ _ Hf2).
  destruct (sealed_exists K n0 (msgtext CRYPT_HEADER [FBlob eb]) CRYPT_INIT_MSG (init_payload n1 seI nmI)) as (c1 & t1 & Hs1).
  destruct (sealed_exists K n1 empty_header CRYPT_RECV_MSG (recv_payload n2 n1 seR nmR)) as (c2 & t2 & Hs2).
  destruct (sealed_exists K n2 empty_header CRYPT_INIT_MSG (final_payload n2)) as (c3 & t3 & Hs3).
  pose proof (export_law _ _ HeR) as [? _]. pose proof (export_law _ _ HeI) as [? _].
  exists (msg_r1 ea n0), (msg_env empty_header c2 t2), (msg_env (msgtext CRYPT_HEADER [FBlob eb]) c1 t1), (msg_env empty_header c3 t3),
    (receiver_end csR b' n1 n2 nmI kR kI), (initiator_end csI a' n1 n2 nmR kI kR), r2, rI'.
  split_and!; try done.
  - intros st fs more w Hg Hi. eapply (establish_receiver_ok kcR csR a ea nmR seR kR eb b' K nmI seI kI rR r1 r2 n0 n1 n2 c1 t1 c2 t2 c3 t3 _ _ _ _ [Byte.x0a]); eauto using line_end_nl; split; eauto.
  - intros st fs more w Hg Hi. eapply (establish_initiator_ok kcI csI b eb nmI seI kI ea a' K nmR seR kR rI rI' n0 n1 n2 c1 t1 c2 t2 c3 t3); eauto; split; eauto.
Qed.

(** C6: a message of the session: with the two sides in step, the header and the message that [Peer_send]
    takes, any two named trees, are those that [Peer_recv] gives on the other side, for any delivery of
    the bytes, and the two sides are in step again, so that this goes on for ever in both directions. *)
Theorem session_message csX csY hn hf bn bf :
  in_sync csX csY -> is_word hn -> is_word bn -> wf hf -> wf bf ->
  zlen (line hn hf) + zlen (line bn bf) <= 32000 ->
  exists i csX' csY',
    (forall st r (fs : FrameSource B F) s w lh lb Fh Fb, good st -> idle fs s w ->
       rep true (nodes st) None (Some lh) (grp hn hf) Fh -> rep true (nodes st) None (Some lb) (grp bn bf) Fb ->
       exists st' fs', Peer_send (PW (W csX st r) fs) (Some lh) (Some lb) = Ok (true, PW (W csX' st' r) fs') /\
         idle fs' s (w ++ i) /\ good st' /\ keeps_but ∅ st st') /\
    (forall st r (fs : FrameSource B F) more w, good st -> idle fs (i ++ more) w ->
       exists lh lb Fh Fb st' fs', Peer_recv (PW (W csY st r) fs) = Ok (Some lb, Some lh, PW (W csY' st' r) fs') /\
         rep true (nodes st') None (Some lh) (grp hn hf) Fh /\ rep true (nodes st') None (Some lb) (grp bn bf) Fb /\ Fh ## Fb /\
         idle fs' more w /\ good st') /\
    in_sync csX' csY'.
Proof.
  intros Hsy Hh Hb Hhv Hbv Hlen.
  destruct (sealed_text_exists (p_skey (them csX)) (p_nonce (them csX)) (line hn hf) (line bn bf)) as (c & t & Hs). pose proof Hsy as [H1 H2 H3 H4].
  exists (msg_env (line hn hf) c t), (mkState (me csX) (inc_nonce (them csX)) (shared csX)), (mkState (inc_nonce (me csY)) (them csY) (shared csY)).
  split_and!.
  - intros. by eapply peer_send_ok.
  - intros. eapply peer_recv_ok; eauto using line_end_nl. by rewrite <- H1, <- H2.
  - split; cbn; congruence.
Qed.
End Claims.

(** ** A run on memory sockets *)

#[local] Existing Instance mem_sbuf.
#[local] Existing Instance mem_laws.

Definition side (nm : bytes) (k s : byte) : CryptState byte bytes :=
  mkState (mkPeer (SLive nm) zero_nonce (KLive k) (SLive (replicate 32 s)) []) zero_peer [].
Definition accept (k : byte) (cs : CryptState byte bytes) : bool :=
  match p_key (them cs) with KLive k' => bool_decide (k' = k) | _ => false end.
Definition mem_source (s : bytes) : FrameSource membuf memsock := mkFrame (MemBuf [] 32768) (MemBuf [] 32768) (MemSock s []).

Lemma side_ready nm k s : plain (FStr nm) -> zlen nm <= 1000 -> ready (side nm k s) k [k] nm (replicate 32 s) (replicate 32 s).
Proof. intros Hp Hs. by split. Qed.

Lemma mem_idle s : idle (mem_source s) s [].
Proof. by split. Qed.

Lemma empty_good : good empty_store.
Proof. split; [done|]. intros l _. apply lookup_empty. Qed.

Lemma accept_ok k cs : p_key (them cs) = KLive k -> accept k cs = true.
Proof. intros H. unfold accept. rewrite H. by apply bool_decide_eq_true_2. Qed.

Lemma handshake_agrees_witness :
  exists r i stR fsR stI fsI csR csI rR rI,
    Peer_establish_receiver (accept Byte.x02) (mkPeerw (CWorld (side (lit "hub") Byte.x01 Byte.x41) empty_store 1) (mem_source i))
      = Ok (true, mkPeerw (CWorld csR stR rR) fsR) /\
    Peer_establish_initiator (accept Byte.x01) (mkPeerw (CWorld (side (lit "joe") Byte.x02 Byte.x42) empty_store 7) (mem_source r))
      = Ok (true, mkPeerw (CWorld csI stI rI) fsI) /\
    ms_out (f_fd fsR) = r /\ ms_out (f_fd fsI) = i /\ in_sync csR csI.
Proof.
  destruct (handshake_agrees (B := membuf) (F := memsock) (accept Byte.x02) (accept Byte.x01) (side (lit "hub") Byte.x01 Byte.x41) (side (lit "joe") Byte.x02 Byte.x42)
              Byte.x01 Byte.x02 [Byte.x01] [Byte.x02] Byte.x01 Byte.x02 (lit "hub") (lit "joe") (replicate 32 Byte.x41) (replicate 32 Byte.x42)
              (replicate 32 Byte.x41) (replicate 32 Byte.x42) (toy_secret Byte.x01 Byte.x02) 1 7)
    as (r1 & r2 & i1 & i2 & csR & csI & rR & rI & HR & HI & Hsy & _).
  - apply side_ready; [split; [done|decided]|done].
  - apply side_ready; [split; [done|decided]|done].
  - done.
  - done.
  - done.
  - exact (accept_ok Byte.x02).
  - exact (accept_ok Byte.x01).
  - destruct (HR empty_store (mem_source (i1 ++ i2)) [] [] empty_good) as (stR & fsR & ER & HiR & _); [rewrite app_nil_r; apply mem_idle|].
    destruct (HI empty_store (mem_source (r1 ++ r2)) [] [] empty_good) as (stI & fsI & EI & HiI & _); [rewrite app_nil_r; apply mem_idle|].
    exists (r1 ++ r2), (i1 ++ i2), stR, fsR, stI, fsI, csR, csI, rR, rI. split_and!; [exact ER|exact EI|exact (id_written _ _ _ HiR)|exact (id_written _ _ _ HiI)|done].
Defined.

Lemma session_message_witness :
  exists i cs1 cs2 st1 fs1 lh lb st2 fs2,
    let cs := mkState (mkPeer SNull (mkNonce 5 6) KZero SNull [Byte.x01]) (mkPeer SNull (mkNonce 5 6) KZero SNull [Byte.x01]) [] in
    Peer_send (mkPeerw (CWorld cs seven_store 0) (mem_source [])) (Some 1%positive) (Some 1%positive) = Ok (true, mkPeerw (CWorld cs1 st1 0) fs1) /\
    ms_out (f_fd fs1) = i /\
    Peer_recv (mkPeerw (CWorld cs empty_store 0) (mem_source i)) = Ok (Some lb, Some lh, mkPeerw (CWorld cs2 st2 0) fs2) /\
    in_sync cs1 cs2.
Proof.
  set (cs := mkState (mkPeer SNull (mkNonce 5 6) KZero SNull [Byte.x01]) (mkPeer SNull (mkNonce 5 6) KZero SNull [Byte.x01]) []).
  destruct (session_message (B := membuf) (F := memsock) (E := byte) (S := bytes) (R := Z) cs cs (lit "doc") (flat [FNum 7]) (lit "doc") (flat [FNum 7]))
    as (i & cs1 & cs2 & H1 & H2 & Hsy).
  - by split.
  - decided.
  - decided.
  - cbn. repeat split; lia.
  - cbn. repeat split; lia.
  - vm_compute. done.
  - destruct (H1 seven_store 0 (mem_source []) [] [] 1%positive 1%positive _ _ seven_good (mem_idle []) seven_rep seven_rep) as (st1 & fs1 & E1 & Hi1 & _).
    destruct (H2 empty_store 0 (mem_source i) [] [] empty_good) as (lh & lb & Fh & Fb & st2 & fs2 & E2 & _); [rewrite app_nil_r; apply mem_idle|].
    exists i, cs1, cs2, st1, fs1, lh, lb, st2, fs2. split_and!; [exact E1|exact (id_written _ _ _ Hi1)|exact E2|done].
Defined.
End PeerProps.
