(* ===== verification/PeerAttacks.v ===== *)
(** * PeerAttacks: a peer that does not play by the rules

    Three theorems about the failure paths of [src/src/protocol/crypto.c] and
    [src/src/protocol/peer.c], each for every state of the channel: a message
    that was never encrypted is accepted, a wrong tag makes the packet's payload be freed twice, and an
    initiator that leaves before its last message still gets an established connection. *)

From Stdlib Require Import ZArith Lia.
From S2P Require Import Prelude Cstdlib Ragel Node NodeFormat Stackish NodeRep NodeOpen NodeFormatProps StackishDfa StackishRt StackishProps Crypto Frame Peer FrameProps CryptoProps PeerProps.
Import Cstdlib Node NodeFormat Stackish NodeRep NodeOpen NodeFormatProps StackishRt StackishProps Crypto Frame Peer FrameProps CryptoProps PeerProps.
Local Open Scope Z_scope.

Module PeerAttacks.

Section Lemmas.
Context {E S R B F : Type} `{!Ltc E S R} `{!Sbuf B F} `{!SbufLaws B F}.
Implicit Types w : cworld E S R.
Abbreviation W := (@CWorld E S R).
Abbreviation PW := (@mkPeerw E S R B F).

(** the call of [Node_decons] in [CryptState_decrypt_packet] *)
Lemma decons_two st l nm a b Fm :
  good st -> rep true (nodes st) None (Some l) (msgtree nm [FBlob a; FBlob b]) Fm ->
  exists x1 x2 n n1 n2, nodes st !! l = Some n /\ child n = Some x1 /\ nodes st !! x1 = Some n1 /\ sibling n1 = Some x2 /\
    nodes st !! x2 = Some n2 /\ sibling n2 = None /\ x2 ∈ Fm /\ x2 <> x1 /\ x2 <> l /\
    Node_decons st (Some l) false (lit "[bbw") [DOut; DOut; DName (Some CRYPT_ENV_MSG)]
      = Ok (bool_decide (nm = CRYPT_ENV_MSG), [DVStr (Some x1) (Some a); DVStr (Some x2) (Some b)], st).
Proof.
  intros Hg Hr. destruct (decons_alias st l nm CRYPT_ENV_MSG [FBlob a; FBlob b] Fm Hg) as (xs & n & Hl & Hsp & HF & Hlx & E');
    [solve_plain|done|done|].
  destruct xs as [|x1 [|x2 [|x3 xs]]]; try done. destruct Hsp as [Hc (n1 & Hn1 & [Hs1 (n2 & Hn2 & Hs2)])].
  exists x1, x2, n, n1, n2. apply Forall_cons_1 in HF as [_ HF]. apply Forall_cons_1 in HF as [HF _].
  inversion Hr as [|? ? m ? ? ? Fk ? Hl' ? ? ? Hk ? Hnk]; subst. rewrite Hl in Hl'. injection Hl' as <-. rewrite Hc in Hk.
  assert (HxFk : x2 ∈ Fk) by (by eapply (spine_in _ _ _ _ _ [x1; x2] 1%nat x2 Hk); [cbn; eauto 8|]).
  inversion Hk as [|? ? m1 ? ? ? ? ? Hm1 ? ? ? ? Hsib ? Hnr]; subst. rewrite Hn1 in Hm1. injection Hm1 as <-.
  assert (x2 <> x1).
  { intros ->. rewrite Hs1 in Hsib. apply Hnr. eapply (spine_in _ _ _ _ _ [x1] 0%nat x1 Hsib); [cbn; eauto|done]. }
  split_and!; first [done|exact E'|set_solver].
Qed.

(** ** A message that was never encrypted *)

Lemma decrypt_node_unchecked w key h l nm tag Fm bn bvs :
  good (c_st w) -> rep true (nodes (c_st w)) None (Some l) (msgtree nm [FBlob tag; FBlob (msgtext bn bvs)]) Fm ->
  nm <> CRYPT_ENV_MSG -> is_word bn -> Forall plain bvs -> zlen (msgtext bn bvs) < 2 ^ 31 ->
  exists lb st' Fb, CryptState_decrypt_node w key h (Some l) = Ok (Some lb, put_st st' w) /\
    rep true (nodes st') None (Some lb) (msgtree bn bvs) Fb /\ good st' /\ extends_by Fb (c_st w) st'.
Proof.
  intros Hg Hr Hnm Hw Hv Hlen. destruct (decons_two _ _ _ _ _ _ Hg Hr) as (x1 & x2 & n & n1 & n2 & _ & _ & _ & _ & _ & _ & _ & _ & _ & E').
  unfold CryptState_decrypt_node, CryptState_decrypt_packet. rewrite assert_true, bind_ret by done. rewrite E', bind_ret. cbv beta iota.
  rewrite put_st_same, checkw_good by done. rewrite bool_decide_eq_false_2 by done. cbn [negb out_str lookup list_lookup fmap option_fmap option_map snd].
  rewrite bind_ret. cbv beta iota. rewrite checkw_good by done. rewrite (proj2 (Z.ltb_lt _ _)) by apply msgtext_pos. cbn [negb need]. rewrite bind_ret.
  destruct (parse_msg (c_st w) bn bvs Hw Hv Hlen Hg) as (lb & s2 & Fb & E2 & Hr2 & Hg2 & Hx). rewrite E2, bind_ret. cbv beta iota.
  rewrite checkw_good by done. by exists lb, s2, Fb.
Qed.

(** ** A wrong tag *)

Lemma decrypt_packet_bad w key h l t c p t' Fm :
  good (c_st w) -> rep true (nodes (c_st w)) None (Some l) (msgtree CRYPT_ENV_MSG [FBlob t; FBlob c]) Fm ->
  ccm_memory false key (nonce_raw (p_nonce (me (c_cs w)))) h c = (p, Some t') -> t' <> t ->
  exists st' x1 x2 n n1 n2, CryptState_decrypt_packet w key h (Some l) = Ok (None, put_st st' (on_me inc_nonce w)) /\ good st' /\
    nodes st' !! l = Some n /\ child n = Some x1 /\ sibling n = None /\ nodes st' !! x1 = Some n1 /\ sibling n1 = Some x2 /\
    nodes st' !! x2 = Some n2 /\ sibling n2 = None /\ child n2 = None /\ type n2 = TYPE_BLOB /\ value n2 = VFreed.
Proof.
  intros Hg Hr Hccm Ht. destruct (decons_two _ _ _ _ _ _ Hg Hr) as (x1 & x2 & n & n1 & n2 & Hl & Hc & Hn1 & Hs1 & Hn2 & Hs2 & _ & N1 & N2 & E').
  assert (Hx2 : child n2 = None /\ type n2 = TYPE_BLOB /\ sibling n = None).
  { inversion Hr as [|? ? m ? ? ? Fk ? Hl' ? ? ? Hk Hsr]; subst. rewrite Hl in Hl'. injection Hl' as <-. rewrite Hc in Hk.
    inversion Hk as [|? ? m1 ? ? ? ? ? Hm1 ? ? ? ? Hsib]; subst. rewrite Hn1 in Hm1. injection Hm1 as <-. rewrite Hs1 in Hsib.
    inversion Hsib as [|? ? m2 ? ? ? ? ? Hm2 Hty ? ? Hch]; subst. rewrite Hn2 in Hm2. injection Hm2 as <-.
    split_and!; [by inversion Hch|by rewrite Hty|by inversion Hsr]. }
  destruct Hx2 as (Hch & Hty & Hsn). unfold CryptState_decrypt_packet. rewrite assert_true, bind_ret by done. rewrite E', bind_ret. cbv beta iota.
  rewrite put_st_same, checkw_good by done. rewrite bool_decide_eq_true_2 by done.
  cbn [negb out_str lookup list_lookup fmap option_fmap option_map snd need]. rewrite bind_ret, Hccm.
  rewrite (update_Some _ _ _ _ Hn2), bind_ret. set (n2' := set_value _ n2). set (s1 := set_nodes _ (c_st w)).
  assert (Hgs : forall v, good (set_nodes (<[x2 := v]> (nodes (c_st w))) (c_st w))).
  { intros v. destruct Hg as [He Hf]. split; [done|]. intros y Hy. cbn. rewrite lookup_insert_ne; [by apply Hf|]. intros ->. by rewrite Hf in Hn2. }
  rewrite checkw_good by apply Hgs. rewrite bool_decide_eq_true_2 by done. cbn [negb]. rewrite checkw_good by apply Hgs.
  rewrite bool_decide_eq_false_2 by congruence. cbn [negb].
  change (c_st _) with s1 at 1. rewrite (update_Some s1 x2 n2'), bind_ret by apply lookup_insert_eq.
  eexists _, x1, x2, n, n1, _. split; [done|]. cbn [nodes set_nodes s1]. rewrite insert_insert_eq.
  rewrite !lookup_insert_ne, lookup_insert_eq by done. split_and!; try done. apply Hgs.
Qed.

Lemma destroy_freed st l x1 x2 n n1 n2 :
  nodes st !! l = Some n -> child n = Some x1 -> sibling n = None -> nodes st !! x1 = Some n1 -> sibling n1 = Some x2 ->
  nodes st !! x2 = Some n2 -> sibling n2 = None -> child n2 = None -> type n2 = TYPE_BLOB -> value n2 = VFreed ->
  Node_destroy st (Some l) = Fault BadPointer.
Proof.
  intros Hl Hc Hs Hn1 Hs1 Hn2 Hs2 Hch Hty Hv. unfold Node_destroy.
  destruct (size (nodes st)) as [|k] eqn:Hz; [apply map_size_empty_inv in Hz; by rewrite Hz in Hl|].
  cbn [map_postorder]. rewrite Hz. cbn [push_down]. rewrite (load_Some _ _ _ Hl), bind_ret, Hs, Hc. cbn [push_down]. change (MAX_TREE_DEEP <=? zlen [_]) with false. cbn [push_down].
  rewrite bind_ret. cbn [pop_up]. rewrite bool_decide_eq_false_2 by done. cbn [Z.eqb orb]. rewrite !bind_ret. cbv beta iota.
  cbn [map_postorder]. rewrite Hz. cbn [push_down]. rewrite (load_Some _ _ _ Hn1), bind_ret, Hs1. change (MAX_TREE_DEEP <=? zlen [_; _]) with false. cbv iota.
  rewrite (load_Some _ _ _ Hn2), bind_ret, Hs2, Hch. change (MAX_TREE_DEEP <=? zlen [_; _; _]) with false. cbv iota. rewrite bind_ret.
  cbn [pop_up]. rewrite bool_decide_eq_true_2 by done. cbn [Z.eqb orb]. unfold Node_intern_destroy, need. rewrite Hn2, bind_ret, Hty, Hv. done.
Qed.
End Lemmas.

(** ** The theorems *)

Section Claims.
Context {E S R B F : Type} `{!Ltc E S R} `{!Sbuf B F} `{!SbufLaws B F}.
Abbreviation W := (@CWorld E S R).
Abbreviation PW := (@mkPeerw E S R B F).
Implicit Types fs : FrameSource B F.

(** C36: encryption can be skipped: whatever the keys and nonces of the channel, a frame whose body has the shape of a packet but
    another name than [env] makes [Peer_recv] return the second blob's text as a message of the session,
    because [CryptState_decrypt_packet] returns the payload it found when its check fails. *)
Theorem plaintext_accepted (cs : CryptState E S) st (r : R) fs more w hn hv nm tag bn bvs :
  is_word hn -> is_word nm -> is_word bn -> Forall plain hv -> Forall plain bvs -> nm <> CRYPT_ENV_MSG ->
  let body := msgtext nm [FBlob tag; FBlob (msgtext bn bvs)] in
  zlen (msgtext hn hv) + zlen body <= 32766 -> zlen (msgtext bn bvs) < 2 ^ 31 ->
  good st -> idle fs (frame (msgtext hn hv ++ body) ++ more) w ->
  exists lh lb Fb st' fs', Peer_recv (PW (W cs st r) fs) = Ok (Some lb, Some lh, PW (W cs st' r) fs') /\
    rep true (nodes st') None (Some lb) (msgtree bn bvs) Fb /\ good st' /\ idle fs' more w.
Proof.
  intros Hh Hn Hb Hhv Hbv Hne body Hlen Hlb Hg Hi. unfold Peer_recv.
  destruct (recv_peer_two cs st r fs hn hv nm [FBlob tag; FBlob (msgtext bn bvs)] more w) as (fs1 & s1 & lh & l & Fh & F1 & -> & Hi1 & Hg1 & Hrh & Hr1 & Hdis);
    [done|done|done|solve_plain|done|done|done|].
  rewrite bind_ret. cbv beta iota. cbn [r_msg r_hbuf r_header need]. rewrite bind_ret. cbn [pr_state c_cs].
  destruct (decrypt_node_unchecked (W cs s1 r) (p_skey (me cs)) (msgtext hn hv) l nm tag F1 bn bvs) as (lb & s2 & Fb & -> & Hr2 & Hg2 & Hx2); [done..|].
  rewrite bind_ret. cbv beta iota. rewrite checkp_good by done. cbn [c_st] in *.
  change (put_state (put_st s2 (W cs s1 r)) (PW (W cs s1 r) fs1)) with (PW (W cs s2 r) fs1).
  pose proof (extends_keeps _ _ _ Hx2) as K2. destruct Hx2 as [_ D2]. pose proof (rep_sub _ _ _ _ _ _ Hr1).
  destruct (destroy_peer cs r fs1 s1 s2 l nm _ F1 ∅ Hr1) as (s3 & -> & Hg3 & K3); [keeps_chain|set_solver|done|cbn; lia|].
  rewrite bind_ret. exists lh, lb, Fb, s3, fs1. split_and!; try done. eapply (rep_keeps _ F1 s2); [done|done|set_solver].
Qed.

(** C37: a wrong tag: a packet whose tag is not the one CCM computes makes [Peer_recv] free the payload twice, in
    [CryptState_decrypt_packet] and, because it is still the string of a node, in [Node_destroy]. *)
Theorem bad_tag_frees_twice (cs : CryptState E S) st (r : R) fs more w hn hv t c p t' :
  is_word hn -> Forall plain hv -> zlen (msgtext hn hv) + zlen (msgtext CRYPT_ENV_MSG [FBlob t; FBlob c]) <= 32766 ->
  ccm_memory false (p_skey (me cs)) (nonce_raw (p_nonce (me cs))) (msgtext hn hv) c = (p, Some t') -> t' <> t ->
  good st -> idle fs (msg_env (msgtext hn hv) c t ++ more) w ->
  Peer_recv (PW (W cs st r) fs) = Fault BadPointer.
Proof.
  intros Hh Hhv Hlen Hccm Ht Hg Hi. unfold Peer_recv.
  destruct (recv_peer_two cs st r fs hn hv CRYPT_ENV_MSG [FBlob t; FBlob c] more w) as (fs1 & s1 & lh & l & Fh & F1 & -> & Hi1 & Hg1 & Hrh & Hr1 & Hdis);
    [done|decided|done|solve_plain|done|done|done|].
  rewrite bind_ret. cbv beta iota. cbn [r_msg r_hbuf r_header need]. rewrite bind_ret. cbn [pr_state c_cs]. unfold CryptState_decrypt_node.
  destruct (decrypt_packet_bad (W cs s1 r) (p_skey (me cs)) (msgtext hn hv) l t c p t' F1) as (s2 & x1 & x2 & n & n1 & n2 & -> & Hg2 & H1 & H2 & H3 & H4 & H5 & H6 & H7 & H8 & H9 & H10); [done..|].
  rewrite bind_ret. cbv beta iota. rewrite checkw_good by done. cbn [negb]. rewrite bind_ret. cbv beta iota. rewrite checkp_good by done.
  unfold destroyp, destroy. cbn [pr_state put_state c_st put_st]. by rewrite (destroy_freed s2 l x1 x2 n n1 n2).
Qed.

(** the last message is optional: an initiator that closes the connection after its identity still makes
    [Peer_establish_receiver] return 1, the result of the message sent before.  The initiator has then not
    shown that it got the receiver's answer, and the channel has no session keys: they are what they were before
    the handshake. *)
Theorem receiver_skips_final `{!LtcLaws E S R} (kc : CryptState E S -> bool) cs a ea nmR seR kR eb b' K nmI seI r r1 r2 n0 n1 n2 c1 t1 st fs w :
  let hI := msgtext CRYPT_HEADER [FBlob eb] in
  ready cs a ea nmR seR kR -> pairing a eb b' K -> zlen eb <= 256 -> (forall cs', p_key (them cs') = KLive b' -> kc cs' = true) ->
  fresh_nonce r = (n0, r1) -> fresh_nonce r1 = (n2, r2) -> nonce_ok n1 -> plain (FStr nmI) -> zlen nmI <= 1000 -> length seI = 32%nat ->
  sealed K n0 hI CRYPT_INIT_MSG (init_payload n1 seI nmI) c1 t1 ->
  good st -> idle fs (msg_env hI c1 t1) w ->
  exists cs' st' fs', Peer_establish_receiver kc (PW (W cs st r) fs) = Ok (true, PW (W cs' st' r2) fs') /\
    p_skey (me cs') = p_skey (me cs) /\ p_skey (them cs') = p_skey (them cs) /\ p_session (me cs') = SLive seR /\ p_session (them cs') = SLive seI.
Proof.
  intros hI Hrd Hp Hleb Hc Hf0 Hf2 Hno1 HplI HshI HlsI Hs1 Hg Hi. pose proof Hrd as [Ha He Hnm Hpl Hsh Hse Hls HkR].
  destruct (receiver_prefix_ok kc cs a ea nmR seR kR eb b' K nmI seI r r1 n0 n1 c1 t1 st fs [] w [Byte.x0a]) as (s6 & fs2 & -> & Hi2 & Hg6);
    [apply line_end_nl|try done; try (by apply Hc)..|by rewrite app_nil_r|].
  set (me1 := set_nonce (CryptState_nonce_inc n0) (me cs)). set (them1 := mkPeer (SLive nmI) n1 (KLive b') (SLive seI) (p_skey (them cs))).
  destruct (sealed_exists K n1 empty_header CRYPT_RECV_MSG (recv_payload n2 n1 seR nmR)) as (c2 & t2 & Hs2).
  destruct (receiver_rest_sends me1 them1 K s6 r1 r2 fs2 [] (w ++ msg_r1 ea n0) n1 n2 nmR seR c2 t2) as (s8 & fs3 & -> & Hi3 & Hg8); [done..|].
  unfold receiver_last. destruct (recv_closed s8 fs3 _ Hi3 Hg8) as (fs4 & s9 & E9 & _ & Hg9 & _).
  unfold recv. cbn [pr_state c_st pr_source]. rewrite E9, !bind_ret. cbv beta iota. rewrite checkp_good by done. cbn [r_msg r_header].
  rewrite bool_decide_eq_false_2 by (by intros []). cbn [negb]. unfold finish. cbn [let_go].
  repeat (rewrite destroyp_none; rewrite bind_ret). rewrite bind_ret.
  eexists _, s9, fs4. by split_and!.
Qed.
End Claims.

#[local] Existing Instance mem_sbuf.
#[local] Existing Instance mem_laws.
#[local] Existing Instance toy_ltc.
#[local] Existing Instance toy_laws.

Definition talking : CryptState byte bytes :=
  mkState (mkPeer SNull (mkNonce 5 6) KZero SNull [Byte.x01]) (mkPeer SNull (mkNonce 5 6) KZero SNull [Byte.x01]) [].

Lemma plaintext_accepted_witness :
  exists lh lb st fs,
    Peer_recv (mkPeerw (CWorld talking empty_store 0)
                 (mem_source (frame (msgtext CRYPT_HEADER [] ++ msgtext (lit "clear") [FBlob []; FBlob (msgtext (lit "doc") [FNum 7])]))))
    = Ok (Some lb, Some lh, mkPeerw (CWorld talking st 0) fs).
Proof.
  destruct (plaintext_accepted (E := byte) (S := bytes) (R := Z) (B := membuf) (F := memsock) talking empty_store 0
    (mem_source (frame (msgtext CRYPT_HEADER [] ++ msgtext (lit "clear") [FBlob []; FBlob (msgtext (lit "doc") [FNum 7])])))
    [] [] CRYPT_HEADER [] (lit "clear") [] (lit "doc") [FNum 7]) as (lh & lb & Fb & st & fs & E' & _).
  - decided.
  - decided.
  - decided.
  - solve_plain.
  - solve_plain.
  - done.
  - vm_compute. done.
  - vm_compute. done.
  - exact empty_good.
  - rewrite app_nil_r. apply mem_idle.
  - exists lh, lb, st, fs. exact E'.
Defined.

Lemma bad_tag_frees_twice_witness :
  Peer_recv (mkPeerw (CWorld talking empty_store 0) (mem_source (msg_env (msgtext CRYPT_HEADER []) (lit "secret") [])))
  = Fault BadPointer.
Proof.
  apply (bad_tag_frees_twice (E := byte) (S := bytes) (R := Z) (B := membuf) (F := memsock) talking empty_store 0
    (mem_source (msg_env (msgtext CRYPT_HEADER []) (lit "secret") [])) [] [] CRYPT_HEADER [] [] (lit "secret")
    (rev (lit "secret")) ([Byte.x01] ++ nonce_raw (mkNonce 5 6))).
  - decided.
  - solve_plain.
  - vm_compute. done.
  - vm_compute. done.
  - done.
  - exact empty_good.
  - rewrite app_nil_r. apply mem_idle.
Defined.

Lemma receiver_skips_final_witness :
  exists i cs' st' fs' r',
    Peer_establish_receiver (accept Byte.x02) (mkPeerw (CWorld (side (lit "hub") Byte.x01 Byte.x41) empty_store 1) (mem_source i))
      = Ok (true, mkPeerw (CWorld cs' st' r') fs') /\
    p_skey (me cs') = [].
Proof.
  set (K := toy_secret Byte.x01 Byte.x02). set (n0 := nonce_of_raw (replicate 16 Byte.x01)). set (n1 := mkNonce 7 8).
  destruct (sealed_exists K n0 (msgtext CRYPT_HEADER [FBlob [Byte.x02]]) CRYPT_INIT_MSG (init_payload n1 (replicate 32 Byte.x42) (lit "joe"))) as (c & t & Hs).
  destruct (receiver_skips_final (B := membuf) (F := memsock) (accept Byte.x02) (side (lit "hub") Byte.x01 Byte.x41) Byte.x01 [Byte.x01] (lit "hub")
              (replicate 32 Byte.x41) (replicate 32 Byte.x41) [Byte.x02] Byte.x02 K (lit "joe") (replicate 32 Byte.x42) 1 2 3 n0 n1
              (nonce_of_raw (replicate 16 Byte.x02)) c t empty_store (mem_source (msg_env (msgtext CRYPT_HEADER [FBlob [Byte.x02]]) c t)) [])
    as (cs' & st' & fs' & E' & Hk & _).
  - apply side_ready; [split; [done|decided]|done].
  - split; [done|]. by eexists.
  - done.
  - exact (accept_ok Byte.x02).
  - done.
  - done.
  - done.
  - split; [done|decided].
  - done.
  - done.
  - exact Hs.
  - exact empty_good.
  - apply mem_idle.
  - eexists _, cs', st', fs', _. split; [exact E'|exact Hk].
Defined.
End PeerAttacks.
