(* ===== verification/SigningProps.v ===== *)
(** * SigningProps: what a signature covers

    A signed message is a group of two: the message (payload, hash, signature) and the
    identity (public key, name).  [CryptState_verify_signature] is specified here on every
    tree of that shape. *)

From Stdlib Require Import ZArith Lia.
From S2P Require Import Prelude Cstdlib Ragel Node NodeFormat Stackish NodeRep NodeOpen NodeFormatProps StackishDfa StackishRt StackishProps Crypto Signing Frame Peer FrameProps CryptoProps PeerProps.
Import Cstdlib Node NodeFormat Stackish NodeRep NodeOpen NodeFormatProps StackishRt StackishProps Crypto Signing FrameProps CryptoProps PeerProps.
Local Open Scope Z_scope.

Module SigningProps.

Definition signed_tree (nm pk sg hs pl : bytes) : forest :=
  FCons (Some (lit "signed")) FGrp
    (FCons (Some (lit "identity")) FGrp (flat [FBlob nm; FBlob pk])
      (FCons (Some (lit "message")) FGrp (flat [FBlob sg; FBlob hs; FBlob pl]) FNil)) FNil.

Lemma decons_open st l n fmt args outs :
  nodes st !! l = Some n -> decons_loop st false (Byte.x5b :: fmt) args (Some l) outs = decons_loop st false fmt args (child n) outs.
Proof. intros Hl. cbn [decons_loop]. by rewrite (load_Some _ _ _ Hl), bind_ret. Qed.

Lemma decons_word st l n p np nm fmt args outs :
  good st -> nodes st !! l = Some n -> parent n = Some p -> nodes st !! p = Some np -> name np = Some nm -> nm = cstr nm ->
  decons_loop st false (Byte.x77 :: fmt) (DName (Some nm) :: args) (Some l) outs = decons_loop st false fmt args (next_sib np (Some p)) outs.
Proof.
  intros [He Hf] Hl Hp Hnp Hn Hnul. cbn [decons_loop]. rewrite (load_Some _ _ _ Hl), bind_ret, Hp, check_clean by done.
  rewrite bool_decide_eq_true_2 by done. rewrite (load_Some _ _ _ Hnp), bind_ret, check_clean, Hn by done. cbn [name_is]. by rewrite bool_decide_eq_true_2.
Qed.

(** one group inside the format, with the name that closes it *)
Lemma decons_group st g ng nm vs fmt args Fk outs :
  good st -> nodes st !! g = Some ng -> name ng = Some nm -> nm = cstr nm -> Forall leaf vs -> vs <> [] ->
  rep true (nodes st) (Some g) (child ng) (flat vs) Fk ->
  exists xs, length xs = length vs /\
    decons_loop st false (Byte.x5b :: map code vs ++ Byte.x77 :: fmt) (outs_args vs ++ DName (Some nm) :: args) (Some g) outs
    = decons_loop st false fmt args (next_sib ng (Some g)) (outs ++ zip_with out_at xs vs).
Proof.
  intros Hgd Hg Hn Hnul Hvs Hne Hk.
  destruct (decons_leaves_alias st vs (Byte.x77 :: fmt) (DName (Some nm) :: args) (Some g) (child ng) Fk outs (good_errno _ Hgd) Hvs Hne Hk)
    as (xs & ll & nl & _ & _ & Hx3 & Hx4 & Hx5 & E). exists xs. split; [done|].
  rewrite (decons_open _ _ _ _ _ _ Hg), E. by eapply (decons_word st ll nl g ng).
Qed.

Lemma decons_signed st l nm pk sg hs pl Fm :
  good st -> rep true (nodes st) None (Some l) (signed_tree nm pk sg hs pl) Fm ->
  exists x1 x2 x3 x4 x5, Node_decons st (Some l) false (lit "[[bbw[bbbww")
     [DOut; DOut; DName (Some (lit "identity")); DOut; DOut; DOut; DName (Some (lit "message")); DName (Some (lit "signed"))]
    = Ok (true, [DVStr (Some x1) (Some nm); DVStr (Some x2) (Some pk); DVStr (Some x3) (Some sg); DVStr (Some x4) (Some hs); DVStr (Some x5) (Some pl)], st).
Proof.
  intros Hg Hr. unfold signed_tree in Hr. inversion Hr as [|? ? n ? ? ? F1 ? Hl _ _ _ Hk _]; subst.
  inversion Hk as [|? g1 n1 ? ? ? F2 F3 Hg1 _ _ _ Hk1 Hs1]; subst. inversion Hs1 as [|? g2 n2 ? ? ? F4 F5 Hg2 _ _ Hp2 Hk2 Hs2]; subst.
  repeat match goal with H : _ = name _ |- _ => symmetry in H end.
  destruct (decons_group st g1 n1 (lit "identity") [FBlob nm; FBlob pk] (lit "[bbbww")
     [DOut; DOut; DOut; DName (Some (lit "message")); DName (Some (lit "signed"))] F2 []) as (xs & Hlx & E1); [done..|solve_plain|done|done|].
  destruct xs as [|x1 [|x2 [|]]]; try done.
  destruct (decons_group st g2 n2 (lit "message") [FBlob sg; FBlob hs; FBlob pl] (lit "w") [DName (Some (lit "signed"))] F4
     [DVStr (Some x1) (Some nm); DVStr (Some x2) (Some pk)]) as (ys & Hly & E2); [done..|solve_plain|done|done|].
  destruct ys as [|x3 [|x4 [|x5 [|]]]]; try done. exists x1, x2, x3, x4, x5.
  assert (Hsib1 : sibling n1 = Some g2) by done. assert (Hc : child n = Some g1) by done. assert (Hsib2 : sibling n2 = None) by (by inversion Hs2).
  unfold Node_decons. rewrite assert_true, bind_ret by done. rewrite (eq_refl : cstr (lit "[[bbw[bbbww") = Byte.x5b :: lit "[bbw[bbbww").
  rewrite (decons_open _ _ _ _ _ _ Hl).
  repeat match goal with H : name ?m = Some _ |- context [DName (name ?m)] => rewrite H end. rewrite Hc.
  change (outs_args [FBlob nm; FBlob pk]) with [DOut; DOut] in E1. cbn [app] in E1.
  rewrite (eq_refl : lit "[bbw[bbbww" = Byte.x5b :: map code [FBlob nm; FBlob pk] ++ Byte.x77 :: lit "[bbbww").
  rewrite E1. unfold next_sib at 1. rewrite Hsib1. cbn [zip_with out_at app].
  change (outs_args [FBlob sg; FBlob hs; FBlob pl]) with [DOut; DOut; DOut] in E2. cbn [app] in E2.
  rewrite (eq_refl : lit "[bbbww" = Byte.x5b :: map code [FBlob sg; FBlob hs; FBlob pl] ++ Byte.x77 :: lit "w").
  rewrite E2. unfold next_sib at 1. rewrite Hsib2. rewrite (eq_refl : lit "w" = [Byte.x77]).
  rewrite (decons_word st g2 n2 l n (lit "signed") [] [] _ Hg Hg2 (Hp2 eq_refl) Hl) by done. cbn [decons_loop]. rewrite bind_ret, check_clean by apply Hg. done.
Qed.

(** checking a signed tree, for any text that parses *)
Lemma verify_ok {E S R} `{!Ltc E S R} (cs : CryptState E S) st (r : R) l nm pk sg hs bn bf k verdict Fm :
  good st -> rep true (nodes st) None (Some l) (signed_tree nm pk sg hs (line bn bf)) Fm ->
  ecc_import pk = Some k -> ecc_verify_hash sg hs k = Some verdict -> is_word bn -> wf bf -> zlen (line bn bf) < 2 ^ 31 ->
  exists l' st' F', CryptState_verify_signature (CWorld cs st r) (SLive nm) (Some l) false = Ok (Some l', Some k, verdict, CWorld cs st' r) /\
    rep true (nodes st') None (Some l') (grp bn bf) F' /\ good st'.
Proof.
  intros Hg Hr Hk Hv Hw Hp Hlen. destruct (decons_signed st l nm pk sg hs (line bn bf) Fm Hg Hr) as (x1 & x2 & x3 & x4 & x5 & E').
  unfold CryptState_verify_signature. cbn [c_st]. rewrite E', bind_ret. cbv beta iota. rewrite checkw_good by done. cbn [negb].
  change (put_st st (CWorld cs st r)) with (CWorld cs st r).
  cbn [out_str lookup list_lookup fmap option_fmap option_map snd]. rewrite checkw_good by done. rewrite bool_decide_eq_true_2 by done. cbn [negb].
  unfold CryptState_bstr_ecc_key. cbn [need]. rewrite bind_ret, Hk, checkw_good by done. rewrite bool_decide_eq_true_2 by eauto.
  rewrite bind_ret. cbv beta iota. rewrite checkw_good by done. cbn [negb need]. rewrite !bind_ret. cbn [snd]. rewrite Hv. cbn [default].
  rewrite checkw_good by done. rewrite bool_decide_eq_true_2 by eauto. cbn [negb need]. rewrite bind_ret. cbn [snd c_st].
  rewrite zlen_app in Hlen. change (zlen [_]) with 1 in Hlen.
  destruct (parse_grp st bn bf Hw Hp ltac:(lia) Hg) as (l' & s2 & F' & E2 & Hr2 & Hg2 & _). rewrite E2, bind_ret. cbv beta iota.
  rewrite checkw_good by done. by exists l', s2, F'.
Qed.

Definition signed_items (nm pk sg hs pl : bytes) : items :=
  IGroup (lit "message") (ILeaf (FBlob pl) (ILeaf (FBlob hs) (ILeaf (FBlob sg) INil)))
    (IGroup (lit "identity") (ILeaf (FBlob pk) (ILeaf (FBlob nm) INil)) INil).

Lemma sign_ok {E S R} `{!Ltc E S R} (cs : CryptState E S) st (r r' : R) l nm k pk sg h bn bf F :
  good st -> rep true (nodes st) None (Some l) (grp bn bf) F -> wf bf ->
  hash_memory (line bn bf) = Some h -> ecc_sign_hash r h k = (Some sg, r') -> ecc_export PK_PUBLIC k = Some pk ->
  exists l' st' F', CryptState_sign_node (CWorld cs st r) (KLive k) (SLive nm) (Some l) = Ok (Some l', CWorld cs st' r') /\
    rep true (nodes st') None (Some l') (signed_tree nm pk sg h (line bn bf)) F' /\ good st'.
Proof.
  intros Hg Hr Hv Hh Hs He. unfold CryptState_sign_node. cbn [c_st]. rewrite (bstr_grp _ _ _ _ _ Hr Hv), bind_ret, checkw_good by done. cbn [negb].
  unfold CryptState_hash_bstr, CryptState_hash. rewrite Hh, checkw_good by done. rewrite bool_decide_eq_true_2 by eauto. rewrite checkw_good by done.
  rewrite bool_decide_eq_true_2 by eauto. cbn [negb need use_key]. rewrite !bind_ret. cbn [c_rng]. rewrite Hs, checkw_good by done. rewrite bool_decide_eq_true_2 by eauto.
  cbn [negb]. unfold CryptState_ecc_key_bstr. cbn [use_key]. rewrite bind_ret, He, checkw_good by done. rewrite bool_decide_eq_true_2, bind_ret by eauto. cbv beta iota.
  cbn [bstrcpy]. rewrite bind_ret. cbn [put_rng c_st].
  destruct (cons_items st (signed_items nm pk sg h (line bn bf)) (lit "signed")) as (l' & s1 & F1 & E1 & Hr1 & Hg1 & _); [cbn; repeat split; decided|decided|done|].
  change (Node_cons st (lit "[[bbbw[bbww") [CABstr (Some (line bn bf)); CABstr (Some h); CABstr (Some sg); CACstr (Some (lit "message"));
    CABstr (Some pk); CABstr (Some nm); CACstr (Some (lit "identity")); CACstr (Some (lit "signed"))] = Ok (Some l', s1)) in E1.
  rewrite E1, bind_ret. cbv beta iota. rewrite checkw_good by done. rewrite bool_decide_eq_true_2 by done. exists l', s1, F1. done.
Qed.

(** ** The theorems *)

(** C31: signing and checking: the tree [CryptState_sign_node] makes of any well-formed named tree, given to
    [CryptState_verify_signature] with the signer's name, yields an equal tree, the signer's public key and
    the verdict that the signature is good, when the library accepts the signatures it makes. *)
Theorem sign_then_verify {E S R} `{!Ltc E S R} (cs : CryptState E S) st (r r' : R) l nm k pk k' sg h bn bf F :
  good st -> rep true (nodes st) None (Some l) (grp bn bf) F -> is_word bn -> wf bf -> zlen (line bn bf) < 2 ^ 31 ->
  hash_memory (line bn bf) = Some h -> ecc_sign_hash r h k = (Some sg, r') -> ecc_export PK_PUBLIC k = Some pk -> ecc_import pk = Some k' ->
  (forall r h k pk k' sg r', ecc_sign_hash r h k = (Some sg, r') -> ecc_export PK_PUBLIC k = Some pk -> ecc_import pk = Some k' -> ecc_verify_hash sg h k' = Some true) ->
  exists ls w1, CryptState_sign_node (CWorld cs st r) (KLive k) (SLive nm) (Some l) = Ok (Some ls, w1) /\
    exists l' st' F', CryptState_verify_signature w1 (SLive nm) (Some ls) false = Ok (Some l', Some k', true, CWorld cs st' r') /\
      rep true (nodes st') None (Some l') (grp bn bf) F' /\ good st'.
Proof.
  intros Hg Hr Hw Hv Hl Hh Hs He Hi Hlaw. destruct (sign_ok cs st r r' l nm k pk sg h bn bf F) as (ls & s1 & F1 & E1 & Hr1 & Hg1); [done..|].
  exists ls, (CWorld cs s1 r'). split; [done|]. eapply (verify_ok cs s1 r' ls nm pk sg h bn bf k' true F1); eauto.
Qed.

(** C35: the signature does not cover the payload: [CryptState_verify_signature] returns whatever payload stands in the message and
    reports the verdict of the library on the hash that stands beside it, for any hash at all.  A signature
    seen once therefore authenticates every payload. *)
Theorem signature_ignores_payload {E S R} `{!Ltc E S R} (cs : CryptState E S) st (r : R) l nm pk sg hs bn bvs k verdict Fm :
  good st -> rep true (nodes st) None (Some l) (signed_tree nm pk sg hs (msgtext bn bvs)) Fm ->
  ecc_import pk = Some k -> ecc_verify_hash sg hs k = Some verdict ->
  is_word bn -> Forall plain bvs -> zlen (msgtext bn bvs) < 2 ^ 31 ->
  exists l' st' F', CryptState_verify_signature (CWorld cs st r) (SLive nm) (Some l) false = Ok (Some l', Some k, verdict, CWorld cs st' r) /\
    rep true (nodes st') None (Some l') (msgtree bn bvs) F' /\ good st'.
Proof.
  intros Hg Hr Hk Hv Hw Hp Hlen. change (msgtext bn bvs) with (line bn (flat bvs)) in *. by eapply (verify_ok cs st r l nm pk sg hs bn (flat bvs)); eauto using flat_wf.
Qed.

#[local] Existing Instance toy_ltc.

Lemma sign_then_verify_witness :
  let cs := side (lit "hub") Byte.x02 Byte.x41 in
  exists ls w1 l' st', CryptState_sign_node (CWorld cs seven_store 0) (KLive Byte.x05) (SLive (lit "joe")) (Some 1%positive) = Ok (Some ls, w1) /\
    CryptState_verify_signature w1 (SLive (lit "joe")) (Some ls) false = Ok (Some l', Some Byte.x05, true, CWorld cs st' 1).
Proof.
  intros cs. destruct (sign_then_verify cs seven_store 0 1 1%positive (lit "joe") Byte.x05 [Byte.x05] Byte.x05
    (Byte.x05 :: [uchar (zlen (line (lit "doc") (flat [FNum 7])))]) [uchar (zlen (line (lit "doc") (flat [FNum 7])))] (lit "doc") (flat [FNum 7]) _ seven_good seven_rep)
    as (ls & w1 & E1 & l' & st' & F' & E2 & _).
  - decided.
  - cbn. repeat split; lia.
  - vm_compute. done.
  - done.
  - done.
  - done.
  - done.
  - intros r h k pk k' sg r' [= <- <-] [= <-] [= <-]. cbn. by rewrite bool_decide_eq_true_2.
  - exists ls, w1, l', st'. split; [exact E1|exact E2].
Defined.

(** a payload replaced after signing *)
Definition forged : res (option loc * store) :=
  Node_cons empty_store (lit "[[bbbw[bbww")
    [CABstr (Some (msgtext (lit "pay") [FNum 1000])); CABstr (Some [Byte.x07]); CABstr (Some [Byte.x01; Byte.x07]); CACstr (Some (lit "message"));
     CABstr (Some [Byte.x01]); CABstr (Some (lit "joe")); CACstr (Some (lit "identity")); CACstr (Some (lit "signed"))].

Definition forged_store : store := match forged with Ok (_, st) => st | Fault _ => empty_store end.

Lemma forged_good : good forged_store.
Proof.
  split; [vm_compute; done|]. assert (E' : next forged_store = 9%positive) by (vm_compute; done).
  assert (Hd : dom (nodes forged_store) = list_to_set [1%positive; 2%positive; 3%positive; 4%positive; 5%positive; 6%positive; 7%positive; 8%positive]) by (vm_compute; done).
  intros l Hl. rewrite E' in Hl. apply not_elem_of_dom. rewrite Hd. rewrite elem_of_list_to_set. intros Hin.
  repeat (apply elem_of_cons in Hin as [->|Hin]; [lia|]). by apply elem_of_nil in Hin.
Qed.

Lemma rep_cons' ns par l n nm v kids rest Fk Fr :
  ns !! l = Some n -> name n = nm -> type n = type_of v -> value n = value_of v -> parent n = par ->
  rep true ns (Some l) (child n) kids Fk -> rep true ns par (sibling n) rest Fr -> l ∉ Fk -> l ∉ Fr -> Fk ## Fr ->
  rep true ns par (Some l) (FCons nm v kids rest) ({[l]} ∪ Fk ∪ Fr).
Proof. intros Hl <- Ht Hv Hp Hk Hs H1 H2 H3. by eapply rep_cons. Qed.

Lemma forged_rep :
  exists F, rep true (nodes forged_store) None (Some 1%positive)
    (signed_tree (lit "joe") [Byte.x01] [Byte.x01; Byte.x07] [Byte.x07] (msgtext (lit "pay") [FNum 1000])) F.
Proof.
  eexists. unfold signed_tree. cbn [flat].
  repeat (first [ apply rep_nil | eapply rep_cons'; [vm_compute; reflexivity|reflexivity|reflexivity|reflexivity|reflexivity| | | | |] ]).
  all: set_solver.
Qed.

Lemma signature_ignores_payload_witness :
  exists l st, CryptState_verify_signature (CWorld (side (lit "hub") Byte.x02 Byte.x41) forged_store 0) (SLive (lit "joe")) (Some 1%positive) false
    = Ok (Some l, Some Byte.x01, true, CWorld (side (lit "hub") Byte.x02 Byte.x41) st 0).
Proof.
  destruct forged_rep as [F Hr].
  destruct (signature_ignores_payload (side (lit "hub") Byte.x02 Byte.x41) forged_store 0 1%positive (lit "joe") [Byte.x01] [Byte.x01; Byte.x07] [Byte.x07]
              (lit "pay") [FNum 1000] Byte.x01 true F) as (l & st & F' & E' & _).
  - exact forged_good.
  - exact Hr.
  - reflexivity.
  - vm_compute. reflexivity.
  - decided.
  - solve_plain.
  - vm_compute. reflexivity.
  - exists l, st. exact E'.
Defined.
End SigningProps.
