(* ===== verification/ClientIo.v ===== *)
(** * ClientIo: blocking I/O of the client, [src/src/client/io.c]

    The operating system is explicit: a descriptor carries what its next reads and writes
    will do, so that a short read, an interrupted call, calls that are interrupted without end, an
    error and a partial write are inputs of the model.  Names and addresses are looked up by the class [Net]. *)

From Stdlib Require Import ZArith Lia.
From S2P Require Import Prelude Cstdlib Node NodeFormat Stackish Frame.
Import Cstdlib Node NodeFormat Stackish Frame.
Local Open Scope Z_scope.

Module ClientIo.

(** ** Descriptors *)

(** what one [read] finds: bytes that have arrived (none of them: end of file), an
    interruption, interruptions of this and every later read, an error *)
Inductive rd := RData (s : bytes) | RIntr | RIntrs | RErr (e : Z).
(** what one [writev] does with its buffer *)
Inductive wr := WAll | WPart (n : Z) | WErr (e : Z).

Record desc := Desc { d_in : list rd; d_wr : list wr; d_out : bytes }.

Abbreviation fdtable := (gmap Z desc).

Definition EINTR : Z := 4.

(** [read(fd, bp, cnt)]: result, the bytes, what it sets [errno] to (0: nothing) *)
Definition os_read (fs : fdtable) (fd cnt : Z) : Z * bytes * Z * fdtable :=
  match fs !! fd with
  | None => (-1, [], EBADF, fs)
  | Some d =>
    let left_with evs := <[fd := Desc evs (d_wr d) (d_out d)]> fs in
    match d_in d with
    | [] => (0, [], 0, fs)
    | RIntr :: evs => (-1, [], EINTR, left_with evs)
    | RIntrs :: _ => (-1, [], EINTR, fs)
    | RErr e :: evs => (-1, [], e, left_with evs)
    | RData s :: evs =>
      if zlen s <=? cnt then (zlen s, s, 0, left_with evs)
      else (cnt, take (Z.to_nat cnt) s, 0, left_with (RData (drop (Z.to_nat cnt) s) :: evs))
    end
  end.

(** [writev] of the pieces that make up [s]: result, [errno] *)
Definition os_writev (fs : fdtable) (fd : Z) (s : bytes) : Z * Z * fdtable :=
  match fs !! fd with
  | None => (-1, EBADF, fs)
  | Some d =>
    let wrote n evs := <[fd := Desc (d_in d) evs (d_out d ++ take (Z.to_nat n) s)]> fs in
    match d_wr d with
    | [] => (zlen s, 0, wrote (zlen s) [])
    | WAll :: evs => (zlen s, 0, wrote (zlen s) evs)
    | WPart n :: evs => (Z.min n (zlen s), 0, wrote n evs)
    | WErr e :: evs => (-1, e, wrote 0 evs)
    end
  end.

Definition os_close (fs : fdtable) (fd : Z) : fdtable := delete fd fs.

(** ** Reading *)

(** The [while] of [readn]: [cnt], an [int], bytes still to be read of the [size_t] [len], [got] so
    far.  An interrupted read is tried again, and leaves [errno] as it is.  [len - cnt] is computed as a
    [size_t], and what is returned becomes an [int]. *)
Fixpoint readn_loop (fuel : nat) (st : store) (fs : fdtable) (fd len cnt : Z) (got : bytes)
  : res (Z * bytes * store * fdtable) :=
  match fuel with
  | O => Fault NoFuel
  | S fuel' =>
    if 0 <? cnt then
      let '(rc, data, e, fs) := os_read fs fd cnt in
      let st := after_call e st in
      if rc <? 0 then
        if errno st =? EINTR then readn_loop fuel' st fs fd len cnt got
        else Ok (-1, got, st, fs)
      else if rc =? 0 then Ok (i32 (u64 (len - cnt)), got, st, fs)
      else readn_loop fuel' st fs fd len (cnt - rc) (got ++ data)
    else
      _ ← assert_ (errno st =? 0);
      Ok (i32 len, got, st, fs)
  end.

(** one round per event, one that takes a part of an event, one to see that all is read; where this
    is not enough no number of rounds is *)
Definition readn_fuel (fs : fdtable) (fd : Z) : nat :=
  match fs !! fd with Some d => S (S (length (d_in d))) | None => 2 end.

Definition readn (st : store) (fs : fdtable) (fd len : Z) : res (Z * bytes * store * fdtable) :=
  _ ← assert_ (0 <=? fd);
  _ ← assert_ (0 <? len);
  readn_loop (readn_fuel fs fd) st fs fd len (i32 len) [].

(** the two bytes of a length in network order *)
Definition ntohs (b : bytes) : Z := match b with h :: l :: _ => 256 * bv h + bv l | _ => 0 end.
Definition htons (n : Z) : bytes := [uchar (n / 256); uchar n].

Definition readframe (st : store) (fs : fdtable) (fd : Z) : res (option bytes * store * fdtable) :=
  _ ← assert_ (0 <=? fd);
  '(rc, b, st, fs) ← readn st fs fd 2;
  let '(ok, st) := check st (rc =? 2) in
  if negb ok then Ok (None, st, fs) else
  let reclen := ntohs b in
  '(rc, data, st, fs) ← readn st fs fd reclen;
  let '(ok, st) := check st (rc =? reclen) in
  Ok (if ok : bool then Some data else None, st, fs).

(** the body and the header *)
Definition readnodes (st : store) (fs : fdtable) (fd : Z) : res (option loc * option loc * store * fdtable) :=
  _ ← assert_ (0 <=? fd);
  '(data, st, fs) ← readframe st fs fd;
  let '(ok, st) := check st (bool_decide (is_Some data)) in
  if negb ok then Ok (None, None, st, fs) else
  data ← need NullDeref data;
  '(header, from, st) ← Node_parse_seq (parse_fuel data) data 0 st;
  let '(ok, st) := check st (bool_decide (header <> None)) in
  if negb ok then Ok (None, header, st, fs) else
  '(body, _, st) ← Node_parse_seq (parse_fuel data) data from st;
  Ok (body, header, st, fs).

(** ** Writing *)

(** The result, and [header], to which the text of the body was appended. *)
Definition write_header_node (st : store) (fs : fdtable) (fd : Z) (header : option bytes) (body : option loc)
  : res (Z * bytes * store * fdtable) :=
  header ← need AssertFail header;
  _ ← assert_ (0 <=? fd);
  header ← match body with
           | Some _ => Node_catbstr (cat_fuel st) st header body Byte.x20 true
           | None => Ok header
           end;
  let reclen := htons (u16 (zlen header)) in
  let '(rc, e, fs) := os_writev fs fd (reclen ++ header) in
  let '(_, st) := check (after_call e st) (0 <? rc) in
  Ok (rc, header, st, fs).

Definition writenodes (st : store) (fs : fdtable) (fd : Z) (header body : option loc) : res (Z * store * fdtable) :=
  _ ← assert_ (bool_decide (header <> None));
  _ ← assert_ (0 <=? fd);
  data ← Node_catbstr (cat_fuel st) st [] header Byte.x20 true;
  '(rc, _, st, fs) ← write_header_node st fs fd (Some data) body;
  let '(_, st) := check st (negb (rc =? 0)) in
  Ok (rc, st, fs).

(** ** Addresses *)

(** an IPv4 address with the two bytes of its port, a path in the file system *)
Inductive sockaddr := SockIn (sin_addr : Z) (sin_port : bytes) | SockUn (sun_path : bytes).

(** Names and services, and the calls that make descriptors; the number after a result is what the
    call sets [errno] to, 0 when it leaves it. *)
Class Net := {
  inet_aton : bytes -> option Z;
  gethostbyname : bytes -> option Z * Z;
  getservbyname : bytes -> bytes -> option bytes * Z;
  os_socket : fdtable -> Z * Z * fdtable;
  os_connect : fdtable -> Z -> sockaddr -> bool * Z * fdtable;
  os_mkfifo : fdtable -> bytes -> bool * Z * fdtable;
  os_open : fdtable -> bytes -> bool -> Z * Z * fdtable
}.

(** the value of a digit in some base up to 16 *)
Definition digit_in (base : Z) (b : byte) : bool :=
  let v := bv b in
  let d := if is_digit b then v - 48 else if (97 <=? v) && (v <=? 102) then v - 87
           else if (65 <=? v) && (v <=? 70) then v - 55 else 99 in
  d <? base.
Definition digit_value (b : byte) : Z :=
  let v := bv b in if is_digit b then v - 48 else if 97 <=? v then v - 87 else v - 55.
Definition value_in (base : Z) (ds : bytes) : Z := foldl (fun a b => a * base + digit_value b) 0 ds.

(** what stands before the digits in base 0: "0x" if a digit follows, a "0" that is itself one *)
Definition base_prefix (s : bytes) : Z * Z :=
  match s with
  | Byte.x30 :: (Byte.x78 | Byte.x58) :: b :: _ => if digit_in 16 b then (16, 2) else (8, 0)
  | Byte.x30 :: _ => (8, 0)
  | _ => (10, 0)
  end.

Definition LONG_MAX : Z := 2 ^ 63 - 1.
Definition LONG_MIN : Z := - 2 ^ 63.

(** [strtol(s, &end, 0)] where [long] has 64 bits *)
Definition strtol (s : bytes) : conv Z :=
  let '(s1, n1) := skip_space s in
  let '(s2, n2, neg) := skip_sign s1 in
  let '(base, n3) := base_prefix s2 in
  let ds := span (digit_in base) (drop (Z.to_nat n3) s2) in
  match ds with
  | [] => Conv 0 0 0
  | _ :: _ =>
    let v := if neg then - value_in base ds else value_in base ds in
    let used := n1 + n2 + n3 + zlen ds in
    if v <? LONG_MIN then Conv LONG_MIN used ERANGE
    else if LONG_MAX <? v then Conv LONG_MAX used ERANGE
    else Conv v used 0
  end.

(** what [htons] makes of a [short] *)
Definition port_bytes (port : Z) : bytes := htons (u16 (i16 port)).

Section Clients.
Context `{!Net}.

(** the host is never NULL here: the function asserts it before it asks *)
Definition set_address (st : store) (hname sname : option bytes) (protocol : bytes)
  : res (option sockaddr * store) :=
  hname ← need AssertFail hname;
  sname ← need AssertFail sname;
  '(addr, st) ← match inet_aton (cstr hname) with
    | Some a => Ok (Some a, st)
    | None =>
      let '(hp, e) := gethostbyname (cstr hname) in
      let '(ok, st) := check (after_call e st) (bool_decide (is_Some hp)) in
      Ok (if ok : bool then hp else None, st)
    end;
  match addr with
  | None => Ok (None, st)
  | Some addr =>
    let c := strtol (cstr sname) in
    let st := after_call (c_errno c) st in
    if c_used c =? zlen (cstr sname) then Ok (Some (SockIn addr (port_bytes (c_value c))), st)
    else
      let '(sp, e) := getservbyname (cstr sname) protocol in
      let '(ok, st) := check (after_call e st) (bool_decide (is_Some sp)) in
      match sp with
      | Some port => Ok (if ok : bool then Some (SockIn addr port) else None, st)
      | None => Ok (None, st)
      end
  end.

Definition tcp_client (st : store) (fs : fdtable) (hname sname : option bytes) : res (Z * store * fdtable) :=
  '(peer, st) ← set_address st hname sname (lit "tcp");
  let '(ok, st) := check st (bool_decide (is_Some peer)) in
  if negb ok then Ok (-1, st, fs) else
  peer ← need NullDeref peer;
  let '(s, e, fs) := os_socket fs in
  let '(ok, st) := check (after_call e st) (0 <=? s) in
  if negb ok then Ok (-1, st, fs) else
  let '(done, e, fs) := os_connect fs s peer in
  let '(ok, st) := check (after_call e st) done in
  Ok (if ok : bool then s else -1, st, fs).

(** [sizeof(local) - sizeof(local.sun_family)] *)
Definition SUN_PATH : Z := 108.

Definition unix_client (st : store) (fs : fdtable) (hname : option bytes) : res (Z * store * fdtable) :=
  hname ← need AssertFail hname;
  let '(ok, st) := check st (zlen hname <=? SUN_PATH) in
  if negb ok then Ok (-1, st, fs) else
  let path := hname ++ replicate (Z.to_nat (SUN_PATH - zlen hname)) Byte.x00 in
  let '(s, e, fs) := os_socket fs in
  let '(ok, st) := check (after_call e st) (0 <=? s) in
  if negb ok then Ok (-1, st, fs) else
  let '(done, e, fs) := os_connect fs s (SockUn path) in
  let '(ok, st) := check (after_call e st) done in
  Ok (if ok : bool then s else -1, st, fs).
End Clients.

Example strtol_decimal : strtol (lit "5555") = Conv 5555 4 0.
Proof. reflexivity. Qed.
Example strtol_octal : strtol (lit "010") = Conv 8 3 0.
Proof. reflexivity. Qed.
Example strtol_hex : strtol (lit "0x1F") = Conv 31 4 0.
Proof. reflexivity. Qed.
Example strtol_half_hex : strtol (lit "0xg") = Conv 0 1 0.
Proof. reflexivity. Qed.

End ClientIo.
