(* ===== verification/ClientIoProps.v ===== *)
(** * ClientIoProps: what [readn], [readnodes] and [writenodes] guarantee

    Reading collects the bytes that arrive, in whatever pieces, and loses none; nodes written by one
    process are the nodes another reads; the address functions; and the inputs on which the
    code stops. *)

From Stdlib Require Import ZArith Lia.
From S2P Require Import Prelude Cstdlib Ragel Node NodeFormat Stackish NodeRep NodeOpen NodeFormatProps StackishDfa StackishRt StackishProps Frame FrameProps ClientIo.
Import Cstdlib Node NodeFormat Stackish NodeRep NodeOpen NodeFormatProps StackishRt StackishProps Frame FrameProps ClientIo.
Local Open Scope Z_scope.

Module ClientIoProps.

(** ** Streams *)

Definition arrives (e : rd) : Prop := match e with RData s => s <> [] | _ => False end.

Fixpoint stream (evs : list rd) : bytes :=
  match evs with
  | [] => []
  | RData s :: evs' => s ++ stream evs'
  | _ :: evs' => stream evs'
  end.

(** what is left to read on a descriptor *)
Definition input (fs : fdtable) (fd : Z) : bytes := match fs !! fd with Some d => stream (d_in d) | None => [] end.

Definition with_in (d : desc) (evs : list rd) : desc := Desc evs (d_wr d) (d_out d).

Lemma with_in_same d : with_in d (d_in d) = d.
Proof. by destruct d. Qed.

(** ** [readn] *)

(** one round on a descriptor that is there *)
Lemma readn_round k st fs fd d len cnt got s evs :
  fs !! fd = Some d -> d_in d = RData s :: evs -> s <> [] -> zlen s <= cnt ->
  readn_loop (S k) st fs fd len cnt got = readn_loop k st (<[fd := with_in d evs]> fs) fd len (cnt - zlen s) (got ++ s).
Proof.
  intros Hd Hin Hs Hc. assert (0 < zlen s) by (destruct s; [done|rewrite zlen_cons; pose proof (zlen_nonneg s); lia]).
  cbn [readn_loop]. rewrite (proj2 (Z.ltb_lt _ _)) by lia. unfold os_read. rewrite Hd, Hin, (proj2 (Z.leb_le _ _)) by lia.
  cbn [after_call Z.eqb]. rewrite (proj2 (Z.ltb_ge _ _)), (proj2 (Z.eqb_neq _ _)) by lia. done.
Qed.

(** one round that is interrupted *)
Lemma readn_again k st fs fd d len cnt got evs :
  fs !! fd = Some d -> d_in d = RIntr :: evs -> 0 < cnt ->
  readn_loop (S k) st fs fd len cnt got = readn_loop k (after_call EINTR st) (<[fd := with_in d evs]> fs) fd len cnt got.
Proof.
  intros Hd Hin Hc. cbn [readn_loop]. rewrite (proj2 (Z.ltb_lt 0 cnt)) by done. unfold os_read. rewrite Hd, Hin. done.
Qed.

(** the pieces that come before the end *)
Lemma readn_pieces k st fs fd d len cnt got evs rest :
  fs !! fd = Some d -> d_in d = evs ++ rest -> Forall arrives evs -> zlen (stream evs) <= cnt ->
  readn_loop (length evs + k) st fs fd len cnt got
  = readn_loop k st (<[fd := with_in d rest]> fs) fd len (cnt - zlen (stream evs)) (got ++ stream evs).
Proof.
  intros Hd Hin Ha. revert fs d cnt got Hd Hin. induction Ha as [|e evs He _ IH]; intros fs d cnt got Hd Hin Hc.
  - cbn in Hin |- *. rewrite <- Hin, with_in_same, insert_id by done. rewrite app_nil_r. change (zlen []) with 0. by rewrite Z.sub_0_r.
  - destruct e as [s| | |]; try done. cbn [stream] in Hc |- *. rewrite zlen_app in Hc |- *. pose proof (zlen_nonneg (stream evs)).
    cbn [length Nat.add app]. rewrite (readn_round _ _ _ _ d _ _ _ s (evs ++ rest)) by (done || lia).
    rewrite (IH _ (with_in d (evs ++ rest))); [|apply lookup_insert_eq|done|lia].
    rewrite insert_insert_eq, <- app_assoc. cbn [with_in d_wr d_out]. f_equal. lia.
Qed.

(** enough bytes arrive: what is left to decide is [errno] *)
Lemma readn_enough st fs fd d len cnt got a rest k :
  fs !! fd = Some d -> Forall arrives (d_in d) -> stream (d_in d) = a ++ rest -> zlen a = cnt -> (S (length (d_in d)) < k)%nat ->
  exists evs, readn_loop k st fs fd len cnt got = (_ ← assert_ (errno st =? 0); Ok (i32 len, got ++ a, st, <[fd := with_in d evs]> fs)) /\
    Forall arrives evs /\ stream evs = rest.
Proof.
  remember (d_in d) as evs eqn:Hin. intros Hd Ha. revert fs d cnt got a k Hd Hin.
  induction Ha as [|e evs He Ha IH]; intros fs d cnt got a k Hd Hin Hs Hz Hk.
  - symmetry in Hs. apply app_nil in Hs as [-> ->]. subst cnt. destruct k as [|k]; [lia|]. exists []. cbn.
    split_and!; [|constructor|done]. rewrite app_nil_r, Hin, with_in_same, insert_id by done. done.
  - destruct e as [s| | |]; try done. cbn [stream] in Hs. cbn [length] in Hk. destruct (Z.le_gt_cases cnt 0) as [Hc|Hc].
    { assert (a = []) as -> by (destruct a; [done|rewrite zlen_cons in Hz; pose proof (zlen_nonneg a); lia]).
      exists (RData s :: evs). change (zlen []) with 0 in Hz. subst cnt. destruct k as [|k]; [lia|]. split_and!; [|by constructor|done]. cbn.
      rewrite app_nil_r, Hin, with_in_same, insert_id by done. done. }
    destruct (Z.le_gt_cases (zlen s) cnt) as [Hle|Hgt].
    + assert (exists a', a = s ++ a' /\ stream evs = a' ++ rest) as (a' & -> & Hs').
      { apply app_eq_inv in Hs as [(t & -> & Hs)|(t & -> & Hs)]; [|by exists t]. rewrite !zlen_app in *. pose proof (zlen_nonneg t).
        assert (t = []) as -> by (destruct t; [done|rewrite zlen_cons in *; pose proof (zlen_nonneg t); lia]). exists []. by rewrite !app_nil_r. }
      rewrite zlen_app in Hz. destruct k as [|k]; [lia|]. rewrite (readn_round _ _ _ _ d _ _ _ s evs) by (done || lia).
      destruct (IH (<[fd := with_in d evs]> fs) (with_in d evs) (cnt - zlen s) (got ++ s) a' k) as (evs' & E & He1 & He2);
        [apply lookup_insert_eq|done|done|lia|lia|]. exists evs'. rewrite E, insert_insert_eq, <- app_assoc. done.
    + assert (exists t, s = a ++ t /\ t <> [] /\ t ++ stream evs = rest) as (t & -> & Ht & Hs').
      { apply app_eq_inv in Hs as [(t & -> & Hs)|(t & -> & Hs)]; [exists t; split_and!; [done| |done]|rewrite zlen_app in *; pose proof (zlen_nonneg t); lia].
        intros ->. rewrite app_nil_r in *. lia. }
      exists (RData t :: evs). split; [|split; [by constructor|done]].
      destruct k as [|[|k]]; [lia..|]. cbn [readn_loop]. rewrite (proj2 (Z.ltb_lt _ _)) by lia. unfold os_read. rewrite Hd, <- Hin.
      rewrite (proj2 (Z.leb_gt _ _)) by lia. cbn [after_call Z.eqb]. rewrite (proj2 (Z.ltb_ge cnt 0)), (proj2 (Z.eqb_neq cnt 0)) by lia.
      rewrite Z.sub_diag. cbn [Z.ltb Z.compare]. assert (Z.to_nat cnt = length a) as -> by (unfold zlen in Hz; lia).
      by rewrite take_app_length, drop_app_length.
Qed.

(** A descriptor on which [s] arrives and nothing goes wrong, and what has been written to it. *)
Record channel (fs : fdtable) (fd : Z) (s w : bytes) : Prop := Channel {
  ch_fd : 0 <= fd;
  ch_desc : exists d, fs !! fd = Some d /\ Forall arrives (d_in d) /\ stream (d_in d) = s /\ Forall (eq WAll) (d_wr d) /\ d_out d = w
}.

Definition same_but (fd : Z) (fs fs' : fdtable) : Prop := forall x, x <> fd -> fs' !! x = fs !! x.

Lemma same_but_trans fd f1 f2 f3 : same_but fd f1 f2 -> same_but fd f2 f3 -> same_but fd f1 f3.
Proof. intros H1 H2 x Hx. by rewrite H2, H1. Qed.

Lemma channel_same fd fs fs' x s w : same_but fd fs fs' -> x <> fd -> channel fs x s w -> channel fs' x s w.
Proof. intros Hs Hx [H1 (d & Hd & H)]. split; [done|]. exists d. by rewrite Hs. Qed.

Lemma readn_ok st fs fd a rest w :
  channel fs fd (a ++ rest) w -> errno st = 0 -> 0 < zlen a < 2 ^ 31 ->
  exists fs', readn st fs fd (zlen a) = Ok (zlen a, a, st, fs') /\ channel fs' fd rest w /\ same_but fd fs fs'.
Proof.
  intros [Hfd (d & Hd & Ha & Hs & Hw & Ho)] He Hz. unfold readn, readn_fuel.
  rewrite (proj2 (Z.leb_le _ _)), (proj2 (Z.ltb_lt _ _)), Hd, i32_small by lia. cbn [assert_]. rewrite !bind_ret.
  destruct (readn_enough st fs fd d (zlen a) (zlen a) [] a rest (S (S (length (d_in d)))) Hd Ha Hs) as (evs & -> & He1 & He2); [done|lia|].
  rewrite He, i32_small by lia. eexists. split; [done|]. split; [|intros x Hx; by rewrite lookup_insert_ne].
  split; [done|]. eexists. rewrite lookup_insert_eq. done.
Qed.

(** *** Every way a read can end *)

(** what the system reports of a read: an error has a number, and it is not the one of an interruption *)
Definition reported (e : rd) : Prop := match e with RErr n => n <> 0 /\ n <> EINTR | _ => True end.

(** after these the loop goes on *)
Definition passes (e : rd) : Prop := match e with RData s => s <> [] | RIntr => True | _ => False end.

Definition interrupts (e : rd) : bool := match e with RIntr => true | _ => false end.

(** what the interruptions among the reads leave in [errno] *)
Definition after_reads (used : list rd) (st : store) : store := if existsb interrupts used then after_call EINTR st else st.

(** the rest of a piece, unless it was used up *)
Definition pending (t : bytes) (evs : list rd) : list rd := match t with [] => evs | _ => RData t :: evs end.

(** How reading [cnt] more bytes ends, [got] being there already: [used] are the events that were passed, fewer than
    [cnt] bytes in all, and the next event decides.  It completes the bytes, and they are
    returned unless [errno] is set; it is the end of the file; it is an error; the reads are
    interrupted for ever. *)
Inductive read_ends (st : store) (fs : fdtable) (fd : Z) (d : desc) (evs : list rd) (cnt : Z) (got : bytes)
  : res (Z * bytes * store * fdtable) -> Prop :=
| ends_full used b t evs' :
    evs = used ++ RData (b ++ t) :: evs' -> Forall passes used -> 0 < zlen b -> zlen (stream used) + zlen b = cnt ->
    read_ends st fs fd d evs cnt got
      (_ ← assert_ (errno (after_reads used st) =? 0);
       Ok (zlen got + cnt, got ++ stream used ++ b, after_reads used st, <[fd := with_in d (pending t evs')]> fs))
| ends_eof used evs' :
    evs = used ++ RData [] :: evs' \/ evs = used /\ evs' = [] -> Forall passes used -> zlen (stream used) < cnt ->
    read_ends st fs fd d evs cnt got
      (Ok (zlen got + zlen (stream used), got ++ stream used, after_reads used st, <[fd := with_in d evs']> fs))
| ends_error used n evs' :
    evs = used ++ RErr n :: evs' -> Forall passes used -> zlen (stream used) < cnt ->
    read_ends st fs fd d evs cnt got (Ok (-1, got ++ stream used, after_call n st, <[fd := with_in d evs']> fs))
| ends_never used evs' :
    evs = used ++ RIntrs :: evs' -> Forall passes used -> zlen (stream used) < cnt ->
    read_ends st fs fd d evs cnt got (Fault NoFuel).

Lemma after_call_idem st : after_call EINTR (after_call EINTR st) = after_call EINTR st.
Proof. by destruct st. Qed.

Lemma after_call_over n st : n <> 0 -> after_call n (after_call EINTR st) = after_call n st.
Proof. intros Hn. unfold after_call. by rewrite (proj2 (Z.eqb_neq n 0)). Qed.

Lemma after_reads_intr used st : after_reads used (after_call EINTR st) = after_call EINTR st.
Proof. unfold after_reads. destruct existsb; [apply after_call_idem|done]. Qed.

Section ReadEnds.
Context (fd : Z) (d : desc) (fs : fdtable).

(** what is done on the descriptor after one event *)
Lemma ends_again evs0 evs st cnt got r :
  read_ends st (<[fd := with_in d evs0]> fs) fd (with_in d evs0) evs cnt got r -> read_ends st fs fd d evs cnt got r.
Proof.
  destruct 1 as [used b t evs' He Hp Hb Hc|used evs' He Hp Hc|used n evs' He Hp Hc|used evs' He Hp Hc]; rewrite ?insert_insert_eq.
  - by apply (ends_full _ _ _ d _ _ _ used b t evs').
  - by apply (ends_eof _ _ _ d _ _ _ used evs').
  - by apply (ends_error _ _ _ d _ _ _ used n evs').
  - by apply (ends_never _ _ _ d _ _ _ used evs').
Qed.

Lemma ends_data st evs cnt got s r :
  s <> [] -> read_ends st fs fd d evs (cnt - zlen s) (got ++ s) r -> read_ends st fs fd d (RData s :: evs) cnt got r.
Proof.
  intros Hs. destruct 1 as [used b t evs' He Hp Hb Hc|used evs' He Hp Hc|used n evs' He Hp Hc|used evs' He Hp Hc];
    rewrite <- ?app_assoc.
  - rewrite zlen_app. replace (zlen got + zlen s + (cnt - zlen s)) with (zlen got + cnt) by lia.
    rewrite (app_assoc s). apply (ends_full st fs fd d _ _ _ (RData s :: used) b t evs');
      [by rewrite He|by constructor|done|cbn [stream]; rewrite zlen_app; lia].
  - rewrite zlen_app, <- Z.add_assoc, <- (zlen_app s). apply (ends_eof st fs fd d _ _ _ (RData s :: used) evs');
      [destruct He as [->|[-> ->]]; [by left|by right]|by constructor|cbn [stream]; rewrite zlen_app; lia].
  - apply (ends_error st fs fd d _ _ _ (RData s :: used) n evs');
      [by rewrite He|by constructor|cbn [stream]; rewrite zlen_app; lia].
  - apply (ends_never st fs fd d _ _ _ (RData s :: used) evs');
      [by rewrite He|by constructor|cbn [stream]; rewrite zlen_app; lia].
Qed.

Lemma ends_intr st evs cnt got r :
  Forall reported evs ->
  read_ends (after_call EINTR st) fs fd d evs cnt got r -> read_ends st fs fd d (RIntr :: evs) cnt got r.
Proof.
  intros Hr. destruct 1 as [used b t evs' He Hp Hb Hc|used evs' He Hp Hc|used n evs' He Hp Hc|used evs' He Hp Hc];
    rewrite ?after_reads_intr.
  - apply (ends_full st fs fd d _ _ _ (RIntr :: used) b t evs'); [by rewrite He|by constructor|done|done].
  - apply (ends_eof st fs fd d _ _ _ (RIntr :: used) evs'); [destruct He as [->|[-> ->]]; [by left|by right]|by constructor|done].
  - rewrite He in Hr. apply Forall_app in Hr as [_ [[Hn _] _]%list.Forall_cons]. rewrite after_call_over by done.
    apply (ends_error st fs fd d _ _ _ (RIntr :: used) n evs'); [by rewrite He|by constructor|done].
  - apply (ends_never st fs fd d _ _ _ (RIntr :: used) evs'); [by rewrite He|by constructor|done].
Qed.

(** the first event decides *)
Lemma ends_eof_now st evs evs' cnt got :
  evs = RData [] :: evs' \/ evs = [] /\ evs' = [] -> 0 < cnt ->
  read_ends st fs fd d evs cnt got (Ok (zlen got, got, st, <[fd := with_in d evs']> fs)).
Proof.
  intros He Hc. pose proof (ends_eof st fs fd d evs cnt got [] evs' He (Forall_nil_2 _) Hc) as E. cbn in E.
  change (zlen []) with 0 in E. by rewrite Z.add_0_r, app_nil_r in E.
Qed.

Lemma ends_error_now st evs n cnt got :
  0 < cnt -> read_ends st fs fd d (RErr n :: evs) cnt got (Ok (-1, got, after_call n st, <[fd := with_in d evs]> fs)).
Proof.
  intros Hc. pose proof (ends_error st fs fd d _ cnt got [] n evs eq_refl (Forall_nil_2 _) Hc) as E. cbn in E. by rewrite app_nil_r in E.
Qed.
End ReadEnds.


(** the count at the end of the file: [size_t] arithmetic that becomes an [int] *)
Lemma i32_short len g c : i32 len = g + c -> 0 <= g -> 0 <= c -> i32 (u64 (len - c)) = g.
Proof.
  intros H Hg Hc. pose proof (Z.mod_pos_bound (len + 2 ^ 31) (2 ^ 32)) as Hb.
  unfold i32 in *. unfold u64. pose proof (Z.div_mod (len + 2 ^ 31) (2 ^ 32)) as Hd.
  set (q := (len + 2 ^ 31) / 2 ^ 32) in *. pose proof (Z.div_mod (len - c) (2 ^ 64)) as Hu. set (p := (len - c) / 2 ^ 64) in *.
  rewrite <- (Z.mod_unique _ (2 ^ 32) (q - 2 ^ 32 * p) (g + 2 ^ 31)); [lia|left; lia|]. lia.
Qed.

Section ReadLoop.
Context (fd len : Z).

(** one read of a piece that is enough *)
Lemma readn_last k st fs d cnt got s evs :
  fs !! fd = Some d -> d_in d = RData s :: evs -> i32 len = zlen got + cnt -> 0 < cnt -> cnt <= zlen s ->
  exists t, s = take (Z.to_nat cnt) s ++ t /\ zlen (take (Z.to_nat cnt) s) = cnt /\
    readn_loop (S (S k)) st fs fd len cnt got
    = (_ ← assert_ (errno st =? 0); Ok (zlen got + cnt, got ++ take (Z.to_nat cnt) s, st, <[fd := with_in d (pending t evs)]> fs)).
Proof.
  intros Hd Hin Hl Hc Hs. exists (drop (Z.to_nat cnt) s). split; [by rewrite take_drop|].
  assert (Hz : zlen (take (Z.to_nat cnt) s) = cnt) by (unfold zlen in *; rewrite length_take; lia). split; [done|].
  cbn [readn_loop]. rewrite (proj2 (Z.ltb_lt 0 cnt)) by lia. unfold os_read. rewrite Hd, Hin. destruct (Z.leb_spec (zlen s) cnt) as [Hle|Hgt].
  - assert (Heq : zlen s = cnt) by lia. rewrite Heq. cbn [after_call Z.eqb].
    rewrite (proj2 (Z.ltb_ge cnt 0)), (proj2 (Z.eqb_neq cnt 0)), Z.sub_diag by lia. cbn [Z.ltb Z.compare].
    rewrite Hl, drop_ge by (unfold zlen in *; lia). rewrite take_ge by (unfold zlen in *; lia). done.
  - cbn [after_call Z.eqb]. rewrite (proj2 (Z.ltb_ge cnt 0)), (proj2 (Z.eqb_neq cnt 0)), Z.sub_diag by lia. cbn [Z.ltb Z.compare].
    rewrite Hl. destruct (drop (Z.to_nat cnt) s) eqn:E; [|done].
    apply (f_equal length) in E. rewrite length_drop in E. unfold zlen in *. cbn in E. lia.
Qed.

(** reads that are interrupted for ever *)
Lemma readn_storm k st fs d cnt got used evs :
  fs !! fd = Some d -> d_in d = used ++ RIntrs :: evs -> Forall passes used -> zlen (stream used) < cnt ->
  readn_loop k st fs fd len cnt got = Fault NoFuel.
Proof.
  revert st fs d cnt got used. induction k as [|k IH]; intros st fs d cnt got used Hd Hin Hp Hc; [done|].
  pose proof (zlen_nonneg (stream used)). destruct Hp as [|e used He Hp]; [|destruct e as [s| | |]; try done].
  - cbn [readn_loop]. rewrite (proj2 (Z.ltb_lt _ _)) by lia. unfold os_read. rewrite Hd, Hin. cbn [app Z.ltb Z.compare].
    change (errno (after_call EINTR st) =? EINTR) with true. cbv iota. by apply (IH _ _ d cnt got []).
  - cbn [stream] in Hc. rewrite zlen_app in Hc. pose proof (zlen_nonneg (stream used)).
    rewrite (readn_round _ _ _ _ d _ _ _ s (used ++ RIntrs :: evs)) by (done || lia).
    apply (IH _ _ (with_in d (used ++ RIntrs :: evs)) _ _ used); [apply lookup_insert_eq|done|done|lia].
  - cbn [stream] in *. rewrite (readn_again _ _ _ _ d _ _ _ (used ++ RIntrs :: evs)) by (done || lia).
    apply (IH _ _ (with_in d (used ++ RIntrs :: evs)) _ _ used); [apply lookup_insert_eq|done|done|done].
Qed.

(** every script *)
Lemma readn_loop_ends k st fs d cnt got :
  fs !! fd = Some d -> Forall reported (d_in d) -> 0 < cnt -> i32 len = zlen got + cnt -> (S (length (d_in d)) < k)%nat ->
  read_ends st fs fd d (d_in d) cnt got (readn_loop k st fs fd len cnt got).
Proof.
  remember (d_in d) as evs eqn:Hin. intros Hd Hr. revert k st fs d cnt got Hin Hd.
  induction Hr as [|e evs He Hr IH]; intros k st fs d cnt got Hin Hd Hc Hl Hk; (destruct k as [|[|k]]; [cbn in Hk; lia..|]);
    pose proof (zlen_nonneg got); cbn [length] in Hk.
  { cbn [readn_loop]. rewrite (proj2 (Z.ltb_lt _ _)) by lia. unfold os_read. rewrite Hd, <- Hin. cbn [after_call Z.eqb Z.ltb Z.compare].
    rewrite (i32_short len (zlen got) cnt) by lia. pose proof (ends_eof_now fd d fs st [] [] cnt got (or_intror (conj eq_refl eq_refl)) Hc) as E.
    replace (with_in d []) with d in E by (by rewrite Hin, with_in_same). by rewrite (insert_id fs fd d Hd) in E. }
  destruct e as [s| | |n].
  - destruct (decide (s = [])) as [->|Hs]; [|destruct (Z.le_gt_cases cnt (zlen s)) as [Hge|Hlt]].
    + cbn [readn_loop]. rewrite (proj2 (Z.ltb_lt _ _)) by lia. unfold os_read. rewrite Hd, <- Hin.
      change (zlen []) with 0. rewrite (proj2 (Z.leb_le 0 cnt)) by lia. cbn [after_call Z.eqb Z.ltb Z.compare].
      rewrite (i32_short len (zlen got) cnt) by lia. apply (ends_eof_now fd d fs); [by left|done].
    + destruct (readn_last k st fs d cnt got s evs) as (t & Es & Hz & ->); [done..|].
      apply (ends_full st fs fd d _ cnt got [] (take (Z.to_nat cnt) s) t evs); [by rewrite Es at 1|constructor|lia|done].
    + rewrite (readn_round _ _ _ _ d _ _ _ s evs) by (done || lia). apply ends_data; [done|]. apply (ends_again fd d fs evs).
      apply IH; [done|apply lookup_insert_eq|lia|rewrite zlen_app; lia|lia].
  - rewrite (readn_again _ _ _ _ d _ _ _ evs) by done. apply ends_intr; [done|]. apply (ends_again fd d fs evs).
    apply (IH (S k)); [done|apply lookup_insert_eq|lia..].
  - rewrite (readn_storm _ _ _ d _ _ [] evs); [|done..]. by apply (ends_never st fs fd d _ cnt got [] evs); [|constructor|].
  - cbn [readn_loop]. rewrite (proj2 (Z.ltb_lt _ _)) by lia. unfold os_read. rewrite Hd, <- Hin. cbn [Z.ltb Z.compare].
    destruct He as [Hn He]. rewrite (proj2 (Z.eqb_neq (errno _) EINTR)); [|unfold after_call; by rewrite (proj2 (Z.eqb_neq n 0))].
    by apply (ends_error_now fd d fs).
Qed.
End ReadLoop.

(** ** Frames and nodes *)

Lemma ntohs_frame n : 0 <= n < 2 ^ 16 -> ntohs (be16 n) = n.
Proof.
  intros Hn. unfold ntohs, be16. rewrite !bv_uchar. rewrite (Z.mod_small (n / 256)); [pose proof (Z.div_mod n 256); lia|].
  split; [apply Z.div_pos; lia|apply Z.div_lt_upper_bound; lia].
Qed.

Lemma readframe_ok st fs fd data more w :
  channel fs fd (frame data ++ more) w -> good st -> 0 < zlen data < 2 ^ 16 ->
  exists fs', readframe st fs fd = Ok (Some data, st, fs') /\ channel fs' fd more w /\ same_but fd fs fs'.
Proof.
  intros Hc Hg Hlen. unfold readframe. unfold frame in Hc. rewrite <- app_assoc in Hc. pose proof Hc as [Hfd _].
  rewrite assert_true, bind_ret by lia.
  destruct (readn_ok st fs fd (be16 (zlen data)) _ w Hc (good_errno _ Hg)) as (f1 & E1 & Hc1 & Hs1); [done|].
  change (zlen (be16 (zlen data))) with 2 in E1. rewrite E1, bind_ret, check_good by done. rewrite Z.eqb_refl. cbn [negb].
  rewrite ntohs_frame by lia.
  destruct (readn_ok st f1 fd data _ w Hc1 (good_errno _ Hg)) as (f2 & -> & Hc2 & Hs2); [lia|].
  rewrite bind_ret, check_good, Z.eqb_refl by done. exists f2. split_and!; [done|done|by eapply same_but_trans].
Qed.

Lemma readnodes_ok st fs fd hn hf z1 bn bf z2 more w :
  let data := gtext hn hf ++ z1 ++ gtext bn bf ++ z2 in
  is_word hn -> is_word bn -> wf hf -> wf bf -> newlines z1 -> newlines z2 ->
  zlen data < 2 ^ 16 -> channel fs fd (frame data ++ more) w -> good st ->
  exists lh lb st' fs' Fh Fb, readnodes st fs fd = Ok (Some lb, Some lh, st', fs') /\
    channel fs' fd more w /\ same_but fd fs fs' /\ good st' /\ keeps_but ∅ st st' /\
    rep true (nodes st') None (Some lh) (grp hn hf) Fh /\ rep true (nodes st') None (Some lb) (grp bn bf) Fb /\ Fh ## Fb /\
    (Fh ∪ Fb) ## dom (nodes st).
Proof.
  intros data Hh Hb Hhv Hbv H1 H2 Hlen Hc Hg. pose proof (gtext_pos hn hf Hh). pose proof Hc as [Hfd _].
  assert (0 < zlen data) by (unfold data; rewrite !zlen_app; pose proof (zlen_nonneg z1); pose proof (zlen_nonneg z2); pose proof (zlen_nonneg (gtext bn bf)); lia).
  unfold readnodes. rewrite assert_true, bind_ret by lia. destruct (readframe_ok st fs fd data more w Hc Hg) as (fs' & -> & Hc' & Hs'); [lia|].
  rewrite bind_ret, check_good by done. rewrite bool_decide_eq_true_2 by eauto. cbn [negb need]. rewrite bind_ret.
  destruct (parse_two st hn hf z1 bn bf z2) as (lh & lb & s1 & s2 & Fh & Fb & E1 & E2 & Hg1 & Hg2 & Hrest); [done..|fold data; lia|done|].
  fold data in E1, E2. rewrite E1, bind_ret, check_good by done. rewrite bool_decide_eq_true_2 by done. cbn [negb]. rewrite E2, bind_ret.
  exists lh, lb, s2, fs', Fh, Fb. do 4 (split; [done|]). exact Hrest.
Qed.

(** a parse that starts at the end of the buffer finds nothing *)
Lemma parse_end buf st : ends_in_space buf = true -> good st ->
  exists n, Node_parse_seq (parse_fuel buf) buf (zlen buf) st = Ok (None, n, st).
Proof.
  intros Hend Hg. unfold Node_parse_seq. rewrite check_good, Hend by done. cbn [negb]. unfold stackish_parser_execute.
  rewrite assert_true, bind_ret by lia. assert (from_pos buf (zlen buf) = []) as -> by (unfold from_pos; apply drop_ge; unfold zlen; lia).
  cbn [Ragel.exec].
  rewrite bind_ret. cbv beta iota. rewrite assert_true, !bind_ret by lia. cbv beta iota.
  rewrite check_good by done. eexists. reflexivity.
Qed.

Lemma readnodes_one st fs fd hn hf z more w :
  let data := gtext hn hf ++ z in
  is_word hn -> wf hf -> newlines z -> zlen data < 2 ^ 16 -> channel fs fd (frame data ++ more) w -> good st ->
  exists lh st' fs' Fh, readnodes st fs fd = Ok (None, Some lh, st', fs') /\
    channel fs' fd more w /\ same_but fd fs fs' /\ good st' /\ extends_by Fh st st' /\
    rep true (nodes st') None (Some lh) (grp hn hf) Fh.
Proof.
  intros data Hh Hhv Hz Hlen Hc Hg. pose proof (gtext_pos hn hf Hh). pose proof Hc as [Hfd _].
  assert (Hld : zlen data = zlen (gtext hn hf) + zlen z) by apply zlen_app. pose proof (zlen_nonneg z).
  unfold readnodes. rewrite assert_true, bind_ret by lia. destruct (readframe_ok st fs fd data more w Hc Hg) as (fs' & -> & Hc' & Hs'); [lia|].
  rewrite bind_ret, check_good by done. rewrite bool_decide_eq_true_2 by eauto. cbn [negb need]. rewrite bind_ret.
  assert (Hend : ends_in_space data = true) by (by apply (gtext_ends [])).
  destruct (parse_grp_at st hn hf [] z Hh Hhv) as (lh & s1 & Fh & E1 & Hr1 & Hg1 & Hx1); [cbn [app]; fold data; lia|done|done|].
  cbn [app] in E1. fold data in E1. change (zlen []) with 0 in E1.
  rewrite <- (app_nil_r z), skip_newlines, Z.add_0_l, <- Hld in E1 by done.
  rewrite E1, bind_ret, check_good by done. rewrite bool_decide_eq_true_2 by done. cbn [negb].
  destruct (parse_end data s1 Hend Hg1) as [n ->]. rewrite bind_ret. exists lh, s1, fs', Fh. by do 5 (split; [done|]).
Qed.

Lemma writev_ok fs fd s w t :
  channel fs fd s w -> exists fs', os_writev fs fd t = (zlen t, 0, fs') /\ channel fs' fd s (w ++ t) /\ same_but fd fs fs'.
Proof.
  intros [Hfd (d & Hd & Ha & Hs & Hw & <-)]. unfold os_writev. rewrite Hd.
  assert (take (Z.to_nat (zlen t)) t = t) as -> by (apply take_ge; unfold zlen; lia).
  assert (exists evs, Forall (eq WAll) evs /\
    match d_wr d with
    | [] => (zlen t, 0, <[fd := Desc (d_in d) [] (d_out d ++ t)]> fs)
    | WAll :: evs => (zlen t, 0, <[fd := Desc (d_in d) evs (d_out d ++ t)]> fs)
    | WPart n :: evs => (Z.min n (zlen t), 0, <[fd := Desc (d_in d) evs (d_out d ++ take (Z.to_nat n) t)]> fs)
    | WErr e :: evs => (-1, e, <[fd := Desc (d_in d) evs (d_out d ++ take (Z.to_nat 0) t)]> fs)
    end = (zlen t, 0, <[fd := Desc (d_in d) evs (d_out d ++ t)]> fs)) as (evs & He & ->).
  { destruct Hw as [|e evs <- Hw]; [by exists []|by exists evs]. }
  eexists. split; [done|]. split; [|intros x Hx; by rewrite lookup_insert_ne].
  split; [done|]. eexists. by rewrite lookup_insert_eq.
Qed.

(** the text of a frame that is about to be written *)
Lemma write_text_ok st fs fd s w h :
  channel fs fd s w -> good st -> 0 < zlen h < 2 ^ 16 ->
  exists fs', write_header_node st fs fd (Some h) None = Ok (2 + zlen h, h, st, fs') /\
    channel fs' fd s (w ++ frame h) /\ same_but fd fs fs'.
Proof.
  intros Hc Hg Hlen. pose proof Hc as [Hfd _]. unfold write_header_node. cbn [need]. rewrite bind_ret, assert_true, !bind_ret by lia.
  rewrite u16_small by lia. destruct (writev_ok fs fd s w (htons (zlen h) ++ h) Hc) as (fs' & -> & Hc' & Hs').
  rewrite check_good by done. exists fs'. split_and!; [|done|done]. by rewrite zlen_app.
Qed.

Lemma write_body_eq st fs fd h l nm f F :
  rep true (nodes st) None (Some l) (grp nm f) F -> wf f ->
  write_header_node st fs fd (Some h) (Some l) = write_header_node st fs fd (Some (h ++ gtext nm f)) None.
Proof.
  intros Hr Hv. unfold write_header_node. cbn [need]. rewrite !bind_ret. destruct (assert_ _) as [[]|]; [|done]. rewrite !bind_ret.
  by rewrite (cat_grp _ _ _ _ _ _ Hr Hv), bind_ret.
Qed.

Lemma write_header_ok st fs fd s w h l nm f F :
  channel fs fd s w -> good st -> rep true (nodes st) None (Some l) (grp nm f) F -> is_word nm -> wf f ->
  zlen h + zlen (gtext nm f) < 2 ^ 16 ->
  exists rc fs', write_header_node st fs fd (Some h) (Some l) = Ok (rc, h ++ gtext nm f, st, fs') /\ 0 < rc /\
    channel fs' fd s (w ++ frame (h ++ gtext nm f)) /\ same_but fd fs fs'.
Proof.
  intros Hc Hg Hr Hw Hv Hlen. rewrite (write_body_eq _ _ _ _ _ _ _ _ Hr Hv). pose proof (gtext_pos nm f Hw). pose proof (zlen_nonneg h).
  destruct (write_text_ok st fs fd s w (h ++ gtext nm f) Hc Hg) as (fs' & -> & H1 & H2); [rewrite zlen_app; lia|].
  exists (2 + zlen (h ++ gtext nm f)), fs'. split_and!; [done| |done|done]. pose proof (zlen_nonneg (h ++ gtext nm f)). lia.
Qed.

Lemma writenodes_ok st fs fd s w lh lb hn hf bn bf Fh Fb :
  channel fs fd s w -> good st -> rep true (nodes st) None (Some lh) (grp hn hf) Fh -> rep true (nodes st) None (Some lb) (grp bn bf) Fb ->
  is_word hn -> is_word bn -> wf hf -> wf bf -> zlen (gtext hn hf) + zlen (gtext bn bf) < 2 ^ 16 ->
  exists rc fs', writenodes st fs fd (Some lh) (Some lb) = Ok (rc, st, fs') /\ 0 < rc /\
    channel fs' fd s (w ++ frame (gtext hn hf ++ gtext bn bf)) /\ same_but fd fs fs'.
Proof.
  intros Hc Hg Hrh Hrb Hh Hb Hhv Hbv Hlen. pose proof Hc as [Hfd _]. unfold writenodes. rewrite !assert_true, !bind_ret by (done || lia).
  rewrite (cat_grp _ _ _ _ _ _ Hrh Hhv), bind_ret. cbn [app].
  destruct (write_header_ok st fs fd s w (gtext hn hf) lb bn bf Fb) as (rc & fs' & -> & Hrc & H1 & H2); [done..|].
  rewrite bind_ret, check_good by done. exists rc, fs'. by split_and!.
Qed.

Lemma writenodes_header st fs fd s w lh hn hf Fh :
  channel fs fd s w -> good st -> rep true (nodes st) None (Some lh) (grp hn hf) Fh ->
  is_word hn -> wf hf -> zlen (gtext hn hf) < 2 ^ 16 ->
  exists rc fs', writenodes st fs fd (Some lh) None = Ok (rc, st, fs') /\ 0 < rc /\
    channel fs' fd s (w ++ frame (gtext hn hf)) /\ same_but fd fs fs'.
Proof.
  intros Hc Hg Hrh Hh Hhv Hlen. pose proof Hc as [Hfd _]. pose proof (gtext_pos hn hf Hh). unfold writenodes. rewrite !assert_true, !bind_ret by (done || lia).
  rewrite (cat_grp _ _ _ _ _ _ Hrh Hhv), bind_ret. cbn [app].
  destruct (write_text_ok st fs fd s w (gtext hn hf)) as (fs' & -> & H1 & H2); [done|done|lia|].
  rewrite bind_ret, check_good by done. exists (2 + zlen (gtext hn hf)), fs'. split_and!; [done|lia|done|done].
Qed.

(** ** The theorems *)

(** C32: every way [readn] ends, for any descriptor and any [size_t] [len].  The count is an [int]: where [len] does
    not convert to a positive one, nothing is read and the converted value is returned.  Otherwise
    ([read_ends]) that many bytes are collected over any pieces and interruptions, and returned, or the
    assertion on [errno] fails because it was set before or by an interruption; fewer bytes are
    returned only when the end of the file is next, -1 only when an error is next; what was not asked
    for stays on the descriptor.  It does not return only when the reads are interrupted for
    ever before the bytes are there, and then no number of rounds is enough. *)
Theorem readn_returns st fs fd d len :
  0 <= fd -> 0 < len < 2 ^ 64 -> fs !! fd = Some d -> Forall reported (d_in d) ->
  let r := readn st fs fd len in
  (i32 len <= 0 -> r = (_ ← assert_ (errno st =? 0); Ok (i32 len, [], st, fs))) /\
  (0 < i32 len -> read_ends st fs fd d (d_in d) (i32 len) [] r) /\
  (r = Fault NoFuel -> forall k, readn_loop k st fs fd len (i32 len) [] = Fault NoFuel).
Proof.
  intros Hfd Hlen Hd Hr. unfold readn, readn_fuel. rewrite !assert_true, !bind_ret, Hd by lia. cbv zeta.
  assert (Hpos : 0 < i32 len -> read_ends st fs fd d (d_in d) (i32 len) [] (readn_loop (S (S (length (d_in d)))) st fs fd len (i32 len) [])).
  { intros Hp. apply readn_loop_ends; [done|done|done|done|lia]. }
  assert (Hneg : i32 len <= 0 -> forall k, readn_loop (S k) st fs fd len (i32 len) [] = (_ ← assert_ (errno st =? 0); Ok (i32 len, [], st, fs))).
  { intros Hn k. cbn [readn_loop]. by rewrite (proj2 (Z.ltb_ge 0 (i32 len))). }
  split_and!; [intros Hn; by apply Hneg|done|]. intros E k. destruct (Z.le_gt_cases (i32 len) 0) as [Hn|Hp].
  - rewrite Hneg in E by done. by destruct (errno st =? 0).
  - specialize (Hpos Hp). rewrite E in Hpos. inversion Hpos as [used b t evs' _ _ _ _ Hf| | |used evs' He Hu Hc]; subst.
    + by destruct (errno (after_reads used st) =? 0).
    + by eapply readn_storm.
Qed.

Lemma readn_returns_witness :
  let d := Desc [RData (lit "ab"); RIntr; RData (lit "c"); RData []; RErr 5] [] [] in
  read_ends empty_store {[0 := d]} 0 d (d_in d) 4 [] (readn empty_store {[0 := d]} 0 4) /\
  readn empty_store {[0 := d]} 0 (2 ^ 31) = Ok (- 2 ^ 31, [], empty_store, {[0 := d]}).
Proof.
  intros d. assert (Hr : Forall reported (d_in d)) by (cbn; rewrite !list.Forall_cons; cbn; split_and!; done). split.
  - refine (proj1 (proj2 (readn_returns empty_store {[0 := d]} 0 d 4 _ _ eq_refl Hr)) _); [lia|lia|done].
  - refine (proj1 (readn_returns empty_store {[0 := d]} 0 d (2 ^ 31) _ _ eq_refl Hr) _); [lia|lia|done].
Defined.

(** C18: nodes that one process writes are the nodes another reads: for any header and body, [writenodes] succeeds and
    leaves a frame from which [readnodes] gets the same two trees, in whatever pieces it
    arrives and whatever comes behind it. *)
Theorem nodes_roundtrip st fs fd s w lh lb hn hf bn bf Fh Fb st2 fs2 fd2 more w2 :
  is_word hn -> is_word bn -> wf hf -> wf bf -> zlen (gtext hn hf) + zlen (gtext bn bf) < 2 ^ 16 ->
  channel fs fd s w -> good st ->
  rep true (nodes st) None (Some lh) (grp hn hf) Fh -> rep true (nodes st) None (Some lb) (grp bn bf) Fb ->
  let data := gtext hn hf ++ gtext bn bf in
  channel fs2 fd2 (frame data ++ more) w2 -> good st2 ->
  exists rc fs' lh2 lb2 st2' fs2' Fh2 Fb2,
    writenodes st fs fd (Some lh) (Some lb) = Ok (rc, st, fs') /\ 0 < rc /\ channel fs' fd s (w ++ frame data) /\
    readnodes st2 fs2 fd2 = Ok (Some lb2, Some lh2, st2', fs2') /\ channel fs2' fd2 more w2 /\
    rep true (nodes st2') None (Some lh2) (grp hn hf) Fh2 /\ rep true (nodes st2') None (Some lb2) (grp bn bf) Fb2 /\ Fh2 ## Fb2.
Proof.
  intros Hh Hb Hhv Hbv Hlen Hc Hg Hrh Hrb data Hc2 Hg2.
  destruct (writenodes_ok st fs fd s w lh lb hn hf bn bf Fh Fb) as (rc & fs' & E1 & Hrc & H1 & _); [done..|].
  assert (Hd : data = gtext hn hf ++ [] ++ gtext bn bf ++ []) by (cbn [app]; by rewrite app_nil_r).
  rewrite Hd in Hc2. destruct (readnodes_ok st2 fs2 fd2 hn hf [] bn bf [] more w2) as (lh2 & lb2 & st2' & fs2' & Fh2 & Fb2 & E2 & H2 & _ & _ & _ & R1 & R2 & D & _);
    [done..|by rewrite <- Hd; unfold data; rewrite zlen_app|done|done|].
  exists rc, fs', lh2, lb2, st2', fs2', Fh2, Fb2. by split_and!.
Qed.

Lemma nodes_roundtrip_witness :
  exists rc fs' lb lh st2 fs2,
    let data := gtext (lit "doc") (flat [FNum 7]) ++ gtext (lit "doc") (flat [FNum 7]) in
    writenodes seven_store {[1 := Desc [] [] []]} 1 (Some 1%positive) (Some 1%positive) = Ok (rc, seven_store, fs') /\
    readnodes empty_store {[0 := Desc (map (fun b => RData [b]) (frame data)) [] []]} 0 = Ok (Some lb, Some lh, st2, fs2).
Proof.
  set (data := gtext (lit "doc") (flat [FNum 7]) ++ gtext (lit "doc") (flat [FNum 7])).
  destruct (nodes_roundtrip seven_store {[1 := Desc [] [] []]} 1 [] [] 1%positive 1%positive (lit "doc") (flat [FNum 7]) (lit "doc") (flat [FNum 7])
    ({[1%positive]} ∪ ({[2%positive]} ∪ ∅ ∪ ∅) ∪ ∅) ({[1%positive]} ∪ ({[2%positive]} ∪ ∅ ∪ ∅) ∪ ∅) empty_store {[0 := Desc (map (fun b => RData [b]) (frame data)) [] []]} 0 [] []) as (rc & fs' & lh2 & lb2 & st2' & fs2' & Fh2 & Fb2 & E1 & _ & _ & E2 & _).
  - cbn. repeat constructor.
  - cbn. repeat constructor.
  - cbn. repeat split; lia.
  - cbn. repeat split; lia.
  - vm_compute. done.
  - split; [lia|]. eexists. split; [apply lookup_singleton_eq|]. by repeat constructor.
  - exact seven_good.
  - exact seven_rep.
  - exact seven_rep.
  - split; [lia|]. eexists. split; [apply lookup_singleton_eq|]. cbn [d_in d_wr d_out]. split_and!; [|done|constructor|done].
    apply Forall_map, list.Forall_true. done.
  - split; [done|]. intros l _. apply lookup_empty.
  - exists rc, fs', lb2, lh2, st2', fs2'. split; [exact E1|exact E2].
Defined.

(** a read that is interrupted stops the client: [readn] starts it again, as its comment says, but the value the
    interruption left in [errno] fails the assertion at its end, although all bytes have arrived. *)
Theorem interrupted_read_aborts st fs fd d len evs1 evs2 :
  0 <= fd -> fs !! fd = Some d -> d_in d = evs1 ++ RIntr :: evs2 -> Forall arrives evs1 -> Forall arrives evs2 ->
  zlen (stream evs1) < len <= zlen (stream (evs1 ++ evs2)) -> len < 2 ^ 31 -> readn st fs fd len = Fault AssertFail.
Proof.
  intros Hfd Hd Hin H1 H2 Hlen Hmax. pose proof (zlen_nonneg (stream evs1)). unfold readn, readn_fuel. rewrite !assert_true, !bind_ret, Hd, Hin, i32_small by lia.
  assert (Hs : stream (evs1 ++ evs2) = stream evs1 ++ stream evs2).
  { clear. induction evs1 as [|[] evs1 IH]; [done|..]; cbn [app stream]; rewrite IH; [by rewrite app_assoc|done..]. }
  rewrite Hs, zlen_app in Hlen. set (cnt := len - zlen (stream evs1)).
  rewrite length_app. cbn [length]. replace (S (S (length evs1 + S (length evs2)))) with (length evs1 + S (S (S (length evs2))))%nat by lia.
  set (k := S (S (length evs2))).
  rewrite (readn_pieces _ _ _ _ d _ _ _ evs1 (RIntr :: evs2)) by (done || lia). cbn [app]. fold cnt.
  rewrite (readn_again _ _ _ _ (with_in d (RIntr :: evs2)) _ _ _ evs2); [|apply lookup_insert_eq|done|unfold cnt; lia].
  rewrite insert_insert_eq. change (with_in (with_in d (RIntr :: evs2)) evs2) with (with_in d evs2).
  set (fs2 := <[fd := with_in d evs2]> fs).
  destruct (readn_enough (after_call EINTR st) fs2 fd (with_in d evs2) len cnt (stream evs1) (take (Z.to_nat cnt) (stream evs2)) (drop (Z.to_nat cnt) (stream evs2)) k)
    as (evs & E & _); [apply lookup_insert_eq|done|by rewrite take_drop|unfold zlen in *; rewrite length_take; lia|cbn; lia|]. 
  etransitivity; [exact E|]. done.
Qed.

Lemma interrupted_read_aborts_witness :
  readn empty_store {[0 := Desc [RData (lit "a"); RIntr; RData (lit "bc")] [] []]} 0 2 = Fault AssertFail.
Proof.
  refine (interrupted_read_aborts empty_store _ 0 (Desc [RData (lit "a"); RIntr; RData (lit "bc")] [] []) 2 [RData (lit "a")] [RData (lit "bc")] _ _ _ _ _ _ _).
  - lia.
  - reflexivity.
  - reflexivity.
  - by repeat constructor.
  - by repeat constructor.
  - vm_compute; split; [done|discriminate].
  - lia.
Defined.

(** An empty frame stops the client: the two bytes of a length of 0 make [readframe] ask for no bytes, which [readn]
    asserts against. *)
Lemma empty_frame_aborts st fs fd more w :
  channel fs fd ([Byte.x00; Byte.x00] ++ more) w -> good st -> readframe st fs fd = Fault AssertFail.
Proof.
  intros Hc Hg. pose proof Hc as [Hfd _]. unfold readframe. rewrite assert_true, bind_ret by lia.
  destruct (readn_ok st fs fd [Byte.x00; Byte.x00] more w Hc (good_errno _ Hg)) as (f1 & E1 & [_ (d & Hd & _)] & _); [done|].
  change (zlen [Byte.x00; Byte.x00]) with 2 in E1. rewrite E1, bind_ret, check_good by done. cbn [Z.eqb negb Pos.eqb].
  unfold readn. rewrite (proj2 (Z.leb_le 0 fd) Hfd). done.
Qed.

(** A port is sent as it was given, although it passes through a [short]; a larger number is taken modulo 2^16. *)
Lemma port_wraps p : port_bytes p = htons (p mod 2 ^ 16).
Proof.
  unfold port_bytes, u16, i16. rewrite Zminus_mod_idemp_l. do 2 f_equal. lia.
Qed.

End ClientIoProps.
