(* ===== verification/Proxy.v ===== *)
(** * Proxy: the client's link between a listener and a hub, [src/src/client/proxy.c]

    A proxy reads its configuration from the listener, makes the key exchange with the hub and then
    passes messages both ways, encrypting on the side of the hub only.  The strings of the
    [Proxy] structure and of its [CryptState] are handed to nodes and freed with them, so each
    field says whether it is NULL, live or freed.  [check_err] is the macro of
    [errors.h]: it reports to the listener and then evaluates its condition again. *)

From Stdlib Require Import ZArith Lia.
From S2P Require Import Prelude Cstdlib Node NodeFormat Stackish Crypto Signing Frame ClientIo.
Import Cstdlib Node NodeFormat Stackish Crypto Signing Frame ClientIo.
Local Open Scope Z_scope.

Module Proxy.

Inductive UtuMendicantErrorCode :=
  | INVALID_HUB | INVALID_CLIENT | STACKISH | HUB_IO | LISTENER_IO | IO | CRYPTO | NET
  | PEER_ESTABLISH | PEER_VERIFY | CONFIG.

Definition UTU_ERR (c : UtuMendicantErrorCode) : Z :=
  match c with
  | INVALID_HUB => 400 | INVALID_CLIENT => 401 | STACKISH => 402 | HUB_IO => 403 | LISTENER_IO => 404 | IO => 405
  | CRYPTO => 406 | NET => 407 | PEER_ESTABLISH => 408 | PEER_VERIFY => 409 | CONFIG => 410
  end.

Inductive ProxyClientType := PROXY_CLIENT_NONE | PROXY_CLIENT_DOMAIN | PROXY_CLIENT_FIFO | PROXY_CLIENT_STDIO.

Record proxy_client := Client { cl_name : bstr; cl_key : bstr; read_fd : Z; write_fd : Z }.
Record proxy_host := Host { hs_host : bstr; hs_port : bstr; hs_name : bstr; hs_key : bstr; hs_fd : Z }.

Record Proxy (E S : Type) := mkProxy {
  client : proxy_client;
  host : proxy_host;
  state : option (CryptState E S);
  host_given_key : bstr
}.
Arguments mkProxy {E S}.
Arguments client {E S}.
Arguments host {E S}.
Arguments state {E S}.
Arguments host_given_key {E S}.

(** the proxy, the nodes and [errno], the generator, the descriptors *)
Record pworld (E S R : Type) := PWorld { conn : Proxy E S; w_st : store; w_rng : R; w_fds : fdtable }.
Arguments PWorld {E S R}.
Arguments conn {E S R}.
Arguments w_st {E S R}.
Arguments w_rng {E S R}.
Arguments w_fds {E S R}.

Section Setters.
Context {E S R : Type}.
Abbreviation pw := (pworld E S R).
Implicit Types w : pw.

Definition put_conn (c : Proxy E S) w : pw := PWorld c (w_st w) (w_rng w) (w_fds w).
Definition put_io (st : store) (fs : fdtable) w : pw := PWorld (conn w) st (w_rng w) fs.
Definition set_st (st : store) w : pw := put_io st (w_fds w) w.
Definition on_client (f : proxy_client -> proxy_client) w : pw :=
  put_conn (mkProxy (f (client (conn w))) (host (conn w)) (state (conn w)) (host_given_key (conn w))) w.
Definition on_host (f : proxy_host -> proxy_host) w : pw :=
  put_conn (mkProxy (client (conn w)) (f (host (conn w))) (state (conn w)) (host_given_key (conn w))) w.
Definition set_state (s : option (CryptState E S)) w : pw :=
  put_conn (mkProxy (client (conn w)) (host (conn w)) s (host_given_key (conn w))) w.
Definition set_given (k : bstr) w : pw :=
  put_conn (mkProxy (client (conn w)) (host (conn w)) (state (conn w)) k) w.

Definition set_hkey (k : bstr) (h : proxy_host) : proxy_host := Host (hs_host h) (hs_port h) (hs_name h) k (hs_fd h).
Definition set_hfd (fd : Z) (h : proxy_host) : proxy_host := Host (hs_host h) (hs_port h) (hs_name h) (hs_key h) fd.
Definition set_ckey (k : bstr) (c : proxy_client) : proxy_client := Client (cl_name c) k (read_fd c) (write_fd c).
Definition set_fds (r wr : Z) (c : proxy_client) : proxy_client := Client (cl_name c) (cl_key c) r wr.

(** a function of [crypto.c] on the state of the proxy *)
Definition crypt {A} w (f : cworld E S R -> res (A * cworld E S R)) : res (A * pw) :=
  cs ← need NullDeref (state (conn w));
  '(a, c) ← f (CWorld cs (w_st w) (w_rng w));
  Ok (a, PWorld (mkProxy (client (conn w)) (host (conn w)) (Some (c_cs c)) (host_given_key (conn w))) (c_st c) (c_rng c) (w_fds w)).

Definition destroyn w (n : option loc) : res pw := st ← Node_destroy (w_st w) n; Ok (set_st st w).
Definition check_w w (b : bool) : bool * pw := let '(ok, st) := check (w_st w) b in (ok, set_st st w).
End Setters.

Definition of_option (s : option bytes) : bstr := match s with Some s => SLive s | None => SNull end.
Definition is_null (b : bstr) : bool := match b with SNull => true | _ => false end.

(** [biseq(a, b)] as a condition: comparing with NULL gives -1, which is true *)
Definition biseq (a b : bstr) : res bool :=
  match a, b with
  | SNull, _ | _, SNull => Ok true
  | SLive s, SLive t => Ok (bool_decide (s = t))
  | _, _ => Fault BadPointer
  end.

(** ["%s"] of [bdata(b)]; C leaves the output for NULL open, the GNU library prints this *)
Definition fmt_s (b : bstr) : res bytes :=
  match b with SLive s => Ok (cstr s) | SNull => Ok (lit "(null)") | SFreed => Fault BadPointer end.

Section Ops.
Context {E S R : Type} `{!Ltc E S R}.
Abbreviation pw := (pworld E S R).
Implicit Types w : pw.

(** ** Errors *)

Definition Proxy_error w (code : UtuMendicantErrorCode) (message : bytes) : res pw :=
  '(err, st) ← Node_cons (w_st w) (lit "[nbw") [CANum (UTU_ERR code); CABstr (Some message); CACstr (Some (lit "err"))];
  _ ← Node_dump st err true;
  '(_, st, fs) ← writenodes st (w_fds w) (write_fd (client (conn w))) err None;
  destroyn (put_io st fs w) err.

(** [check_err(T,N,M)] where evaluating [T] changes nothing; [false]: control goes to the
    failure label *)
Definition check_err w (t : bool) (code : UtuMendicantErrorCode) (message : bytes) : res (bool * pw) :=
  if t then Ok (true, w) else
  w ← Proxy_error w code message;
  Ok (check_w w t).

(** and where it does: [T] is evaluated a second time after a failure *)
Definition check_err_call w (t : pw -> res (bool * pw)) (code : UtuMendicantErrorCode) (message : bytes) : res (bool * pw) :=
  '(b, w) ← t w;
  if b : bool then Ok (true, w) else
  w ← Proxy_error w code message;
  '(b, w) ← t w;
  Ok (check_w w b).

(** ** Life *)

Definition Proxy_destroy w : res pw :=
  let fs := os_close (os_close (w_fds w) (write_fd (client (conn w)))) (read_fd (client (conn w))) in
  nm ← free_bstr (cl_name (client (conn w)));
  key ← free_bstr (cl_key (client (conn w)));
  let fs := os_close fs (hs_fd (host (conn w))) in
  hnm ← free_bstr (hs_name (host (conn w)));
  port ← free_bstr (hs_port (host (conn w)));
  hkey ← free_bstr (hs_key (host (conn w)));
  hh ← free_bstr (hs_host (host (conn w)));
  Ok (put_io (w_st w) fs
       (on_client (fun c => Client nm key (read_fd c) (write_fd c))
       (on_host (fun h => Host hh port hnm hkey (hs_fd h)) w))).

(** [CryptState_fingerprint_bstr] of a field: it frees the string it has hashed *)
Definition fingerprint w (b : bstr) : res (option bytes * bstr * pw) :=
  match b with
  | SNull => Fault AssertFail
  | SFreed => Fault BadPointer
  | SLive s =>
    '(fp, w) ← crypt w (fun c => CryptState_fingerprint_bstr c s);
    Ok (fp, if bool_decide (is_Some fp) then SFreed else b, w)
  end.

Definition invalid_state_text (hh port expected given expect_fp given_fp : bytes) : bytes :=
  lit "Invalid cryptographic state attempting to connect to Hub at:" ++ [Byte.x0a; Byte.x09]
  ++ hh ++ lit ":" ++ port ++ lit " with expected name " ++ expected ++ lit " (given " ++ given ++ lit ")" ++ [Byte.x0a]
  ++ lit "With expected key vs given key (fingerprints):" ++ [Byte.x0a; Byte.x09]
  ++ lit "EXPECT: " ++ expect_fp ++ [Byte.x0a; Byte.x09] ++ lit "GIVEN : " ++ given_fp ++ [Byte.x0a]
  ++ lit "You most likely shouldn't talk to this Hub unless you gave bad keys." ++ [Byte.x0a].

Definition Proxy_dump_invalid_state w : res pw :=
  '(given_fp, k, w) ← fingerprint w (host_given_key (conn w));
  let w := set_given k w in
  '(expect_fp, k, w) ← fingerprint w (hs_key (host (conn w)));
  let w := on_host (set_hkey k) w in
  cs ← need NullDeref (state (conn w));
  hh ← fmt_s (hs_host (host (conn w)));
  port ← fmt_s (hs_port (host (conn w)));
  nm ← fmt_s (hs_name (host (conn w)));
  given ← fmt_s (p_name (them cs));
  e ← fmt_s (of_option expect_fp);
  g ← fmt_s (of_option given_fp);
  Proxy_error w PEER_VERIFY (invalid_state_text hh port nm given e g).

(** the callback: no expected key, or the one that was given *)
Definition Proxy_confirm_key w : res (bool * pw) :=
  '(key, w) ← crypt w (fun c => CryptState_export_key c CRYPT_THEIR_KEY PK_PUBLIC);
  let w := set_given (of_option key) w in
  same ← (if is_null (hs_key (host (conn w))) then Ok true else biseq (host_given_key (conn w)) (hs_key (host (conn w))));
  if same : bool then Ok (true, w) else
  w ← Proxy_dump_invalid_state (set_st (set_errno 0 (w_st w)) w);
  Ok (false, w).

(** ** Messages *)

Definition Proxy_hub_send w (header body : option loc) : res (bool * pw) :=
  let finish w (msg : option loc) rc : res (bool * pw) :=
    w ← destroyn w msg; w ← destroyn w header; w ← destroyn w body; Ok (0 <? rc, w) in
  _ ← assert_ (bool_decide (header <> None));
  _ ← assert_ (bool_decide (body <> None));
  hdata ← Node_bstr (w_st w) header true;
  '(msg, w) ← crypt w (fun c => CryptState_encrypt_node c (p_skey (them (c_cs c))) hdata body);
  let '(ok, w) := check_w w (bool_decide (msg <> None)) in
  if negb ok then finish w msg (-1) else
  '(rc, _, st, fs) ← write_header_node (w_st w) (w_fds w) (hs_fd (host (conn w))) (Some hdata) msg;
  '(_, w) ← check_err (put_io st fs w) (0 <? rc) HUB_IO (lit "Failed to write encrypted message.");
  finish w msg rc.

(** the message and its header *)
Definition Proxy_hub_recv w : res (option loc * option loc * pw) :=
  '(packet, header, st, fs) ← readnodes (w_st w) (w_fds w) (hs_fd (host (conn w)));
  let finish w (msg : option loc) : res (option loc * option loc * pw) := w ← destroyn w packet; Ok (msg, header, w) in
  '(ok, w) ← check_err (put_io st fs w) (bool_decide (packet <> None) && bool_decide (header <> None)) HUB_IO
               (lit "Failed to read hub message.");
  if negb ok then finish w None else
  hdata ← Node_bstr (w_st w) header true;
  '(msg, w) ← crypt w (fun c => CryptState_decrypt_node c (p_skey (me (c_cs c))) hdata packet);
  '(_, w) ← check_err w (bool_decide (msg <> None)) CRYPTO (lit "Failed to decrypt payload from hub.");
  finish w msg.

Definition Proxy_listener_send w (header body : option loc) : res (bool * pw) :=
  _ ← assert_ (bool_decide (header <> None));
  '(rc, st, fs) ← writenodes (w_st w) (w_fds w) (write_fd (client (conn w))) header body;
  '(ok, w) ← check_err (put_io st fs w) (0 <? rc) LISTENER_IO (lit "Failed to write data to client listener.");
  if negb ok then Ok (0 <? rc, w) else
  w ← destroyn w body;
  w ← destroyn w header;
  Ok (0 <? rc, w).

Definition Proxy_listener_recv w : res (option loc * option loc * pw) :=
  '(body, header, st, fs) ← readnodes (w_st w) (w_fds w) (read_fd (client (conn w)));
  Ok (body, header, put_io st fs w).

(** ** The event loop *)

Inductive side := HUB | LISTENER.

(** what [select] reports: the descriptors that are ready, or an error *)
Inductive sel := SelReady (r wr : gset Z) | SelFail (e : Z).

(** [header[side]] and [body[side]] *)
Record slot := Slot { sl_header : option loc; sl_body : option loc }.

Record loop := Loop { readset : gset Z; writeset : gset Z; slots : side -> slot }.

#[global] Instance side_eq_dec : EqDecision side.
Proof. solve_decision. Defined.

Definition set_slot (s : side) (x : slot) (L : loop) : loop :=
  Loop (readset L) (writeset L) (fun t => if bool_decide (t = s) then x else slots L t).

(** [PROXY_HANDLE_EVENT]; [false]: to the failure label *)
Definition handle_event w (L : loop) (s : side) (readfd : Z) (readfn : pw -> res (option loc * option loc * pw))
  (writefd : Z) (writefn : pw -> option loc -> option loc -> res (bool * pw)) (readmask writemask : gset Z)
  : res (bool * loop * pw) :=
  '(ok, L, w) ← (if bool_decide (readfd ∈ readmask) then
      '(body, header, w) ← readfn w;
      let L := set_slot s (Slot header body) L in
      '(ok, w) ← check_err w (bool_decide (header <> None) && bool_decide (body <> None)) IO (lit "message read failure");
      if negb ok then Ok (false, L, w) else
      Ok (true, Loop (readset L ∖ {[readfd]}) (writeset L ∪ {[writefd]}) (slots L), w)
    else Ok (true, L, w));
  if negb ok then Ok (false, L, w) else
  if bool_decide (writefd ∈ writemask) then
    let x := slots L s in
    '(ok, w) ← check_err_call w (fun w => writefn w (sl_header x) (sl_body x)) IO (lit "message write failure");
    if negb ok then Ok (false, L, w) else
    Ok (true, Loop (readset L ∪ {[readfd]}) (writeset L ∖ {[writefd]}) (slots L), w)
  else Ok (true, L, w).

(** one round of the [while] *)
Definition event_round w (L : loop) (ev : sel) : res (bool * loop * pw) :=
  let hub_fd := hs_fd (host (conn w)) in
  let rfd := read_fd (client (conn w)) in
  let wfd := write_fd (client (conn w)) in
  let '(rc, e, readmask, writemask) :=
    match ev with
    | SelFail e => (-1, e, readset L, writeset L)
    | SelReady r wr => (Z.of_nat (size (readset L ∩ r) + size (writeset L ∩ wr)), 0, readset L ∩ r, writeset L ∩ wr)
    end in
  let w := set_st (after_call e (w_st w)) w in
  '(ok, w) ← check_err w (negb (rc =? 0)) IO (lit "Failed to get an event from select call.");
  if negb ok then Ok (false, L, w) else
  '(ok, w) ← check_err w (0 <? rc) IO (lit "Error running select event loop.");
  if negb ok then Ok (false, L, w) else
  '(ok, L, w) ← handle_event w L HUB hub_fd Proxy_hub_recv wfd Proxy_listener_send readmask writemask;
  if negb ok then Ok (false, L, w) else
  handle_event w L LISTENER rfd Proxy_listener_recv hub_fd Proxy_hub_send readmask writemask.

(** the loop over what [select] reports; [true]: still running when the reports are used up,
    [false]: it returned 0 *)
Fixpoint event_loop w (L : loop) (evs : list sel) : res (bool * loop * pw) :=
  match evs with
  | [] => Ok (true, L, w)
  | ev :: evs' =>
    '(ok, L, w) ← event_round w L ev;
    if ok : bool then event_loop w L evs' else Ok (false, L, w)
  end.

Definition loop_start w : loop :=
  Loop ({[hs_fd (host (conn w))]} ∪ {[read_fd (client (conn w))]}) ∅ (fun _ => Slot None None).

Definition Proxy_event_loop w (evs : list sel) : res (bool * loop * pw) := event_loop w (loop_start w) evs.

(** ** Connecting *)

(** the names and the given key belong to the two nodes, and go with them *)
Definition names_freed w : pw :=
  set_given SFreed
    (set_state ((fun cs => mkState (set_pname SFreed (me cs)) (set_pname SFreed (them cs)) (shared cs)) <$> state (conn w)) w).

(** a field as an argument of [Node_cons] *)
Definition field_arg (b : bstr) : res cons_arg :=
  match b with SLive s => Ok (CABstr (Some s)) | SNull => Ok (CABstr None) | SFreed => Fault BadPointer end.

Definition send_keys w : res (option loc * option loc * pw) :=
  '(host_fp, w) ← crypt w (fun c => CryptState_fingerprint_key c CRYPT_THEIR_KEY PK_PUBLIC);
  '(client_pub_fp, w) ← crypt w (fun c => CryptState_fingerprint_key c CRYPT_MY_KEY PK_PUBLIC);
  '(client_pub, w) ← crypt w (fun c => CryptState_export_key c CRYPT_MY_KEY PK_PUBLIC);
  '(client_prv_fp, w) ← crypt w (fun c => CryptState_fingerprint_key c CRYPT_MY_KEY PK_PRIVATE);
  '(client_prv, w) ← crypt w (fun c => CryptState_export_key c CRYPT_MY_KEY PK_PRIVATE);
  cs ← need NullDeref (state (conn w));
  them_name ← field_arg (p_name (them cs));
  given ← field_arg (host_given_key (conn w));
  '(host_info, st) ← Node_cons (w_st w) (lit "[s[bsww")
    [them_name; given; CABstr host_fp; CACstr (Some (lit "public")); CACstr (Some (lit "their"))];
  '(ok, w) ← check_err (set_st st w) (bool_decide (host_info <> None)) STACKISH (lit "Failed to construct valid host name:key response.");
  if negb ok then Ok (None, None, w) else
  me_name ← field_arg (p_name (me cs));
  '(my_info, st) ← Node_cons (w_st w) (lit "[s[bsw[bsww")
    [me_name; CABstr client_prv; CABstr client_prv_fp; CACstr (Some (lit "private")); CABstr client_pub;
     CABstr client_pub_fp; CACstr (Some (lit "public")); CACstr (Some (lit "my"))];
  '(ok, w) ← check_err (set_st st w) (bool_decide (my_info <> None)) STACKISH (lit "Failed to construct valid client name:key response.");
  if negb ok then Ok (None, None, w) else
  Ok (host_info, my_info, w).

Definition Proxy_final_verify w : res (bool * pw) :=
  let bad w : res (bool * pw) := w ← Proxy_dump_invalid_state w; Ok (false, w) in
  cs ← need AssertFail (state (conn w));
  '(ok, w) ← check_err w (negb (is_null (hs_name (host (conn w))))) INVALID_HUB (lit "No name given for Hub after connect.");
  if negb ok then bad w else
  '(ok, w) ← check_err w (negb (is_null (cl_name (client (conn w))))) INVALID_CLIENT
               (lit "No client name configured, how'd you do that?");
  if negb ok then bad w else
  same ← biseq (hs_name (host (conn w))) (p_name (them cs));
  '(ok, w) ← check_err w same PEER_VERIFY (lit "Expected Hub name and given Hub name do not match.");
  if negb ok then bad w else
  same ← biseq (cl_name (client (conn w))) (p_name (me cs));
  '(ok, w) ← check_err w same INVALID_CLIENT (lit "Final client name and given client name do not match.");
  if negb ok then bad w else
  same ← biseq (hs_key (host (conn w))) (host_given_key (conn w));
  '(ok, w) ← check_err w same PEER_VERIFY (lit "Expected and given Hub keys do not match.");
  if negb ok then bad w else
  '(host_info, my_info, w) ← send_keys w;
  if bool_decide (my_info = None) then bad w else
  '(ok, w) ← check_err_call w
    (fun w => '(rc, w) ← Proxy_listener_send w host_info my_info; Ok (rc, if rc : bool then names_freed w else w))
    LISTENER_IO (lit "Failed to write initial connect response to listener.");
  if negb ok then bad w else Ok (true, w).

(** What [Proxy_confirm_key] will answer, for the exchange; what it does to the proxy follows as soon as
    the exchange has returned, and only if it got as far as having the hub's key. *)
Definition confirms (expected : bstr) (cs : CryptState E S) : bool :=
  match expected, p_key (them cs) with
  | SLive k, KLive h => match ecc_export PK_PUBLIC h with Some given => bool_decide (given = k) | None => true end
  | _, _ => true
  end.

Definition initiator_start w (rhdr : option loc) : res (option loc * option bytes * pw) :=
  '(imsg, header, w) ←
    ('(r, w) ← crypt w (fun c => '(imsg, header, c) ← CryptState_initiator_start (confirms (hs_key (host (conn w)))) c rhdr; Ok ((imsg, header), c));
     Ok (r.1, r.2, w));
  cs ← need NullDeref (state (conn w));
  match p_key (them cs) with
  | KLive _ => '(_, w) ← Proxy_confirm_key w; Ok (imsg, header, w)
  | _ => Ok (imsg, header, w)
  end.

(** [bdata] of a field *)
Definition bdata (b : bstr) : res (option bytes) :=
  match b with SLive s => Ok (Some s) | SNull => Ok None | SFreed => Fault BadPointer end.

Definition connect_finish w (imsg rmsg rhdr : option loc) (rc : bool) : res (bool * pw) :=
  w ← destroyn w imsg; w ← destroyn w rmsg; w ← destroyn w rhdr; Ok (rc, w).

Definition write_hub w (header : option bytes) (msg : option loc) : res (bool * pw) :=
  '(rc, _, st, fs) ← write_header_node (w_st w) (w_fds w) (hs_fd (host (conn w))) header msg;
  Ok (0 <? rc, put_io st fs w).

(** the last message, and the verification: [rc] is what is returned on failure *)
Definition connect_last w (rc : bool) : res (bool * pw) :=
  '(r, w) ← crypt w (fun c => '(imsg, header, c) ← CryptState_initiator_send_final c; Ok ((imsg, header), c));
  let '(imsg, header) := r in
  '(ok, w) ← check_err w (bool_decide (imsg <> None)) PEER_ESTABLISH (lit "Failed to generate final message.");
  if negb ok then connect_finish w imsg None None rc else
  '(rc, w) ← write_hub w (Some header) imsg;
  '(ok, w) ← check_err w rc PEER_ESTABLISH (lit "Failed to write final message to hub.");
  if negb ok then connect_finish w imsg None None rc else
  '(_, w) ← check_err_call w Proxy_final_verify PEER_VERIFY (lit "Final verify of Hub info failed.");
  connect_finish w imsg None None rc.

(** the hub's second message; [rc] is the result of the first write *)
Definition connect_rest w (rc : bool) : res (bool * pw) :=
  '(rmsg, rhdr, st, fs) ← readnodes (w_st w) (w_fds w) (hs_fd (host (conn w)));
  '(ok, w) ← check_err (put_io st fs w) (bool_decide (rmsg <> None) && bool_decide (rhdr <> None)) PEER_ESTABLISH
               (lit "Invalid response from hub.");
  if negb ok then connect_finish w None rmsg rhdr rc else
  header ← Node_bstr (w_st w) rhdr true;
  w ← destroyn w rhdr;
  '(rc, w) ← crypt w (fun c => CryptState_initiator_process_response c header rmsg);
  '(ok, w) ← check_err w rc PEER_ESTABLISH (lit "Failed to process receiver 2nd message.");
  if negb ok then connect_finish w None rmsg None rc else
  w ← destroyn w rmsg;
  connect_last w rc.

(** the exchange, once the socket is there *)
Definition connect_exchange w : res (bool * pw) :=
  '(rmsg, rhdr, st, fs) ← readnodes (w_st w) (w_fds w) (hs_fd (host (conn w)));
  '(ok, w) ← check_err (put_io st fs w) (bool_decide (rmsg = None) && bool_decide (rhdr <> None)) PEER_ESTABLISH
               (lit "Incorrectly formatted initial message from Hub.");
  if negb ok then connect_finish w None rmsg rhdr false else
  '(imsg, header, w) ← initiator_start w rhdr;
  w ← destroyn w rhdr;
  '(ok, w) ← check_err w (bool_decide (imsg <> None)) PEER_ESTABLISH (lit "Failed to construct response to Hub's first message.");
  if negb ok then connect_finish w imsg rmsg None false else
  '(rc, w) ← write_hub w header imsg;
  w ← destroyn w imsg;
  '(ok, w) ← check_err w rc PEER_ESTABLISH (lit "Failed sending response to Hub's first message.");
  if negb ok then connect_finish w None rmsg None rc else
  connect_rest w rc.

Section Connect.
Context `{!Net}.

(** the result of initialising the library is not looked at *)
Definition Proxy_connect w (initialized : bool) (calls : list bool) : res (bool * pw) :=
  '(_, _, st) ← CryptState_init (w_st w) initialized calls;
  nm ← bdata (cl_name (client (conn w)));
  key ← bdata (cl_key (client (conn w)));
  c ← CryptState_create st (w_rng w) nm key;
  let w := set_state (Some (c_cs c)) (PWorld (conn w) (c_st c) (c_rng c) (w_fds w)) in
  hh ← bdata (hs_host (host (conn w)));
  port ← bdata (hs_port (host (conn w)));
  '(fd, st, fs) ← tcp_client (w_st w) (w_fds w) hh port;
  let w := on_host (set_hfd fd) (put_io st fs w) in
  '(ok, w) ← check_err w (0 <=? fd) NET (lit "Failed to connect to Hub.");
  if negb ok then connect_finish w None None None false else
  connect_exchange w.

(** ** Listening and configuration *)

Definition Proxy_listen w (type : ProxyClientType) (name : option bytes) : res (bool * pw) :=
  let opened w : res (bool * pw) :=
    '(ok, w) ← check_err w (0 <=? read_fd (client (conn w))) LISTENER_IO (lit "Failed to start listener read side.");
    if negb ok then Ok (false, w) else
    '(ok, w) ← check_err w (0 <=? write_fd (client (conn w))) LISTENER_IO (lit "Failed to start listener write side.");
    Ok (ok, w) in
  match type with
  | PROXY_CLIENT_DOMAIN =>
    let '(ok, w) := check_w w (bool_decide (is_Some name)) in
    if negb ok then Ok (false, w) else
    '(fd, st, fs) ← unix_client (w_st w) (w_fds w) name;
    opened (on_client (set_fds fd fd) (put_io st fs w))
  | PROXY_CLIENT_FIFO =>
    let '(ok, w) := check_w w (bool_decide (is_Some name)) in
    if negb ok then Ok (false, w) else
    name ← need NullDeref name;
    let in_file := cstr name ++ lit ".in" in
    let out_file := cstr name ++ lit ".out" in
    let '(made, e, fs) := os_mkfifo (w_fds w) in_file in
    let '(ok, w) := check_w (put_io (after_call e (w_st w)) fs w) made in
    if negb ok then Ok (false, w) else
    let '(made, e, fs) := os_mkfifo (w_fds w) out_file in
    let '(ok, w) := check_w (put_io (after_call e (w_st w)) fs w) made in
    if negb ok then Ok (false, w) else
    let '(fd, e, fs) := os_open (w_fds w) in_file false in
    let w := on_client (fun c => set_fds fd (write_fd c) c) (put_io (after_call e (w_st w)) fs w) in
    let '(ok, w) := check_w w (0 <=? fd) in
    if negb ok then Ok (false, w) else
    let '(fd, e, fs) := os_open (w_fds w) out_file true in
    let w := on_client (fun c => set_fds (read_fd c) fd c) (put_io (after_call e (w_st w)) fs w) in
    let '(ok, w) := check_w w (0 <=? fd) in
    if negb ok then Ok (false, w) else opened w
  | PROXY_CLIENT_STDIO => opened (on_client (set_fds 0 1) w)
  | PROXY_CLIENT_NONE => Ok (false, set_st (set_errno 0 (w_st w)) w)
  end.
End Connect.

(** a key of no bytes counts as none *)
Definition no_empty (k : bstr) : bstr := match k with SLive [] => SNull | _ => k end.

Definition Proxy_configure w : res (bool * pw) :=
  '(hostn, clientn, st, fs) ← readnodes (w_st w) (w_fds w) (read_fd (client (conn w)));
  let finish w rc : res (bool * pw) := w ← destroyn w hostn; w ← destroyn w clientn; Ok (rc, w) in
  '(ok, w) ← check_err (put_io st fs w) (bool_decide (hostn <> None) && bool_decide (clientn <> None)) CONFIG
               (lit "Received an invalid host and client configuration.");
  if negb ok then finish w false else
  '(rc, outs, st) ← Node_decons (w_st w) hostn true (lit "[bsssw") [DOut; DOut; DOut; DOut; DName (Some (lit "host"))];
  let w := on_host (fun h => Host (out_bstr outs 3 (hs_host h)) (out_bstr outs 2 (hs_port h)) (out_bstr outs 1 (hs_name h))
                                  (out_bstr outs 0 (hs_key h)) (hs_fd h)) (set_st st w) in
  '(ok, w) ← check_err w rc CONFIG (lit "Invalid configuration format for host: [sssbw");
  if negb ok then finish w rc else
  '(rc, outs, st) ← Node_decons (w_st w) clientn true (lit "[bsw") [DOut; DOut; DName (Some (lit "client"))];
  let w := on_client (fun c => Client (out_bstr outs 1 (cl_name c)) (out_bstr outs 0 (cl_key c)) (read_fd c) (write_fd c)) (set_st st w) in
  '(ok, w) ← check_err w rc CONFIG (lit "Invalid configuration format for client: [sbw");
  if negb ok then finish w rc else
  finish (on_client (fun c => set_ckey (no_empty (cl_key c)) c) (on_host (fun h => set_hkey (no_empty (hs_key h)) h) w)) rc.
End Ops.

End Proxy.
