(* ===== verification/ProxyProps.v ===== *)
(** * ProxyProps: what the proxy does with one message

    Each of the four functions that move a message, on descriptors that work: what is written, what is
    left, which nodes are gone; then the event loop as two buffers of one message each. *)

From Stdlib Require Import ZArith Lia.
From S2P Require Import Prelude Cstdlib Ragel Node NodeFormat Stackish NodeRep NodeOpen NodeFormatProps StackishDfa StackishRt StackishProps Crypto Signing Frame Peer FrameProps CryptoProps PeerProps ClientIo ClientIoProps Proxy.
Import Cstdlib Node NodeFormat Stackish NodeRep NodeOpen NodeFormatProps StackishRt StackishProps Crypto Signing Frame Peer FrameProps CryptoProps PeerProps ClientIo ClientIoProps Proxy.
Local Open Scope Z_scope.

Module ProxyProps.

Section Messages.
Context {E S R : Type} `{!Ltc E S R} `{!LtcLaws E S R}.
Abbreviation St := (@mkState E S).
Abbreviation PX := (@mkProxy E S).
Abbreviation WD := (@PWorld E S R).

Lemma destroyn_none (w : pworld E S R) : destroyn w None = Ok w.
Proof. unfold destroyn. cbn. by destruct w. Qed.

(** throwing away a tree that was there before *)
Lemma destroyn_ok (c : Proxy E S) r fs st1 st2 l nm f F G :
  rep true (nodes st1) None (Some l) (grp nm f) F -> keeps_but G st1 st2 -> F ## G -> good st2 -> (height f < 120)%nat ->
  exists st3, destroyn (WD c st2 r fs) (Some l) = Ok (WD c st3 r fs) /\ good st3 /\ keeps_but F st2 st3.
Proof.
  intros Hr Hk Hd Hg Hh. destruct (destroy_grp st2 l nm f F) as (st3 & E3 & H); [by eapply rep_keeps|done|done|].
  exists st3. split; [|done]. unfold destroyn. cbn [w_st]. by rewrite E3.
Qed.

Lemma check_w_good (c : Proxy E S) st r fs b : good st -> check_w (WD c st r fs) b = (b, WD c st r fs).
Proof. intros Hg. unfold check_w. cbn [w_st]. by rewrite check_good. Qed.

Lemma check_err_true (w : pworld E S R) code m : check_err w true code m = Ok (true, w).
Proof. done. Qed.

Lemma crypt_ok {A} cl hs cs gk st r fs (f : cworld E S R -> res (A * cworld E S R)) a cs' st' r' :
  f (CWorld cs st r) = Ok (a, CWorld cs' st' r') ->
  crypt (WD (PX cl hs (Some cs) gk) st r fs) f = Ok (a, WD (PX cl hs (Some cs') gk) st' r' fs).
Proof. intros Hf. unfold crypt. cbn [conn state need w_st w_rng]. by rewrite bind_ret, Hf, bind_ret. Qed.

(** ** Errors *)

(** the message a listener gets *)
Definition err_text (code : UtuMendicantErrorCode) (message : bytes) : bytes :=
  gtext (lit "err") (flat [FBlob message; FNum (UTU_ERR code)]).

Lemma err_values_plain code m : Forall plain [FBlob m; FNum (UTU_ERR code)].
Proof. repeat constructor; cbn; destruct code; cbn; lia. Qed.

Lemma err_text_len code m : zlen m <= 30000 -> 0 < zlen (err_text code m) < 2 ^ 16.
Proof.
  intros Hm. split; [apply gtext_pos; decided|]. pose proof (zlen_nonneg m).
  pose proof (msgtext_len (30000 + 70) (lit "err") [FBlob m; FNum (UTU_ERR code)] ltac:(decided) (err_values_plain code m)) as Hl.
  rewrite msgtext_line_len in Hl. unfold err_text. change (zlen (lit "err")) with 3 in Hl. change (zlen [_; _]) with 2 in Hl.
  assert (Forall (short 30070) [FBlob m; FNum (UTU_ERR code)]) by (repeat constructor; cbn [short]; lia). specialize (Hl ltac:(done) ltac:(done)). lia.
Qed.

Lemma Proxy_error_ok (p : Proxy E S) st r fs s w code m :
  good st -> channel fs (write_fd (client p)) s w -> zlen m <= 30000 ->
  exists st' fs', Proxy_error (WD p st r fs) code m = Ok (WD p st' r fs') /\
    channel fs' (write_fd (client p)) s (w ++ frame (err_text code m)) /\ same_but (write_fd (client p)) fs fs' /\ good st' /\ keeps_but ∅ st st'.
Proof.
  intros Hg Hch Hm. unfold Proxy_error. cbn [w_st w_fds conn].
  destruct (cons_msg st [FNum (UTU_ERR code); FBlob m] (lit "err")) as (l & s1 & F1 & E1 & Hr1 & Hg1 & Hx1);
    [repeat constructor; cbn; destruct code; cbn; lia|decided|done|].
  change (Node_cons st (lit "[nbw") [CANum (UTU_ERR code); CABstr (Some m); CACstr (Some (lit "err"))] = Ok (Some l, s1)) in E1.
  rewrite E1, bind_ret. cbn [rev app] in Hr1. pose proof (err_values_plain code m) as Hp. unfold Node_dump. rewrite (bstr_msg _ _ _ _ _ Hr1 Hp), !bind_ret.
  destruct (writenodes_header s1 fs (write_fd (client p)) s w l (lit "err") (flat [FBlob m; FNum (UTU_ERR code)]) F1) as (rc & fs' & -> & _ & Hch' & Hsb);
    [done|done|done|decided|by apply flat_wf|by apply err_text_len|].
  rewrite bind_ret. cbv beta iota. change (put_io s1 fs' (WD p st r fs)) with (WD p s1 r fs').
  destruct (destroyn_ok p r fs' s1 s1 l (lit "err") _ F1 ∅ Hr1) as (s2 & -> & Hg2 & K2); [keeps_chain|set_solver|done|cbn; lia|].
  exists s2, fs'. pose proof (extends_keeps _ _ _ Hx1) as K1. split_and!; [done|done|done|done|]. apply (keeps_new F1); [keeps_chain|apply Hx1].
Qed.

(** a check that fails: reported, and to the failure label *)
Lemma check_err_false (p : Proxy E S) st r fs s w code m :
  good st -> channel fs (write_fd (client p)) s w -> zlen m <= 30000 ->
  exists st' fs', check_err (WD p st r fs) false code m = Ok (false, WD p st' r fs') /\
    channel fs' (write_fd (client p)) s (w ++ frame (err_text code m)) /\ same_but (write_fd (client p)) fs fs' /\ good st' /\ keeps_but ∅ st st'.
Proof.
  intros Hg Hch Hm. destruct (Proxy_error_ok p st r fs s w code m Hg Hch Hm) as (st' & fs' & E1 & Hch' & Hsb & Hg' & K').
  exists st', fs'. split_and!; try done. unfold check_err. rewrite E1, bind_ret, check_w_good by done. done.
Qed.

(** ** The hub's side *)

Lemma hub_send_ok cl hs cs gk st r fs s w lh lb hn hf bn bf Fh Fb c t :
  good st -> channel fs (hs_fd hs) s w ->
  rep true (nodes st) None (Some lh) (grp hn hf) Fh -> rep true (nodes st) None (Some lb) (grp bn bf) Fb -> Fh ## Fb ->
  wf hf -> wf bf -> (height hf < 120)%nat -> (height bf < 120)%nat -> zlen (line hn hf) + zlen (line bn bf) <= 32000 ->
  sealed_text (p_skey (them cs)) (p_nonce (them cs)) (line hn hf) (line bn bf) c t ->
  exists st' fs', Proxy_hub_send (WD (PX cl hs (Some cs) gk) st r fs) (Some lh) (Some lb)
      = Ok (true, WD (PX cl hs (Some (St (me cs) (inc_nonce (them cs)) (shared cs))) gk) st' r fs') /\
    channel fs' (hs_fd hs) s (w ++ env_frame [] (line hn hf) c t) /\ same_but (hs_fd hs) fs fs' /\ good st' /\ keeps_but (Fh ∪ Fb) st st'.
Proof.
  intros Hg Hch Hrh Hrb Hdis Hhv Hbv Hhh Hbh Hlen Hs. apply sealed_text_opens in Hs as Ho. destruct Ho as (Hc & Ht & _).
  pose proof (zlen_nonneg (line hn hf)). pose proof (env_text_len c t) as Hl. unfold Proxy_hub_send. rewrite !assert_true, !bind_ret by done. cbn [w_st].
  rewrite (bstr_grp _ _ _ _ _ Hrh Hhv), bind_ret.
  destruct (encrypt_grp_ok (CWorld cs st r) (p_skey (them cs)) (line hn hf) lb bn bf Fb c t) as (l & s1 & F1 & Ee & Hr1 & Hg1 & Hx1); [done..|].
  rewrite (crypt_ok cl hs cs gk st r fs _ _ (St (me cs) (inc_nonce (them cs)) (shared cs)) s1 r Ee), bind_ret. cbv beta iota.
  rewrite check_w_good by done. rewrite bool_decide_eq_true_2 by done. cbn [negb w_st w_fds conn host].
  destruct (write_header_ok s1 fs (hs_fd hs) s w (line hn hf) l CRYPT_ENV_MSG _ F1 Hch Hg1 Hr1) as (rc & fs' & -> & Hrc & Hch' & Hsb);
    [decided|by apply flat_wf, env_plain|rewrite msgtext_line_len in Hl; lia|].
  rewrite bind_ret. cbv beta iota. rewrite (proj2 (Z.ltb_lt 0 rc) Hrc). rewrite check_err_true, bind_ret. cbv beta iota.
  set (c' := PX cl hs _ gk). change (put_io s1 fs' (WD c' s1 r fs)) with (WD c' s1 r fs').
  pose proof (extends_keeps _ _ _ Hx1) as K1. pose proof (rep_sub _ _ _ _ _ _ Hrh). pose proof (rep_sub _ _ _ _ _ _ Hrb). destruct Hx1 as [_ D1]. cbn [c_st] in *.
  destruct (destroyn_ok c' r fs' s1 s1 l CRYPT_ENV_MSG (flat [FBlob t; FBlob c]) F1 ∅ Hr1) as (s2 & -> & Hg2 & K2); [keeps_chain|set_solver|done|cbn; lia|].
  rewrite bind_ret. assert (K12 : keeps_but F1 st s2) by keeps_chain.
  destruct (destroyn_ok c' r fs' st s2 lh hn hf Fh F1 Hrh) as (s3 & -> & Hg3 & K3); [done|set_solver|done|done|]. rewrite bind_ret.
  assert (K13 : keeps_but (F1 ∪ Fh) st s3) by keeps_chain.
  destruct (destroyn_ok c' r fs' st s3 lb bn bf Fb (F1 ∪ Fh) Hrb) as (s4 & -> & Hg4 & K4); [done|set_solver|done|done|]. rewrite bind_ret.
  exists s4, fs'. split_and!; [done| |done|done|].
  - unfold env_frame. by rewrite app_nil_r.
  - intros x n Hx Hn. apply K4; [set_solver|]. apply K13; [|done]. apply elem_of_dom_2 in Hn. set_solver.
Qed.

Lemma hub_recv_ok cl hs cs gk st r fs more w hn hf bn bf c t z :
  line_end z -> is_word hn -> is_word bn -> wf hf -> wf bf -> zlen (line hn hf) + zlen (line bn bf) <= 32000 ->
  sealed_text (p_skey (me cs)) (p_nonce (me cs)) (line hn hf) (line bn bf) c t ->
  good st -> channel fs (hs_fd hs) (env_frame z (line hn hf) c t ++ more) w ->
  exists lh lb Fh Fb st' fs', Proxy_hub_recv (WD (PX cl hs (Some cs) gk) st r fs)
      = Ok (Some lb, Some lh, WD (PX cl hs (Some (St (inc_nonce (me cs)) (them cs) (shared cs))) gk) st' r fs') /\
    rep true (nodes st') None (Some lh) (grp hn hf) Fh /\ rep true (nodes st') None (Some lb) (grp bn bf) Fb /\ Fh ## Fb /\
    (Fh ∪ Fb) ## dom (nodes st) /\ channel fs' (hs_fd hs) more w /\ same_but (hs_fd hs) fs fs' /\ good st' /\ keeps_but ∅ st st'.
Proof.
  intros [Hz1 Hz2] Hh Hb Hhv Hbv Hlen Hs Hg Hch. apply sealed_text_opens in Hs as Ho. destruct Ho as (Hc & Ht & Hd).
  pose proof (zlen_nonneg (line hn hf)). pose proof (env_text_len c t) as Hl. unfold Proxy_hub_recv. cbn [w_st w_fds conn host].
  unfold env_frame in Hch. rewrite <- app_assoc in Hch. rewrite msgtext_line_len in Hl.
  destruct (readnodes_ok st fs (hs_fd hs) hn hf [Byte.x0a] CRYPT_ENV_MSG (flat [FBlob t; FBlob c]) z more w)
    as (lh & l & s1 & fs1 & Fh & F1 & -> & Hch1 & Hsb & Hg1 & K1 & Hrh & Hr1 & Hdis & Hnew);
    [done|decided|done|by apply flat_wf, env_plain|by repeat constructor|done|rewrite !zlen_app in *; change (zlen [_]) with 1 in *; lia|done|done|].
  rewrite bind_ret. cbv beta iota. rewrite !bool_decide_eq_true_2 by done. cbn [andb]. rewrite check_err_true, bind_ret. cbv beta iota. cbn [negb].
  change (put_io s1 fs1 (WD (PX cl hs (Some cs) gk) st r fs)) with (WD (PX cl hs (Some cs) gk) s1 r fs1). cbn [w_st].
  rewrite (bstr_grp _ _ _ _ _ Hrh Hhv), bind_ret.
  destruct (decrypt_grp_ok (CWorld cs s1 r) (p_skey (me cs)) (line hn hf) l c t F1 bn bf) as (lb & s2 & F2 & Ed & Hr2 & Hr2' & Hg2 & K2 & D2);
    [done..|rewrite (zlen_app (gtext bn bf)) in Hlen; change (zlen [_]) with 1 in Hlen; lia|].
  rewrite (crypt_ok cl hs cs gk s1 r fs1 _ _ (St (inc_nonce (me cs)) (them cs) (shared cs)) s2 r Ed), bind_ret. cbv beta iota.
  rewrite bool_decide_eq_true_2 by done. rewrite check_err_true, bind_ret. cbv beta iota. cbn [c_st] in *.
  destruct (destroyn_ok (PX cl hs (Some (St (inc_nonce (me cs)) (them cs) (shared cs))) gk) r fs1 s2 s2 l CRYPT_ENV_MSG _ F1 ∅ Hr2') as (s3 & E3 & Hg3 & K3);
    [keeps_chain|set_solver|done|cbn; lia|].
  rewrite E3, bind_ret. pose proof (rep_sub _ _ _ _ _ _ Hrh). pose proof (rep_sub _ _ _ _ _ _ Hr1). pose proof (keeps_dom _ _ K1).
  exists lh, lb, Fh, F2, s3, fs1. split_and!; [done| | |set_solver|set_solver|done|done|done|].
  - eapply (rep_keeps _ F1 s2); [|done|set_solver]. eapply (rep_keeps _ F1 s1); [done|done|set_solver].
  - eapply (rep_keeps _ F1 s2); [done|done|set_solver].
  - apply (keeps_new F1); [keeps_chain|set_solver].
Qed.

(** ** The listener's side *)

Lemma listener_send_ok (p : Proxy E S) st r fs s w lh lb hn hf bn bf Fh Fb :
  good st -> channel fs (write_fd (client p)) s w ->
  rep true (nodes st) None (Some lh) (grp hn hf) Fh -> rep true (nodes st) None (Some lb) (grp bn bf) Fb -> Fh ## Fb ->
  is_word hn -> is_word bn -> wf hf -> wf bf -> (height hf < 120)%nat -> (height bf < 120)%nat -> zlen (gtext hn hf) + zlen (gtext bn bf) < 2 ^ 16 ->
  exists st' fs', Proxy_listener_send (WD p st r fs) (Some lh) (Some lb) = Ok (true, WD p st' r fs') /\
    channel fs' (write_fd (client p)) s (w ++ frame (gtext hn hf ++ gtext bn bf)) /\ same_but (write_fd (client p)) fs fs' /\
    good st' /\ keeps_but (Fh ∪ Fb) st st'.
Proof.
  intros Hg Hch Hrh Hrb Hdis Hh Hb Hhv Hbv Hhh Hbh Hlen. unfold Proxy_listener_send. rewrite assert_true, bind_ret by done. cbn [w_st w_fds conn].
  destruct (writenodes_ok st fs (write_fd (client p)) s w lh lb hn hf bn bf Fh Fb) as (rc & fs' & -> & Hrc & Hch' & Hsb); [done..|].
  rewrite bind_ret. cbv beta iota. rewrite (proj2 (Z.ltb_lt 0 rc) Hrc). rewrite check_err_true, bind_ret. cbv beta iota. cbn [negb].
  change (put_io st fs' (WD p st r fs)) with (WD p st r fs').
  destruct (destroyn_ok p r fs' st st lb bn bf Fb ∅ Hrb) as (s2 & -> & Hg2 & K2); [keeps_chain|set_solver|done|done|]. rewrite bind_ret.
  destruct (destroyn_ok p r fs' st s2 lh hn hf Fh Fb Hrh) as (s3 & -> & Hg3 & K3); [done|done|done|done|]. rewrite bind_ret.
  exists s3, fs'. split_and!; [done|done|done|done|keeps_chain].
Qed.

Lemma listener_recv_ok (p : Proxy E S) st r fs more w hn hf z1 bn bf z2 :
  is_word hn -> is_word bn -> wf hf -> wf bf -> newlines z1 -> newlines z2 ->
  let data := gtext hn hf ++ z1 ++ gtext bn bf ++ z2 in
  zlen data < 2 ^ 16 -> good st -> channel fs (read_fd (client p)) (frame data ++ more) w ->
  exists lh lb Fh Fb st' fs', Proxy_listener_recv (WD p st r fs) = Ok (Some lb, Some lh, WD p st' r fs') /\
    rep true (nodes st') None (Some lh) (grp hn hf) Fh /\ rep true (nodes st') None (Some lb) (grp bn bf) Fb /\ Fh ## Fb /\
    (Fh ∪ Fb) ## dom (nodes st) /\ channel fs' (read_fd (client p)) more w /\ same_but (read_fd (client p)) fs fs' /\ good st' /\ keeps_but ∅ st st'.
Proof.
  intros Hh Hb Hhv Hbv H1 H2 data Hlen Hg Hch. unfold Proxy_listener_recv. cbn [w_st w_fds conn].
  destruct (readnodes_ok st fs (read_fd (client p)) hn hf z1 bn bf z2 more w)
    as (lh & lb & s1 & fs1 & Fh & Fb & -> & Hch1 & Hsb & Hg1 & K1 & Hrh & Hrb & Hdis & Hnew); [done..|].
  exists lh, lb, Fh, Fb, s1, fs1. by split_and!.
Qed.
(** ** Reports while [errno] is set *)

(** making nodes while [errno] is set *)
Definition grows (st st' : store) : Prop := errno st' = errno st /\ forall x, is_Some (nodes st !! x) -> is_Some (nodes st' !! x).

Lemma update_grows st l f : is_Some (nodes st !! l) -> exists st', update st (Some l) f = Ok st' /\ grows st st'.
Proof.
  intros [n Hn]. rewrite (update_Some _ _ n) by done. eexists. split; [done|]. split; [done|]. intros x Hx. cbn. destruct (decide (x = l)) as [->|Hd].
  - rewrite lookup_insert_eq. by eexists.
  - by rewrite lookup_insert_ne.
Qed.

Lemma list_add_grows st p l : is_Some (nodes st !! p) -> is_Some (nodes st !! l) -> exists st', list_add_child st (Some p) (Some l) = Ok st' /\ grows st st'.
Proof.
  intros [n Hn] Hl. unfold list_add_child, load. cbn [need]. rewrite bind_ret, Hn. cbn [need]. rewrite bind_ret.
  destruct (update_grows st l (set_sibling (child n)) Hl) as (s1 & -> & E1 & G1). rewrite bind_ret.
  destruct (update_grows s1 p (set_child (Some l))) as (s2 & -> & E2 & G2); [by apply G1; eexists|]. exists s2. split; [done|]. split; [congruence|]. intros x Hx. by apply G2, G1.
Qed.

Lemma create_grows st par ty : (forall p, par = Some p -> is_Some (nodes st !! p)) ->
  exists l st', Node_create st par ty = Ok (l, st') /\ grows st st' /\ is_Some (nodes st' !! l).
Proof.
  intros Hp. unfold Node_create. set (l := next st). set (s1 := Store _ _ _).
  assert (G1 : grows st s1 /\ is_Some (nodes s1 !! l)).
  { split; [split; [done|]|cbn; rewrite lookup_insert_eq; by eexists]. intros x Hx. cbn. destruct (decide (x = l)) as [->|Hd]; [rewrite lookup_insert_eq; by eexists|by rewrite lookup_insert_ne]. }
  destruct G1 as [[E1 G1] L1]. destruct par as [p|]; [|by exists l, s1].
  destruct (update_grows s1 l (set_parent (Some p)) L1) as (s2 & -> & E2 & G2). rewrite bind_ret.
  destruct (list_add_grows s2 p l) as (s3 & -> & E3 & G3); [by apply G2, G1, Hp|by apply G2|]. rewrite bind_ret. exists l, s3.
  split_and!; [done|split; [congruence|]|by apply G3, G2]. intros x Hx. by apply G3, G2, G1.
Qed.

(** nothing can be reported while [errno] is set: the message is not built, and showing it asserts *)
Lemma report_errno (w : pworld E S R) code m : errno (w_st w) <> 0 -> Proxy_error w code m = Fault AssertFail.
Proof.
  intros He. unfold Proxy_error, Node_cons. change (cstr (lit "[nbw")) with [Byte.x5b; Byte.x6e; Byte.x62; Byte.x77]. cbn [cons_loop].
  destruct (create_grows (w_st w) None TYPE_GROUP) as (l & s1 & E1 & [H1 _] & L1); [done|]. unfold Node_new_group. rewrite E1, bind_ret. cbv beta iota. rewrite bool_decide_eq_true_2 by done.
  destruct (create_grows s1 (Some l) TYPE_NUMBER) as (l2 & s2 & E2 & [H2 _] & L2); [intros ? [= <-]; done|]. unfold Node_new_number, new_node. rewrite E2, bind_ret. cbv beta iota.
  destruct (update_grows s2 l2 (set_value (VNumber (u64 (UTU_ERR code)))) L2) as (s3 & E3 & H3 & _). rewrite E3, !bind_ret. cbv beta iota.
  unfold check. rewrite (proj2 (Z.eqb_neq (errno s3) 0)) by congruence. rewrite andb_false_r. done.
Qed.

End Messages.

End ProxyProps.
