(* ===== verification/ProxyRelay.v ===== *)
(** * ProxyRelay: the event loop of the proxy as two buffers

    The abstract view of [Proxy_event_loop] is a pair of buffers, one for each direction, which hold at most
    one message.  Every round of the loop is a round of the two buffers, for reports of [select] that are
    accurate ([reports]: something that is waited for is ready, and what is reported as readable has a
    message, not the end of the file).  Since such a round always moves a message, all messages arrive,
    in order.  A [select] that fails ends the loop by a failed assertion. *)

From Stdlib Require Import ZArith Lia.
From S2P Require Import Prelude Cstdlib Ragel Node NodeFormat Stackish NodeRep NodeOpen NodeFormatProps StackishDfa StackishRt StackishProps Crypto Signing Frame Peer FrameProps CryptoProps PeerProps ClientIo ClientIoProps Proxy ProxyProps.
Import Cstdlib Node NodeFormat Stackish NodeRep NodeOpen NodeFormatProps StackishRt StackishProps Crypto Signing Frame Peer FrameProps CryptoProps PeerProps ClientIo ClientIoProps Proxy ProxyProps.
Local Open Scope Z_scope.

Module ProxyRelay.

(** ** Messages, and what they look like on either side *)

Record msg := Msg { m_hn : bytes; m_hf : forest; m_bn : bytes; m_bf : forest }.

Record msg_ok (m : msg) : Prop := MsgOk {
  mo_hn : is_word (m_hn m);
  mo_bn : is_word (m_bn m);
  mo_hf : wf (m_hf m);
  mo_bf : wf (m_bf m);
  mo_hh : (height (m_hf m) < 120)%nat;
  mo_bh : (height (m_bf m) < 120)%nat;
  mo_len : zlen (line (m_hn m) (m_hf m)) + zlen (line (m_bn m) (m_bf m)) <= 32000
}.

Definition plain_frame (z1 z2 : bytes) (m : msg) : bytes :=
  frame (gtext (m_hn m) (m_hf m) ++ z1 ++ gtext (m_bn m) (m_bf m) ++ z2).

(** frames on the side of the listener, as they arrive and as the proxy writes them *)
Inductive plain_seq : list msg -> bytes -> Prop :=
  | plain_nil : plain_seq [] []
  | plain_cons m ms z1 z2 b : msg_ok m -> line_end z1 -> line_end z2 -> plain_seq ms b -> plain_seq (m :: ms) (plain_frame z1 z2 m ++ b).

Definition plain_out (ms : list msg) : bytes :=
  concat (map (fun m => frame (gtext (m_hn m) (m_hf m) ++ gtext (m_bn m) (m_bf m))) ms).

Definition advance (k : nat) (n : CryptNonce) : CryptNonce := Nat.iter k CryptState_nonce_inc n.

Lemma advance_S k n : advance k (CryptState_nonce_inc n) = CryptState_nonce_inc (advance k n).
Proof. unfold advance. by rewrite Nat.iter_swap. Qed.

(** ** The abstract buffers *)

Record buf := Buf { b_in : list msg; b_slot : option msg; b_out : list msg }.

(** one round: a message is taken when there is room for it, or put when there is one *)
Definition buf_round (can_read can_write : bool) (b : buf) : buf :=
  match b_slot b, b_in b with
  | None, m :: i => if can_read then Buf i (Some m) (b_out b) else b
  | None, [] => b
  | Some m, i => if can_write then Buf i None (b_out b ++ [m]) else b
  end.

(** steps to go *)
Definition todo (b : buf) : nat := 2 * length (b_in b) + match b_slot b with Some _ => 1 | None => 0 end.

(** everything, in order *)
Definition traffic (b : buf) : list msg := b_out b ++ match b_slot b with Some m => [m] | None => [] end ++ b_in b.

Lemma buf_round_traffic r w b : traffic (buf_round r w b) = traffic b.
Proof.
  destruct b as [i [m|] o]; [|destruct i as [|m i]]; unfold buf_round, traffic; cbn [b_in b_slot b_out]; [destruct w|done|destruct r];
    cbn [b_in b_slot b_out app]; by rewrite <- ?app_assoc.
Qed.

Definition moves (r w : bool) (b : buf) : Prop :=
  match b_slot b with None => r = true | Some _ => w = true end.

Lemma buf_round_todo r w b : (todo (buf_round r w b) <= todo b)%nat.
Proof. destruct b as [i [m|] o]; [|destruct i as [|m i]]; unfold buf_round, todo; cbn; [destruct w|..|destruct r]; cbn; lia. Qed.

Lemma buf_round_moves r w b : moves r w b -> (b_slot b = None -> b_in b <> []) -> (todo (buf_round r w b) < todo b)%nat.
Proof.
  unfold moves. destruct b as [i [m|] o]; [|destruct i as [|m i]]; unfold buf_round, todo; cbn; intros -> H; cbn; [lia| |lia].
  by destruct H.
Qed.

Section Relay.
Context {E S R : Type} `{!Ltc E S R} `{!LtcLaws E S R}.
Abbreviation St := (@mkState E S).
Abbreviation PX := (@mkProxy E S).
Abbreviation WD := (@PWorld E S R).

(** frames on the side of the hub, sealed one after the other *)
Inductive sealed_seq (key : S) : CryptNonce -> list msg -> bytes -> Prop :=
  | sealed_nil n : sealed_seq key n [] []
  | sealed_cons n m ms z c t b :
    msg_ok m -> line_end z -> sealed_text key n (line (m_hn m) (m_hf m)) (line (m_bn m) (m_bf m)) c t ->
    sealed_seq key (CryptState_nonce_inc n) ms b ->
    sealed_seq key n (m :: ms) (env_frame z (line (m_hn m) (m_hf m)) c t ++ b).

Lemma sealed_snoc key n ms b m z c t :
  sealed_seq key n ms b -> msg_ok m -> line_end z ->
  sealed_text key (advance (length ms) n) (line (m_hn m) (m_hf m)) (line (m_bn m) (m_bf m)) c t ->
  sealed_seq key n (ms ++ [m]) (b ++ env_frame z (line (m_hn m) (m_hf m)) c t).
Proof.
  intros Hs Hm Hz. induction Hs as [n|n m' ms z' c' t' b Hm' Hz' Hst Hs IH]; intros Ht; cbn [app].
  - rewrite <- (app_nil_r (env_frame _ _ _ _)). econstructor; [done|done|exact Ht|constructor].
  - rewrite <- app_assoc. econstructor; [done|done|done|]. apply IH. rewrite advance_S. exact Ht.
Qed.

(** ** The listener's descriptors, which may be one and the same *)

Lemma channel_det fs fd s w s' w' : channel fs fd s w -> channel fs fd s' w' -> s = s' /\ w = w'.
Proof. intros [_ (d & Hd & _ & <- & _ & <-)] [_ (d' & Hd' & _ & <- & _ & <-)]. rewrite Hd in Hd'. by injection Hd' as <-. Qed.

Record listener (fs : fdtable) (rfd wfd : Z) (s w : bytes) : Prop := Listener {
  ls_read : exists w', channel fs rfd s w';
  ls_write : exists s', channel fs wfd s' w
}.

Lemma listener_reads fs fs' rfd wfd s s1 w w1 :
  listener fs rfd wfd s w -> channel fs rfd s w1 -> channel fs' rfd s1 w1 -> same_but rfd fs fs' -> listener fs' rfd wfd s1 w.
Proof.
  intros [_ [s' Hw]] H1 H1' Hs. split; [eauto|]. destruct (decide (wfd = rfd)) as [->|Hne].
  - destruct (channel_det _ _ _ _ _ _ Hw H1) as [_ ->]. eauto.
  - exists s'. by eapply channel_same.
Qed.

Lemma listener_writes fs fs' rfd wfd s w w1 s1 :
  listener fs rfd wfd s w -> channel fs wfd s1 w -> channel fs' wfd s1 w1 -> same_but wfd fs fs' -> listener fs' rfd wfd s w1.
Proof.
  intros [[w' Hr] _] H1 H1' Hs. split; [|eauto]. destruct (decide (rfd = wfd)) as [->|Hne].
  - destruct (channel_det _ _ _ _ _ _ Hr H1) as [-> _]. eauto.
  - exists w'. by eapply channel_same.
Qed.

Lemma listener_same fs fs' x rfd wfd s w : same_but x fs fs' -> x <> rfd -> x <> wfd -> listener fs rfd wfd s w -> listener fs' rfd wfd s w.
Proof. intros Hs H1 H2 [[w' Hr] [s' Hw]]. split; [exists w'|exists s']; by eapply channel_same. Qed.

(** ** The relation between the loop and the buffers *)

(** what a slot holds, and the nodes of it *)
Definition held (st : store) (x : slot) (m : option msg) (F : gset loc) : Prop :=
  match m with
  | None => F = ∅
  | Some m => exists lh lb Fh Fb, x = Slot (Some lh) (Some lb) /\ F = Fh ∪ Fb /\ Fh ## Fb /\ msg_ok m /\
      rep true (nodes st) None (Some lh) (grp (m_hn m) (m_hf m)) Fh /\ rep true (nodes st) None (Some lb) (grp (m_bn m) (m_bf m)) Fb
  end.

Lemma held_keeps st st' G x m F : held st x m F -> keeps_but G st st' -> F ## G -> held st' x m F.
Proof.
  destruct m as [m|]; [|done]. intros (lh & lb & Fh & Fb & -> & -> & Hd & Hm & Hrh & Hrb) Hk HF.
  exists lh, lb, Fh, Fb. split_and!; try done; (eapply rep_keeps; [done|exact Hk|set_solver]).
Qed.

Lemma held_dom st x m F : held st x m F -> F ⊆ dom (nodes st).
Proof.
  destruct m as [m|]; [|intros ->; set_solver]. intros (lh & lb & Fh & Fb & _ & -> & _ & _ & Hrh & Hrb).
  pose proof (rep_sub _ _ _ _ _ _ Hrh). pose proof (rep_sub _ _ _ _ _ _ Hrb). set_solver.
Qed.

Context (cl : proxy_client) (hs : proxy_host) (gk : bstr).
Context (Hhr : hs_fd hs <> read_fd cl) (Hhw : hs_fd hs <> write_fd cl).
Context (ku : S) (nu : CryptNonce) (wh wl : bytes).

(** [ku] and [nu] are the key and the first nonce to the hub, [wh] and [wl] what was written before *)

(** a descriptor that is waited for, or not *)
Definition only_if (b : bool) (fd : Z) : gset Z := if b then {[fd]} else ∅.
Definition empty_slot (b : buf) : bool := match b_slot b with None => true | Some _ => false end.

Lemma drop_first b (x y : Z) : x <> y -> (only_if true x ∪ only_if b y) ∖ {[x]} = only_if false x ∪ only_if b y.
Proof. clear. intros H. unfold only_if. destruct b; set_solver. Qed.

Lemma add_first b (x y : Z) : (only_if false x ∪ only_if b y) ∪ {[x]} = only_if true x ∪ only_if b y.
Proof. clear. unfold only_if. destruct b; set_solver. Qed.

Lemma drop_second b (x y : Z) : x <> y -> (only_if b x ∪ only_if true y) ∖ {[y]} = only_if b x ∪ only_if false y.
Proof. clear. intros H. unfold only_if. destruct b; set_solver. Qed.

Lemma add_second b (x y : Z) : (only_if b x ∪ only_if false y) ∪ {[y]} = only_if b x ∪ only_if true y.
Proof. clear. unfold only_if. destruct b; set_solver. Qed.

(** the proxy with state [cs] in the round that begins, [D] from the hub, [U] to the hub *)
Record relay (cs : CryptState E S) (st : store) (fs : fdtable) (L : loop) (D U : buf) : Prop := Relay {
  rl_good : good st;
  rl_hub : exists bi bo, channel fs (hs_fd hs) bi (wh ++ bo) /\ sealed_seq (p_skey (me cs)) (p_nonce (me cs)) (b_in D) bi /\ sealed_seq ku nu (b_out U) bo;
  rl_key : p_skey (them cs) = ku;
  rl_nonce : p_nonce (them cs) = advance (length (b_out U)) nu;
  rl_listener : exists bi, listener fs (read_fd cl) (write_fd cl) bi (wl ++ plain_out (b_out D)) /\ plain_seq (b_in U) bi;
  rl_read : readset L = only_if (empty_slot D) (hs_fd hs) ∪ only_if (empty_slot U) (read_fd cl);
  rl_write : writeset L = only_if (negb (empty_slot D)) (write_fd cl) ∪ only_if (negb (empty_slot U)) (hs_fd hs);
  rl_slots : exists FD FU, held st (slots L HUB) (b_slot D) FD /\ held st (slots L LISTENER) (b_slot U) FU /\ FD ## FU
}.

Lemma plain_out_snoc ms m : plain_out (ms ++ [m]) = plain_out ms ++ frame (gtext (m_hn m) (m_hf m) ++ gtext (m_bn m) (m_bf m)).
Proof. unfold plain_out. rewrite map_app, concat_app. cbn. by rewrite app_nil_r. Qed.

Lemma body_fits m z1 z2 : msg_ok m -> line_end z1 -> line_end z2 ->
  zlen (gtext (m_hn m) (m_hf m) ++ z1 ++ gtext (m_bn m) (m_bf m) ++ z2) < 2 ^ 16.
Proof. intros [_ _ _ _ _ _ Hl] [_ H1] [_ H2]. rewrite !zlen_app in *. change (zlen [_]) with 1 in *. lia. Qed.

(** *** From the hub *)

Lemma hub_takes cs st r fs L D U m i :
  relay cs st fs L D U -> b_slot D = None -> b_in D = m :: i ->
  exists lh lb cs' st' fs', Proxy_hub_recv (WD (PX cl hs (Some cs) gk) st r fs) = Ok (Some lb, Some lh, WD (PX cl hs (Some cs') gk) st' r fs') /\
    relay cs' st' fs' (Loop (readset L ∖ {[hs_fd hs]}) (writeset L ∪ {[write_fd cl]}) (slots (set_slot HUB (Slot (Some lh) (Some lb)) L)))
      (Buf i (Some m) (b_out D)) U.
Proof.
  intros [Hg (bi & bo & Hch & Hsi & Hso) Hk Hn (li & Hls & Hpl) Hrd Hwr (FD & FU & HFD & HFU & Hd)] Hsl Hin.
  rewrite Hin in Hsi. inversion Hsi as [|n m' ms z c t b Hm Hz Hst Hrest]; subst. destruct Hm as [M1 M2 M3 M4 M5 M6 M7].
  destruct (hub_recv_ok cl hs cs gk st r fs b (wh ++ bo) (m_hn m) (m_hf m) (m_bn m) (m_bf m) c t z)
    as (lh & lb & Fh & Fb & st' & fs' & E1 & Hrh & Hrb & Hdis & Hnew & Hch' & Hsb & Hg' & Hk'); [done..|].
  exists lh, lb, (St (inc_nonce (me cs)) (them cs) (shared cs)), st', fs'. split; [done|].
  pose proof (held_dom _ _ _ _ HFU). unfold empty_slot in *. rewrite Hsl in *.
  split; [done|eauto 8|done|done| | | |]; cbn [b_in b_slot b_out readset writeset slots set_slot].
  - exists li. split; [|done]. by eapply listener_same.
  - rewrite Hrd. by apply drop_first.
  - rewrite Hwr. apply add_first.
  - exists (Fh ∪ Fb), FU. split_and!; [by exists lh, lb, Fh, Fb|by eapply held_keeps; [|done|set_solver]|set_solver].
Qed.

Lemma listener_gets cs st r fs L D U m :
  relay cs st fs L D U -> b_slot D = Some m ->
  exists st' fs', Proxy_listener_send (WD (PX cl hs (Some cs) gk) st r fs) (sl_header (slots L HUB)) (sl_body (slots L HUB)) = Ok (true, WD (PX cl hs (Some cs) gk) st' r fs') /\
    relay cs st' fs' (Loop (readset L ∪ {[hs_fd hs]}) (writeset L ∖ {[write_fd cl]}) (slots L)) (Buf (b_in D) None (b_out D ++ [m])) U.
Proof.
  intros [Hg (bi & bo & Hch & Hsi & Hso) Hk Hn (li & Hls & Hpl) Hrd Hwr (FD & FU & HFD & HFU & Hd)] Hsl.
  pose proof Hls as [_ [s' Hlw]]. rewrite Hsl in HFD. destruct HFD as (lh & lb & Fh & Fb & -> & -> & Hdis & Hm & Hrh & Hrb). destruct Hm as [M1 M2 M3 M4 M5 M6 M7].
  destruct (listener_send_ok (PX cl hs (Some cs) gk) st r fs s' (wl ++ plain_out (b_out D)) lh lb (m_hn m) (m_hf m) (m_bn m) (m_bf m) Fh Fb)
    as (st' & fs' & E1 & Hch' & Hsb & Hg' & Hk'); [done..|rewrite !zlen_app in M7; change (zlen [_]) with 1 in M7; lia|]. cbn [client] in *.
  exists st', fs'. split; [done|]. unfold empty_slot in *. rewrite Hsl in *.
  split; [done| |done|done| | | |]; cbn [b_in b_slot b_out readset writeset slots].
  - exists bi, bo. split; [|done]. by eapply channel_same.
  - exists li. split; [|done]. rewrite plain_out_snoc, app_assoc. by eapply listener_writes.
  - rewrite Hrd. apply add_first.
  - rewrite Hwr. apply drop_first. done.
  - exists ∅, FU. split_and!; [done|by eapply held_keeps; [|done|set_solver]|set_solver].
Qed.

(** *** To the hub *)

Lemma listener_takes cs st r fs L D U m i :
  relay cs st fs L D U -> b_slot U = None -> b_in U = m :: i ->
  exists lh lb st' fs', Proxy_listener_recv (WD (PX cl hs (Some cs) gk) st r fs) = Ok (Some lb, Some lh, WD (PX cl hs (Some cs) gk) st' r fs') /\
    relay cs st' fs' (Loop (readset L ∖ {[read_fd cl]}) (writeset L ∪ {[hs_fd hs]}) (slots (set_slot LISTENER (Slot (Some lh) (Some lb)) L)))
      D (Buf i (Some m) (b_out U)).
Proof.
  intros [Hg (bi & bo & Hch & Hsi & Hso) Hk Hn (li & Hls & Hpl) Hrd Hwr (FD & FU & HFD & HFU & Hd)] Hsl Hin.
  rewrite Hin in Hpl. inversion Hpl as [|m' ms z1 z2 b Hm Hz1 Hz2 Hrest]; subst. pose proof Hm as [M1 M2 M3 M4 M5 M6 M7]. pose proof Hls as [[w' Hlr] _].
  destruct (listener_recv_ok (PX cl hs (Some cs) gk) st r fs b w' (m_hn m) (m_hf m) z1 (m_bn m) (m_bf m) z2)
    as (lh & lb & Fh & Fb & st' & fs' & E1 & Hrh & Hrb & Hdis & Hnew & Hch' & Hsb & Hg' & Hk'); [done|done|done|done|apply Hz1|apply Hz2|by apply body_fits|done|done|].
  cbn [client] in *. exists lh, lb, st', fs'. split; [done|].
  pose proof (held_dom _ _ _ _ HFD). unfold empty_slot in *. rewrite Hsl in *.
  split; [done| |done|done| | | |]; cbn [b_in b_slot b_out readset writeset slots set_slot].
  - exists bi, bo. split; [|done]. by eapply channel_same.
  - exists b. split; [|done]. by eapply listener_reads.
  - rewrite Hrd. by apply drop_second.
  - rewrite Hwr. apply add_second.
  - exists FD, (Fh ∪ Fb). split_and!; [by eapply held_keeps; [|done|set_solver]|by exists lh, lb, Fh, Fb|set_solver].
Qed.

Lemma hub_gets cs st r fs L D U m :
  relay cs st fs L D U -> b_slot U = Some m ->
  exists cs' st' fs', Proxy_hub_send (WD (PX cl hs (Some cs) gk) st r fs) (sl_header (slots L LISTENER)) (sl_body (slots L LISTENER)) = Ok (true, WD (PX cl hs (Some cs') gk) st' r fs') /\
    relay cs' st' fs' (Loop (readset L ∪ {[read_fd cl]}) (writeset L ∖ {[hs_fd hs]}) (slots L)) D (Buf (b_in U) None (b_out U ++ [m])).
Proof.
  intros [Hg (bi & bo & Hch & Hsi & Hso) Hk Hn (li & Hls & Hpl) Hrd Hwr (FD & FU & HFD & HFU & Hd)] Hsl.
  rewrite Hsl in HFU. destruct HFU as (lh & lb & Fh & Fb & -> & -> & Hdis & Hm & Hrh & Hrb). pose proof Hm as [M1 M2 M3 M4 M5 M6 M7].
  destruct (sealed_text_exists (p_skey (them cs)) (p_nonce (them cs)) (line (m_hn m) (m_hf m)) (line (m_bn m) (m_bf m))) as (c & t & Hst).
  destruct (hub_send_ok cl hs cs gk st r fs bi (wh ++ bo) lh lb (m_hn m) (m_hf m) (m_bn m) (m_bf m) Fh Fb c t)
    as (st' & fs' & E1 & Hch' & Hsb & Hg' & Hk'); [done..|].
  exists (St (me cs) (inc_nonce (them cs)) (shared cs)), st', fs'. split; [done|]. unfold empty_slot in *. rewrite Hsl in *.
  split; [done| |done| | | | |]; cbn [b_in b_slot b_out readset writeset slots me them].
  - exists bi, (bo ++ env_frame [] (line (m_hn m) (m_hf m)) c t). rewrite app_assoc. split_and!; [done|done|].
    apply sealed_snoc; [done|done|apply line_end_nil|]. by rewrite <- Hk, <- Hn.
  - rewrite length_app, Nat.add_1_r. unfold inc_nonce. cbn [p_nonce set_nonce]. by rewrite Hn.
  - exists li. split; [|done]. by eapply listener_same.
  - rewrite Hrd. apply add_second.
  - rewrite Hwr. apply drop_second. done.
  - exists FD, ∅. split_and!; [by eapply held_keeps; [|done|set_solver]|done|set_solver].
Qed.

(** ** Rounds *)

(** the whole world *)
Definition relays (r : R) (w : pworld E S R) (L : loop) (D U : buf) : Prop :=
  exists cs st fs, w = WD (PX cl hs (Some cs) gk) st r fs /\ relay cs st fs L D U.

(** One side in a round, from what its two functions do: the masks agree with what is waited for and what is ready. *)
Lemma handle_side (rel : pworld E S R -> loop -> buf -> Prop) s readfd readfn writefd writefn w L b rm wm rr rw :
  (forall m i, b_slot b = None -> b_in b = m :: i -> exists lh lb w', readfn w = Ok (Some lb, Some lh, w') /\
     rel w' (Loop (readset L ∖ {[readfd]}) (writeset L ∪ {[writefd]}) (slots (set_slot s (Slot (Some lh) (Some lb)) L))) (Buf i (Some m) (b_out b))) ->
  (forall m, b_slot b = Some m -> exists w', writefn w (sl_header (slots L s)) (sl_body (slots L s)) = Ok (true, w') /\
     rel w' (Loop (readset L ∪ {[readfd]}) (writeset L ∖ {[writefd]}) (slots L)) (Buf (b_in b) None (b_out b ++ [m]))) ->
  rel w L b -> bool_decide (readfd ∈ rm) = empty_slot b && rr -> bool_decide (writefd ∈ wm) = negb (empty_slot b) && rw ->
  (rr = true -> b_slot b = None -> b_in b <> []) ->
  exists w' L', handle_event w L s readfd readfn writefd writefn rm wm = Ok (true, L', w') /\ rel w' L' (buf_round rr rw b).
Proof.
  intros Htake Hget Hr Hrm Hwm Hav. unfold handle_event, empty_slot in *. rewrite Hrm, Hwm. unfold buf_round.
  destruct (b_slot b) as [m|] eqn:Hsl; cbn [negb andb].
  - rewrite bind_ret. cbv beta iota. cbn [negb]. destruct rw; [|by exists w, L].
    destruct (Hget m) as (w' & E1 & Hr'); [done|]. unfold check_err_call. rewrite E1, !bind_ret. cbv beta iota. cbn [negb]. by eexists _, _.
  - destruct rr.
    + destruct (b_in b) as [|m i] eqn:Hin; [by destruct Hav|].
      destruct (Htake m i) as (lh & lb & w' & -> & Hr'); [done|done|]. rewrite bind_ret. cbv beta iota.
      rewrite !bool_decide_eq_true_2 by done. cbn [andb]. rewrite check_err_true, !bind_ret. cbv beta iota. cbn [negb].
      rewrite bind_ret. cbv beta iota. cbn [negb]. by eexists _, _.
    + rewrite bind_ret. exists w, L. split; [done|]. by destruct (b_in b).
Qed.

Lemma handle_hub r w L D U rm wm rr rw :
  relays r w L D U -> bool_decide (hs_fd hs ∈ rm) = empty_slot D && rr -> bool_decide (write_fd cl ∈ wm) = negb (empty_slot D) && rw ->
  (rr = true -> b_slot D = None -> b_in D <> []) ->
  exists w' L', handle_event w L HUB (hs_fd hs) Proxy_hub_recv (write_fd cl) Proxy_listener_send rm wm = Ok (true, L', w') /\
    relays r w' L' (buf_round rr rw D) U.
Proof.
  intros Hr. apply (handle_side (fun w L D => relays r w L D U)); [..|done]; destruct Hr as (cs & st & fs & -> & Hr).
  - intros m i Hs Hi. destruct (hub_takes cs st r fs L D U m i Hr Hs Hi) as (lh & lb & cs' & st' & fs' & -> & Hr'). unfold relays. eauto 10.
  - intros m Hs. destruct (listener_gets cs st r fs L D U m Hr Hs) as (st' & fs' & -> & Hr'). unfold relays. eauto 10.
Qed.

Lemma handle_listener r w L D U rm wm rr rw :
  relays r w L D U -> bool_decide (read_fd cl ∈ rm) = empty_slot U && rr -> bool_decide (hs_fd hs ∈ wm) = negb (empty_slot U) && rw ->
  (rr = true -> b_slot U = None -> b_in U <> []) ->
  exists w' L', handle_event w L LISTENER (read_fd cl) Proxy_listener_recv (hs_fd hs) Proxy_hub_send rm wm = Ok (true, L', w') /\
    relays r w' L' D (buf_round rr rw U).
Proof.
  intros Hr. apply (handle_side (fun w L U => relays r w L D U)); [..|done]; destruct Hr as (cs & st & fs & -> & Hr).
  - intros m i Hs Hi. destruct (listener_takes cs st r fs L D U m i Hr Hs Hi) as (lh & lb & st' & fs' & -> & Hr'). unfold relays. eauto 10.
  - intros m Hs. destruct (hub_gets cs st r fs L D U m Hr Hs) as (cs' & st' & fs' & -> & Hr'). unfold relays. eauto 10.
Qed.

(** ** What [select] reports *)

(** A report is accurate: a descriptor that is waited for is reported as readable only when a message is there, and
    something that is waited for is reported, as [select] without a time limit does.  A peer that closes its end,
    which makes a descriptor readable without a message, is not covered, nor is a failure of [select]. *)
Definition reports (rd wr : gset Z) (D U : buf) : Prop :=
  (hs_fd hs ∈ rd -> b_slot D = None -> b_in D <> []) /\ (read_fd cl ∈ rd -> b_slot U = None -> b_in U <> []) /\
  (moves (bool_decide (hs_fd hs ∈ rd)) (bool_decide (write_fd cl ∈ wr)) D \/
   moves (bool_decide (read_fd cl ∈ rd)) (bool_decide (hs_fd hs ∈ wr)) U).

Lemma mask_first b1 b2 (x y : Z) (rd : gset Z) : x <> y -> bool_decide (x ∈ (only_if b1 x ∪ only_if b2 y) ∩ rd) = b1 && bool_decide (x ∈ rd).
Proof. clear. intros H. unfold only_if. destruct b1, b2; cbn [andb]; repeat case_bool_decide; try done; set_solver. Qed.

Lemma mask_second b1 b2 (x y : Z) (rd : gset Z) : x <> y -> bool_decide (y ∈ (only_if b1 x ∪ only_if b2 y) ∩ rd) = b2 && bool_decide (y ∈ rd).
Proof. clear. intros H. unfold only_if. destruct b1, b2; cbn [andb]; repeat case_bool_decide; try done; set_solver. Qed.

Lemma something_ready L D U rd wr :
  readset L = only_if (empty_slot D) (hs_fd hs) ∪ only_if (empty_slot U) (read_fd cl) ->
  writeset L = only_if (negb (empty_slot D)) (write_fd cl) ∪ only_if (negb (empty_slot U)) (hs_fd hs) ->
  reports rd wr D U -> 0 < Z.of_nat (size (readset L ∩ rd) + size (writeset L ∩ wr)).
Proof.
  intros -> -> (_ & _ & Hm). assert (Hin : forall (x : Z) (X : gset Z), x ∈ X -> (0 < size X)%nat).
  { intros x X Hx. destruct (size X) eqn:Es; [|lia]. apply size_empty_inv in Es. set_solver. }
  assert ((exists x, x ∈ (only_if (empty_slot D) (hs_fd hs) ∪ only_if (empty_slot U) (read_fd cl)) ∩ rd) \/
          (exists x, x ∈ (only_if (negb (empty_slot D)) (write_fd cl) ∪ only_if (negb (empty_slot U)) (hs_fd hs)) ∩ wr)) as [[x Hx]|[x Hx]].
  { unfold moves, empty_slot in *. destruct Hm as [Hm|Hm]; [destruct (b_slot D)|destruct (b_slot U)]; apply bool_decide_eq_true_1 in Hm; cbn [only_if negb];
      [right; exists (write_fd cl)|left; exists (hs_fd hs)|right; exists (hs_fd hs)|left; exists (read_fd cl)]; clear -Hm; set_solver. }
  - specialize (Hin x _ Hx). lia.
  - specialize (Hin x _ Hx). lia.
Qed.

Definition round_hub (rd wr : gset Z) (D : buf) : buf := buf_round (bool_decide (hs_fd hs ∈ rd)) (bool_decide (write_fd cl ∈ wr)) D.
Definition round_listener (rd wr : gset Z) (U : buf) : buf := buf_round (bool_decide (read_fd cl ∈ rd)) (bool_decide (hs_fd hs ∈ wr)) U.

Lemma round_ok r w L D U rd wr :
  relays r w L D U -> reports rd wr D U ->
  exists w' L', event_round w L (SelReady rd wr) = Ok (true, L', w') /\ relays r w' L' (round_hub rd wr D) (round_listener rd wr U).
Proof.
  intros Hr Hrep. pose proof Hr as (cs & st & fs & -> & Hrl). pose proof Hrl as [Hg _ _ _ _ Hrd Hwr _].
  pose proof (something_ready L D U rd wr Hrd Hwr Hrep) as Hrc. destruct Hrep as (H1 & H2 & _).
  unfold event_round. cbn [conn host client w_st after_call Z.eqb].
  change (set_st st (WD (PX cl hs (Some cs) gk) st r fs)) with (WD (PX cl hs (Some cs) gk) st r fs).
  rewrite (proj2 (Z.eqb_neq _ _)) by lia. cbn [negb]. rewrite check_err_true, bind_ret. cbv beta iota. cbn [negb].
  rewrite (proj2 (Z.ltb_lt _ _)) by lia. rewrite check_err_true, bind_ret. cbv beta iota. cbn [negb].
  destruct (handle_hub r _ L D U (readset L ∩ rd) (writeset L ∩ wr) (bool_decide (hs_fd hs ∈ rd)) (bool_decide (write_fd cl ∈ wr)) Hr)
    as (w1 & L1 & -> & Hr1); [rewrite Hrd; by apply mask_first|rewrite Hwr; apply mask_first; done|intros Hb; apply bool_decide_eq_true_1 in Hb; auto|].
  rewrite bind_ret. cbv beta iota. cbn [negb].
  destruct (handle_listener r w1 L1 _ U (readset L ∩ rd) (writeset L ∩ wr) (bool_decide (read_fd cl ∈ rd)) (bool_decide (hs_fd hs ∈ wr)) Hr1)
    as (w2 & L2 & -> & Hr2); [rewrite Hrd; by apply mask_second|rewrite Hwr; apply mask_second; done|intros Hb; apply bool_decide_eq_true_1 in Hb; auto|].
  by exists w2, L2.
Qed.

(** a run of rounds *)
Inductive serves : list sel -> buf -> buf -> buf -> buf -> Prop :=
  | serves_nil D U : serves [] D U D U
  | serves_round rd wr evs D U D' U' :
    reports rd wr D U -> serves evs (round_hub rd wr D) (round_listener rd wr U) D' U' -> serves (SelReady rd wr :: evs) D U D' U'.

Lemma loop_ok evs r w L D U D' U' :
  serves evs D U D' U' -> relays r w L D U -> exists w' L', event_loop w L evs = Ok (true, L', w') /\ relays r w' L' D' U'.
Proof.
  intros Hs. revert w L. induction Hs as [D U|rd wr evs D U D' U' Hrep Hs IH]; intros w L Hr; [by exists w, L|].
  destruct (round_ok r w L D U rd wr Hr Hrep) as (w1 & L1 & E1 & Hr1). cbn [event_loop]. rewrite E1, bind_ret. by apply IH.
Qed.

Lemma serves_traffic evs D U D' U' : serves evs D U D' U' -> traffic D' = traffic D /\ traffic U' = traffic U.
Proof.
  induction 1 as [|rd wr evs D U D' U' _ _ [IH1 IH2]]; [done|]. unfold round_hub, round_listener in *.
  by rewrite IH1, IH2, !buf_round_traffic.
Qed.

(** every round takes a message further *)
Lemma serves_bound evs D U D' U' : serves evs D U D' U' -> (length evs + todo D' + todo U' <= todo D + todo U)%nat.
Proof.
  induction 1 as [|rd wr evs D U D' U' (H1 & H2 & Hm) _ IH]; [done|]. cbn [length]. unfold round_hub, round_listener in *.
  set (a := bool_decide (hs_fd hs ∈ rd)) in *. set (b := bool_decide (write_fd cl ∈ wr)) in *.
  set (c := bool_decide (read_fd cl ∈ rd)) in *. set (d := bool_decide (hs_fd hs ∈ wr)) in *.
  pose proof (buf_round_todo a b D). pose proof (buf_round_todo c d U).
  assert (a = true -> b_slot D = None -> b_in D <> []) by (intros Ha; apply bool_decide_eq_true_1 in Ha; auto).
  assert (c = true -> b_slot U = None -> b_in U <> []) by (intros Hc; apply bool_decide_eq_true_1 in Hc; auto).
  destruct Hm as [Hm|Hm]; pose proof (buf_round_moves _ _ _ Hm) as Hlt; unfold moves in Hm.
  - destruct (b_slot D) eqn:Es; (assert (todo (buf_round a b D) < todo D)%nat by (apply Hlt; auto)); lia.
  - destruct (b_slot U) eqn:Es; (assert (todo (buf_round c d U) < todo U)%nat by (apply Hlt; auto)); lia.
Qed.

Lemma start_relays cs st r fs bi li din uin :
  good st -> channel fs (hs_fd hs) bi wh -> sealed_seq (p_skey (me cs)) (p_nonce (me cs)) din bi ->
  listener fs (read_fd cl) (write_fd cl) li wl -> plain_seq uin li -> p_skey (them cs) = ku -> p_nonce (them cs) = nu ->
  let w := WD (PX cl hs (Some cs) gk) st r fs in relays r w (loop_start w) (Buf din None []) (Buf uin None []).
Proof.
  intros Hg Hch Hsi Hls Hpl Hk Hn w. exists cs, st, fs. split; [done|].
  split; [done| |done|done| |done| |]; cbn [b_in b_slot b_out].
  - exists bi, []. rewrite app_nil_r. split_and!; [done|done|constructor].
  - exists li. by rewrite app_nil_r.
  - cbn. set_solver.
  - exists ∅, ∅. split_and!; [done|done|set_solver].
Qed.

(** what the loop waits for can move a message, as long as there is one *)
Lemma waits_for L D U :
  readset L = only_if (empty_slot D) (hs_fd hs) ∪ only_if (empty_slot U) (read_fd cl) ->
  writeset L = only_if (negb (empty_slot D)) (write_fd cl) ∪ only_if (negb (empty_slot U)) (hs_fd hs) ->
  (0 < todo D + todo U)%nat -> exists rd wr, rd ⊆ readset L /\ wr ⊆ writeset L /\ reports rd wr D U.
Proof.
  intros -> -> Ht. unfold reports, moves, empty_slot. unfold todo in Ht.
  destruct (b_slot D) as [m|]; [exists ∅, {[write_fd cl]}; split_and!; [set_solver|set_solver|set_solver|set_solver|]; left; by apply bool_decide_eq_true_2, elem_of_singleton|].
  destruct (b_in D) as [|m i]; [|exists {[hs_fd hs]}, ∅; split_and!; [set_solver|set_solver|done|set_solver|]; left; by apply bool_decide_eq_true_2, elem_of_singleton].
  destruct (b_slot U) as [m|]; [exists ∅, {[hs_fd hs]}; split_and!; [set_solver|set_solver|set_solver|set_solver|]; right; by apply bool_decide_eq_true_2, elem_of_singleton|].
  destruct (b_in U) as [|m i]; [cbn in Ht; lia|].
  exists {[read_fd cl]}, ∅; split_and!; [set_solver|set_solver|set_solver|done|]; right; by apply bool_decide_eq_true_2, elem_of_singleton.
Qed.

(** nothing left to do *)
Lemma todo_none b : todo b = 0%nat -> b_in b = [] /\ b_slot b = None /\ b_out b = traffic b.
Proof.
  destruct b as [[|m i] [x|] o]; unfold todo, traffic; cbn; intros H; try lia. by rewrite app_nil_r.
Qed.

(** and then everything has been delivered *)
Lemma delivered r cs st fs L D U din uin :
  relays r (WD (PX cl hs (Some cs) gk) st r fs) L D U -> todo D = 0%nat -> todo U = 0%nat -> traffic D = din -> traffic U = uin ->
  (exists bo, channel fs (hs_fd hs) [] (wh ++ bo) /\ sealed_seq ku nu uin bo) /\ listener fs (read_fd cl) (write_fd cl) [] (wl ++ plain_out din).
Proof.
  intros (cs' & st' & fs' & [= -> -> ->] & [_ (bi' & bo & Hch' & Hsi' & Hso) _ _ (li' & Hls' & Hpl') _ _ _]) Hd Hu Td Tu.
  destruct (todo_none D Hd) as (D1 & _ & D3). destruct (todo_none U Hu) as (U1 & _ & U3).
  rewrite Td in D3. rewrite Tu in U3. rewrite D1 in Hsi'. rewrite U1 in Hpl'. rewrite U3 in Hso. rewrite D3 in Hls'.
  inversion Hsi'; subst. inversion Hpl'; subst. eauto.
Qed.
End Relay.

(** ** The theorems *)

Section Claims.
Context {E S R : Type} `{!Ltc E S R} `{!LtcLaws E S R}.
Abbreviation PX := (@mkProxy E S).
Abbreviation WD := (@PWorld E S R).

(** the rounds one after another *)
Lemma event_loop_app (w : pworld E S R) L evs more w' L' :
  event_loop w L evs = Ok (true, L', w') -> event_loop w L (evs ++ more) = event_loop w' L' more.
Proof.
  revert w L. induction evs as [|ev evs IH]; intros w L; [by intros [= -> ->]|]. cbn [event_loop app].
  destruct (event_round w L ev) as [[[[] L1] w1]|]; [|done..]. rewrite !bind_ret. apply IH.
Qed.

(** the check that should report a failed [select] runs with [errno] set, so that the report is not built and the
    assertion in [Node_dump] fails *)
Lemma select_fails (w : pworld E S R) L e evs : e <> 0 -> event_loop w L (SelFail e :: evs) = Fault AssertFail.
Proof.
  intros He. cbn [event_loop]. unfold event_round. cbn [negb Z.eqb]. rewrite check_err_true, bind_ret. cbv beta iota. cbn [negb Z.ltb].
  unfold check_err at 1. cbn [Z.compare]. rewrite report_errno; [done|]. unfold after_call. rewrite (proj2 (Z.eqb_neq e 0) He). done.
Qed.

(** C14: the event loop implements two buffers of one message each: from a state that stands for the buffers [D] (hub to
    listener) and [U] (listener to hub), and for any sequence of accurate reports of [select] ([serves]: each round
    something that is waited for is ready, and what is readable has a message, so that neither peer has closed its end),
    the loop is still running after them and its state stands for the buffers after the same reports; nothing
    is lost, doubled or reordered.  The one other report [select] can make while both peers are there, a failure such as an
    interruption, aborts the proxy in every state so reached. *)
Theorem loop_refines_buffers cl hs gk ku nu wh wl r (w : pworld E S R) L D U evs D' U' :
  hs_fd hs <> read_fd cl -> hs_fd hs <> write_fd cl ->
  relays cl hs gk ku nu wh wl r w L D U -> serves cl hs evs D U D' U' ->
  (exists w' L', event_loop w L evs = Ok (true, L', w') /\ relays cl hs gk ku nu wh wl r w' L' D' U') /\
  traffic D' = traffic D /\ traffic U' = traffic U /\
  (forall e more, e <> 0 -> event_loop w L (evs ++ SelFail e :: more) = Fault AssertFail).
Proof.
  intros H1 H2 Hr Hs. destruct (loop_ok cl hs gk H1 H2 _ _ _ _ evs r w L D U D' U' Hs Hr) as (w' & L' & E1 & Hr').
  pose proof (serves_traffic _ _ _ _ _ _ _ Hs) as [T1 T2]. split_and!; [by exists w', L'|done|done|].
  intros e more He. rewrite (event_loop_app _ _ _ _ _ _ E1). by apply select_fails.
Qed.

(** C7: every message arrives: with messages [din] sealed on the socket of the hub and [uin] on the descriptor of the
    listener, no run of the loop (accurate reports of [select], see [serves]) is longer than two rounds per message, and after every run either the loop waits
    for a descriptor on which a message can be moved, or the listener has been sent all of [din] and the
    hub all of [uin], sealed in order with the keys of the session, and nothing is left to read. *)
Theorem proxy_delivers cl hs gk cs st (r : R) fs bi li wh wl din uin evs D U :
  hs_fd hs <> read_fd cl -> hs_fd hs <> write_fd cl -> good st ->
  channel fs (hs_fd hs) bi wh -> sealed_seq (p_skey (me cs)) (p_nonce (me cs)) din bi ->
  listener fs (read_fd cl) (write_fd cl) li wl -> plain_seq uin li ->
  serves cl hs evs (Buf din None []) (Buf uin None []) D U ->
  let w := WD (PX cl hs (Some cs) gk) st r fs in
  exists cs' st' fs' L', Proxy_event_loop w evs = Ok (true, L', WD (PX cl hs (Some cs') gk) st' r fs') /\
    (length evs <= 2 * (length din + length uin))%nat /\
    ((exists rd wr, rd ⊆ readset L' /\ wr ⊆ writeset L' /\ reports cl hs rd wr D U) \/
     (exists bo, channel fs' (hs_fd hs) [] (wh ++ bo) /\ sealed_seq (p_skey (them cs)) (p_nonce (them cs)) uin bo) /\
     listener fs' (read_fd cl) (write_fd cl) [] (wl ++ plain_out din)).
Proof.
  intros H1 H2 Hg Hch Hsi Hls Hpl Hs w.
  pose proof (start_relays cl hs gk H1 H2 (p_skey (them cs)) (p_nonce (them cs)) wh wl cs st r fs bi li din uin Hg Hch Hsi Hls Hpl eq_refl eq_refl) as Hr.
  destruct (loop_ok cl hs gk H1 H2 _ _ _ _ evs r w _ _ _ _ _ Hs Hr) as (w' & L' & E' & cs' & st' & fs' & -> & Hr').
  exists cs', st', fs', L'. pose proof (serves_bound _ _ _ _ _ _ _ Hs) as Hb. pose proof (serves_traffic _ _ _ _ _ _ _ Hs) as [T1 T2].
  unfold todo at 3 4 in Hb. cbn [b_in b_slot] in Hb. pose proof Hr' as [_ _ _ _ _ Hrd Hwr _].
  split_and!; [exact E'|lia|]. destruct (decide (todo D + todo U = 0)%nat) as [Hz|Hz]; [right|left; apply waits_for; (done || lia)].
  eapply (delivered cl hs gk _ _ wh wl r cs' st' fs' L' D U); [by exists cs', st', fs'|lia|lia|exact T1|exact T2].
Qed.
End Claims.

(** ** A run: one message each way, the listener on standard input and output *)

#[local] Existing Instance toy_ltc.
#[local] Existing Instance toy_laws.

Definition hello : msg := Msg (lit "header") FNil (lit "doc") (flat [FNum 7]).

Lemma hello_ok : msg_ok hello.
Proof. split; [decided|decided|done|cbn; repeat split; lia|cbn; lia|cbn; lia|by vm_compute]. Qed.

Definition a_client : proxy_client := Client (SLive (lit "joe")) SNull 0 1.
Definition a_host : proxy_host := Host (SLive (lit "localhost")) (SLive (lit "5555")) (SLive (lit "hub")) SNull 5.
Definition a_state : CryptState byte bytes :=
  mkState (mkPeer SNull (mkNonce 5 6) KZero SNull [Byte.x01]) (mkPeer SNull (mkNonce 7 8) KZero SNull [Byte.x02]) [].

Definition sealed_hello : bytes :=
  let '(c, t) := ccm_memory true [Byte.x01] (nonce_raw (mkNonce 5 6)) (line (m_hn hello) (m_hf hello)) (line (m_bn hello) (m_bf hello)) in
  env_frame [] (line (m_hn hello) (m_hf hello)) c (default [] t) ++ [].

Definition a_table : fdtable :=
  <[5 := Desc [RData sealed_hello] [] []]> (<[0 := Desc [RData (plain_frame [] [] hello)] [] []]> {[1 := Desc [] [] []]}).

Definition a_run : list sel := [SelReady {[5; 0]} ∅; SelReady ∅ {[1; 5]}].

Lemma sealed_hello_seq : sealed_seq [Byte.x01] (mkNonce 5 6) [hello] sealed_hello.
Proof. econstructor; [exact hello_ok|exact line_end_nil|reflexivity|constructor]. Qed.

Lemma a_hub : channel a_table 5 sealed_hello [].
Proof. split; [lia|]. eexists. split; [apply lookup_insert_eq|]. cbn [d_in d_wr d_out stream]. split_and!; [|by rewrite app_nil_r|constructor|done]. by repeat constructor. Qed.

Lemma a_listener : listener a_table 0 1 (plain_frame [] [] hello) [].
Proof.
  split; eexists; (split; [lia|]); eexists; (split; [unfold a_table; rewrite ?lookup_insert_ne by done; first [apply lookup_insert_eq|apply lookup_singleton_eq]|]);
    cbn [d_in d_wr d_out stream]; split_and!; rewrite ?app_nil_r; by repeat constructor.
Qed.

Lemma a_plain : plain_seq [hello] (plain_frame [] [] hello).
Proof. rewrite <- (app_nil_r (plain_frame _ _ _)). econstructor; [exact hello_ok|exact line_end_nil|exact line_end_nil|constructor]. Qed.

Lemma a_serves : serves a_client a_host a_run (Buf [hello] None []) (Buf [hello] None []) (Buf [] None [hello]) (Buf [] None [hello]).
Proof.
  econstructor; [split_and!; [done|done|left; done]|]. econstructor; [split_and!; [set_solver|set_solver|left; done]|]. constructor.
Qed.

Lemma empty_good_store : good empty_store.
Proof. split; [done|]. intros l _. apply lookup_empty. Qed.

Lemma proxy_delivers_witness :
  exists cs st fs L, Proxy_event_loop (PWorld (mkProxy a_client a_host (Some a_state) SNull) empty_store 0 a_table) a_run
      = Ok (true, L, PWorld (mkProxy a_client a_host (Some cs) SNull) st 0 fs) /\ (length a_run <= 4)%nat.
Proof.
  destruct (proxy_delivers (E := byte) (S := bytes) (R := Z) a_client a_host SNull a_state empty_store 0 a_table sealed_hello (plain_frame [] [] hello) [] []
    [hello] [hello] a_run (Buf [] None [hello]) (Buf [] None [hello])) as (cs & st & fs & L & E1 & Hl & _).
  - done.
  - done.
  - exact empty_good_store.
  - exact a_hub.
  - exact sealed_hello_seq.
  - exact a_listener.
  - exact a_plain.
  - exact a_serves.
  - exists cs, st, fs, L. split; [exact E1|exact Hl].
Defined.

Lemma loop_refines_buffers_witness :
  exists w L, event_loop (PWorld (mkProxy a_client a_host (Some a_state) SNull) empty_store 0 a_table)
      (loop_start (PWorld (mkProxy a_client a_host (Some a_state) SNull) empty_store 0 a_table)) a_run = Ok (true, L, w).
Proof.
  destruct (loop_refines_buffers (E := byte) (S := bytes) (R := Z) a_client a_host SNull [Byte.x02] (mkNonce 7 8) [] [] 0
    (PWorld (mkProxy a_client a_host (Some a_state) SNull) empty_store 0 a_table) (loop_start (PWorld (mkProxy a_client a_host (Some a_state) SNull) empty_store 0 a_table))
    (Buf [hello] None []) (Buf [hello] None []) a_run (Buf [] None [hello]) (Buf [] None [hello])) as [(w & L & E1 & _) _].
  - done.
  - done.
  - exact (start_relays a_client a_host SNull ltac:(done) ltac:(done) [Byte.x02] (mkNonce 7 8) [] [] a_state empty_store 0 a_table sealed_hello _ [hello] [hello]
             empty_good_store a_hub sealed_hello_seq a_listener a_plain eq_refl eq_refl).
  - exact a_serves.
  - exists w, L. exact E1.
Defined.

End ProxyRelay.
