(* ===== verification/ProxyConnect.v ===== *)
(** * ProxyConnect: the proxy's handshake with a hub

    [Proxy_connect] once its socket is there, run against the hub's [Peer_establish_receiver]: both
    succeed and end in step, and the listener is told the names and keys.  What happens when the hub is
    not the expected one, or does not answer. *)

From Stdlib Require Import ZArith Lia.
From S2P Require Import Prelude Cstdlib Ragel Node NodeFormat Stackish NodeRep NodeOpen NodeFormatProps StackishDfa StackishRt StackishProps Crypto Signing Frame Peer FrameProps CryptoProps PeerProps ClientIo ClientIoProps Proxy ProxyProps.
Import Cstdlib Node NodeFormat Stackish NodeRep NodeOpen NodeFormatProps StackishRt StackishProps Crypto Signing Frame Peer FrameProps CryptoProps PeerProps ClientIo ClientIoProps Proxy ProxyProps.
Local Open Scope Z_scope.

Module ProxyConnect.

(** ** Fingerprints are plain text *)

Lemma hex_digit_plain d : 0 <= d < 16 -> hex_digit d <> Byte.x22 /\ hex_digit d <> Byte.x00.
Proof.
  intros Hd. assert (Hb : bv (hex_digit d) = if d <? 10 then 48 + d else 87 + d).
  { unfold hex_digit. destruct (Z.ltb_spec d 10); [by apply bv_digit; lia|]. rewrite bv_uchar, Z.mod_small; lia. }
  split; intros E; rewrite E in Hb; cbn in Hb; destruct (Z.ltb_spec d 10); lia.
Qed.

Lemma hex2_plain b x : x ∈ hex2 b -> x <> Byte.x22 /\ x <> Byte.x00.
Proof.
  pose proof (bv_range b). unfold hex2. rewrite !elem_of_cons. intros [->|[->|Hx]]; [apply hex_digit_plain..|by apply elem_of_nil in Hx].
  - split; [apply Z.div_pos; lia|apply Z.div_lt_upper_bound; lia].
  - by apply Z.mod_pos_bound.
Qed.

Lemma fp_loop_plain h : forall i x, x ∈ fp_loop i h -> x <> Byte.x22 /\ x <> Byte.x00.
Proof.
  induction h as [|b [|b' h] IH]; intros i x; [by intros ?%elem_of_nil|apply hex2_plain|].
  change (fp_loop i (b :: b' :: h)) with ((if Nat.odd i then hex2 b ++ lit "-" else hex2 b) ++ fp_loop (S i) (b' :: h)).
  rewrite elem_of_app. intros [Hx|Hx]; [|by eapply IH]. destruct (Nat.odd i); [|by eapply hex2_plain].
  apply elem_of_app in Hx as [Hx|Hx]; [by eapply hex2_plain|]. apply elem_of_cons in Hx as [->|Hx]; [done|by apply elem_of_nil in Hx].
Qed.

Lemma fp_plain h : plain (FStr (fp_loop 0 h)).
Proof. split; [done|]. split; intros Hx; by apply fp_loop_plain in Hx as []. Qed.

Lemma fp_loop_len h : forall i, zlen (fp_loop i h) <= 3 * zlen h.
Proof.
  induction h as [|b [|b' h] IH]; intros i; [done|done|].
  change (fp_loop i (b :: b' :: h)) with ((if Nat.odd i then hex2 b ++ lit "-" else hex2 b) ++ fp_loop (S i) (b' :: h)).
  rewrite zlen_app, zlen_cons. specialize (IH (S i)). destruct (Nat.odd i); [rewrite zlen_app; change (zlen (lit "-")) with 1|]; change (zlen (hex2 b)) with 2; lia.
Qed.

(** ** How long a text can be *)

Definition val_size (v : fval) : Z := match v with FStr s | FBlob s => zlen s + 80 | _ => 80 end.
Definition name_size (nm : option bytes) : Z := match nm with Some s => zlen s + 1 | None => 0 end.

(** no floats here *)
Fixpoint text_size (f : forest) : Z :=
  match f with FNil => 0 | FCons nm v kids rest => val_size v + name_size nm + text_size kids + text_size rest end.
Fixpoint sized (f : forest) : Prop :=
  match f with
  | FNil => True
  | FCons _ v kids rest => match v with FFlt _ => False | FNum n => 0 <= n < 2 ^ 64 | FBlob s => zlen s < 2 ^ 64 | _ => True end /\ sized kids /\ sized rest
  end.

Lemma print_size f : sized f -> zlen (print_forest Byte.x20 f) <= text_size f.
Proof.
  induction f as [|nm v kids IHk rest IHr]; [done|]. intros (Hv & Hk & Hr). specialize (IHk Hk). specialize (IHr Hr).
  cbn [print_forest text_size]. rewrite !zlen_app.
  assert (zlen (print_name Byte.x20 nm) <= name_size nm).
  { destruct nm as [nm|]; [|done]. cbn. rewrite zlen_app. change (zlen [_]) with 1. pose proof (cstr_len nm). lia. }
  assert (zlen (match v with FGrp => lit "[" ++ [Byte.x20] | _ => [] end) + zlen (print_value Byte.x20 nm v) <= val_size v); [|lia].
  destruct v as [x|t|t|x|]; try done; cbn [print_value val_size]; rewrite ?zlen_app; change (zlen []) with 0; change (zlen [_]) with 1.
  - pose proof (print_dec_len x Hv). lia.
  - change (zlen [Byte.x22; Byte.x20]) with 2. pose proof (cstr_len t). lia.
  - change (zlen (lit "'")) with 1. change (zlen (lit ":")) with 1. pose proof (zlen_nonneg t). pose proof (print_dec_len (zlen t)). lia.
  - change (zlen (lit "[")) with 1. destruct (_ || _); rewrite ?zlen_app; change (zlen (lit "]")) with 1; change (zlen [_]) with 1; change (zlen []) with 0; lia.
Qed.

Section Connect.
Context {E S R : Type} `{!Ltc E S R} `{!LtcLaws E S R}.
Abbreviation St := (@mkState E S).
Abbreviation P := (@mkPeer E S).
Abbreviation PX := (@mkProxy E S).
Abbreviation WD := (@PWorld E S R).
Abbreviation W := (@CWorld E S R).

(** ** Keys *)

Lemma export_own_ok cs st (r : R) side type k d :
  good st -> p_key (side_peer side cs) = KLive k -> ecc_export type k = Some d ->
  CryptState_export_key (W cs st r) side type = Ok (Some d, W cs st r).
Proof.
  intros Hg Hk Hd. unfold CryptState_export_key, CryptState_ecc_key_bstr. cbn [c_cs]. rewrite Hk. cbn [use_key]. rewrite bind_ret, Hd.
  rewrite checkw_good, bool_decide_eq_true_2 by eauto. done.
Qed.

(** SHA-256 of anything is a few bytes *)
Class HashLaw : Prop := hash_law b : exists h, hash_memory (E := E) (S := S) (R := R) b = Some h /\ h <> [] /\ zlen h <= 64.

Definition fp (b : bytes) : bytes := match hash_memory (E := E) (S := S) (R := R) b with Some h => fp_loop 0 h | None => [] end.

Lemma fp_ok `{!HashLaw} b : plain (FStr (fp b)) /\ zlen (fp b) <= 192.
Proof. unfold fp. destruct (hash_law b) as (h & -> & _ & Hl). split; [apply fp_plain|]. pose proof (fp_loop_len h 0). lia. Qed.

Lemma fingerprint_ok `{!HashLaw} cs st (r : R) b : good st -> CryptState_fingerprint_bstr (W cs st r) b = Ok (Some (fp b), W cs st r).
Proof.
  intros Hg. unfold CryptState_fingerprint_bstr, fp. destruct (hash_law b) as (h & -> & Hn & _). rewrite checkw_good, bool_decide_eq_true_2 by eauto.
  cbn [negb need]. rewrite bind_ret, bool_decide_eq_false_2 by done. done.
Qed.

Lemma fingerprint_key_ok `{!HashLaw} cs st (r : R) side type k d :
  good st -> p_key (side_peer side cs) = KLive k -> ecc_export type k = Some d ->
  CryptState_fingerprint_key (W cs st r) side type = Ok (Some (fp d), W cs st r).
Proof.
  intros Hg Hk Hd. unfold CryptState_fingerprint_key. rewrite (export_own_ok _ _ _ _ _ _ _ Hg Hk Hd), bind_ret. cbv beta iota.
  rewrite checkw_good, bool_decide_eq_true_2 by eauto. cbn [negb need]. rewrite bind_ret. by apply fingerprint_ok.
Qed.

(** ** The callback *)

(** the configuration accepts a hub with this public key *)
Definition accepts (hs : proxy_host) (given : bytes) : Prop := hs_key hs = SNull \/ hs_key hs = SLive given.

Lemma confirms_ok hs cs k given : accepts hs given -> p_key (them cs) = KLive k -> ecc_export PK_PUBLIC k = Some given -> confirms (hs_key hs) cs = true.
Proof. intros [-> | ->] Hk He; [done|]. unfold confirms. rewrite Hk, He. by apply bool_decide_eq_true_2. Qed.

Lemma confirm_key_ok cl hs cs gk st r fs k given :
  good st -> accepts hs given -> p_key (them cs) = KLive k -> ecc_export PK_PUBLIC k = Some given ->
  Proxy_confirm_key (WD (PX cl hs (Some cs) gk) st r fs) = Ok (true, WD (PX cl hs (Some cs) (SLive given)) st r fs).
Proof.
  intros Hg Ha Hk He. unfold Proxy_confirm_key.
  rewrite (crypt_ok cl hs cs gk st r fs _ _ cs st r (export_own_ok cs st r CRYPT_THEIR_KEY PK_PUBLIC k given Hg Hk He)), bind_ret.
  cbv beta iota. cbn [conn host host_given_key set_given put_conn of_option client state w_st w_rng w_fds].
  destruct Ha as [-> | ->]; cbn [is_null biseq]; rewrite bind_ret; [done|]. by rewrite bool_decide_eq_true_2 by done.
Qed.

(** ** What the listener is told *)

Definition key_items (k : bytes) (rest : items) (nm : bytes) : items :=
  IGroup nm (ILeaf (FBlob k) (ILeaf (FStr (fp k)) INil)) rest.
Definition their_items (nm k : bytes) : items := ILeaf (FStr nm) (key_items k INil (lit "public")).
Definition my_items (nm prv pub : bytes) : items := ILeaf (FStr nm) (key_items prv (key_items pub INil (lit "public")) (lit "private")).

Definition their_tree (nm k : bytes) : forest := build (their_items nm k) FNil.
Definition my_tree (nm prv pub : bytes) : forest := build (my_items nm prv pub) FNil.

(** the frame with both *)
Definition keys_frame (nmR given nmI prv pub : bytes) : bytes :=
  frame (gtext (lit "their") (their_tree nmR given) ++ gtext (lit "my") (my_tree nmI prv pub)).

Context `{!HashLaw}.

Lemma their_wf nm k : plain (FStr nm) -> wf (their_tree nm k).
Proof.
  intros [_ Hn]. destruct (fp_ok k) as [[_ Hf] _]. cbn in *. destruct Hn, Hf. split_and!; try done. right. eexists. split; [done|]. decided.
Qed.

Lemma my_wf nm prv pub : plain (FStr nm) -> wf (my_tree nm prv pub).
Proof.
  intros [_ Hn]. destruct (fp_ok prv) as [[_ H1] _]. destruct (fp_ok pub) as [[_ H2] _]. cbn in *. destruct Hn, H1, H2.
  split_and!; try done; right; eexists; (split; [done|]); decided.
Qed.

Lemma keys_len nmR given nmI prv pub :
  zlen nmR <= 1000 -> zlen given <= 1000 -> zlen nmI <= 1000 -> zlen prv <= 1000 -> zlen pub <= 1000 ->
  zlen (gtext (lit "their") (their_tree nmR given)) + zlen (gtext (lit "my") (my_tree nmI prv pub)) < 2 ^ 16.
Proof.
  intros H1 H2 H3 H4 H5. destruct (fp_ok given) as [_ F1]. destruct (fp_ok prv) as [_ F2]. destruct (fp_ok pub) as [_ F3].
  pose proof (print_size (grp (lit "their") (their_tree nmR given))) as L1. pose proof (print_size (grp (lit "my") (my_tree nmI prv pub))) as L2.
  fold (gtext (lit "their") (their_tree nmR given)) in L1. fold (gtext (lit "my") (my_tree nmI prv pub)) in L2.
  assert (sized (grp (lit "their") (their_tree nmR given))) by (cbn; split_and!; try done; lia).
  assert (sized (grp (lit "my") (my_tree nmI prv pub))) by (cbn; split_and!; try done; lia).
  specialize (L1 ltac:(done)). specialize (L2 ltac:(done)).
  change (text_size (grp (lit "their") (their_tree nmR given))) with (80 + 6 + (80 + 7 + (zlen (fp given) + 80 + 0 + 0 + (zlen given + 80 + 0 + 0 + 0)) + (zlen nmR + 80 + 0 + 0 + 0)) + 0) in L1.
  change (text_size (grp (lit "my") (my_tree nmI prv pub))) with
    (80 + 3 + (80 + 7 + (zlen (fp pub) + 80 + 0 + 0 + (zlen pub + 80 + 0 + 0 + 0)) + (80 + 8 + (zlen (fp prv) + 80 + 0 + 0 + (zlen prv + 80 + 0 + 0 + 0)) + (zlen nmI + 80 + 0 + 0 + 0))) + 0) in L2.
  lia.
Qed.

(** the state at the end of the handshake, with everything that is sent on *)
Record keyed (cl : proxy_client) (hs : proxy_host) (cs : CryptState E S) (gk : bstr) (nmR given nmI prv pub : bytes) : Prop := Keyed {
  ky_them : exists k, p_key (them cs) = KLive k /\ ecc_export PK_PUBLIC k = Some given;
  ky_me : exists k, p_key (me cs) = KLive k /\ ecc_export PK_PUBLIC k = Some pub /\ ecc_export PK_PRIVATE k = Some prv;
  ky_given : gk = SLive given;
  ky_names : p_name (them cs) = SLive nmR /\ p_name (me cs) = SLive nmI;
  ky_plain : plain (FStr nmR) /\ plain (FStr nmI);
  ky_short : zlen nmR <= 1000 /\ zlen given <= 1000 /\ zlen nmI <= 1000 /\ zlen prv <= 1000 /\ zlen pub <= 1000
}.

Lemma send_keys_ok cl hs cs gk st r fs nmR given nmI prv pub :
  good st -> keyed cl hs cs gk nmR given nmI prv pub ->
  exists l1 l2 F1 F2 st', send_keys (WD (PX cl hs (Some cs) gk) st r fs) = Ok (Some l1, Some l2, WD (PX cl hs (Some cs) gk) st' r fs) /\
    rep true (nodes st') None (Some l1) (grp (lit "their") (their_tree nmR given)) F1 /\
    rep true (nodes st') None (Some l2) (grp (lit "my") (my_tree nmI prv pub)) F2 /\ F1 ## F2 /\ good st' /\
    keeps_but ∅ st st' /\ (F1 ∪ F2) ## dom (nodes st).
Proof.
  intros Hg [(kt & Kt & Et) (km & Km & Ep & Es) -> (Nt & Nm) ((_ & Pt) & (_ & Pm)) _]. unfold send_keys.
  rewrite (crypt_ok cl hs cs _ st r fs _ _ cs st r (fingerprint_key_ok cs st r CRYPT_THEIR_KEY PK_PUBLIC kt given Hg Kt Et)), bind_ret. cbv beta iota.
  rewrite (crypt_ok cl hs cs _ st r fs _ _ cs st r (fingerprint_key_ok cs st r CRYPT_MY_KEY PK_PUBLIC km pub Hg Km Ep)), bind_ret. cbv beta iota.
  rewrite (crypt_ok cl hs cs _ st r fs _ _ cs st r (export_own_ok cs st r CRYPT_MY_KEY PK_PUBLIC km pub Hg Km Ep)), bind_ret. cbv beta iota.
  rewrite (crypt_ok cl hs cs _ st r fs _ _ cs st r (fingerprint_key_ok cs st r CRYPT_MY_KEY PK_PRIVATE km prv Hg Km Es)), bind_ret. cbv beta iota.
  rewrite (crypt_ok cl hs cs _ st r fs _ _ cs st r (export_own_ok cs st r CRYPT_MY_KEY PK_PRIVATE km prv Hg Km Es)), bind_ret. cbv beta iota.
  cbn [conn state need host_given_key]. rewrite bind_ret, Nt, Nm. cbn [field_arg]. rewrite !bind_ret. cbn [w_st].
  destruct (cons_items st (their_items nmR given) (lit "their")) as (l1 & s1 & F1 & E1 & Hr1 & Hg1 & Hx1); [cbn; repeat split; decided|decided|done|].
  change (Node_cons st (lit "[s[bsww") [CABstr (Some nmR); CABstr (Some given); CABstr (Some (fp given)); CACstr (Some (lit "public")); CACstr (Some (lit "their"))] = Ok (Some l1, s1)) in E1.
  rewrite E1, bind_ret. cbv beta iota. rewrite bool_decide_eq_true_2 by done. rewrite check_err_true, bind_ret. cbv beta iota. cbn [negb].
  rewrite bind_ret. cbn [w_st set_st put_io].
  destruct (cons_items s1 (my_items nmI prv pub) (lit "my")) as (l2 & s2 & F2 & E2 & Hr2 & Hg2 & Hx2); [cbn; repeat split; decided|decided|done|].
  change (Node_cons s1 (lit "[s[bsw[bsww") [CABstr (Some nmI); CABstr (Some prv); CABstr (Some (fp prv)); CACstr (Some (lit "private"));
    CABstr (Some pub); CABstr (Some (fp pub)); CACstr (Some (lit "public")); CACstr (Some (lit "my"))] = Ok (Some l2, s2)) in E2.
  rewrite E2, bind_ret. cbv beta iota. rewrite bool_decide_eq_true_2 by done. rewrite check_err_true, bind_ret. cbv beta iota. cbn [negb].
  pose proof (extends_keeps _ _ _ Hx1) as K1. pose proof (extends_keeps _ _ _ Hx2) as K2. pose proof (rep_sub _ _ _ _ _ _ Hr1). pose proof (keeps_dom _ _ K1).
  destruct Hx1 as [_ D1], Hx2 as [_ D2].
  exists l1, l2, F1, F2, s2. split_and!; [done|eapply rep_keeps; [exact Hr1|exact K2|set_solver]|done|set_solver|done|by eapply keeps_but_trans|set_solver].
Qed.

(** names and given key are freed with the two nodes *)
Definition unnamed (cs : CryptState E S) : CryptState E S :=
  St (set_pname SFreed (me cs)) (set_pname SFreed (them cs)) (shared cs).

(** what the configuration expects *)
Record expects (cl : proxy_client) (hs : proxy_host) (nmR nmI given : bytes) : Prop := Expects {
  ex_host : hs_name hs = SLive nmR;
  ex_client : cl_name cl = SLive nmI;
  ex_key : accepts hs given
}.

Lemma final_verify_ok cl hs cs gk st r fs s w nmR given nmI prv pub :
  good st -> channel fs (write_fd cl) s w -> keyed cl hs cs gk nmR given nmI prv pub -> expects cl hs nmR nmI given ->
  exists st' fs', Proxy_final_verify (WD (PX cl hs (Some cs) gk) st r fs) = Ok (true, WD (PX cl hs (Some (unnamed cs)) SFreed) st' r fs') /\
    channel fs' (write_fd cl) s (w ++ keys_frame nmR given nmI prv pub) /\ same_but (write_fd cl) fs fs' /\ good st' /\ keeps_but ∅ st st'.
Proof.
  intros Hg Hch Hky [Hn Hc Hk]. pose proof Hky as [_ _ -> [Nt Nm] [Pt Pm] (L1 & L2 & L3 & L4 & L5)]. unfold Proxy_final_verify.
  cbn [conn state need]. rewrite bind_ret. cbn [host]. rewrite Hn. cbn [is_null negb]. rewrite check_err_true, bind_ret. cbv beta iota. cbn [negb conn client].
  rewrite Hc. cbn [is_null negb]. rewrite check_err_true, bind_ret. cbv beta iota. cbn [negb conn client host]. rewrite Hn, Nt. cbn [biseq]. rewrite bind_ret.
  rewrite bool_decide_eq_true_2 by done. rewrite check_err_true, bind_ret. cbv beta iota. cbn [negb conn client host host_given_key]. rewrite Hc, Nm. cbn [biseq]. rewrite bind_ret.
  rewrite bool_decide_eq_true_2 by done. rewrite check_err_true, bind_ret. cbv beta iota. cbn [negb conn client host host_given_key].
  assert (biseq (hs_key hs) (SLive given) = Ok true) as -> by (destruct Hk as [-> | ->]; cbn [biseq]; [done|by rewrite bool_decide_eq_true_2]).
  rewrite bind_ret, check_err_true, bind_ret. cbv beta iota. cbn [negb].
  destruct (send_keys_ok cl hs cs (SLive given) st r fs nmR given nmI prv pub Hg Hky) as (l1 & l2 & F1 & F2 & s1 & -> & Hr1 & Hr2 & Hd & Hg1 & K1 & D1).
  rewrite bind_ret. cbv beta iota. rewrite bool_decide_eq_false_2 by done.
  destruct (listener_send_ok (PX cl hs (Some cs) (SLive given)) s1 r fs s w l1 l2 (lit "their") (their_tree nmR given) (lit "my") (my_tree nmI prv pub) F1 F2)
    as (s2 & fs' & E2 & Hch' & Hsb & Hg2 & K2); [done|done|done|done|done|decided|decided|by apply their_wf|by apply my_wf|cbn; lia|cbn; lia|by apply keys_len|].
  unfold check_err_call. rewrite E2, !bind_ret. cbv beta iota. cbn [negb]. exists s2, fs'. split_and!; [done|done|done|done|].
  apply (keeps_new (F1 ∪ F2)); [keeps_chain|done].
Qed.

(** ** The exchange *)

(** nothing happened to other descriptors *)
Definition others (x y : Z) (fs fs' : fdtable) : Prop := forall z, z <> x -> z <> y -> fs' !! z = fs !! z.

Lemma others_refl x y fs : others x y fs fs.
Proof. done. Qed.
Lemma others_step x y f1 f2 f3 z : others x y f1 f2 -> same_but z f2 f3 -> z = x \/ z = y -> others x y f1 f3.
Proof. intros H1 H2 Hz u Hx Hy. rewrite H2, H1; [done..|]. destruct Hz; congruence. Qed.
Lemma others_trans x y f1 f2 f3 : others x y f1 f2 -> others x y f2 f3 -> others x y f1 f3.
Proof. intros H1 H2 u Hx Hy. by rewrite H2, H1. Qed.

Context (cl : proxy_client) (hs : proxy_host) (Hhw : hs_fd hs <> write_fd cl).

Lemma initiator_start_runs cs gk st r fs n1 r1 l0 F0 n0 b eb ea a' K nmI seI given c1 t1 :
  good st -> fresh_nonce r = (n1, r1) ->
  rep true (nodes st) None (Some l0) (msgtree CRYPT_HEADER [FBlob ea; FNum (n_left n0); FNum (n_right n0)]) F0 -> nonce_ok n0 ->
  p_key (me cs) = KLive b -> ecc_export PK_PUBLIC b = Some eb -> pairing b ea a' K ->
  p_name (me cs) = SLive nmI -> p_session (me cs) = SLive seI -> plain (FStr nmI) ->
  ecc_export PK_PUBLIC a' = Some given -> accepts hs given ->
  sealed K n0 (msgtext CRYPT_HEADER [FBlob eb]) CRYPT_INIT_MSG (init_payload n1 seI nmI) c1 t1 ->
  exists l st' F, initiator_start (WD (PX cl hs (Some cs) gk) st r fs) (Some l0)
      = Ok (Some l, Some (msgtext CRYPT_HEADER [FBlob eb]),
          WD (PX cl hs (Some (St (set_nonce n1 (me cs)) (P (p_name (them cs)) (CryptState_nonce_inc n0) (KLive a') (p_session (them cs)) (p_skey (them cs))) K)) (SLive given)) st' r1 fs) /\
    made st st' l CRYPT_ENV_MSG [FBlob t1; FBlob c1] F.
Proof.
  intros Hg Hf Hr Hno Hb Heb Hp Hnm Hse Hpl Hgv Hac Hs. unfold initiator_start. cbn [conn host].
  destruct (initiator_start_ok (confirms (hs_key hs)) (me cs) (them cs) (shared cs) st r n1 r1 l0 F0 n0 b eb ea a' K nmI seI c1 t1)
    as (l & s1 & F & E1 & Hm); [done..|by eapply confirms_ok|done|].
  replace (St (me cs) (them cs) (shared cs)) with cs in E1 by (by destruct cs). set (cs1 := St (set_nonce n1 (me cs)) _ K) in *.
  rewrite (crypt_ok cl hs cs gk st r fs _ (Some l, Some (msgtext CRYPT_HEADER [FBlob eb])) cs1 s1 r1) by (by rewrite E1).
  rewrite !bind_ret. cbv beta iota. cbn [conn state need]. rewrite bind_ret. cbn [them cs1 p_key fst snd].
  rewrite (confirm_key_ok cl hs cs1 gk s1 r1 fs a' given (made_good _ _ _ _ _ _ Hm) Hac eq_refl Hgv), bind_ret. by exists l, s1, F.
Qed.

Lemma write_hub_ok p st r fs s w h l nm f F :
  host p = hs -> channel fs (hs_fd hs) s w -> good st -> rep true (nodes st) None (Some l) (grp nm f) F -> is_word nm -> wf f ->
  zlen h + zlen (gtext nm f) < 2 ^ 16 ->
  exists fs', write_hub (WD p st r fs) (Some h) (Some l) = Ok (true, WD p st r fs') /\
    channel fs' (hs_fd hs) s (w ++ frame (h ++ gtext nm f)) /\ same_but (hs_fd hs) fs fs'.
Proof.
  intros <- Hch Hg Hr Hw Hv Hlen. destruct (write_header_ok st fs (hs_fd (host p)) s w h l nm f F) as (rc & fs' & E1 & Hrc & Hres); [done..|].
  exists fs'. split; [|done]. unfold write_hub. cbn [w_st w_fds conn]. rewrite E1, bind_ret. cbv beta iota. by rewrite (proj2 (Z.ltb_lt 0 rc) Hrc).
Qed.

(** destroying a small message *)
Lemma drop_msg (p : Proxy E S) r fs st1 st2 l nm vs F G :
  rep true (nodes st1) None (Some l) (msgtree nm vs) F -> keeps_but G st1 st2 -> F ## G -> good st2 -> (length vs < 100)%nat ->
  exists st3, destroyn (WD p st2 r fs) (Some l) = Ok (WD p st3 r fs) /\ good st3 /\ keeps_but F st2 st3.
Proof. intros Hr Hk Hd Hg Hl. apply (destroyn_ok p r fs st1 st2 l nm (flat vs) F G Hr Hk Hd Hg). rewrite flat_height. lia. Qed.

Lemma final_payload_len n2 : nonce_ok n2 -> zlen (msgtext CRYPT_INIT_MSG (final_payload n2)) <= 8000.
Proof. intros Hn. apply payload_len; [decided|done|unfold final_payload; solve_plain|unfold final_payload; solve_short|done]. Qed.

Lemma env_gtext_len c t : zlen c <= 8000 -> zlen t <= 256 -> zlen (gtext CRYPT_ENV_MSG (flat [FBlob t; FBlob c])) <= 20000.
Proof. intros Hc Ht. pose proof (env_len c t Hc Ht) as Hl. rewrite msgtext_line_len in Hl. lia. Qed.

Lemma connect_last_ok me0 them0 K gk st r fs sh wh sl wl n2 seI seR kI kR c3 t3 nmR given nmI prv pub :
  good st -> channel fs (hs_fd hs) sh wh -> channel fs (write_fd cl) sl wl ->
  p_nonce them0 = n2 -> nonce_ok n2 -> p_session me0 = SLive seI -> p_session them0 = SLive seR -> rijndael_setup seI = Some kI -> rijndael_setup seR = Some kR ->
  sealed K n2 empty_header CRYPT_INIT_MSG (final_payload n2) c3 t3 ->
  let cs' := finalized kI kR (St me0 (inc_nonce them0) K) in
  keyed cl hs cs' gk nmR given nmI prv pub -> expects cl hs nmR nmI given ->
  exists st' fs', connect_last (WD (PX cl hs (Some (St me0 them0 K)) gk) st r fs) true = Ok (true, WD (PX cl hs (Some (unnamed cs')) SFreed) st' r fs') /\
    channel fs' (hs_fd hs) sh (wh ++ env_frame [] empty_header c3 t3) /\ channel fs' (write_fd cl) sl (wl ++ keys_frame nmR given nmI prv pub) /\
    others (hs_fd hs) (write_fd cl) fs fs' /\ good st'.
Proof.
  intros Hg Hch Hcl Hn2 Hno Hs1 Hs2 HkI HkR Hs3 cs' Hky Hex. unfold connect_last. apply sealed_opens in Hs3 as Ho. destruct Ho as (Hc3 & Ht3 & _).
  pose proof (final_payload_len n2 Hno). pose proof (env_gtext_len c3 t3 ltac:(lia) Ht3) as Hl3.
  destruct (initiator_send_final_ok me0 them0 K st r n2 seI seR kI kR c3 t3) as (l & s1 & F1 & E1 & [Hr1 Hg1 K1 D1]); [done..|]. fold cs' in E1.
  rewrite (crypt_ok cl hs _ gk st r fs _ (Some l, empty_header) cs' s1 r) by (by rewrite E1). rewrite bind_ret. cbv beta iota.
  rewrite bool_decide_eq_true_2 by done. rewrite check_err_true, bind_ret. cbv beta iota. cbn [negb].
  destruct (write_hub_ok (PX cl hs (Some cs') gk) s1 r fs sh wh empty_header l CRYPT_ENV_MSG (flat [FBlob t3; FBlob c3]) F1) as (f2 & -> & Hch2 & Hsb2);
    [done|done|done|done|decided|by apply flat_wf, env_plain|change (zlen empty_header) with 10; lia|].
  rewrite bind_ret. cbv beta iota. rewrite check_err_true, bind_ret. cbv beta iota. cbn [negb].
  assert (Hcl2 : channel f2 (write_fd cl) sl wl) by (by eapply channel_same).
  destruct (final_verify_ok cl hs cs' gk s1 r f2 sl wl nmR given nmI prv pub Hg1 Hcl2 Hky Hex) as (s3 & f3 & E3 & Hcl3 & Hsb3 & Hg3 & K3).
  unfold check_err_call. rewrite E3, !bind_ret. cbv beta iota. unfold connect_finish.
  destruct (drop_msg (PX cl hs (Some (unnamed cs')) SFreed) r f3 s1 s3 l CRYPT_ENV_MSG _ F1 ∅ Hr1) as (s4 & -> & Hg4 & _); [done|set_solver|done|cbn; lia|].
  rewrite !bind_ret, !destroyn_none, !bind_ret. exists s4, f3. split_and!; [done| |done| |done].
  - unfold env_frame. rewrite app_nil_r. by eapply channel_same.
  - eapply others_step; [eapply others_step; [apply others_refl|exact Hsb2|by left]|exact Hsb3|by right].
Qed.

Lemma connect_rest_ok me0 them0 K gk st r fs more wh sl wl n1 n2 seI seR kI kR c2 t2 c3 t3 z nmR given nmI prv pub :
  good st -> line_end z -> p_nonce me0 = n1 -> nonce_ok n1 -> nonce_ok n2 -> plain (FStr nmR) -> zlen nmR <= 1000 -> length seR = 32%nat ->
  p_session me0 = SLive seI -> rijndael_setup seI = Some kI -> rijndael_setup seR = Some kR ->
  sealed K n1 empty_header CRYPT_RECV_MSG (recv_payload n2 n1 seR nmR) c2 t2 ->
  sealed K n2 empty_header CRYPT_INIT_MSG (final_payload n2) c3 t3 ->
  channel fs (hs_fd hs) (env_frame z empty_header c2 t2 ++ more) wh -> channel fs (write_fd cl) sl wl ->
  let cs' := finalized kI kR (St (inc_nonce me0) (P (SLive nmR) (CryptState_nonce_inc n2) (p_key them0) (SLive seR) (p_skey them0)) K) in
  keyed cl hs cs' gk nmR given nmI prv pub -> expects cl hs nmR nmI given ->
  exists st' fs', connect_rest (WD (PX cl hs (Some (St me0 them0 K)) gk) st r fs) true = Ok (true, WD (PX cl hs (Some (unnamed cs')) SFreed) st' r fs') /\
    channel fs' (hs_fd hs) more (wh ++ env_frame [] empty_header c3 t3) /\ channel fs' (write_fd cl) sl (wl ++ keys_frame nmR given nmI prv pub) /\
    others (hs_fd hs) (write_fd cl) fs fs' /\ good st'.
Proof.
  intros Hg [Hz1 Hz2] Hn1 Hno1 Hno2 Hpl Hsh Hls Hse HkI HkR Hs2 Hs3 Hch Hcl cs' Hky Hex. unfold connect_rest. cbn [w_st w_fds conn host].
  apply sealed_opens in Hs2 as Ho. destruct Ho as (Hc2 & Ht2 & _).
  assert (Hp2 : zlen (msgtext CRYPT_RECV_MSG (recv_payload n2 n1 seR nmR)) <= 8000).
  { apply payload_len; [decided|done|unfold recv_payload; solve_plain; apply Hpl| |done]. unfold recv_payload; solve_short; unfold zlen; rewrite Hls; lia. }
  pose proof (env_gtext_len c2 t2 ltac:(lia) Ht2) as Hl2. unfold env_frame in Hch. rewrite (eq_refl : empty_header = gtext CRYPT_HEADER FNil ++ [Byte.x0a]), <- app_assoc in Hch.
  destruct (readnodes_ok st fs (hs_fd hs) CRYPT_HEADER FNil [Byte.x0a] CRYPT_ENV_MSG (flat [FBlob t2; FBlob c2]) z more wh)
    as (lh & lb & s1 & f1 & Fh & Fb & -> & Hch1 & Hsb1 & Hg1 & K1 & Hrh & Hrb & Hd & Hnew);
    [decided|decided|done|by apply flat_wf, env_plain|by repeat constructor|done|rewrite !zlen_app; change (zlen (gtext CRYPT_HEADER FNil)) with 9; change (zlen [_]) with 1; lia|done|done|].
  rewrite bind_ret. cbv beta iota. rewrite !bool_decide_eq_true_2 by done. cbn [andb]. rewrite check_err_true, bind_ret. cbv beta iota. cbn [negb].
  set (p := PX cl hs _ gk). change (put_io s1 f1 (WD p st r fs)) with (WD p s1 r f1). cbn [w_st].
  rewrite (bstr_grp _ _ _ _ _ Hrh) by done. rewrite bind_ret, <- (eq_refl : empty_header = gtext CRYPT_HEADER FNil ++ [Byte.x0a]).
  destruct (destroyn_ok p r f1 s1 s1 lh CRYPT_HEADER FNil Fh ∅ Hrh) as (s2 & -> & Hg2 & K2); [keeps_chain|set_solver|done|cbn; lia|]. rewrite bind_ret.
  assert (Hrb2 : rep true (nodes s2) None (Some lb) (msgtree CRYPT_ENV_MSG [FBlob t2; FBlob c2]) Fb) by (eapply rep_keeps; [exact Hrb|exact K2|set_solver]).
  destruct (initiator_process_response_ok me0 them0 K s2 r lb Fb n1 n2 nmR seR c2 t2) as (s3 & E3 & Hr3 & Hg3 & K3); [done..|lia|].
  unfold p. rewrite (crypt_ok cl hs _ gk s2 r f1 _ _ _ s3 r E3), bind_ret. cbv beta iota. rewrite check_err_true, bind_ret. cbv beta iota. cbn [negb].
  set (me1 := inc_nonce me0) in *. set (them1 := P (SLive nmR) n2 (p_key them0) (SLive seR) (p_skey them0)) in *.
  destruct (drop_msg (PX cl hs (Some (St me1 them1 K)) gk) r f1 s3 s3 lb CRYPT_ENV_MSG _ Fb ∅ Hr3) as (s4 & -> & Hg4 & _); [keeps_chain|set_solver|done|cbn; lia|].
  rewrite bind_ret.
  destruct (connect_last_ok me1 them1 K gk s4 r f1 more wh sl wl n2 seI seR kI kR c3 t3 nmR given nmI prv pub) as (s5 & f5 & E5 & H5 & H6 & H7 & H8); try done; [by eapply channel_same|].
  exists s5, f5. split_and!; try done. eapply others_trans; [|exact H7]. eapply others_step; [apply others_refl|exact Hsb1|by left].
Qed.

(** the first exchange; the first message of the initiator is written *)
Lemma connect_prefix_ok cs gk b eb nmI seI kI ea a' given K r r1 n0 n1 c1 t1 st fs s wh sl wl :
  let hI := msgtext CRYPT_HEADER [FBlob eb] in
  ready cs b eb nmI seI kI -> pairing b ea a' K -> zlen ea <= 256 -> ecc_export PK_PUBLIC a' = Some given -> accepts hs given ->
  fresh_nonce r = (n1, r1) -> nonce_ok n0 -> sealed K n0 hI CRYPT_INIT_MSG (init_payload n1 seI nmI) c1 t1 ->
  good st -> channel fs (hs_fd hs) (msg_r1 ea n0 ++ s) wh -> channel fs (write_fd cl) sl wl ->
  exists st' fs', connect_exchange (WD (PX cl hs (Some cs) gk) st r fs)
      = connect_rest (WD (PX cl hs (Some (St (set_nonce n1 (me cs)) (P (p_name (them cs)) (CryptState_nonce_inc n0) (KLive a') (p_session (them cs)) (p_skey (them cs))) K)) (SLive given)) st' r1 fs') true /\
    channel fs' (hs_fd hs) s (wh ++ env_frame [] hI c1 t1) /\ channel fs' (write_fd cl) sl wl /\
    others (hs_fd hs) (write_fd cl) fs fs' /\ good st'.
Proof.
  intros hI [Hb He Hnm Hpl Hsh Hse Hls HkI] HpairK Hlea Hgv Hac Hf Hno0 Hs1 Hg Hch Hcl.
  pose proof (fresh_ok _ _ _ Hf) as Hno1. unfold connect_exchange. cbn [w_st w_fds conn host]. pose proof (start_len ea n0 Hno0 Hlea) as Hl0.
  destruct (readnodes_one st fs (hs_fd hs) CRYPT_HEADER (flat [FBlob ea; FNum (n_left n0); FNum (n_right n0)]) [Byte.x0a] s wh)
    as (lh & s1 & f1 & Fh & -> & Hch1 & Hsb1 & Hg1 & Hx1 & Hrh); [decided|apply flat_wf; solve_plain|by repeat constructor| |done|done|].
  { rewrite msgtext_line_len in Hl0. rewrite zlen_app. change (zlen [_]) with 1. lia. }
  rewrite bind_ret. cbv beta iota. rewrite !bool_decide_eq_true_2 by done. cbn [andb]. rewrite check_err_true, bind_ret. cbv beta iota. cbn [negb].
  change (put_io s1 f1 (WD (PX cl hs (Some cs) gk) st r fs)) with (WD (PX cl hs (Some cs) gk) s1 r f1).
  destruct (initiator_start_runs cs gk s1 r f1 n1 r1 lh Fh n0 b eb ea a' K nmI seI given c1 t1) as (l & s2 & F2 & -> & [Hr2 Hg2 K2 D2]); [done..|].
  rewrite bind_ret. cbv beta iota. set (p1 := PX cl hs _ (SLive given)).
  destruct (drop_msg p1 r1 f1 s1 s2 lh CRYPT_HEADER [FBlob ea; FNum (n_left n0); FNum (n_right n0)] Fh ∅ Hrh) as (s3 & -> & Hg3 & K3); [done|set_solver|done|cbn; lia|].
  rewrite bind_ret, bool_decide_eq_true_2 by done. rewrite check_err_true, bind_ret. cbv beta iota. cbn [negb]. pose proof (rep_sub _ _ _ _ _ _ Hrh) as HFh.
  assert (Hr3 : rep true (nodes s3) None (Some l) (msgtree CRYPT_ENV_MSG [FBlob t1; FBlob c1]) F2) by (eapply (rep_keeps _ Fh s2); [done|done|set_solver]).
  apply sealed_opens in Hs1 as Ho1. destruct Ho1 as (Hc1 & Ht1 & _). pose proof (init_payload_ok n1 seI nmI Hno1 Hpl Hsh Hls) as Hp1.
  pose proof (env_gtext_len c1 t1 ltac:(lia) Ht1) as Hl1. pose proof (header_len eb (proj1 (export_law _ _ He))) as HlI.
  fold hI. destruct (write_hub_ok p1 s3 r1 f1 s wh hI l CRYPT_ENV_MSG (flat [FBlob t1; FBlob c1]) F2) as (f2 & -> & Hch2 & Hsb2); [done|done|done|done|decided|by apply flat_wf, env_plain|subst hI; lia|].
  rewrite bind_ret. cbv beta iota. destruct (drop_msg p1 r1 f2 s3 s3 l CRYPT_ENV_MSG _ F2 ∅ Hr3) as (s4 & -> & Hg4 & _); [keeps_chain|set_solver|done|cbn; lia|].
  rewrite bind_ret, check_err_true, bind_ret. cbv beta iota. cbn [negb]. exists s4, f2. unfold env_frame. rewrite app_nil_r. split_and!; [done|done| | |done].
  - eapply channel_same; [exact Hsb2|done|by eapply channel_same].
  - eapply others_step; [eapply others_step; [apply others_refl|exact Hsb1|by left]|exact Hsb2|by left].
Qed.

Lemma connect_exchange_ok cs gk b eb prv nmI seI kI ea a' given K nmR seR kR r r1 n0 n1 n2 c1 t1 c2 t2 c3 t3 st fs more wh sl wl z :
  let hI := msgtext CRYPT_HEADER [FBlob eb] in
  ready cs b eb nmI seI kI -> ecc_export PK_PRIVATE b = Some prv -> zlen prv <= 1000 -> pairing b ea a' K -> zlen ea <= 256 ->
  ecc_export PK_PUBLIC a' = Some given -> expects cl hs nmR nmI given ->
  fresh_nonce r = (n1, r1) -> nonce_ok n0 -> nonce_ok n2 ->
  plain (FStr nmR) -> zlen nmR <= 1000 -> length seR = 32%nat -> rijndael_setup seR = Some kR -> line_end z ->
  sealed K n0 hI CRYPT_INIT_MSG (init_payload n1 seI nmI) c1 t1 ->
  sealed K n1 empty_header CRYPT_RECV_MSG (recv_payload n2 n1 seR nmR) c2 t2 ->
  sealed K n2 empty_header CRYPT_INIT_MSG (final_payload n2) c3 t3 ->
  good st -> channel fs (hs_fd hs) (msg_r1 ea n0 ++ env_frame z empty_header c2 t2 ++ more) wh -> channel fs (write_fd cl) sl wl ->
  exists st' fs', connect_exchange (WD (PX cl hs (Some cs) gk) st r fs)
      = Ok (true, WD (PX cl hs (Some (unnamed (initiator_end cs a' n1 n2 nmR kI kR))) SFreed) st' r1 fs') /\
    channel fs' (hs_fd hs) more (wh ++ env_frame [] hI c1 t1 ++ env_frame [] empty_header c3 t3) /\
    channel fs' (write_fd cl) sl (wl ++ keys_frame nmR given nmI prv eb) /\ others (hs_fd hs) (write_fd cl) fs fs' /\ good st'.
Proof.
  intros hI Hrd Hprv Hlp HpairK Hlea Hgv Hex Hf Hno0 Hno2 HplR HshR HlsR HkR Hz Hs1 Hs2 Hs3 Hg Hch Hcl. pose proof Hrd as [Hb He Hnm Hpl Hsh Hse Hls HkI].
  destruct (connect_prefix_ok cs gk b eb nmI seI kI ea a' given K r r1 n0 n1 c1 t1 st fs (env_frame z empty_header c2 t2 ++ more) wh sl wl)
    as (s4 & f2 & -> & Hch2 & Hcl2 & Ho2 & Hg4); [done..|apply Hex|done|done|done|done|done|done|]. pose proof (fresh_ok _ _ _ Hf) as Hno1.
  set (me1 := set_nonce n1 (me cs)). set (them1 := P (p_name (them cs)) (CryptState_nonce_inc n0) (KLive a') (p_session (them cs)) (p_skey (them cs))).
  destruct (connect_rest_ok me1 them1 K (SLive given) s4 r1 f2 more (wh ++ env_frame [] hI c1 t1) sl wl n1 n2 seI seR kI kR c2 t2 c3 t3 z nmR given nmI prv eb)
    as (s5 & f5 & E5 & Hch5 & Hcl5 & Ho5 & Hg5); [done..| |done|].
  - split; [by exists a'|by exists b|done|done|done|]. pose proof (proj1 (export_law _ _ He)). pose proof (proj1 (export_law _ _ Hgv)). lia.
  - exists s5, f5. split_and!; [exact E5| |done|by eapply others_trans|done]. rewrite app_assoc. exact Hch5.
Qed.
End Connect.

(** ** From the call on *)

Section Claims.
Context {E S R B F : Type} `{!Ltc E S R} `{!LtcLaws E S R} `{!HashLaw (E := E) (S := S) (R := R)} `{!Sbuf B F} `{!SbufLaws B F} `{!Net}.
Abbreviation WD := (@PWorld E S R).
Abbreviation W := (@CWorld E S R).
Abbreviation PW := (@mkPeerw E S R B F).
Abbreviation PX := (@mkProxy E S).

(** the key the proxy works with: the configured one, or a new one *)
Definition own_key (r : R) (ck : bstr) (b : E) (r' : R) : Prop :=
  match ck with
  | SLive k => ecc_import k = Some b /\ r' = r
  | SNull => ecc_make_key r (Z.of_nat KEY_LENGTH) = (Some b, r')
  | SFreed => False
  end.

Lemma create_own st r nm ck b eb r1 se r2 k :
  good st -> own_key r ck b r1 -> ecc_export PK_PUBLIC b = Some eb -> plain (FStr nm) -> zlen nm <= 1000 ->
  fortuna_read r1 KEY_LENGTH = (se, r2) -> rijndael_setup se = Some k ->
  let cs := mkState (mkPeer (SLive nm) zero_nonce (KLive b) (SLive se) skey_zero) zero_peer skey_zero in
  (key ← bdata ck; CryptState_create st r (Some nm) key) = Ok (W cs st r2) /\ ready cs b eb nm se k.
Proof.
  intros Hg Ho He Hp Hs Hf Hk cs. pose proof (fortuna_law r1 KEY_LENGTH) as Hl. rewrite Hf in Hl. cbn [fst] in Hl. split; [|by split].
  assert (Hrs : CryptState_rand_sess (W (mkState (mkPeer (SLive nm) zero_nonce (KLive b) SNull skey_zero) zero_peer skey_zero) st r1) = Ok (W cs st r2)).
  { unfold CryptState_rand_sess, CryptState_rand. cbn [c_rng]. rewrite Hf, bool_decide_eq_true_2 by done. done. }
  destruct ck as [|x|]; [| |done]; cbn [bdata]; rewrite bind_ret; unfold CryptState_create; cbn [need]; rewrite bind_ret.
  - unfold CryptState_create_key. cbn [c_rng]. rewrite Ho, checkw_good by done. rewrite bool_decide_eq_true_2, bind_ret by done. cbv beta iota.
    rewrite checkw_good by done. exact Hrs.
  - destruct Ho as [Hi ->]. unfold CryptState_import_key, CryptState_bstr_ecc_key. cbn [need].
    rewrite bind_ret, Hi, checkw_good by done. rewrite bool_decide_eq_true_2, !bind_ret by done. cbv beta iota. rewrite checkw_good by done. exact Hrs.
Qed.

(** the library comes up *)
Lemma init_ok st b calls : good st -> Forall (eq true) calls -> CryptState_init st b calls = Ok (true, true, st).
Proof.
  intros Hg Hc. unfold CryptState_init. rewrite (good_errno _ Hg). cbn [Z.eqb assert_]. rewrite bind_ret. destruct b; [done|].
  assert (ltc_all st calls = (true, st)) as ->; [|done]. induction Hc as [|c cs <- _ IH]; [done|]. cbn [ltc_all]. by rewrite check_good.
Qed.

Lemma connect_starts cl hs o gk st r fs fs' nm hh port fd cs r' ini calls :
  good st -> Forall (eq true) calls -> cl_name cl = SLive nm -> hs_host hs = SLive hh -> hs_port hs = SLive port ->
  (key ← bdata (cl_key cl); CryptState_create st r (Some nm) key) = Ok (W cs st r') ->
  tcp_client st fs (Some hh) (Some port) = Ok (fd, st, fs') -> 0 <= fd ->
  Proxy_connect (WD (PX cl hs o gk) st r fs) ini calls = connect_exchange (WD (PX cl (set_hfd fd hs) (Some cs) gk) st r' fs').
Proof.
  intros Hg Hcalls Hn Hh Hp Hc Ht Hf. unfold Proxy_connect. cbn [w_st]. rewrite init_ok, bind_ret by done. cbv beta iota.
  cbn [conn client host]. rewrite Hn. cbn [bdata]. rewrite bind_ret. cbn [w_rng].
  destruct (bdata (cl_key cl)) as [key|e] eqn:Ek; [|done]. rewrite bind_ret in Hc. rewrite bind_ret, Hc, bind_ret. cbn [c_cs c_st c_rng set_state put_conn conn client host w_st w_fds host_given_key state w_rng].
  rewrite Hh, Hp. cbn [bdata]. rewrite !bind_ret, Ht, bind_ret. cbv beta iota. by rewrite (proj2 (Z.leb_le 0 fd) Hf), check_err_true, bind_ret.
Qed.

(** the nonces and packets of one exchange, between a hub with key [a] and a proxy with key [b] *)
Record exchange (a b : E) (ea eb : bytes) (a' b' : E) (nmR nmI seR seI : bytes) (rR rI : R) (K : S) (n0 n1 n2 : CryptNonce) (r1 r2 rI' : R) (c1 t1 c2 t2 c3 t3 : bytes) : Prop := Exchange {
  xc_hub : pairing a eb b' K;
  xc_proxy : pairing b ea a' K;
  xc_n0 : fresh_nonce rR = (n0, r1);
  xc_n1 : fresh_nonce rI = (n1, rI');
  xc_n2 : fresh_nonce r1 = (n2, r2);
  xc_1 : sealed K n0 (msgtext CRYPT_HEADER [FBlob eb]) CRYPT_INIT_MSG (init_payload n1 seI nmI) c1 t1;
  xc_2 : sealed K n1 empty_header CRYPT_RECV_MSG (recv_payload n2 n1 seR nmR) c2 t2;
  xc_3 : sealed K n2 empty_header CRYPT_INIT_MSG (final_payload n2) c3 t3
}.

Lemma exchange_exists a b ea eb a' b' nmR nmI seR seI rR rI sec :
  ecc_export PK_PUBLIC a = Some ea -> ecc_export PK_PUBLIC b = Some eb -> ecc_import ea = Some a' -> ecc_import eb = Some b' -> ecc_shared_secret a b' = Some sec ->
  exists K n0 n1 n2 r1 r2 rI' c1 t1 c2 t2 c3 t3, exchange a b ea eb a' b' nmR nmI seR seI rR rI K n0 n1 n2 r1 r2 rI' c1 t1 c2 t2 c3 t3.
Proof.
  intros He1 He2 Hi1 Hi2 Hsec. destruct (aes_law sec (secret_law _ _ _ Hsec)) as [K HK].
  assert (Hsec' : ecc_shared_secret b a' = Some sec) by (by rewrite <- (dh_law a b ea eb a' b')).
  destruct (fresh_nonce rR) as [n0 r1] eqn:Hf0. destruct (fresh_nonce rI) as [n1 rI'] eqn:Hf1. destruct (fresh_nonce r1) as [n2 r2] eqn:Hf2.
  destruct (sealed_exists K n0 (msgtext CRYPT_HEADER [FBlob eb]) CRYPT_INIT_MSG (init_payload n1 seI nmI)) as (c1 & t1 & Hs1).
  destruct (sealed_exists K n1 empty_header CRYPT_RECV_MSG (recv_payload n2 n1 seR nmR)) as (c2 & t2 & Hs2).
  destruct (sealed_exists K n2 empty_header CRYPT_INIT_MSG (final_payload n2)) as (c3 & t3 & Hs3).
  exists K, n0, n1, n2, r1, r2, rI', c1, t1, c2, t2, c3, t3. split; try done; split; eauto.
Qed.

(** the key and the session string of the proxy *)
Record own (cl : proxy_client) (b : E) (eb prv nmI seI : bytes) (kI : S) (rI rI1 rI2 : R) : Prop := Own {
  ow_key : own_key rI (cl_key cl) b rI1;
  ow_pub : ecc_export PK_PUBLIC b = Some eb;
  ow_prv : ecc_export PK_PRIVATE b = Some prv;
  ow_short : zlen prv <= 1000;
  ow_name : plain (FStr nmI) /\ zlen nmI <= 1000;
  ow_session : fortuna_read rI1 KEY_LENGTH = (seI, rI2);
  ow_skey : rijndael_setup seI = Some kI
}.

Definition started (nmI seI : bytes) (b : E) : CryptState E S :=
  mkState (mkPeer (SLive nmI) zero_nonce (KLive b) (SLive seI) skey_zero) zero_peer skey_zero.

(** the whole of [Proxy_connect], given what the hub writes *)
Lemma connect_ok cl hs a b ea eb a' b' nmR nmI seR seI kR kI prv given rR rI rI1 rI2 K n0 n1 n2 r1 r2 rI' c1 t1 c2 t2 c3 t3 hh port
    o gk st fs fs1 fd more w sl wl ini calls :
  own cl b eb prv nmI seI kI rI rI1 rI2 -> exchange a b ea eb a' b' nmR nmI seR seI rR rI2 K n0 n1 n2 r1 r2 rI' c1 t1 c2 t2 c3 t3 ->
  plain (FStr nmR) -> zlen nmR <= 1000 -> length seR = 32%nat -> rijndael_setup seR = Some kR -> zlen ea <= 256 ->
  ecc_export PK_PUBLIC a' = Some given -> expects cl hs nmR nmI given -> hs_host hs = SLive hh -> hs_port hs = SLive port ->
  good st -> Forall (eq true) calls -> tcp_client st fs (Some hh) (Some port) = Ok (fd, st, fs1) -> fd <> write_fd cl ->
  channel fs1 fd (msg_r1 ea n0 ++ msg_env empty_header c2 t2 ++ more) w -> channel fs1 (write_fd cl) sl wl ->
  exists st' fs', Proxy_connect (WD (PX cl hs o gk) st rI fs) ini calls
      = Ok (true, WD (PX cl (set_hfd fd hs) (Some (unnamed (initiator_end (started nmI seI b) a' n1 n2 nmR kI kR))) SFreed) st' rI' fs') /\
    channel fs' fd more (w ++ env_frame [] (msgtext CRYPT_HEADER [FBlob eb]) c1 t1 ++ env_frame [] empty_header c3 t3) /\
    channel fs' (write_fd cl) sl (wl ++ keys_frame nmR given nmI prv eb) /\ others fd (write_fd cl) fs1 fs' /\ good st'.
Proof.
  intros [Hok He Hprv Hlp [Hpl Hsh] Hfr HkI] [_ Hpair Hf0 Hf1 Hf2 Hs1 Hs2 Hs3] HplR HshR HlsR HkR Hlea Hgv Hex Hhh Hport Hg Hcalls Ht Hw Hch Hcl.
  pose proof (fresh_ok _ _ _ Hf0). pose proof (fresh_ok _ _ _ Hf2).
  destruct (create_own st rI nmI (cl_key cl) b eb rI1 seI rI2 kI) as [Hc Hrd]; [done..|].
  rewrite (connect_starts cl hs o gk st rI fs fs1 nmI hh port fd (started nmI seI b) rI2) by (done || apply Hex || apply Hch).
  eapply (connect_exchange_ok cl (set_hfd fd hs) Hw (started nmI seI b) gk b eb prv nmI seI kI ea a' given K nmR seR kR rI2 rI' n0 n1 n2 c1 t1 c2 t2 c3 t3 st fs1 more w sl wl [Byte.x0a]);
    eauto using line_end_nl. by destruct Hex; split.
Qed.

(** C3: a proxy connects to a hub: there are four frames such that the hub's [Peer_establish_receiver],
    given the proxy's two in any pieces, succeeds and writes its own two, and [Proxy_connect], with a
    configured or a new key, once the socket is open and given the hub's two, succeeds and writes its own.
    The hub knows the proxy's name and key, what one side sends with is what the other receives with, and
    the listener has got one frame with both names, the hub's public key and the proxy's two keys, each
    with its fingerprint. *)
Theorem proxy_connects (kc : CryptState E S -> bool) csR a ea a' nmR seR kR rR cl hs b eb b' prv given nmI hh port rI rI1 rI2 seI kI sec :
  ready csR a ea nmR seR kR -> (forall cs, p_key (them cs) = KLive b' -> kc cs = true) -> own cl b eb prv nmI seI kI rI rI1 rI2 ->
  ecc_import ea = Some a' -> ecc_import eb = Some b' -> ecc_shared_secret a b' = Some sec -> ecc_export PK_PUBLIC a' = Some given ->
  expects cl hs nmR nmI given -> hs_host hs = SLive hh -> hs_port hs = SLive port ->
  exists r1 r2 i1 i2 csR' csI' rR' rI',
    (forall st (fs : FrameSource B F) more w, good st -> idle fs (i1 ++ i2 ++ more) w ->
       exists st' fs', Peer_establish_receiver kc (PW (W csR st rR) fs) = Ok (true, PW (W csR' st' rR') fs') /\
         idle fs' more (w ++ r1 ++ r2) /\ good st') /\
    (forall o gk st fs fs1 fd more w sl wl ini calls, good st -> Forall (eq true) calls ->
       tcp_client st fs (Some hh) (Some port) = Ok (fd, st, fs1) -> fd <> write_fd cl ->
       channel fs1 fd (r1 ++ r2 ++ more) w -> channel fs1 (write_fd cl) sl wl ->
       exists st' fs', Proxy_connect (WD (PX cl hs o gk) st rI fs) ini calls = Ok (true, WD (PX cl (set_hfd fd hs) (Some csI') SFreed) st' rI' fs') /\
         channel fs' fd more (w ++ i1 ++ i2) /\ channel fs' (write_fd cl) sl (wl ++ keys_frame nmR given nmI prv eb) /\
         others fd (write_fd cl) fs1 fs' /\ good st') /\
    in_sync csR' csI' /\ p_name (them csR') = SLive nmI /\ p_key (them csR') = KLive b' /\ p_key (them csI') = KLive a'.
Proof.
  intros HR Hkc Hown Hia Hib Hsec Hgv Hex Hhh Hport. pose proof HR as [_ HeR _ ? ? _ ? ?]. pose proof Hown as [_ He _ _ [? ?] Hfr ?].
  pose proof (fortuna_law rI1 KEY_LENGTH) as Hls. rewrite Hfr in Hls. cbn [fst] in Hls.
  destruct (exchange_exists a b ea eb a' b' nmR nmI seR seI rR rI2 sec) as (K & n0 & n1 & n2 & r1 & r2 & rI' & c1 & t1 & c2 & t2 & c3 & t3 & Hx); [done..|].
  pose proof Hx as [Hp _ Hf0 Hf1 Hf2 Hs1 Hs2 Hs3]. pose proof (fresh_ok _ _ _ Hf1). pose proof (export_law _ _ HeR) as [? _]. pose proof (export_law _ _ He) as [? _].
  exists (msg_r1 ea n0), (msg_env empty_header c2 t2), (env_frame [] (msgtext CRYPT_HEADER [FBlob eb]) c1 t1), (env_frame [] empty_header c3 t3),
    (receiver_end csR b' n1 n2 nmI kR kI), (unnamed (initiator_end (started nmI seI b) a' n1 n2 nmR kI kR)), r2, rI'.
  split_and!; try done.
  - intros st fs more w Hg Hi.
    eapply (establish_receiver_ok kc csR a ea nmR seR kR eb b' K nmI seI kI rR r1 r2 n0 n1 n2 c1 t1 c2 t2 c3 t3 _ _ _ _ []); eauto using line_end_nil.
  - intros. by eapply (connect_ok cl hs a b ea eb a' b' nmR nmI seR seI kR kI prv given rR rI rI1 rI2 K n0 n1 n2 r1 r2 rI' c1 t1 c2 t2 c3 t3 hh port).
Qed.
End Claims.

(** ** A run *)

#[local] Existing Instance toy_ltc.
#[local] Existing Instance toy_laws.
#[local] Existing Instance mem_sbuf.
#[local] Existing Instance mem_laws.

#[local] Instance toy_hash : HashLaw (E := byte) (S := bytes) (R := Z).
Proof. intros b. eexists. split; [done|]. split; [done|]. change (zlen [uchar (zlen b)]) with 1. lia. Qed.

(** the socket call opens descriptor 5, whatever the address *)
#[local] Instance toy_net : Net := {
  inet_aton _ := Some 0;
  gethostbyname _ := (None, 0);
  getservbyname _ _ := (None, 0);
  os_socket fs := (5, 0, fs);
  os_connect fs _ _ := (true, 0, fs);
  os_mkfifo fs _ := (true, 0, fs);
  os_open fs _ _ := (-1, 2, fs)
}.

Definition joe : proxy_client := Client (SLive (lit "joe")) (SLive [Byte.x02]) 0 1.
Definition the_hub : proxy_host := Host (SLive (lit "localhost")) (SLive (lit "5555")) (SLive (lit "hub")) (SLive [Byte.x01]) (-1).
Definition wires (s : bytes) : fdtable := <[5 := Desc (match s with [] => [] | _ => [RData s] end) [] []]> {[1 := Desc [] [] []]}.

Lemma wires_hub s : channel (wires s) 5 s [].
Proof.
  split; [lia|]. eexists. split; [apply lookup_insert_eq|]. cbn [d_in d_wr d_out].
  destruct s; cbn [stream]; rewrite ?app_nil_r; split_and!; by repeat constructor.
Qed.

Lemma wires_listener s : channel (wires s) 1 [] [].
Proof.
  split; [lia|]. eexists. split; [unfold wires; rewrite lookup_insert_ne by done; apply lookup_singleton_eq|].
  cbn [d_in d_wr d_out stream]. split_and!; by repeat constructor.
Qed.

Lemma proxy_connects_witness :
  exists r i csR stR rR fsR csI stI rI fsI,
    Peer_establish_receiver (accept Byte.x02) (mkPeerw (CWorld (PeerProps.side (lit "hub") Byte.x01 Byte.x41) empty_store 1) (mem_source i))
      = Ok (true, mkPeerw (CWorld csR stR rR) fsR) /\
    Proxy_connect (PWorld (mkProxy joe the_hub None SNull) empty_store 7 (wires r)) true []
      = Ok (true, PWorld (mkProxy joe (set_hfd 5 the_hub) (Some csI) SFreed) stI rI fsI) /\
    ms_out (f_fd fsR) = r /\ in_sync csR csI.
Proof.
  destruct (proxy_connects (B := membuf) (F := memsock) (accept Byte.x02) (PeerProps.side (lit "hub") Byte.x01 Byte.x41) Byte.x01 [Byte.x01] Byte.x01 (lit "hub")
              (replicate 32 Byte.x41) (replicate 32 Byte.x41) 1 joe the_hub Byte.x02 [Byte.x02] Byte.x02 [Byte.x02] [Byte.x01] (lit "joe") (lit "localhost") (lit "5555")
              7 7 8 (replicate 32 Byte.x07) (replicate 32 Byte.x07) (toy_secret Byte.x01 Byte.x02))
    as (r1 & r2 & i1 & i2 & csR & csI & rR & rI & HR & HI & Hsy & _).
  - apply side_ready; [split; [done|decided]|done].
  - exact (accept_ok Byte.x02).
  - split; [done|done|done|done|split; [split; [done|decided]|done]|done|done].
  - done.
  - done.
  - done.
  - done.
  - split; [done|done|by right].
  - done.
  - done.
  - destruct (HR empty_store (mem_source (i1 ++ i2)) [] [] empty_good) as (stR & fsR & ER & HiR & _); [rewrite app_nil_r; apply mem_idle|].
    destruct (HI None SNull empty_store (wires (r1 ++ r2)) (wires (r1 ++ r2)) 5 [] [] [] [] true [] empty_good) as (stI & fsI & EI & _);
      [constructor|done|done|rewrite app_nil_r; apply wires_hub|apply wires_listener|].
    exists (r1 ++ r2), (i1 ++ i2), csR, stR, rR, fsR, csI, stI, rI, fsI. split_and!; [exact ER|exact EI|exact (id_written _ _ _ HiR)|done].
Defined.

End ProxyConnect.
