(* ===== verification/ProxyFaults.v ===== *)
(** * ProxyFaults: the proxy when things go wrong

    The error paths of [client/proxy.c]: an exchange the hub does not finish, a hub with another key or
    another name, a [select] that is interrupted, a hub that goes away while it is written to. *)

From Stdlib Require Import ZArith Lia.
From S2P Require Import Prelude Cstdlib Ragel Node NodeFormat Stackish NodeRep NodeOpen NodeFormatProps StackishDfa StackishRt StackishProps Crypto Signing Frame Peer FrameProps CryptoProps PeerProps ClientIo ClientIoProps Proxy ProxyProps ProxyRelay ProxyConnect.
Import Cstdlib Node NodeFormat Stackish NodeRep NodeOpen NodeFormatProps StackishRt StackishProps Crypto Signing Frame Peer FrameProps CryptoProps PeerProps ClientIo ClientIoProps Proxy ProxyProps ProxyRelay ProxyConnect.
Local Open Scope Z_scope.

Module ProxyFaults.

Section Faults.
Context {E S R : Type} `{!Ltc E S R} `{!LtcLaws E S R} `{!HashLaw (E := E) (S := S) (R := R)}.
Abbreviation St := (@mkState E S).
Abbreviation P := (@mkPeer E S).
Abbreviation PX := (@mkProxy E S).
Abbreviation WD := (@PWorld E S R).
Abbreviation W := (@CWorld E S R).

(** ** Refusing a hub *)

Lemma fp_len b : zlen (cstr (fp (E := E) (S := S) (R := R) b)) <= 192.
Proof. destruct (fp_ok (E := E) (S := S) (R := R) b) as [_ Hl]. pose proof (cstr_len (fp (E := E) (S := S) (R := R) b)). lia. Qed.

Lemma fingerprint_live cl hs cs gk st r fs s : good st ->
  fingerprint (WD (PX cl hs (Some cs) gk) st r fs) (SLive s) = Ok (Some (fp (E := E) (S := S) (R := R) s), SFreed, WD (PX cl hs (Some cs) gk) st r fs).
Proof.
  intros Hg. unfold fingerprint. rewrite (crypt_ok cl hs cs gk st r fs _ _ cs st r (fingerprint_ok cs st r s Hg)), bind_ret. cbv beta iota.
  by rewrite bool_decide_eq_true_2 by eauto.
Qed.

(** what the configuration says of a hub *)
Record described (hs : proxy_host) (hh port nm : bytes) : Prop := Described {
  de_host : hs_host hs = SLive hh; de_port : hs_port hs = SLive port; de_name : hs_name hs = SLive nm;
  de_short : zlen hh <= 1000 /\ zlen port <= 1000 /\ zlen nm <= 1000
}.

(** the report frees the two keys it shows *)
Lemma dump_ok cl hs cs st r fs sl wl hh port nm given expected theirs :
  good st -> channel fs (write_fd cl) sl wl -> described hs hh port nm -> hs_key hs = SLive expected -> fmt_s (p_name (them cs)) = Ok theirs -> zlen theirs <= 1000 ->
  let text := invalid_state_text (cstr hh) (cstr port) (cstr nm) theirs (cstr (fp (E := E) (S := S) (R := R) expected)) (cstr (fp (E := E) (S := S) (R := R) given)) in
  exists st' fs', Proxy_dump_invalid_state (WD (PX cl hs (Some cs) (SLive given)) st r fs)
      = Ok (WD (PX cl (set_hkey SFreed hs) (Some cs) SFreed) st' r fs') /\
    channel fs' (write_fd cl) sl (wl ++ frame (err_text PEER_VERIFY text)) /\ good st'.
Proof.
  intros Hg Hch [Hh Hp Hn (L1 & L2 & L3)] Hk Ht L4 text. unfold Proxy_dump_invalid_state. cbn [conn host_given_key].
  rewrite fingerprint_live, bind_ret by done. cbv beta iota. change (set_given SFreed (WD (PX cl hs (Some cs) (SLive given)) st r fs)) with (WD (PX cl hs (Some cs) SFreed) st r fs). cbn [conn host].
  rewrite Hk, fingerprint_live, bind_ret by done. cbv beta iota. change (on_host (set_hkey SFreed) (WD (PX cl hs (Some cs) SFreed) st r fs)) with (WD (PX cl (set_hkey SFreed hs) (Some cs) SFreed) st r fs). cbn [conn host state need].
  rewrite bind_ret. destruct hs as [h0 p0 n0 k0 fd]. cbn [hs_host hs_port hs_name hs_key set_hkey of_option] in *. subst. rewrite Ht. cbn [fmt_s]. rewrite !bind_ret. fold text.
  destruct (Proxy_error_ok (PX cl (Host (SLive hh) (SLive port) (SLive nm) SFreed fd) (Some cs) SFreed) st r fs sl wl PEER_VERIFY text) as (st' & fs' & E1 & Hch' & _ & Hg' & _); [done|done| |].
  - unfold text, invalid_state_text. rewrite !zlen_app. pose proof (cstr_len hh). pose proof (cstr_len port). pose proof (cstr_len nm). pose proof (fp_len expected). pose proof (fp_len given).
    repeat match goal with |- context [zlen (lit ?x)] => let v := eval vm_compute in (zlen (lit x)) in change (zlen (lit x)) with v end.
    change (zlen [_]) with 1. change (zlen [_; _]) with 2. lia.
  - by exists st', fs'.
Qed.

(** the verification of a hub with another name, when the keys are still there *)
Lemma wrong_name_verify cl hs cs gk st r fs sl wl hh port nm theirs : 
  good st -> channel fs (write_fd cl) sl wl -> described hs hh port nm -> cl_name cl <> SNull -> p_name (them cs) = SLive theirs -> nm <> theirs ->
  exists st' fs', Proxy_final_verify (WD (PX cl hs (Some cs) gk) st r fs)
      = (w ← Proxy_dump_invalid_state (WD (PX cl hs (Some cs) gk) st' r fs'); Ok (false, w)) /\
    channel fs' (write_fd cl) sl (wl ++ frame (err_text PEER_VERIFY (lit "Expected Hub name and given Hub name do not match."))) /\ good st'.
Proof.
  intros Hg Hch [Hh Hp Hn _] Hc Ht Hne. unfold Proxy_final_verify. cbn [conn state need host]. rewrite bind_ret, Hn. cbn [is_null negb].
  rewrite check_err_true, bind_ret. cbv beta iota. cbn [negb conn client host]. assert (is_null (cl_name cl) = false) as -> by (by destruct (cl_name cl)). cbn [negb].
  rewrite check_err_true, bind_ret. cbv beta iota. cbn [negb conn client host]. rewrite Hn, Ht. cbn [biseq]. rewrite bool_decide_eq_false_2, bind_ret by done.
  destruct (check_err_false (PX cl hs (Some cs) gk) st r fs sl wl PEER_VERIFY (lit "Expected Hub name and given Hub name do not match.")) as (st' & fs' & E1 & Hch' & _ & Hg' & _);
    [done|done|by vm_compute|].
  rewrite E1, bind_ret. cbv beta iota. cbn [negb]. by exists st', fs'.
Qed.

(** a second message without a body ends the exchange, with the result of the write before it *)
Lemma rest_lone_header cl hs cs gk st r fs more w sl wl :
  good st -> hs_fd hs <> write_fd cl -> channel fs (hs_fd hs) (frame empty_header ++ more) w -> channel fs (write_fd cl) sl wl ->
  exists st' fs', connect_rest (WD (PX cl hs (Some cs) gk) st r fs) true = Ok (true, WD (PX cl hs (Some cs) gk) st' r fs') /\
    channel fs' (hs_fd hs) more w /\ channel fs' (write_fd cl) sl (wl ++ frame (err_text PEER_ESTABLISH (lit "Invalid response from hub."))) /\ good st'.
Proof.
  intros Hg Hw Hch Hcl. unfold connect_rest. cbn [w_st w_fds conn host].
  destruct (readnodes_one st fs (hs_fd hs) CRYPT_HEADER FNil [Byte.x0a] more w) as (lh & s2 & f2 & Fh & -> & Hch2 & Hsb2 & Hg2 & Hx2 & Hrh);
    [decided|done|by repeat constructor|by vm_compute|exact Hch|done|].
  rewrite bind_ret. cbv beta iota. rewrite bool_decide_eq_false_2 by (by intros Hx; destruct (Hx eq_refl)). cbn [andb].
  set (p := PX cl hs (Some cs) gk). change (put_io s2 f2 (WD p st r fs)) with (WD p s2 r f2).
  destruct (check_err_false p s2 r f2 sl wl PEER_ESTABLISH (lit "Invalid response from hub.")) as (s3 & f3 & -> & Hch3 & Hsb3 & Hg3 & K3);
    [done|by eapply channel_same; [exact Hsb2|done|]|by vm_compute|].
  rewrite bind_ret. cbv beta iota. cbn [negb]. unfold connect_finish. do 2 rewrite destroyn_none, bind_ret.
  destruct (destroyn_ok p r f3 s2 s3 lh CRYPT_HEADER FNil Fh ∅ Hrh) as (s4 & -> & Hg4 & _); [done|set_solver|done|cbn; lia|].
  rewrite bind_ret. exists s4, f3. split_and!; [done|eapply channel_same; [exact Hsb3|done|done]|done|done].
Qed.
End Faults.

Section Claims.
Context {E S R : Type} `{!Ltc E S R} `{!LtcLaws E S R} `{!HashLaw (E := E) (S := S) (R := R)} `{!Net}.
Abbreviation St := (@mkState E S).
Abbreviation PX := (@mkProxy E S).
Abbreviation WD := (@PWorld E S R).

(** an interrupted [select] aborts the proxy: the check that should report it runs with [errno] set,
    so the report is not built and the assertion in [Node_dump] fails, wherever the loop is. *)
Theorem interrupted_select_aborts (w : pworld E S R) L e evs : e <> 0 -> event_loop w L (SelFail e :: evs) = Fault AssertFail.
Proof. apply select_fails. Qed.

(** a hub with another key than the configured one is refused with a report of both fingerprints,
    but the report frees the configured key, and [Proxy_destroy] frees it again. *)
Theorem wrong_key_frees_twice cl hs (cs : CryptState E S) gk st (r : R) fs sl wl hh port nm a' given expected :
  good st -> channel fs (write_fd cl) sl wl -> described hs hh port nm -> p_name (them cs) = SNull ->
  p_key (them cs) = KLive a' -> ecc_export PK_PUBLIC a' = Some given -> hs_key hs = SLive expected -> given <> expected ->
  let text := invalid_state_text (cstr hh) (cstr port) (cstr nm) (lit "(null)") (cstr (fp (E := E) (S := S) (R := R) expected)) (cstr (fp (E := E) (S := S) (R := R) given)) in
  exists w', Proxy_confirm_key (WD (PX cl hs (Some cs) gk) st r fs) = Ok (false, w') /\
    channel (w_fds w') (write_fd cl) sl (wl ++ frame (err_text PEER_VERIFY text)) /\ Proxy_destroy w' = Fault BadPointer.
Proof.
  intros Hg Hch Hd Hn Hk He Hx Hne text. unfold Proxy_confirm_key.
  rewrite (crypt_ok cl hs cs gk st r fs _ _ cs st r (export_own_ok cs st r CRYPT_THEIR_KEY PK_PUBLIC a' given Hg Hk He)), bind_ret. cbv beta iota.
  change (set_given (of_option (Some given)) (WD (PX cl hs (Some cs) gk) st r fs)) with (WD (PX cl hs (Some cs) (SLive given)) st r fs).
  cbn [conn host host_given_key]. rewrite Hx. cbn [is_null biseq]. rewrite bool_decide_eq_false_2, bind_ret by done. cbn [w_st].
  assert (set_errno 0 st = st) as -> by (destruct Hg as [Hg _]; destruct st as [nd nx er]; cbn in *; by subst).
  destruct (dump_ok cl hs cs st r fs sl wl hh port nm given expected (lit "(null)")) as (st' & fs' & E1 & Hch' & Hg'); [done|done|done|done|by rewrite Hn|by vm_compute|].
  change (set_st st (WD (PX cl hs (Some cs) (SLive given)) st r fs)) with (WD (PX cl hs (Some cs) (SLive given)) st r fs). rewrite E1, bind_ret.
  eexists. split; [done|]. split; [exact Hch'|]. unfold Proxy_destroy. cbn [conn client host].
  destruct (cl_name cl), (cl_key cl); try done; destruct Hd as [Hh Hp Hm _]; destruct hs; cbn in *; by subst.
Qed.

(** a hub with another name than the configured one crashes the proxy: the failed verification has
    freed the given and the configured key for its report, the macro that tests the result evaluates the
    call a second time, and the second report reads a freed key; without a configured key, the first
    report asserts. *)
Theorem wrong_name_crashes cl hs (cs : CryptState E S) st (r : R) fs sl wl hh port nm given theirs :
  good st -> channel fs (write_fd cl) sl wl -> described hs hh port nm -> accepts hs given -> cl_name cl <> SNull ->
  p_name (them cs) = SLive theirs -> nm <> theirs -> zlen theirs <= 1000 ->
  check_err_call (WD (PX cl hs (Some cs) (SLive given)) st r fs) Proxy_final_verify PEER_VERIFY (lit "Final verify of Hub info failed.")
    = Fault (if is_null (hs_key hs) then AssertFail else BadPointer).
Proof.
  intros Hg Hch Hd Ha Hc Ht Hne Hl. set (m := lit "Final verify of Hub info failed."). assert (Hm : zlen m <= 30000) by (by vm_compute). unfold check_err_call.
  destruct (wrong_name_verify cl hs cs (SLive given) st r fs sl wl hh port nm theirs) as (s1 & f1 & -> & Hch1 & Hg1); [done..|].
  destruct Ha as [Hk|Hk]; rewrite Hk; cbn [is_null].
  { unfold Proxy_dump_invalid_state. cbn [conn host_given_key]. rewrite fingerprint_live, bind_ret by done. cbv beta iota. cbn. by rewrite Hk. }
  destruct (dump_ok cl hs cs s1 r f1 sl (wl ++ frame (err_text PEER_VERIFY (lit "Expected Hub name and given Hub name do not match."))) hh port nm given given (cstr theirs))
    as (s2 & f2 & -> & Hch2 & Hg2); [done|done|done|done|by rewrite Ht|pose proof (cstr_len theirs); lia|].
  rewrite !bind_ret. cbv beta iota.
  match goal with H : channel f2 _ _ ?w |- _ => destruct (Proxy_error_ok (PX cl (set_hkey SFreed hs) (Some cs) SFreed) s2 r f2 sl w PEER_VERIFY m Hg2 H Hm) as (s3 & f3 & -> & Hch3 & _ & Hg3 & _) end.
  rewrite bind_ret.
  match goal with H : channel f3 _ _ ?w |- _ => destruct (wrong_name_verify cl (set_hkey SFreed hs) cs SFreed s3 r f3 sl w hh port nm theirs) as (s4 & f4 & -> & _) end;
    [done|done|by destruct Hd; split|done|done|done|done].
Qed.

(** C38: an exchange the hub leaves off is taken for a connection: when the first message carries the
    configured public key, which needs no private key, and the second has no body, the listener gets an
    error but [Proxy_connect] returns the result of its last write, which is success, and the session keys
    of both directions are still zero; the next message goes out under that key and the nonce after the
    one that came in clear. *)
Theorem unfinished_exchange_accepted cl hs b eb ea a' given nmI hh port (rI rI1 rI2 : R) seI kI K n0 :
  own_key rI (cl_key cl) b rI1 -> ecc_export PK_PUBLIC b = Some eb -> cl_name cl = SLive nmI -> plain (FStr nmI) -> zlen nmI <= 1000 ->
  fortuna_read rI1 KEY_LENGTH = (seI, rI2) -> rijndael_setup seI = Some kI -> pairing b ea a' K -> zlen ea <= 256 -> nonce_ok n0 ->
  ecc_export PK_PUBLIC a' = Some given -> accepts hs given -> hs_host hs = SLive hh -> hs_port hs = SLive port ->
  exists i (cs : CryptState E S) rI', p_skey (me cs) = skey_zero /\ p_skey (them cs) = skey_zero /\ p_nonce (them cs) = CryptState_nonce_inc n0 /\
    forall o gk st fs fs1 fd more w sl wl ini calls, good st -> Forall (eq true) calls -> tcp_client st fs (Some hh) (Some port) = Ok (fd, st, fs1) -> fd <> write_fd cl ->
       channel fs1 fd (msg_r1 ea n0 ++ frame empty_header ++ more) w -> channel fs1 (write_fd cl) sl wl ->
       exists st' fs', Proxy_connect (WD (PX cl hs o gk) st rI fs) ini calls = Ok (true, WD (PX cl (set_hfd fd hs) (Some cs) (SLive given)) st' rI' fs') /\
         channel fs' fd more (w ++ i) /\ channel fs' (write_fd cl) sl (wl ++ frame (err_text PEER_ESTABLISH (lit "Invalid response from hub."))) /\ good st'.
Proof.
  intros Hok He Hnm Hpl Hsh Hfr HkI Hpair Hlea Hno0 Hgv Hac Hhh Hport. destruct (fresh_nonce rI2) as [n1 rI'] eqn:Hf1.
  destruct (sealed_exists K n0 (msgtext CRYPT_HEADER [FBlob eb]) CRYPT_INIT_MSG (init_payload n1 seI nmI)) as (c1 & t1 & Hs1).
  set (cs0 := St (mkPeer (SLive nmI) zero_nonce (KLive b) (SLive seI) skey_zero) zero_peer skey_zero).
  set (cs := St (set_nonce n1 (me cs0)) (mkPeer (p_name (them cs0)) (CryptState_nonce_inc n0) (KLive a') (p_session (them cs0)) (p_skey (them cs0))) K).
  exists (env_frame [] (msgtext CRYPT_HEADER [FBlob eb]) c1 t1), cs, rI'. do 3 (split; [done|]). intros o gk st fs fs1 fd more w sl wl ini calls Hg Hcalls Ht Hw Hch Hcl.
  destruct (create_own st rI nmI (cl_key cl) b eb rI1 seI rI2 kI) as [Hc Hrd]; [done..|].
  rewrite (connect_starts cl hs o gk st rI fs fs1 nmI hh port fd cs0 rI2) by (done || apply Hch).
  destruct (connect_prefix_ok cl (set_hfd fd hs) Hw cs0 gk b eb nmI seI kI ea a' given K rI2 rI' n0 n1 c1 t1 st fs1 (frame empty_header ++ more) w sl wl Hrd)
    as (s1 & f1 & -> & Hch1 & Hcl1 & _ & Hg1); [done..|].
  by apply rest_lone_header.
Qed.
End Claims.

(** ** Runs *)

#[local] Existing Instance toy_ltc.
#[local] Existing Instance toy_laws.
#[local] Existing Instance toy_hash.
#[local] Existing Instance toy_net.

Lemma interrupted_select_aborts_witness :
  let w := PWorld (mkProxy joe the_hub None SNull) empty_store 0 (wires []) in
  event_loop (E := byte) (S := bytes) (R := Z) w (loop_start w) [SelFail 4] = Fault AssertFail.
Proof. apply (interrupted_select_aborts (E := byte) (S := bytes) (R := Z)). done. Defined.

(** the hub's key is 3, the configured one 1 *)
Definition stranger : CryptState byte bytes := mkState (mkPeer (SLive (lit "joe")) zero_nonce (KLive Byte.x02) SNull []) (mkPeer SNull zero_nonce (KLive Byte.x03) SNull []) [].

Lemma hub_described : described the_hub (lit "localhost") (lit "5555") (lit "hub").
Proof. split; [done|done|done|by vm_compute]. Qed.

Lemma wrong_key_frees_twice_witness :
  exists w', Proxy_confirm_key (PWorld (mkProxy joe the_hub (Some stranger) SNull) empty_store 0 (wires [])) = Ok (false, w') /\ Proxy_destroy w' = Fault BadPointer.
Proof.
  destruct (wrong_key_frees_twice joe the_hub stranger SNull empty_store 0 (wires []) [] [] (lit "localhost") (lit "5555") (lit "hub") Byte.x03 [Byte.x03] [Byte.x01])
    as (w' & E1 & _ & E2).
  - exact empty_good.
  - exact (wires_listener []).
  - exact hub_described.
  - done.
  - done.
  - done.
  - done.
  - done.
  - exists w'. split; [exact E1|exact E2].
Defined.

(** a hub with the configured key, which calls itself something else *)
Definition renamed : CryptState byte bytes := mkState (mkPeer (SLive (lit "joe")) zero_nonce (KLive Byte.x02) SNull []) (mkPeer (SLive (lit "hut")) zero_nonce (KLive Byte.x01) SNull []) [].

Lemma wrong_name_crashes_witness :
  check_err_call (PWorld (mkProxy joe the_hub (Some renamed) (SLive [Byte.x01])) empty_store 0 (wires [])) Proxy_final_verify PEER_VERIFY
    (lit "Final verify of Hub info failed.") = Fault BadPointer.
Proof.
  apply (wrong_name_crashes joe the_hub renamed empty_store 0 (wires []) [] [] (lit "localhost") (lit "5555") (lit "hub") [Byte.x01] (lit "hut")).
  - exact empty_good.
  - exact (wires_listener []).
  - exact hub_described.
  - by right.
  - done.
  - done.
  - done.
  - by vm_compute.
Defined.

Lemma unfinished_exchange_accepted_witness :
  exists cs st rI fs, Proxy_connect (PWorld (mkProxy joe the_hub None SNull) empty_store 7 (wires (msg_r1 [Byte.x01] (mkNonce 1 2) ++ frame empty_header))) true []
      = Ok (true, PWorld (mkProxy joe (set_hfd 5 the_hub) (Some cs) (SLive [Byte.x01])) st rI fs) /\ p_skey (them cs) = skey_zero.
Proof.
  destruct (unfinished_exchange_accepted joe the_hub Byte.x02 [Byte.x02] [Byte.x01] Byte.x01 [Byte.x01] (lit "joe") (lit "localhost") (lit "5555")
    7 7 8 (replicate 32 Byte.x07) (replicate 32 Byte.x07) (toy_secret Byte.x02 Byte.x01) (mkNonce 1 2)) as (i & cs & rI & _ & Hk & _ & H).
  - done.
  - done.
  - done.
  - split; [done|decided].
  - done.
  - done.
  - done.
  - split; [done|]. by eexists.
  - done.
  - split; cbn; lia.
  - done.
  - by right.
  - done.
  - done.
  - destruct (H None SNull empty_store (wires (msg_r1 [Byte.x01] (mkNonce 1 2) ++ frame empty_header ++ [])) (wires (msg_r1 [Byte.x01] (mkNonce 1 2) ++ frame empty_header ++ []))
      5 [] [] [] [] true [] empty_good) as (st & fs & E1 & _); [constructor|done|done|apply wires_hub|apply wires_listener|]. rewrite app_nil_r in E1. exists cs, st, rI, fs. split; [exact E1|exact Hk].
Defined.
(** The hub goes away while the listener's message is written: [Proxy_hub_send] has destroyed the message
    when it fails, and the macro around it calls it again with the same nodes. *)
Example failed_hub_write_crashes :
  let fs := <[5 := Desc [] [WErr 32] []]> (<[0 := Desc [RData (plain_frame [] [] hello)] [] []]> {[1 := Desc [] [] []]}) in
  Proxy_event_loop (PWorld (mkProxy a_client a_host (Some a_state) SNull) empty_store 0 fs) [SelReady {[0]} ∅; SelReady ∅ {[5]}] = Fault BadPointer.
Proof. vm_compute. reflexivity. Qed.
End ProxyFaults.
