(* ===== verification/Client.v ===== *)
(** * Client: the program of [src/src/client/client.c]

    [main] reads the options, opens the listener's side and then either signs or checks one message, or
    runs the proxy: configuration, connection, event loop.  What [select] reports to the loop is a list, as in [Proxy]. *)

From Stdlib Require Import ZArith Lia.
From S2P Require Import Prelude Cstdlib Node NodeFormat Stackish Crypto Signing Frame ClientIo Proxy.
Import Cstdlib Node NodeFormat Stackish Crypto Signing Frame ClientIo Proxy.
Local Open Scope Z_scope.

Module Client.

(** what a run of the program has come to *)
Inductive status := Exited (code : Z) | StillRunning.

Section Ops.
Context {E S R : Type} `{!Ltc E S R}.
Abbreviation pw := (pworld E S R).
Implicit Types w : pw.

(** a function of [crypto.c] that takes no state *)
Definition stateless {A} w (f : cworld E S R -> res (A * cworld E S R)) : res (A * pw) :=
  '(a, c) ← f (CWorld (mkState zero_peer zero_peer skey_zero) (w_st w) (w_rng w));
  Ok (a, PWorld (conn w) (c_st c) (c_rng c) (w_fds w)).

(** [biseq(hdr->name, bfromcstr(s))]: a header without a name is equal to everything *)
Definition header_is w (hdr : option loc) (s : bytes) : res bool :=
  n ← load (w_st w) hdr;
  Ok (match name n with Some nm => bool_decide (nm = s) | None => true end).

(** checking the body: its content, after the key has been added to the header *)
Definition process_validate w (hdr body : option loc) : res (option (option loc) * pw) :=
  '(rc, outs, st) ← Node_decons (w_st w) hdr false (lit "[sw") [DOut; DName (Some (lit "validate"))];
  '(ok, w) ← check_err (set_st st w) rc STACKISH (lit "Invalid validate node.");
  if negb ok then Ok (None, w) else
  '(result, key, sig_stat, w) ← stateless w (fun c =>
     '(r, k, s, c) ← CryptState_verify_signature c (out_bstr outs 0 SNull) body false; Ok (r, k, s, c));
  '(ok, w) ← check_err w sig_stat CRYPTO (lit "Signature did not validate for given node.");
  if negb ok then Ok (None, w) else
  '(res_key, w) ← stateless w (fun c => CryptState_ecc_key_bstr c (match key with Some k => KLive k | None => KZero end) PK_PUBLIC);
  '(ok, w) ← check_err w (bool_decide (is_Some res_key)) CRYPTO (lit "Invalid ECC public key given in signature.");
  if negb ok then Ok (None, w) else
  '(_, st) ← Node_new_blob (w_st w) hdr res_key;
  Ok (Some result, set_st st w).

(** signing it; the condition of [check_err] is evaluated again after a failure, with the same result *)
Definition process_sign w (hdr body : option loc) : res (option (option loc) * pw) :=
  '(rc, outs, st) ← Node_decons (w_st w) hdr false (lit "[bsw") [DOut; DOut; DName (Some (lit "sign"))];
  '(ok, w) ← check_err (set_st st w) rc STACKISH (lit "Invalid sign node.");
  if negb ok then Ok (None, w) else
  '(rc, pkey, w) ← stateless w (fun c => '(rc, k, c) ← CryptState_bstr_ecc_key c (snd <$> out_str outs 0); Ok (rc, k, c));
  '(ok, w) ← check_err w rc CRYPTO (lit "Failed to import ECC private key.");
  if negb ok then Ok (None, w) else
  '(result, w) ← stateless w (fun c => CryptState_sign_node c (match pkey with Some k => KLive k | None => KZero end) (out_bstr outs 1 SNull) body);
  Ok (Some result, w).

(** the exit code *)
Definition client_signature_process w (initialized : bool) (calls : list bool) : res (Z * pw) :=
  '(body, hdr, w) ← Proxy_listener_recv w;
  '(_, _, st) ← CryptState_init (w_st w) initialized calls;
  '(ok, w) ← check_err (set_st st w) (bool_decide (hdr <> None)) CONFIG (lit "Must give a [sign or [validate node.");
  if negb ok then Ok (1, w) else
  '(ok, w) ← check_err w (bool_decide (body <> None)) CONFIG (lit "Must give a body to sign.");
  if negb ok then Ok (1, w) else
  validate ← header_is w hdr (lit "validate");
  sign ← header_is w hdr (lit "sign");
  '(result, w) ← (if validate : bool then process_validate w hdr body
    else if sign : bool then process_sign w hdr body
    else '(_, w) ← check_err w false CONFIG (lit "Header should be [sign or [validate, nothing else."); Ok (None, w));
  match result with
  | None => Ok (1, w)
  | Some result =>
    '(ok, w) ← check_err w (bool_decide (result <> None)) CRYPTO (lit "Failed to process requested sign/validate.");
    if negb ok then Ok (1, w) else
    '(_, w) ← Proxy_listener_send w hdr result;
    Ok (0, w)
  end.

(** ** Options *)

Record options := Options { io_type : ProxyClientType; io_name : option bytes; sign_only : bool; max_hate_level : Z }.

Definition no_options : options := Options PROXY_CLIENT_NONE None false 24.

(** [atoi] *)
Definition atoi (s : bytes) : Z :=
  let '(s1, _) := skip_space s in
  let '(s2, _, neg) := skip_sign s1 in
  let v := value_in 10 (span (digit_in 10) s2) in
  i32 (Z.max LONG_MIN (Z.min LONG_MAX (if neg then - v else v))).

(** one option; [None]: the usage is shown and the program exits *)
Definition take_option (o : options) (c : byte) (arg : bytes) : option options :=
  match c with
  | Byte.x68 (* 'h' *) => None
  | Byte.x66 (* 'f' *) => Some (Options PROXY_CLIENT_FIFO (Some arg) (sign_only o) (max_hate_level o))
  | Byte.x69 (* 'i' *) => Some (Options PROXY_CLIENT_STDIO (io_name o) (sign_only o) (max_hate_level o))
  | Byte.x64 (* 'd' *) => Some (Options PROXY_CLIENT_DOMAIN (Some arg) (sign_only o) (max_hate_level o))
  | Byte.x73 (* 's' *) => Some (Options (io_type o) (io_name o) true (max_hate_level o))
  | Byte.x6d (* 'm' *) => Some (Options (io_type o) (io_name o) (sign_only o) (u32 (atoi arg)))
  | _ => Some o
  end.

Fixpoint take_options (o : options) (opts : list (byte * bytes)) : option options :=
  match opts with
  | [] => Some o
  | (c, arg) :: opts' => match take_option o c (cstr arg) with Some o => take_options o opts' | None => None end
  end.

(** the tests after the options *)
Definition usable (o : options) : bool :=
  match io_type o with
  | PROXY_CLIENT_NONE => false
  | PROXY_CLIENT_STDIO => true
  | _ => bool_decide (is_Some (io_name o))
  end && (max_hate_level o <=? 64).

(** ** The program *)

(** [memset(&conn, 0, sizeof(conn))] *)
Definition zero_proxy : Proxy E S := mkProxy (Client SNull SNull 0 0) (Host SNull SNull SNull SNull 0) None SNull.

Context `{!Net}.

Definition finish w (rc : bool) : res (status * pw) :=
  w ← Proxy_destroy w; Ok (Exited (if rc then 1 else 0), w).

(** after the configuration *)
Definition run_proxy w (calls : list bool) (evs : list sel) : res (status * pw) :=
  '(rc, w) ← Proxy_configure w;
  let '(ok, w) := check_w w rc in
  if negb ok then finish w rc else
  '(rc, w) ← Proxy_connect w false calls;
  let '(ok, w) := check_w w rc in
  if negb ok then finish w rc else
  '(running, _, w) ← Proxy_event_loop w evs;
  if running : bool then Ok (StillRunning, w) else
  let '(_, w) := check_w w false in
  finish w false.

Definition main (st : store) (r : R) (fs : fdtable) (argv : list bytes) (calls : list bool) (evs : list sel) : res (status * pw) :=
  let w := PWorld zero_proxy st r fs in
  match take_options no_options (getopt (lit "hf:id:sm:e:c:") argv) with
  | None => Ok (Exited 1, w)
  | Some o =>
    if negb (usable o) then Ok (Exited 1, w) else
    '(rc, w) ← Proxy_listen w (io_type o) (io_name o);
    let '(ok, w) := check_w w rc in
    if negb ok then finish w rc else
    if sign_only o then '(code, w) ← client_signature_process w false calls; Ok (Exited code, w) else
    run_proxy w calls evs
  end.
End Ops.

Example atoi_plain : atoi (lit "24x") = 24.
Proof. reflexivity. Qed.
Example atoi_negative : u32 (atoi (lit "-1")) = 4294967295.
Proof. reflexivity. Qed.

End Client.
