(* ===== verification/ClientProps.v ===== *)
(** * ClientProps: the client program as a whole

    The configuration a listener sends is what the proxy works with, and the program of [client.c] on
    standard input and output, against a hub: configured, connected, and every message delivered. *)

From Stdlib Require Import ZArith Lia.
From S2P Require Import Prelude Cstdlib Ragel Node NodeFormat Stackish NodeRep NodeOpen NodeFormatProps StackishDfa StackishRt StackishProps Crypto Signing Frame Peer FrameProps CryptoProps PeerProps ClientIo ClientIoProps Proxy ProxyProps ProxyRelay ProxyConnect Client.
Import Cstdlib Node NodeFormat Stackish NodeRep NodeOpen NodeFormatProps StackishRt StackishProps Crypto Signing Frame Peer FrameProps CryptoProps PeerProps ClientIo ClientIoProps Proxy ProxyProps ProxyRelay ProxyConnect Client.
Local Open Scope Z_scope.

Module ClientProps.

(** ** The configuration *)

Record config := Config { g_hkey : bytes; g_hname : bytes; g_port : bytes; g_host : bytes; g_ckey : bytes; g_cname : bytes }.

Definition host_values (g : config) : list fval := [FBlob (g_hkey g); FStr (g_hname g); FStr (g_port g); FStr (g_host g)].
Definition client_values (g : config) : list fval := [FBlob (g_ckey g); FStr (g_cname g)].

(** the client's part comes first *)
Definition config_frame (z1 z2 : bytes) (g : config) : bytes :=
  frame (gtext (lit "client") (flat (client_values g)) ++ z1 ++ gtext (lit "host") (flat (host_values g)) ++ z2).

Record config_ok (g : config) : Prop := ConfigOk {
  go_plain : plain (FStr (g_hname g)) /\ plain (FStr (g_port g)) /\ plain (FStr (g_host g)) /\ plain (FStr (g_cname g));
  go_short : Forall (short 1070) (host_values g) /\ Forall (short 1070) (client_values g)
}.

Definition config_client (g : config) (rfd wfd : Z) : proxy_client := Client (SLive (g_cname g)) (no_empty (SLive (g_ckey g))) rfd wfd.
Definition config_host (g : config) (fd : Z) : proxy_host := Host (SLive (g_host g)) (SLive (g_port g)) (SLive (g_hname g)) (no_empty (SLive (g_hkey g))) fd.

Lemma host_plain g : config_ok g -> Forall plain (host_values g).
Proof. intros [(H1 & H2 & H3 & _) _]. unfold host_values. repeat constructor; (apply H1 || apply H2 || apply H3 || done). Qed.
Lemma client_plain g : config_ok g -> Forall plain (client_values g).
Proof. intros [(_ & _ & _ & H1) _]. unfold client_values. repeat constructor; (apply H1 || done). Qed.

Lemma config_len g z1 z2 : config_ok g -> line_end z1 -> line_end z2 ->
  zlen (gtext (lit "client") (flat (client_values g)) ++ z1 ++ gtext (lit "host") (flat (host_values g)) ++ z2) < 2 ^ 16.
Proof.
  intros Hg [_ H1] [_ H2]. pose proof Hg as [_ [S1 S2]].
  pose proof (msgtext_len 1070 (lit "host") (host_values g) ltac:(decided) (host_plain g Hg) S1) as L1.
  pose proof (msgtext_len 1070 (lit "client") (client_values g) ltac:(decided) (client_plain g Hg) S2) as L2.
  rewrite msgtext_line_len in L1, L2. rewrite !zlen_app.
  change (zlen (lit "host")) with 4 in L1. change (zlen (host_values g)) with 4 in L1. change (zlen (lit "client")) with 6 in L2. change (zlen (client_values g)) with 2 in L2.
  specialize (L1 ltac:(done)). specialize (L2 ltac:(done)). lia.
Qed.

Section Session.
Context {E S R : Type} `{!Ltc E S R} `{!LtcLaws E S R}.
Abbreviation PX := (@mkProxy E S).
Abbreviation WD := (@PWorld E S R).

Lemma configure_ok cl hs o gk st r fs g z1 z2 more w :
  good st -> config_ok g -> line_end z1 -> line_end z2 -> channel fs (read_fd cl) (config_frame z1 z2 g ++ more) w ->
  exists st' fs', Proxy_configure (WD (PX cl hs o gk) st r fs)
      = Ok (true, WD (PX (config_client g (read_fd cl) (write_fd cl)) (config_host g (hs_fd hs)) o gk) st' r fs') /\
    channel fs' (read_fd cl) more w /\ same_but (read_fd cl) fs fs' /\ good st'.
Proof.
  intros Hg Hok Hz1 Hz2 Hch. unfold Proxy_configure. cbn [w_st w_fds conn client].
  destruct (readnodes_ok st fs (read_fd cl) (lit "client") (flat (client_values g)) z1 (lit "host") (flat (host_values g)) z2 more w)
    as (lc & lh & s1 & f1 & Fc & Fh & -> & Hch1 & Hsb1 & Hg1 & K1 & Hrc & Hrh & Hd & _);
    [decided|decided|by apply flat_wf, client_plain|by apply flat_wf, host_plain|apply Hz1|apply Hz2|by apply config_len|done|done|].
  rewrite bind_ret. cbv beta iota. rewrite !bool_decide_eq_true_2 by done. cbn [andb]. rewrite check_err_true, bind_ret. cbv beta iota. cbn [negb].
  change (put_io s1 f1 (WD (PX cl hs o gk) st r fs)) with (WD (PX cl hs o gk) s1 r f1). cbn [w_st].
  pose proof (decons_copy s1 lh (lit "host") (lit "host") (host_values g) Fh Hg1) as Eh.
  rewrite bool_decide_eq_true_2 in Eh by done. change (map out_of (host_values g)) with
    [DVStr None (Some (g_hkey g)); DVStr None (Some (g_hname g)); DVStr None (Some (g_port g)); DVStr None (Some (g_host g))] in Eh.
  rewrite (eq_refl : lit "[bsssw" = lit "[" ++ map code (host_values g) ++ lit "w"), (eq_refl : [DOut; DOut; DOut; DOut; DName (Some (lit "host"))] = outs_args (host_values g) ++ [DName (Some (lit "host"))]).
  rewrite Eh by (done || (eapply list.Forall_impl; [by apply host_plain|by intros ? []])). rewrite bind_ret. cbv beta iota. rewrite check_err_true, bind_ret. cbv beta iota. cbn [negb].
  cbn [w_st set_st put_io on_host put_conn].
  pose proof (decons_copy s1 lc (lit "client") (lit "client") (client_values g) Fc Hg1) as Ec.
  rewrite bool_decide_eq_true_2 in Ec by done. change (map out_of (client_values g)) with [DVStr None (Some (g_ckey g)); DVStr None (Some (g_cname g))] in Ec.
  rewrite (eq_refl : lit "[bsw" = lit "[" ++ map code (client_values g) ++ lit "w"), (eq_refl : [DOut; DOut; DName (Some (lit "client"))] = outs_args (client_values g) ++ [DName (Some (lit "client"))]).
  rewrite Ec by (done || (eapply list.Forall_impl; [by apply client_plain|by intros ? []])). rewrite bind_ret. cbv beta iota. rewrite check_err_true, bind_ret. cbv beta iota. cbn [negb].
  set (w1 := on_client _ (on_host _ _)).
  change w1 with (WD (PX (config_client g (read_fd cl) (write_fd cl)) (config_host g (hs_fd hs)) o gk) s1 r f1).
  set (p := PX (config_client g _ _) (config_host g _) o gk). assert (Hheight : forall vs, (length vs < 100)%nat -> (height (flat vs) < 120)%nat) by (intros; rewrite flat_height; lia).
  destruct (destroyn_ok p r f1 s1 s1 lh (lit "host") _ Fh ∅ Hrh) as (s2 & -> & Hg2 & K2); [keeps_chain|set_solver|done|apply Hheight; cbn; lia|]. rewrite bind_ret.
  destruct (destroyn_ok p r f1 s1 s2 lc (lit "client") _ Fc Fh Hrc) as (s3 & -> & Hg3 & K3); [done|done|done|apply Hheight; cbn; lia|]. rewrite bind_ret.
  by exists s3, f1.
Qed.

Context `{!HashLaw (E := E) (S := S) (R := R)} `{!Net}.

(** with the option for standard input and output *)
Lemma main_stdio st (r : R) fs calls evs :
  good st -> main (E := E) (S := S) st r fs [lit "-i"] calls evs
    = run_proxy (WD (PX (Client SNull SNull 0 1) (Host SNull SNull SNull SNull 0) None SNull) st r fs) calls evs.
Proof.
  intros Hg. unfold main. change (getopt (lit "hf:id:sm:e:c:") [lit "-i"]) with [(Byte.x69, [] : bytes)]. cbn [take_options take_option cstr usable io_type io_name sign_only max_hate_level no_options]. cbn [Z.leb Z.compare andb negb].
  unfold Proxy_listen. cbn [on_client put_conn conn client read_fd write_fd set_fds zero_proxy host state host_given_key w_st w_rng w_fds cl_name cl_key].
  cbn [Z.leb Z.compare]. rewrite !check_err_true, !bind_ret. cbv beta iota. cbn [negb]. rewrite ?check_err_true, ?bind_ret. cbv beta iota.
  change (usable _) with true. cbn [negb].
  change (on_client (set_fds 0 1) (WD zero_proxy st r fs)) with (WD (PX (Client SNull SNull 0 1) (Host SNull SNull SNull SNull 0) None SNull) st r fs).
  by rewrite check_w_good.
Qed.

(** the loop, to the end of a complete run *)
Lemma run_session cl hs gk cs st (r : R) fs bi li wh wl din uin evs :
  hs_fd hs <> read_fd cl -> hs_fd hs <> write_fd cl -> good st ->
  channel fs (hs_fd hs) bi wh -> sealed_seq (p_skey (me cs)) (p_nonce (me cs)) din bi ->
  listener fs (read_fd cl) (write_fd cl) li wl -> plain_seq uin li ->
  serves cl hs evs (Buf din None []) (Buf uin None []) (Buf [] None din) (Buf [] None uin) ->
  exists w' L', Proxy_event_loop (WD (PX cl hs (Some cs) gk) st r fs) evs = Ok (true, L', w') /\
    (exists bo, channel (w_fds w') (hs_fd hs) [] (wh ++ bo) /\ sealed_seq (p_skey (them cs)) (p_nonce (them cs)) uin bo) /\
    listener (w_fds w') (read_fd cl) (write_fd cl) [] (wl ++ plain_out din).
Proof.
  intros H1 H2 Hg Hch Hsi Hls Hpl Hs.
  pose proof (start_relays cl hs gk H1 H2 (p_skey (them cs)) (p_nonce (them cs)) wh wl cs st r fs bi li din uin Hg Hch Hsi Hls Hpl eq_refl eq_refl) as Hr.
  destruct (loop_ok cl hs gk H1 H2 _ _ _ _ evs r _ _ _ _ _ _ Hs Hr) as (w' & L' & E' & cs' & st' & fs' & -> & Hr'). eexists _, L'. split; [exact E'|].
  eapply (delivered cl hs gk _ _ wh wl r cs' st' fs' L'); [by exists cs', st', fs'|done|done|apply app_nil_r|apply app_nil_r].
Qed.
End Session.

Section Claims.
Context {E S R B F : Type} `{!Ltc E S R} `{!LtcLaws E S R} `{!HashLaw (E := E) (S := S) (R := R)} `{!Sbuf B F} `{!SbufLaws B F}.
Abbreviation W := (@CWorld E S R).
Abbreviation PW := (@mkPeerw E S R B F).

(** a session of the client program: started for standard input and output, given a configuration and
    then messages on its input, and connected to a hub that makes the exchange and sends messages, it
    configures itself, connects, tells the listener the keys and delivers all messages both ways, those for the
    hub sealed with the keys the hub opens them with, and is still running. *)
Theorem client_session (kc : CryptState E S -> bool) csR a ea a' seR kR rR g b eb b' prv given rI rI1 rI2 seI kI sec :
  ready csR a ea (g_hname g) seR kR -> (forall cs, p_key (them cs) = KLive b' -> kc cs = true) -> config_ok g ->
  own (config_client g 0 1) b eb prv (g_cname g) seI kI rI rI1 rI2 ->
  ecc_import ea = Some a' -> ecc_import eb = Some b' -> ecc_shared_secret a b' = Some sec -> ecc_export PK_PUBLIC a' = Some given ->
  accepts (config_host g 0) given ->
  exists r1 r2 i1 i2 csR' csI' rR',
    (forall st (fs : FrameSource B F) more w, good st -> idle fs (i1 ++ i2 ++ more) w ->
       exists st' fs', Peer_establish_receiver kc (PW (W csR st rR) fs) = Ok (true, PW (W csR' st' rR') fs') /\
         idle fs' more (w ++ r1 ++ r2) /\ good st') /\
    in_sync csR' csI' /\
    (forall (N : Net) st fs fd calls evs din uin bi li z1 z2 w0 s1 wl, good st -> Forall (eq true) calls -> fd <> 0 -> fd <> 1 -> line_end z1 -> line_end z2 ->
       channel fs 0 (config_frame z1 z2 g ++ li) w0 -> channel fs 1 s1 wl ->
       (forall st' fs', good st' -> exists fs1, tcp_client st' fs' (Some (g_host g)) (Some (g_port g)) = Ok (fd, st', fs1) /\
          channel fs1 fd (r1 ++ r2 ++ bi) [] /\ same_but fd fs' fs1) ->
       sealed_seq (p_skey (me csI')) (p_nonce (me csI')) din bi -> plain_seq uin li ->
       serves (config_client g 0 1) (config_host g fd) evs (Buf din None []) (Buf uin None []) (Buf [] None din) (Buf [] None uin) ->
       exists w' bo, main st rI fs [lit "-i"] calls evs = Ok (StillRunning, w') /\
         channel (w_fds w') fd [] (i1 ++ i2 ++ bo) /\ sealed_seq (p_skey (them csI')) (p_nonce (them csI')) uin bo /\
         listener (w_fds w') 0 1 [] (wl ++ keys_frame (E := E) (S := S) (R := R) (g_hname g) given (g_cname g) prv eb ++ plain_out din)).
Proof.
  intros HR Hkc Hgo Hown Hia Hib Hsec Hgv Hac. pose proof HR as [_ HeR _ ? ? _ ? ?]. pose proof Hown as [_ He _ _ [? ?] Hfr ?].
  pose proof (fortuna_law rI1 KEY_LENGTH) as Hls. rewrite Hfr in Hls. cbn [fst] in Hls.
  destruct (exchange_exists a b ea eb a' b' (g_hname g) (g_cname g) seR seI rR rI2 sec) as (K & n0 & n1 & n2 & r1 & r2 & rI' & c1 & t1 & c2 & t2 & c3 & t3 & Hx); [done..|].
  pose proof Hx as [Hp _ Hf0 Hf1 Hf2 Hs1 Hs2 Hs3]. pose proof (fresh_ok _ _ _ Hf1). pose proof (export_law _ _ HeR) as [? _]. pose proof (export_law _ _ He) as [? _].
  exists (msg_r1 ea n0), (msg_env empty_header c2 t2), (env_frame [] (msgtext CRYPT_HEADER [FBlob eb]) c1 t1), (env_frame [] empty_header c3 t3),
    (receiver_end csR b' n1 n2 (g_cname g) kR kI), (unnamed (initiator_end (started (g_cname g) seI b) a' n1 n2 (g_hname g) kI kR)), r2.
  split_and!; try done.
  - intros st fs more w Hg Hi.
    eapply (establish_receiver_ok kc csR a ea (g_hname g) seR kR eb b' K (g_cname g) seI kI rR r1 r2 n0 n1 n2 c1 t1 c2 t2 c3 t3 _ _ _ _ []); eauto using line_end_nil.
  - intros N st fs fd calls evs din uin bi li z1 z2 w0 s1 wl Hg Hcalls Hfd0 Hfd1 Hz1 Hz2 Hch0 Hch1 Hdial Hsi Hpl Hsv. rewrite main_stdio by done. unfold run_proxy.
    destruct (configure_ok (E := E) (S := S) (R := R) (Client SNull SNull 0 1) (Host SNull SNull SNull SNull 0) None SNull st rI fs g z1 z2 li w0) as (st1 & f1 & -> & Hc0 & Hsb & Hg1); [done..|].
    rewrite bind_ret. cbv beta iota. rewrite check_w_good by done. cbn [negb read_fd write_fd hs_fd] in *.
    assert (Hc1 : channel f1 1 s1 wl) by (by eapply channel_same). destruct (Hdial st1 f1 Hg1) as (f2 & Hd & Hcf & Hsf).
    destruct (connect_ok (config_client g 0 1) (config_host g 0) a b ea eb a' b' (g_hname g) (g_cname g) seR seI kR kI prv given rR rI rI1 rI2 K n0 n1 n2 r1 r2 rI' c1 t1 c2 t2 c3 t3
      (g_host g) (g_port g) None SNull st1 f1 f2 fd bi [] s1 wl false calls) as (st2 & f3 & -> & Hcf3 & Hcl3 & Ho3 & Hg3); [done|done|done|done|done|done|done|done|by split|done|done|done|done|done|done|done|by eapply channel_same|].
    rewrite bind_ret. cbv beta iota. rewrite check_w_good by done. cbn [negb].
    destruct (run_session (config_client g 0 1) (config_host g fd) SFreed (unnamed (initiator_end (started (g_cname g) seI b) a' n1 n2 (g_hname g) kI kR)) st2 rI' f3 bi li _ (wl ++ keys_frame (E := E) (S := S) (R := R) (g_hname g) given (g_cname g) prv eb) din uin evs
      Hfd0 Hfd1 Hg3 Hcf3 Hsi) as (w' & L' & El & (bo & Hbo & Hse) & Hli); [|done|done|].
    { split; [exists w0|by eexists]. destruct Hc0 as [Hz (d & Hd0 & Hd1)]. split; [done|]. exists d. split; [|done]. cbn [config_client read_fd]. by rewrite (Ho3 0), Hsf. }
    change (set_hfd fd (config_host g 0)) with (config_host g fd). rewrite El, bind_ret. exists w', bo. rewrite <- !app_assoc in *. by split_and!.
Qed.
End Claims.

(** ** A run: the listener sends one message *)

#[local] Existing Instance toy_ltc.
#[local] Existing Instance toy_laws.
#[local] Existing Instance toy_hash.
#[local] Existing Instance mem_sbuf.
#[local] Existing Instance mem_laws.

(** connecting gives descriptor 5, from which [s] will come *)
Definition hub_net (s : bytes) : Net := {|
  inet_aton _ := Some 0;
  gethostbyname _ := (None, 0);
  getservbyname _ _ := (None, 0);
  os_socket fs := (5, 0, <[5 := Desc (match s with [] => [] | _ => [RData s] end) [] []]> fs);
  os_connect fs _ _ := (true, 0, fs);
  os_mkfifo fs _ := (true, 0, fs);
  os_open fs _ _ := (-1, 2, fs)
|}.

Definition joes : config := Config [Byte.x01] (lit "hub") (lit "5555") (lit "localhost") [Byte.x02] (lit "joe").
Definition stdio (s : bytes) : fdtable := <[0 := Desc [RData s] [] []]> {[1 := Desc [] [] []]}.

Lemma joes_ok : config_ok joes.
Proof. split; [split_and!; (split; [done|decided])|]. split; repeat constructor; by vm_compute. Qed.

Lemma dials_hub s st fs : good st ->
  exists fs1, tcp_client (H := hub_net s) st fs (Some (g_host joes)) (Some (g_port joes)) = Ok (5, st, fs1) /\ channel fs1 5 s [] /\ same_but 5 fs fs1.
Proof.
  intros Hg. eexists. split; [|split].
  - unfold tcp_client, set_address. cbn [need inet_aton hub_net]. rewrite !bind_ret. cbv beta iota.
    change (strtol (cstr (g_port joes))) with (Conv 5555 4 0). change (zlen (cstr (g_port joes))) with 4. cbn [c_used c_errno c_value Z.eqb Pos.eqb]. rewrite bind_ret. cbv beta iota.
    change (after_call 0 st) with st. rewrite check_good by done. rewrite bool_decide_eq_true_2 by eauto. cbn [negb need os_socket os_connect hub_net]. rewrite bind_ret.
    change (after_call 0 st) with st. rewrite check_good by done. cbn [Z.leb Z.compare negb]. change (after_call 0 st) with st. rewrite check_good by done. reflexivity.
  - split; [lia|]. eexists. split; [apply lookup_insert_eq|]. cbn [d_in d_wr d_out]. destruct s; cbn [stream]; rewrite ?app_nil_r; split_and!; by repeat constructor.
  - intros x Hx. by rewrite lookup_insert_ne.
Qed.

Lemma stdio_in s : s <> [] -> channel (stdio s) 0 s [].
Proof. intros Hs. split; [lia|]. eexists. split; [apply lookup_insert_eq|]. cbn [d_in d_wr d_out stream]. split_and!; [by repeat constructor|by rewrite app_nil_r|constructor|done]. Qed.

Lemma stdio_out s : channel (stdio s) 1 [] [].
Proof. split; [lia|]. eexists. split; [unfold stdio; rewrite lookup_insert_ne by done; apply lookup_singleton_eq|]. cbn [d_in d_wr d_out stream]. split_and!; by repeat constructor. Qed.

Definition one_up : list sel := [SelReady {[0]} ∅; SelReady ∅ {[5]}].

Lemma one_up_serves : serves (config_client joes 0 1) (config_host joes 5) one_up (Buf [] None []) (Buf [hello] None []) (Buf [] None []) (Buf [] None [hello]).
Proof.
  econstructor; [split_and!; [set_solver|done|right; done]|]. econstructor; [split_and!; [set_solver|set_solver|right; done]|]. constructor.
Qed.

Lemma client_session_witness :
  exists r i csR stR rR fsR w,
    Peer_establish_receiver (accept Byte.x02) (mkPeerw (CWorld (PeerProps.side (lit "hub") Byte.x01 Byte.x41) empty_store 1) (mem_source i)) = Ok (true, mkPeerw (CWorld csR stR rR) fsR) /\
    ms_out (f_fd fsR) = r /\
    main (H := hub_net r) empty_store 7 (stdio (config_frame [] [] joes ++ plain_frame [] [] hello)) [lit "-i"] [true] one_up = Ok (StillRunning, w).
Proof.
  destruct (client_session (B := membuf) (F := memsock) (accept Byte.x02) (PeerProps.side (lit "hub") Byte.x01 Byte.x41) Byte.x01 [Byte.x01] Byte.x01
              (replicate 32 Byte.x41) (replicate 32 Byte.x41) 1 joes Byte.x02 [Byte.x02] Byte.x02 [Byte.x02] [Byte.x01]
              7 7 8 (replicate 32 Byte.x07) (replicate 32 Byte.x07) (toy_secret Byte.x01 Byte.x02))
    as (r1 & r2 & i1 & i2 & csR & csI & rR & HR & Hsy & HI).
  - apply side_ready; [split; [done|decided]|done].
  - exact (accept_ok Byte.x02).
  - exact joes_ok.
  - split; [done|done|done|done|split; [split; [done|decided]|done]|done|done].
  - done.
  - done.
  - done.
  - done.
  - by right.
  - destruct (HR empty_store (mem_source (i1 ++ i2)) [] [] empty_good) as (stR & fsR & ER & HiR & _); [rewrite app_nil_r; apply mem_idle|].
    destruct (HI (hub_net (r1 ++ r2 ++ [])) empty_store (stdio (config_frame [] [] joes ++ plain_frame [] [] hello)) 5 [true] one_up [] [hello] [] (plain_frame [] [] hello) [] [] [] [] [])
      as (w & bo & EI & _); [exact empty_good|by repeat constructor|done|done|exact line_end_nil|exact line_end_nil|by apply stdio_in|apply stdio_out|intros st' fs'; apply dials_hub|constructor|exact a_plain|exact one_up_serves|].
    rewrite app_nil_r in EI. exists (r1 ++ r2), (i1 ++ i2), csR, stR, rR, fsR, w. split_and!; [exact ER|exact (id_written _ _ _ HiR)|exact EI].
Defined.

End ClientProps.
