(* ===== verification/Session.v ===== *)
(** * Session: a client program and a hub, end to end

    The two programs that the other files treat one by one are put together: what the hub sends with [Peer_send] is what the
    client's listener gets, and what the listener writes is what the hub gets from [Peer_recv], through the key exchange,
    the frames, the encryption and the event loop of the client. *)

From Stdlib Require Import ZArith Lia.
From S2P Require Import Prelude Cstdlib Ragel Node NodeFormat Stackish NodeRep NodeOpen NodeFormatProps StackishDfa StackishRt StackishProps Crypto Signing Frame Peer FrameProps CryptoProps PeerProps ClientIo ClientIoProps Proxy ProxyProps ProxyRelay ProxyConnect Client ClientProps.
Import Cstdlib Node NodeFormat Stackish NodeRep NodeOpen NodeFormatProps StackishRt StackishProps Crypto Signing Frame Peer FrameProps CryptoProps PeerProps ClientIo ClientIoProps Proxy ProxyProps ProxyRelay ProxyConnect Client ClientProps.
Local Open Scope Z_scope.

Module Session.

Section Hub.
Context {E S R B F : Type} `{!Ltc E S R} `{!LtcLaws E S R} `{!Sbuf B F} `{!SbufLaws B F}.
Abbreviation St := (@mkState E S).
Abbreviation W := (@CWorld E S R).
Abbreviation PW := (@mkPeerw E S R B F).

(** the two trees of a message in a store *)
Definition stands (st : store) (lh lb : loc) (m : msg) : Prop :=
  exists Fh Fb, rep true (nodes st) None (Some lh) (grp (m_hn m) (m_hf m)) Fh /\ rep true (nodes st) None (Some lb) (grp (m_bn m) (m_bf m)) Fb /\ Fh ## Fb.

(** one call of [Peer_send] per message, whatever the hub does with its store in between, writes the bytes [b] *)
Inductive sends : CryptState E S -> list msg -> bytes -> CryptState E S -> Prop :=
  | sends_nil cs : sends cs [] [] cs
  | sends_cons cs cs1 cs2 m ms f b :
    (forall st r (fs : FrameSource B F) s w lh lb, good st -> idle fs s w -> stands st lh lb m ->
       exists st' fs', Peer_send (PW (W cs st r) fs) (Some lh) (Some lb) = Ok (true, PW (W cs1 st' r) fs') /\ idle fs' s (w ++ f) /\ good st') ->
    sends cs1 ms b cs2 -> sends cs (m :: ms) (f ++ b) cs2.

(** one call of [Peer_recv] per message takes the bytes [b] and gives the messages *)
Inductive gets : CryptState E S -> list msg -> bytes -> CryptState E S -> Prop :=
  | gets_nil cs : gets cs [] [] cs
  | gets_cons cs cs1 cs2 m ms f b :
    (forall st r (fs : FrameSource B F) more w, good st -> idle fs (f ++ more) w ->
       exists lh lb st' fs', Peer_recv (PW (W cs st r) fs) = Ok (Some lb, Some lh, PW (W cs1 st' r) fs') /\ stands st' lh lb m /\ idle fs' more w /\ good st') ->
    gets cs1 ms b cs2 -> gets cs (m :: ms) (f ++ b) cs2.

(** whatever the hub sends is sealed with its sending key, under one nonce after the other *)
Lemma sends_sealed ms : forall cs, Forall msg_ok ms -> exists b cs', sends cs ms b cs' /\ sealed_seq (p_skey (them cs)) (p_nonce (them cs)) ms b /\ me cs' = me cs.
Proof.
  induction ms as [|m ms IH]; intros cs Hok; [exists [], cs; split_and!; [constructor|constructor|done]|]. apply list.Forall_cons in Hok as [Hm Hok].
  destruct (sealed_text_exists (p_skey (them cs)) (p_nonce (them cs)) (line (m_hn m) (m_hf m)) (line (m_bn m) (m_bf m))) as (c & t & Hs).
  destruct (IH (St (me cs) (inc_nonce (them cs)) (shared cs)) Hok) as (b & cs' & Hsend & Hseq & Hme).
  exists (msg_env (line (m_hn m) (m_hf m)) c t ++ b), cs'. split_and!; [|by econstructor; eauto using line_end_nl|exact Hme].
  econstructor; [|exact Hsend]. intros st r fs s w lh lb Hg Hi (Fh & Fb & Hrh & Hrb & _). destruct Hm.
  destruct (peer_send_ok cs st r fs s w lh lb _ _ _ _ Fh Fb c t Hg Hi Hrh Hrb) as (st' & fs' & E' & Hi' & Hg' & _); [done..|]. eauto.
Qed.

(** frames sealed with the hub's receiving key give the hub their messages *)
Lemma sealed_gets ms b : forall cs, sealed_seq (p_skey (me cs)) (p_nonce (me cs)) ms b -> exists cs', gets cs ms b cs' /\ them cs' = them cs.
Proof.
  revert b. induction ms as [|m ms IH]; intros b cs Hs; inversion Hs as [|? ? ? z c t b' Hm Hz Ht Hs']; subst; [exists cs; split; [constructor|done]|].
  destruct (IH b' (St (inc_nonce (me cs)) (them cs) (shared cs)) Hs') as (cs' & Hg & Hth). exists cs'. split; [|exact Hth].
  econstructor; [|exact Hg]. intros st r fs more w Hgd Hi. destruct Hm.
  destruct (peer_recv_ok cs st r fs more w (m_hn m) (m_hf m) (m_bn m) (m_bf m) c t z Hz) as (lh & lb & Fh & Fb & st' & fs' & E' & Hrh & Hrb & Hd & Hi' & Hg'); [done..|].
  exists lh, lb, st', fs'. split_and!; [exact E'|by exists Fh, Fb|done|done].
Qed.
End Hub.

Section Claims.
Context {E S R B F : Type} `{!Ltc E S R} `{!LtcLaws E S R} `{!HashLaw (E := E) (S := S) (R := R)} `{!Sbuf B F} `{!SbufLaws B F}.
Abbreviation W := (@CWorld E S R).
Abbreviation PW := (@mkPeerw E S R B F).

(** C4: a client and a hub, end to end: for any messages [din] of the hub and [uin] of the listener, the hub's
    [Peer_establish_receiver] completes the key exchange with the client program, the hub's calls of [Peer_send] write [din], and the
    program, given its arguments, a configuration, [uin] on its input and these bytes on its socket, under every
    complete sequence of reports of [select], writes [din] to its listener in the clear and in order, and to its socket bytes
    from which the hub's calls of [Peer_recv] give exactly [uin] in order. *)
Theorem chat_session (kc : CryptState E S -> bool) csR a ea a' seR kR rR g b eb b' prv given rI rI1 rI2 seI kI sec din uin :
  ready csR a ea (g_hname g) seR kR -> (forall cs, p_key (them cs) = KLive b' -> kc cs = true) -> config_ok g ->
  own (config_client g 0 1) b eb prv (g_cname g) seI kI rI rI1 rI2 ->
  ecc_import ea = Some a' -> ecc_import eb = Some b' -> ecc_shared_secret a b' = Some sec -> ecc_export PK_PUBLIC a' = Some given ->
  accepts (config_host g 0) given -> Forall msg_ok din ->
  exists r1 r2 i1 i2 bi csR1 csR2 rR',
    (forall st (fs : FrameSource B F) more w, good st -> idle fs (i1 ++ i2 ++ more) w ->
       exists st' fs', Peer_establish_receiver kc (PW (W csR st rR) fs) = Ok (true, PW (W csR1 st' rR') fs') /\
         idle fs' more (w ++ r1 ++ r2) /\ good st') /\
    sends (R := R) (B := B) (F := F) csR1 din bi csR2 /\
    (forall (N : Net) st fs fd calls evs li z1 z2 w0 s1 wl, good st -> Forall (eq true) calls -> fd <> 0 -> fd <> 1 -> line_end z1 -> line_end z2 ->
       channel fs 0 (config_frame z1 z2 g ++ li) w0 -> plain_seq uin li -> channel fs 1 s1 wl ->
       (forall st' fs', good st' -> exists fs1, tcp_client st' fs' (Some (g_host g)) (Some (g_port g)) = Ok (fd, st', fs1) /\
          channel fs1 fd (r1 ++ r2 ++ bi) [] /\ same_but fd fs' fs1) ->
       serves (config_client g 0 1) (config_host g fd) evs (Buf din None []) (Buf uin None []) (Buf [] None din) (Buf [] None uin) ->
       exists w' bo csR3, main st rI fs [lit "-i"] calls evs = Ok (StillRunning, w') /\
         channel (w_fds w') fd [] (i1 ++ i2 ++ bo) /\ gets (R := R) (B := B) (F := F) csR2 uin bo csR3 /\
         listener (w_fds w') 0 1 [] (wl ++ keys_frame (E := E) (S := S) (R := R) (g_hname g) given (g_cname g) prv eb ++ plain_out din)).
Proof.
  intros HR Hkc Hgo Hown Hia Hib Hsec Hgv Hac Hdin.
  destruct (client_session (B := B) (F := F) kc csR a ea a' seR kR rR g b eb b' prv given rI rI1 rI2 seI kI sec) as (r1 & r2 & i1 & i2 & csR1 & csI & rR' & Hhub & [Hk1 Hn1 Hk2 Hn2] & Hcl); [done..|].
  destruct (sends_sealed (R := R) (B := B) (F := F) din csR1 Hdin) as (bi & csR2 & Hsend & Hseq & Hme). exists r1, r2, i1, i2, bi, csR1, csR2, rR'. split_and!; [done|done|].
  intros N st fs fd calls evs li z1 z2 w0 s1 wl Hg Hc H0 H1 Hz1 Hz2 Hch0 Hpl Hch1 Hdial Hsv. rewrite Hk1, Hn1 in Hseq.
  destruct (Hcl N st fs fd calls evs din uin bi li z1 z2 w0 s1 wl Hg Hc H0 H1 Hz1 Hz2 Hch0 Hch1 Hdial Hseq Hpl Hsv) as (w' & bo & Emain & Hbo & Hsq & Hls).
  rewrite <- Hk2, <- Hn2, <- Hme in Hsq. destruct (sealed_gets (R := R) (B := B) (F := F) uin bo csR2 Hsq) as (csR3 & Hgets & _).
  exists w', bo, csR3. by split_and!.
Qed.
End Claims.

(** ** A run: one message each way *)

#[local] Existing Instance toy_ltc.
#[local] Existing Instance toy_laws.
#[local] Existing Instance toy_hash.
#[local] Existing Instance mem_sbuf.
#[local] Existing Instance mem_laws.

Definition both_ways : list sel := [SelReady {[5; 0]} ∅; SelReady ∅ {[1; 5]}].

Lemma both_ways_serves : serves (config_client joes 0 1) (config_host joes 5) both_ways (Buf [hello] None []) (Buf [hello] None []) (Buf [] None [hello]) (Buf [] None [hello]).
Proof. econstructor; [split_and!; [done|done|left; done]|]. econstructor; [split_and!; [set_solver|set_solver|left; done]|]. constructor. Qed.

Lemma chat_session_witness :
  exists r bi bo csR1 csR2 csR3 w,
    sends (R := Z) (B := membuf) (F := memsock) csR1 [hello] bi csR2 /\
    main (H := hub_net (r ++ bi)) empty_store 7 (stdio (config_frame [] [] joes ++ plain_frame [] [] hello)) [lit "-i"] [true] both_ways = Ok (StillRunning, w) /\
    gets (R := Z) (B := membuf) (F := memsock) csR2 [hello] bo csR3.
Proof.
  destruct (chat_session (B := membuf) (F := memsock) (accept Byte.x02) (PeerProps.side (lit "hub") Byte.x01 Byte.x41) Byte.x01 [Byte.x01] Byte.x01
              (replicate 32 Byte.x41) (replicate 32 Byte.x41) 1 joes Byte.x02 [Byte.x02] Byte.x02 [Byte.x02] [Byte.x01]
              7 7 8 (replicate 32 Byte.x07) (replicate 32 Byte.x07) (toy_secret Byte.x01 Byte.x02) [hello] [hello])
    as (r1 & r2 & i1 & i2 & bi & csR1 & csR2 & rR & HR & Hsend & HI).
  - apply side_ready; [split; [done|decided]|done].
  - exact (accept_ok Byte.x02).
  - exact joes_ok.
  - split; [done|done|done|done|split; [split; [done|decided]|done]|done|done].
  - done.
  - done.
  - done.
  - done.
  - by right.
  - repeat constructor; apply hello_ok.
  - destruct (HI (hub_net (r1 ++ r2 ++ bi)) empty_store (stdio (config_frame [] [] joes ++ plain_frame [] [] hello)) 5 [true] both_ways (plain_frame [] [] hello) [] [] [] [] [])
      as (w & bo & csR3 & EI & _ & Hgets & _); [exact empty_good|by repeat constructor|done|done|exact line_end_nil|exact line_end_nil|by apply stdio_in|exact a_plain|apply stdio_out|intros st' fs'; apply dials_hub|exact both_ways_serves|].
    rewrite app_assoc in EI. exists (r1 ++ r2), bi, bo, csR1, csR2, csR3, w. split_and!; [exact Hsend|exact EI|exact Hgets].
Defined.
End Session.
