(* ===== verification/Server.v ===== *)
(** * Server: the program of [src/src/server/server.c]

    [main] reads the options, with the key file loaded while they are read, may become a daemon, makes the
    hub, writes the key file of a new key and listens.  Files are a map from names to contents, with the
    error that opening a name gives; becoming a daemon and dropping privileges are library calls with given
    results. *)

From Stdlib Require Import ZArith Lia.
From S2P Require Import Prelude Cstdlib Ragel Node NodeFormat Stackish Heap Message Routing Members Commands Connection Hub Crypto Frame ClientIo Proxy Client.
Import Cstdlib Ragel Node Routing Members Commands Connection Hub Crypto Frame Client.
Local Open Scope Z_scope.

Module Server.

Definition ENOENT : Z := 2.

#[global] Instance byte_countable : Countable byte.
Proof. apply (inj_countable' Byte.to_N (fun n => default Byte.x00 (Byte.of_N n))). intros b. by rewrite Byte.of_to_N. Defined.

Record disk := Disk { files : gmap bytes bytes; denied : bytes -> option Z }.

Definition put_file (f : bytes) (b : bytes) (d : disk) : disk := Disk (<[f := b]> (files d)) (denied d).

(** ** Files *)

(** [fopen(file, "r")] and everything that is in it *)
Definition read_file (d : disk) (f : bytes) : option bytes * Z :=
  match denied d f, files d !! f with
  | Some e, _ => (None, e)
  | None, Some b => (Some b, 0)
  | None, None => (None, ENOENT)
  end.

(** [access(file, F_OK)]: 0 or -1, and [errno] *)
Definition file_exists (d : disk) (f : bytes) : bool * Z :=
  match denied d f, files d !! f with
  | Some e, _ => (false, e)
  | None, Some _ => (true, 0)
  | None, None => (false, ENOENT)
  end.

Definition load_key_file (st : store) (d : disk) (file : bytes) : option bytes * store :=
  let '(b, e) := read_file d file in
  let '(ok, st) := check (after_call e st) (bool_decide (is_Some b)) in
  if negb ok then (None, st) else
  let '(_, st) := check st (bool_decide (is_Some b)) in
  (b, st).

(** [fwrite] of an empty key writes no item *)
Definition create_key_file (st : store) (d : disk) (file : bytes) (key : option bytes) : res (bool * store * disk) :=
  let '(there, e) := file_exists d file in
  let st := after_call e st in
  if there || negb (errno st =? ENOENT) then Ok (false, set_errno 0 st, d) else
  let st := set_errno 0 st in
  let e := default 0 (denied d file) in
  let d := if e =? 0 then put_file file [] d else d in
  let '(ok, st) := check (after_call e st) (e =? 0) in
  if negb ok then Ok (false, st, d) else
  key ← need NullDeref key;
  let d := put_file file key d in
  let '(ok, st) := check st (negb (bool_decide (key = []))) in
  Ok (ok, st, d).

(** the number of the process goes into the file; also the name, once its removal at exit is registered *)
Definition write_pid (st : store) (d : disk) (pid : Z) (addr port nm : bytes) : bool * option bytes * store * disk :=
  let f := lit "/var/run/utuserver-" ++ cstr addr ++ lit "-" ++ cstr port ++ lit "-" ++ cstr nm ++ lit ".pid" in
  let e := default 0 (denied d f) in
  let d := if e =? 0 then put_file f [] d else d in
  let '(ok, st) := check (after_call e st) (e =? 0) in
  if negb ok then (false, None, st, d) else
  let '(ok, st) := check st true in
  if negb ok then (false, None, st, d) else
  let d := put_file f (print_dec pid) d in
  let '(ok, st) := check st true in
  (ok, Some f, st, d).

Definition remove_pid_atexit (pid_file_name : option bytes) (d : disk) : disk :=
  match pid_file_name with Some f => Disk (delete f (files d)) (denied d) | None => d end.

(** ** Options *)

Record options := Options {
  s_addr : option bytes; s_port : option bytes; s_name : option bytes; s_key : option bytes;
  s_uid : Z; s_gid : Z; s_daemonize : bool; s_make_new_key : bool; s_key_file : bytes; s_chroot : bytes
}.

Definition no_options (uid gid : Z) : options :=
  Options None None None None uid gid false false (lit "utuserver.key") (lit "/var/run/utu").

(** the calls of [redirect_out_logs], each with its result and [errno] *)
Fixpoint redirect_out_logs (st : store) (calls : list (bool * Z)) : bool * store :=
  match calls with
  | [] => (true, st)
  | (r, e) :: calls' => let '(ok, st) := check (after_call e st) r in if ok : bool then redirect_out_logs st calls' else (false, st)
  end.

(** one option; [inl code]: the program returns.  [log] is for [redirect_out_logs]. *)
Definition take_option (log : list (bool * Z)) (d : disk) (o : options) (st : store) (c : byte) (arg : bytes) : Z + options * store :=
  let 'Options addr port nm key uid gid dae mk kf ch := o in
  match c with
  | Byte.x68 (* 'h' *) => inl 0
  | Byte.x61 (* 'a' *) => inr (Options (Some arg) port nm key uid gid dae mk kf ch, st)
  | Byte.x70 (* 'p' *) => inr (Options addr (Some arg) nm key uid gid dae mk kf ch, st)
  | Byte.x6e (* 'n' *) => inr (Options addr port (Some arg) key uid gid dae mk kf ch, st)
  | Byte.x64 (* 'd' *) => inr (Options addr port nm key uid gid true mk kf arg, st)
  | Byte.x6b (* 'k' *) =>
    if negb mk then let '(key, st) := load_key_file st d arg in inr (Options addr port nm key uid gid dae mk kf ch, st)
    else inr (Options addr port nm None uid gid dae mk arg ch, st)
  | Byte.x75 (* 'u' *) => inr (Options addr port nm key (atoi arg) gid dae mk kf ch, st)
  | Byte.x6d (* 'm' *) => inr (Options addr port nm key uid gid dae true kf ch, st)
  | Byte.x67 (* 'g' *) => inr (Options addr port nm key uid (atoi arg) dae mk kf ch, st)
  | Byte.x6c (* 'l' *) => let '(rc, st) := redirect_out_logs st log in let '(ok, st) := check st rc in if ok : bool then inr (o, st) else inl 1
  | _ => inl 1
  end.

Fixpoint take_options (log : list (bool * Z)) (d : disk) (o : options) (st : store) (opts : list (byte * bytes)) : Z + options * store :=
  match opts with
  | [] => inr (o, st)
  | (c, arg) :: opts' =>
    match take_option log d o st c (cstr arg) with
    | inl code => inl code
    | inr (o, st) => take_options log d o st opts'
    end
  end.

Definition OPTIONS : bytes := lit "ha:p:n:k:d:g:u:m:l:".

(** ** The program *)

(** what the system gives: the user and group, the process number, the calls of [redirect_out_logs], [daemon] and
    [server_chroot_drop_priv] with [errno], the files below the new root, the error [server_init] leaves *)
Record system := System {
  y_uid : Z; y_gid : Z; y_pid : Z; y_log : list (bool * Z); y_daemon : bool * Z; y_chroot : bool * Z; y_jail : disk; y_init : Z
}.

(** [Hub_init] *)
Definition Hub_init (st : store) (initialized : bool) (calls : list bool) (e : Z) : res (bool * store) :=
  '(rc, _, st) ← CryptState_init st initialized calls;
  let '(ok, st) := check st rc in
  if negb ok then Ok (false, st) else
  Ok (true, after_call e st).

Section Main.
Context {T : Type} `{!MemberTree T} (ho : hub_outside) (sys : system).

(** the part before the hub: the name to remove at exit, the files left outside a new root, those that are seen from then on *)
Definition become_daemon (o : options) (st : store) (d : disk) : bool * option bytes * store * option disk * disk :=
  if negb (s_daemonize o) then (true, None, st, None, d) else
  let '(ok, st) := check (after_call (snd (y_daemon sys)) st) (fst (y_daemon sys)) in
  if negb ok then (false, None, st, None, d) else
  let '(rc, f, st, d) := write_pid st d (y_pid sys) (default [] (s_addr o)) (default [] (s_port o)) (default [] (s_name o)) in
  let '(ok, st) := check st rc in
  if negb ok then (false, f, st, None, d) else
  let '(ok, st) := check (after_call (snd (y_chroot sys)) st) (fst (y_chroot sys)) in
  if fst (y_chroot sys) then (ok, f, st, Some d, y_jail sys) else (ok, f, st, None, d).

(** the hub, its key file, listening; what [listen] does in between is in [Hub] and [Tasks] *)
Definition run_hub (o : options) (w : world) (d : disk) : res (Z * disk) :=
  g ← Hub_create (T := T) ho w (s_addr o) (s_port o) (s_name o) (s_key o);
  match g with
  | None => Ok (1, d)
  | Some g =>
    let '(ok, st) := check (w_store (g_world g)) true in
    let g := put_world (put_store st (g_world g)) g in
    if negb ok then Ok (1, d) else
    '(ok, st, d) ← (if bool_decide (s_key o = None) && s_make_new_key o then
        '(rc, st, d) ← create_key_file (w_store (g_world g)) d (s_key_file o) (h_key (g_hub g));
        let '(ok, st) := check st rc in Ok (ok, st, d)
      else Ok (true, w_store (g_world g), d));
    let g := put_world (put_store st (g_world g)) g in
    if negb ok then Ok (1, d) else
    g ← Hub_listen ho g;
    _ ← Hub_destroy ho g;
    Ok (0, d)
  end.

(** the exit code, the files left outside a new root, those seen at the end; the result of [Hub_init] is not looked at *)
Definition main (w : world) (d : disk) (argv : list bytes) (calls : list bool) : res (Z * option disk * disk) :=
  match take_options (y_log sys) d (no_options (y_uid sys) (y_gid sys)) (w_store w) (getopt OPTIONS argv) with
  | inl code => Ok (code, None, d)
  | inr (o, st) =>
    if negb (bool_decide (is_Some (s_addr o)) && bool_decide (is_Some (s_port o)) && bool_decide (is_Some (s_name o))) then Ok (1, None, d) else
    '(_, st) ← Hub_init st false calls (y_init sys);
    let '(ok, pidf, st, outside, d) := become_daemon o st d in
    if negb ok then Ok (1, outside, remove_pid_atexit pidf d) else
    '(code, d) ← run_hub o (put_store st w) d;
    Ok (code, outside, remove_pid_atexit pidf d)
  end.
End Main.

(** ** Properties *)

Definition plain_store : store := Store ∅ 1%positive 0.

(** a key that is written is the key that is loaded *)
Lemma key_file_roundtrip st d f key :
  errno st = 0 -> files d !! f = None -> denied d f = None -> key <> [] ->
  exists d', create_key_file st d f (Some key) = Ok (true, st, d') /\ load_key_file st d' f = (Some key, st) /\
    (forall g, g <> f -> files d' !! g = files d !! g) /\ exists d'', create_key_file st d' f (Some key) = Ok (false, st, d'').
Proof.
  intros He Hf Hd Hk. exists (put_file f key (put_file f [] d)). unfold create_key_file, load_key_file, read_file, file_exists. cbn [files denied put_file]. rewrite Hd, Hf, lookup_insert_eq.
  destruct st as [nd nx e]; cbn in He; subst e. cbn. rewrite bool_decide_eq_false_2 by done. cbn. split_and!; [done|done| |by eexists].
  intros g Hg. by rewrite !lookup_insert_ne.
Qed.

(** The letter m is declared with an argument, so the option after it is taken for that argument: [-m -k file], which the
    program asks for, makes a new key but stores it in the default file, or loads none at all. *)
Example new_key_option_swallows_next :
  let o := take_options [] (Disk ∅ (fun _ => None)) (no_options 0 0) plain_store
             (getopt OPTIONS [lit "-a"; lit "0.0.0.0"; lit "-p"; lit "80"; lit "-n"; lit "hub"; lit "-m"; lit "-k"; lit "my.key"]) in
  match o with inr (o, _) => s_make_new_key o = true /\ s_key_file o = lit "utuserver.key" | inl _ => False end.
Proof. vm_compute. split; reflexivity. Qed.

(** A key file that cannot be read is no error: the hub makes a new key and does not store it. *)
Lemma missing_key_ignored log d o st f :
  errno st = 0 -> s_make_new_key o = false -> files d !! f = None -> denied d f = None ->
  exists o', take_option log d o st Byte.x6b f = inr (o', st) /\ s_key o' = None /\ s_make_new_key o' = false.
Proof.
  intros He Hm Hf Hd. destruct o as [a p n k u g da mk kf ch]. cbn in Hm. subst mk. unfold take_option. cbn [negb]. unfold load_key_file, read_file. rewrite Hd, Hf.
  destruct st as [nd nx e]. cbn in He. subst e. cbn. by eexists.
Qed.

(** The file with the process number stays: it is written before the root is changed and its name looked up after. *)
Lemma pid_file_stays sys o st d :
  errno st = 0 -> s_daemonize o = true -> y_daemon sys = (true, 0) -> y_chroot sys = (true, 0) -> (forall f, denied d f = None) ->
  exists f outside, become_daemon sys o st d = (true, Some f, st, Some outside, y_jail sys) /\ files outside !! f = Some (print_dec (y_pid sys)).
Proof.
  intros He Hd H1 H2 Hn. unfold become_daemon. rewrite Hd, H1, H2. cbn [negb fst snd]. unfold write_pid. rewrite Hn. destruct st as [nd nx e]. cbn in He. subst e. cbn.
  do 2 eexists. split; [reflexivity|]. cbn. apply lookup_insert_eq.
Qed.

End Server.
