(* ===== verification/BString.v ===== *)
(** * BString: the strings of [src/src/myriad/bstring/bstrlib.c]

    A string has a capacity, a length and a buffer; the buffer of a string that can be written is as long
    as the capacity says and has a NUL behind the content.  The functions are modelled on that
    representation: every access to a buffer is checked against its size, [int] additions and multiplications that
    overflow are faults, and memory that is allocated has any content.  A NULL pointer is [None].  Two
    arguments may be the same string; that one points into the middle of the other's buffer is not modelled. *)

From Stdlib Require Import ZArith Lia.
From S2P Require Import Prelude.
Local Open Scope Z_scope.

Module BString.

Definition BSTR_OK : Z := 0.
Definition BSTR_ERR : Z := -1.

Record bs := BS { mlen : Z; slen : Z; data : option bytes }.

(** ** Buffers *)

Definition imul (a b : Z) : res Z := if int_ok (a * b) then Ok (a * b) else Fault SignedOverflow.

(** [len] bytes from [off] *)
Definition slice (d : bytes) (off len : Z) : res bytes :=
  if (0 <=? off) && (0 <=? len) && (off + len <=? zlen d) then Ok (take (Z.to_nat len) (drop (Z.to_nat off) d)) else Fault OutOfBounds.

(** copying [s] to [off] *)
Definition write (d : bytes) (off : Z) (s : bytes) : res bytes :=
  if (0 <=? off) && (off + zlen s <=? zlen d)
  then Ok (take (Z.to_nat off) d ++ s ++ drop (Z.to_nat off + length s) d) else Fault OutOfBounds.

Definition poke (d : bytes) (i : Z) (c : byte) : res bytes := write d i [c].
Definition peek (d : bytes) (i : Z) : res byte := if i <? 0 then Fault OutOfBounds else need OutOfBounds (d !! Z.to_nat i).

(** [j |= j >> k] *)
Definition smear (j k : Z) : Z := Z.lor j (Z.shiftr j k).

(** the least power of two greater than [i], if an [int] can hold it *)
Definition snapUpSize (i : Z) : Z :=
  if i <? 8 then 8 else
  let j := u32 (smear (smear (smear (smear (smear (u32 i) 1) 2) 4) 8) 16 + 1) in
  if i <=? i32 j then i32 j else i.

(** the test at the head of the functions that write *)
Definition broken (b : bs) : bool := (slen b <? 0) || (mlen b <=? 0) || (mlen b <? slen b).

(** an argument that may be the string itself *)
Inductive arg := Same | Other (b : option bs).
Definition arg_of (b0 : option bs) (a : arg) : option bs := match a with Same => b0 | Other b => b end.
Definition is_same (a : arg) : bool := match a with Same => true | Other _ => false end.

Section Memory.
(** whether an allocation of this size succeeds, and what is in the memory *)
Context (malloc realloc : Z -> bool) (junk : Z -> bytes).

Definition sizeof_tagbstring : Z := 16.

(** [realloc]: the old bytes and then anything *)
Definition enlarge (d : bytes) (len : Z) : bytes := d ++ drop (length d) (junk len).

Definition balloc (b : option bs) (len : Z) : res (Z * option bs) :=
  match b with
  | Some (BS m s (Some d)) =>
    if broken (BS m s (Some d)) || (len <=? 0) then Ok (BSTR_ERR, b) else
    if len <? m then Ok (BSTR_OK, b) else
    let len := snapUpSize len in
    if len <=? m then Ok (BSTR_OK, b) else
    x7 ← imul 7 m;
    x8 ← imul 8 s;
    x ← (if x7 <? x8 then Ok (if realloc len then Some (enlarge d len) else None)
         else if malloc len then
           (if s =? 0 then Ok (Some (junk len)) else c ← slice d 0 s; x ← write (junk len) 0 c; Ok (Some x))
         else Ok (if realloc len then Some (enlarge d len) else None));
    match x with
    | None => Ok (BSTR_ERR, b)
    | Some x => x ← poke x s Byte.x00; Ok (BSTR_OK, Some (BS len s (Some x)))
    end
  | _ => Ok (BSTR_ERR, b)
  end.

(** ** Making strings *)

(** [str] is what is in front of the NUL; a length that is no [int] is cut *)
Definition bfromcstralloc (mlen : option Z) (str : option bytes) : res (option bs) :=
  match str with
  | None => Ok None
  | Some s =>
    let s := cstr s in
    let j := zlen s in
    let i := snapUpSize (i32 (j + (2 - (if j =? 0 then 0 else 1)))) in
    if i <=? i32 j then Ok None else
    if negb (malloc sizeof_tagbstring) then Ok None else
    let i := match mlen with Some m => if i <? m then m else i | None => i end in
    if negb (malloc i) then Ok None else
    d ← write (junk i) 0 (s ++ [Byte.x00]);
    Ok (Some (BS i (i32 j) (Some d)))
  end.

Definition bfromcstr (str : option bytes) : res (option bs) := bfromcstralloc None str.

(** [blk] has at least [len] bytes *)
Definition blk2bstr (blk : option bytes) (len : Z) : res (option bs) :=
  match blk with
  | None => Ok None
  | Some s =>
    if len <? 0 then Ok None else
    if negb (malloc sizeof_tagbstring) then Ok None else
    i ← iadd len (2 - (if len =? 0 then 0 else 1));
    let i := snapUpSize i in
    if negb (malloc i) then Ok None else
    c ← slice s 0 len;
    d ← write (junk i) 0 c;
    d ← poke d len Byte.x00;
    Ok (Some (BS i len (Some d)))
  end.

Definition bstrcpy (b : option bs) : res (option bs) :=
  match b with
  | Some (BS _ i (Some d)) =>
    if i <? 0 then Ok None else
    if negb (malloc sizeof_tagbstring) then Ok None else
    i1 ← iadd i 1;
    let j := snapUpSize i1 in
    let j := if malloc j then Some j else if malloc i1 then Some i1 else None in
    match j with
    | None => Ok None
    | Some j =>
      c ← slice d 0 i;
      x ← write (junk j) 0 c;
      x ← poke x i Byte.x00;
      Ok (Some (BS j i (Some x)))
    end
  | _ => Ok None
  end.

(** the C string, with [z] for every NUL in it *)
Definition bstr2cstr (b : option bs) (z : byte) : res (option bytes) :=
  match b with
  | Some (BS _ l (Some d)) =>
    if l <? 0 then Ok None else
    n ← iadd l 1;
    if negb (malloc n) then Ok None else
    c ← slice d 0 l;
    Ok (Some (map (fun x => if bool_decide (x = Byte.x00) then z else x) c ++ [Byte.x00]))
  | _ => Ok None
  end.

(** the string that is left, [None] when it is gone *)
Definition bdestroy (b : option bs) : Z * option bs :=
  match b with
  | Some (BS m s (Some d)) => if broken (BS m s (Some d)) then (BSTR_ERR, b) else (0, None)
  | _ => (BSTR_ERR, b)
  end.

(** ** Appending *)

Definition bconcat (b0 : option bs) (b1 : arg) : res (Z * option bs) :=
  match b0, arg_of b0 b1 with
  | Some (BS m0 d (Some dd)), Some (BS _ len (Some src)) =>
    if (d <? 0) || (m0 - d <? 0) || (len <? 0) then Ok (BSTR_ERR, b0) else
    n ← iadd d len; n1 ← iadd n 1;
    content ← slice src 0 len;
    '(ok, b0) ← (if m0 <=? n1 then
        aux ← (if is_same b1 then c ← bstrcpy b0; Ok (bool_decide (c <> None)) else Ok true);
        if negb aux then Ok (false, b0) else
        '(rc, b0) ← balloc b0 n1;
        Ok (rc =? BSTR_OK, b0)
      else Ok (true, b0));
    if negb ok then Ok (BSTR_ERR, b0) else
    match b0 with
    | Some (BS m s (Some x)) =>
      x ← write x d content;
      x ← poke x n Byte.x00;
      Ok (0, Some (BS m (s + len) (Some x)))
    | _ => Fault NullDeref
    end
  | _, _ => Ok (BSTR_ERR, b0)
  end.

Definition bconchar (b : option bs) (c : byte) : res (Z * option bs) :=
  match b with
  | None => Ok (BSTR_ERR, b)
  | Some s =>
    let d := slen s in
    if (d <? 0) || (mlen s - d <? 0) then Ok (BSTR_ERR, b) else
    d2 ← iadd d 2;
    '(rc, b) ← balloc b d2;
    if negb (rc =? BSTR_OK) then Ok (BSTR_ERR, b) else
    match b with
    | Some (BS m s (Some x)) =>
      x ← poke x d c;
      x ← poke x (d + 1) Byte.x00;
      Ok (0, Some (BS m (s + 1) (Some x)))
    | _ => Fault NullDeref
    end
  end.

(** a string on the stack that cannot be written *)
Definition tbstr (s : bytes) : bs := BS (-1) (i32 (zlen s)) (Some s).

(** the loop: the bytes copied, and whether the NUL was among them *)
Fixpoint copy_cstr (room : nat) (s : bytes) : bytes * bool :=
  match room with
  | O => ([], false)
  | S r => match s with [] => ([Byte.x00], true) | c :: s' => let '(o, e) := copy_cstr r s' in (c :: o, e) end
  end.

Definition bcatcstr (b : option bs) (s : option bytes) : res (Z * option bs) :=
  match b, s with
  | Some (BS m l (Some d)), Some s =>
    if broken (BS m l (Some d)) then Ok (BSTR_ERR, b) else
    let s := cstr s in
    let '(out, ended) := copy_cstr (Z.to_nat (m - l)) s in
    x ← write d l out;
    if ended : bool then Ok (BSTR_OK, Some (BS m (l + zlen out - 1) (Some x)))
    else bconcat (Some (BS m (l + zlen out) (Some x))) (Other (Some (tbstr (drop (length out) s))))
  | _, _ => Ok (BSTR_ERR, b)
  end.

Definition bcatblk (b : option bs) (s : option bytes) (len : Z) : res (Z * option bs) :=
  match b, s with
  | Some (BS m l (Some d)), Some s =>
    if broken (BS m l (Some d)) || (len <? 0) then Ok (BSTR_ERR, b) else
    nl ← iadd l len;
    c ← slice s 0 len;
    if nl <? m then
      x ← write d l c;
      x ← poke x nl Byte.x00;
      Ok (BSTR_OK, Some (BS m nl (Some x)))
    else bconcat b (Other (Some (tbstr c)))
  | _, _ => Ok (BSTR_ERR, b)
  end.

(** ** Assigning and cutting *)

Definition bassign (a : option bs) (b : arg) : res (Z * option bs) :=
  match arg_of a b with
  | Some (BS _ n (Some src)) =>
    if n <? 0 then Ok (BSTR_ERR, a) else
    c ← slice src 0 n;
    '(rc, a) ← (if negb (n =? 0) then balloc a n
      else match a with
           | Some (BS m s (Some d)) => Ok (if (m <? s) || (s <? 0) || (m =? 0) then BSTR_ERR else BSTR_OK, a)
           | _ => Ok (BSTR_ERR, a)
           end);
    if negb (rc =? BSTR_OK) then Ok (BSTR_ERR, a) else
    match a with
    | Some (BS m _ (Some x)) =>
      x ← write x 0 c;
      x ← poke x n Byte.x00;
      Ok (BSTR_OK, Some (BS m n (Some x)))
    | _ => Fault NullDeref
    end
  | _ => Ok (BSTR_ERR, a)
  end.

(** [left] and [len] cut to the string *)
Definition clamp (n lft len : Z) : res (Z * Z) :=
  '(lft, len) ← (if lft <? 0 then l ← iadd len lft; Ok (0, l) else Ok (lft, len));
  Ok (lft, if n - lft <? len then n - lft else len).

Definition bassignmidstr (a : option bs) (b : arg) (lft len : Z) : res (Z * option bs) :=
  match arg_of a b with
  | Some (BS _ n (Some src)) =>
    if n <? 0 then Ok (BSTR_ERR, a) else
    '(lft, len) ← clamp n lft len;
    match a with
    | Some (BS m s (Some d)) =>
      if (m <? s) || (s <? 0) || (m =? 0) then Ok (BSTR_ERR, a) else
      if 0 <? len then
        c ← slice src lft len;
        '(rc, a) ← balloc a len;
        if negb (rc =? BSTR_OK) then Ok (BSTR_ERR, a) else
        match a with
        | Some (BS m _ (Some x)) =>
          x ← write x 0 c;
          x ← poke x len Byte.x00;
          Ok (BSTR_OK, Some (BS m len (Some x)))
        | _ => Fault NullDeref
        end
      else x ← poke d 0 Byte.x00; Ok (BSTR_OK, Some (BS m 0 (Some x)))
    | _ => Ok (BSTR_ERR, a)
    end
  | _ => Ok (BSTR_ERR, a)
  end.

Definition btrunc (b : option bs) (n : Z) : res (Z * option bs) :=
  match b with
  | Some (BS m s (Some d)) =>
    if (n <? 0) || broken (BS m s (Some d)) then Ok (BSTR_ERR, b) else
    if n <? s then x ← poke d n Byte.x00; Ok (0, Some (BS m n (Some x))) else Ok (0, b)
  | _ => Ok (BSTR_ERR, b)
  end.

Definition bmidstr (b : option bs) (lft len : Z) : res (option bs) :=
  match b with
  | Some (BS _ n (Some d)) =>
    if n <? 0 then Ok None else
    '(lft, len) ← clamp n lft len;
    if len <=? 0 then bfromcstr (Some []) else
    c ← slice d lft len;
    blk2bstr (Some c) len
  | _ => Ok None
  end.

Definition bdelete (b : option bs) (pos len : Z) : res (Z * option bs) :=
  '(pos, len) ← (if pos <? 0 then l ← iadd len pos; Ok (0, l) else Ok (pos, len));
  match b with
  | Some (BS m s (Some d)) =>
    if (len <? 0) || broken (BS m s (Some d)) then Ok (BSTR_ERR, b) else
    if (0 <? len) && (pos <? s) then
      e ← iadd pos len;
      if s <=? e then x ← poke d pos Byte.x00; Ok (BSTR_OK, Some (BS m pos (Some x)))
      else
        c ← slice d e (s - e);
        x ← write d pos c;
        x ← poke x (s - len) Byte.x00;
        Ok (BSTR_OK, Some (BS m (s - len) (Some x)))
    else Ok (BSTR_OK, b)
  | _ => Ok (BSTR_ERR, b)
  end.

(** ** Writing inside *)

(** NULL is an empty string here *)
Definition bsetstr (b0 : option bs) (pos : Z) (b1 : arg) (fill : byte) : res (Z * option bs) :=
  match b0 with
  | Some (BS m s (Some d0)) =>
    if (pos <? 0) || broken (BS m s (Some d0)) then Ok (BSTR_ERR, b0) else
    match arg_of b0 b1 with
    | Some (BS _ _ None) => Ok (BSTR_ERR, b0)
    | src =>
      if (match src with Some b => slen b <? 0 | None => false end) then Ok (BSTR_ERR, b0) else
      content ← match src with Some (BS _ n (Some c)) => slice c 0 n | _ => Ok [] end;
      aux ← (if is_same b1 then c ← bstrcpy b0; Ok (bool_decide (c <> None)) else Ok true);
      if negb aux then Ok (BSTR_ERR, b0) else
      d ← iadd pos (zlen content);
      d1 ← iadd d 1;
      '(rc, b0) ← balloc b0 d1;
      if negb (rc =? BSTR_OK) then Ok (BSTR_ERR, b0) else
      match b0 with
      | Some (BS m _ (Some x)) =>
        x ← (if s <? pos then write x s (replicate (Z.to_nat (pos - s)) fill) else Ok x);
        let newlen := Z.max pos s in
        x ← write x pos content;
        let newlen := Z.max d newlen in
        x ← poke x newlen Byte.x00;
        Ok (BSTR_OK, Some (BS m newlen (Some x)))
      | _ => Fault NullDeref
      end
    end
  | _ => Ok (BSTR_ERR, b0)
  end.

(** what [binsert] and [binsertch] do once the content is known: [gap] is what is filled past the end; the loop
    that moves the tail starts at its end, like [memmove] *)
Definition insert_at (b1 : option bs) (pos : Z) (content : bytes) (fill : byte) : res (Z * option bs) :=
  match b1 with
  | Some (BS _ s _) =>
    let n := zlen content in
    d ← iadd s n;
    l ← iadd pos n;
    if d <? l then
      l1 ← iadd l 1;
      '(rc, b1) ← balloc b1 l1;
      if negb (rc =? BSTR_OK) then Ok (BSTR_ERR, b1) else
      match b1 with
      | Some (BS m _ (Some x)) =>
        x ← write x s (replicate (Z.to_nat (pos - s)) fill);
        x ← write x pos content;
        x ← poke x l Byte.x00;
        Ok (0, Some (BS m l (Some x)))
      | _ => Fault NullDeref
      end
    else
      d1 ← iadd d 1;
      '(rc, b1) ← balloc b1 d1;
      if negb (rc =? BSTR_OK) then Ok (BSTR_ERR, b1) else
      match b1 with
      | Some (BS m _ (Some x)) =>
        tail ← slice x pos (s - pos);
        x ← write x l tail;
        x ← write x pos content;
        x ← poke x d Byte.x00;
        Ok (0, Some (BS m d (Some x)))
      | _ => Fault NullDeref
      end
  | None => Fault NullDeref
  end.

Definition binsert (b1 : option bs) (pos : Z) (b2 : arg) (fill : byte) : res (Z * option bs) :=
  match b1, arg_of b1 b2 with
  | Some s1, Some (BS _ n src) =>
    if (pos <? 0) || (slen s1 <? 0) || (n <? 0) || (mlen s1 <? slen s1) || (mlen s1 <=? 0) then Ok (BSTR_ERR, b1) else
    (* two NULL buffers are an alias that [bstrcpy] refuses *)
    if bool_decide (data s1 = None) && bool_decide (src = None) then Ok (BSTR_ERR, b1) else
    aux ← (if is_same b2 then c ← bstrcpy b1; Ok (bool_decide (c <> None)) else Ok true);
    if negb aux then Ok (BSTR_ERR, b1) else
    content ← (if n =? 0 then Ok [] else src ← need NullDeref src; slice src 0 n);
    insert_at b1 pos content fill
  | _, _ => Ok (BSTR_ERR, b1)
  end.

(** past the end, the gap is filled with the same character *)
Definition binsertch (b : option bs) (pos len : Z) (fill : byte) : res (Z * option bs) :=
  match b with
  | Some s =>
    if (pos <? 0) || (slen s <? 0) || (mlen s <? slen s) || (mlen s <=? 0) || (len <? 0) then Ok (BSTR_ERR, b) else
    insert_at b pos (replicate (Z.to_nat len) fill) fill
  | None => Ok (BSTR_ERR, b)
  end.

Definition breplace (b1 : option bs) (pos len : Z) (b2 : arg) (fill : byte) : res (Z * option bs) :=
  match b1, arg_of b1 b2 with
  | Some (BS m s (Some d)), Some (BS _ n (Some src)) =>
    if (pos <? 0) || (len <? 0) then Ok (BSTR_ERR, b1) else
    pl ← iadd pos len;
    if (n <? 0) || broken (BS m s (Some d)) then Ok (BSTR_ERR, b1) else
    if s <=? pl then
      '(ret, b1) ← bsetstr b1 pos b2 fill;
      if ret <? 0 then Ok (ret, b1) else
      match b1 with
      | Some (BS m s (Some x)) =>
        let n := if is_same b2 then s else n in
        e ← iadd pos n;
        if e <? s then x ← poke x e Byte.x00; Ok (ret, Some (BS m e (Some x))) else Ok (ret, b1)
      | _ => Fault NullDeref
      end
    else
      aux ← (if is_same b2 then c ← bstrcpy b1; Ok (bool_decide (c <> None)) else Ok true);
      if negb aux then Ok (BSTR_ERR, b1) else
      content ← slice src 0 n;
      '(rc, b1) ← (if len <? n then t ← iadd s n; balloc b1 (t - len) else Ok (BSTR_OK, b1));
      if negb (rc =? BSTR_OK) then Ok (BSTR_ERR, b1) else
      match b1 with
      | Some (BS m _ (Some x)) =>
        tail ← slice x pl (s - pl);
        x ← (if n =? len then Ok x else write x (pos + n) tail);
        x ← write x pos content;
        x ← poke x (s + n - len) Byte.x00;
        Ok (BSTR_OK, Some (BS m (s + n - len) (Some x)))
      | _ => Fault NullDeref
      end
  | _, _ => Ok (BSTR_ERR, b1)
  end.

(** [for (i = d; i < len; i++) data[i] = data[i - d]] *)
Fixpoint repeat_loop (k : nat) (i d : Z) (x : bytes) : res bytes :=
  match k with
  | O => Ok x
  | S k' => c ← peek x (i - d); x ← poke x i c; repeat_loop k' (i + 1) d x
  end.

Definition bpattern (b : option bs) (len : Z) : res (Z * option bs) :=
  let d := match b with Some s => if slen s <? 0 then 0 else slen s | None => 0 end in
  if (d <=? 0) || (len <? 0) then Ok (BSTR_ERR, b) else
  n ← iadd len 1;
  '(rc, b) ← balloc b n;
  if negb (rc =? BSTR_OK) then Ok (BSTR_ERR, b) else
  match b with
  | Some (BS m _ (Some x)) =>
    if (0 <? len) && (d =? 1) then c ← peek x 0; bsetstr b len (Other None) c
    else
      x ← (if 0 <? len then repeat_loop (Z.to_nat (len - d)) d d x else Ok x);
      x ← poke x len Byte.x00;
      Ok (0, Some (BS m len (Some x)))
  | _ => Fault NullDeref
  end.

(** ** Reading files *)

Definition BS_BUFF_SZ : Z := 1024.

(** [rest] is what [readPtr] has not delivered yet: it fills the space it is given while there is something left;
    [n] is the size of the buffer that is filled to *)
Fixpoint breada_loop (fuel : nat) (b : option bs) (rest : bytes) (i n : Z) : res (Z * option bs * bytes) :=
  match fuel with
  | O => Fault NoFuel
  | S f =>
    n1 ← iadd n 1;
    '(rc, b) ← balloc b n1;
    if negb (rc =? BSTR_OK) then Ok (BSTR_ERR, b, rest) else
    match b with
    | Some (BS m _ (Some x)) =>
      let got := take (Z.to_nat (n - i)) rest in
      x ← write x i got;
      let i := i + zlen got in
      let b := Some (BS m i (Some x)) in
      let rest := drop (length got) rest in
      if i <? n then x ← poke x i Byte.x00; Ok (0, Some (BS m i (Some x)), rest)
      else n ← iadd n (if n <? BS_BUFF_SZ then n else BS_BUFF_SZ); breada_loop f b rest i n
    | _ => Fault NullDeref
    end
  end.

Definition breada (b : option bs) (rest : bytes) : res (Z * option bs * bytes) :=
  match b with
  | Some s =>
    if broken s then Ok (BSTR_ERR, b, rest) else
    n ← iadd (slen s) 16;
    breada_loop (S (length rest)) b rest (slen s) n
  | None => Ok (BSTR_ERR, b, rest)
  end.

Definition bread (rest : bytes) : res (option bs * bytes) :=
  b ← bfromcstr (Some []);
  match b with
  | None => Ok (None, rest)
  | Some _ =>
    '(ret, b, rest) ← breada b rest;
    if ret <? 0 then Ok (None, rest) else Ok (b, rest)
  end.

(** ** Letters and blanks *)

Definition ascii (c : byte) : bool := bv c <? 128.
Definition upcase (c : byte) : byte := if ascii c && (97 <=? bv c) && (bv c <=? 122) then uchar (bv c - 32) else c.
Definition downcase (c : byte) : byte := if ascii c && (65 <=? bv c) && (bv c <=? 90) then uchar (bv c + 32) else c.
Definition wspace (c : byte) : bool := ascii c && is_space c.

Definition map_content (f : byte -> byte) (b : option bs) : res (Z * option bs) :=
  match b with
  | Some (BS m s (Some d)) =>
    if broken (BS m s (Some d)) then Ok (BSTR_ERR, b) else
    c ← slice d 0 s;
    x ← write d 0 (map f c);
    Ok (BSTR_OK, Some (BS m s (Some x)))
  | _ => Ok (BSTR_ERR, b)
  end.

Definition btoupper (b : option bs) : res (Z * option bs) := map_content upcase b.
Definition btolower (b : option bs) : res (Z * option bs) := map_content downcase b.

Definition clear (m : Z) (d : bytes) : res (Z * option bs) := x ← poke d 0 Byte.x00; Ok (0, Some (BS m 0 (Some x))).

Definition bltrimws (b : option bs) : res (Z * option bs) :=
  match b with
  | Some (BS m s (Some d)) =>
    if broken (BS m s (Some d)) then Ok (BSTR_ERR, b) else
    c ← slice d 0 s;
    let i := zlen (span wspace c) in
    if i <? s then bdelete b 0 i else clear m d
  | _ => Ok (BSTR_ERR, b)
  end.

Definition brtrimws (b : option bs) : res (Z * option bs) :=
  match b with
  | Some (BS m s (Some d)) =>
    if broken (BS m s (Some d)) then Ok (BSTR_ERR, b) else
    c ← slice d 0 s;
    let n := s - zlen (span wspace (rev c)) in
    if 0 <? n then x ← (if n - 1 <? m then poke d n Byte.x00 else Ok d); Ok (0, Some (BS m n (Some x))) else clear m d
  | _ => Ok (BSTR_ERR, b)
  end.

(** the loop from the front needs no end: there is a character that is no blank *)
Definition btrimws (b : option bs) : res (Z * option bs) :=
  match b with
  | Some (BS m s (Some d)) =>
    if broken (BS m s (Some d)) then Ok (BSTR_ERR, b) else
    c ← slice d 0 s;
    let n := s - zlen (span wspace (rev c)) in
    if 0 <? n then
      x ← (if n - 1 <? m then poke d n Byte.x00 else Ok d);
      bdelete (Some (BS m n (Some x))) 0 (zlen (span wspace x))
    else clear m d
  | _ => Ok (BSTR_ERR, b)
  end.
End Memory.

(** ** Comparing and searching *)

(** the content of an argument that is only read *)
Definition readable (b : option bs) : option (res bytes) :=
  match b with Some (BS _ s (Some d)) => if s <? 0 then None else Some (slice d 0 s) | _ => None end.

Definition biseq (b0 b1 : option bs) : res Z :=
  match readable b0, readable b1 with
  | Some r0, Some r1 => x ← r0; y ← r1; Ok (if bool_decide (x = y) then 1 else 0)
  | _, _ => Ok BSTR_ERR
  end.

(** [blk] has at least [len] bytes *)
Definition bisstemeqblk (b0 : option bs) (blk : option bytes) (len : Z) : res Z :=
  match readable b0, blk with
  | Some r0, Some blk =>
    if len <? 0 then Ok BSTR_ERR else
    x ← r0;
    if zlen x <? len then Ok 0 else
    y ← slice blk 0 len;
    Ok (if bool_decide (take (Z.to_nat len) x = y) then 1 else 0)
  | _, _ => Ok BSTR_ERR
  end.

(** the loop stops at a NUL of the C string *)
Fixpoint eq_cstr (x s : bytes) : bool :=
  match x, s with
  | [], [] => true
  | [], _ :: _ => false
  | _ :: _, [] => false
  | a :: x', b :: s' => bool_decide (a = b) && eq_cstr x' s'
  end.

Definition biseqcstr (b : option bs) (s : option bytes) : res Z :=
  match readable b, s with
  | Some r, Some s => x ← r; Ok (if eq_cstr x (cstr s) then 1 else 0)
  | _, _ => Ok BSTR_ERR
  end.

(** [d0[j] == d1[i + j]]: one step to the right, or back to the start one further; [step] is 1 or -1 *)
Fixpoint search_loop (fuel : nat) (same : byte -> byte -> bool) (d0 d1 : bytes) (ll last step i j : Z) : res Z :=
  match fuel with
  | O => Fault NoFuel
  | S f =>
    a ← peek d0 j;
    b ← peek d1 (i + j);
    if same a b then (if ll <=? j + 1 then Ok i else search_loop f same d0 d1 ll last step i (j + 1))
    else if i =? last then Ok BSTR_ERR else search_loop f same d0 d1 ll last step (i + step) 0
  end.

Definition search_fuel (n ll : Z) : nat := Z.to_nat ((n + 2) * (ll + 1)).

Definition same_byte (a b : byte) : bool := bool_decide (a = b).
Definition same_letter (a b : byte) : bool := bool_decide (a = b) || bool_decide (downcase a = downcase b).

Definition find_forward (same : byte -> byte -> bool) (b1 : option bs) (pos : Z) (b2 : option bs) : res Z :=
  match readable b1, readable b2 with
  | Some r1, Some r2 =>
    d1 ← r1; d0 ← r2;
    let n := zlen d1 in
    let ll := zlen d0 in
    if n =? pos then Ok (if ll =? 0 then pos else BSTR_ERR) else
    if (n <? pos) || (pos <? 0) then Ok BSTR_ERR else
    if ll =? 0 then Ok pos else
    let l := n - ll + 1 in
    if l <=? pos then Ok BSTR_ERR else
    search_loop (search_fuel n ll) same d0 d1 ll (l - 1) 1 pos 0
  | _, _ => Ok BSTR_ERR
  end.

Definition binstr := find_forward same_byte.
Definition binstrcaseless := find_forward same_letter.

Definition find_backward (same : byte -> byte -> bool) (b1 : option bs) (pos : Z) (b2 : option bs) : res Z :=
  match readable b1, readable b2 with
  | Some r1, Some r2 =>
    d1 ← r1; d0 ← r2;
    let n := zlen d1 in
    let ll := zlen d0 in
    if (n =? pos) && (ll =? 0) then Ok pos else
    if (n <? pos) || (pos <? 0) then Ok BSTR_ERR else
    if ll =? 0 then Ok pos else
    let l := n - ll in
    if l <? 0 then Ok BSTR_ERR else
    let i := if l + 1 <=? pos then l else pos in
    search_loop (search_fuel n ll) same d0 d1 ll 0 (-1) i 0
  | _, _ => Ok BSTR_ERR
  end.

Definition binstrr := find_backward same_byte.
Definition binstrrcaseless := find_backward same_letter.

(** [memchr] *)
Fixpoint index_of (p : byte -> bool) (l : bytes) (i : Z) : Z :=
  match l with [] => BSTR_ERR | x :: l' => if p x then i else index_of p l' (i + 1) end.

Definition is_char (c : Z) (x : byte) : bool := bool_decide (x = uchar c).

Definition bstrchrp (b : option bs) (c pos : Z) : res Z :=
  match b with
  | Some (BS _ s (Some d)) =>
    if (s <=? pos) || (pos <? 0) then Ok BSTR_ERR else
    x ← slice d pos (s - pos);
    Ok (index_of (is_char c) x pos)
  | _ => Ok BSTR_ERR
  end.

(** the loop down to 0 *)
Fixpoint last_of (p : byte -> bool) (l : bytes) (i : Z) : Z :=
  match l with [] => BSTR_ERR | x :: l' => if p x then i else last_of p l' (i - 1) end.

Definition bstrrchrp (b : option bs) (c pos : Z) : res Z :=
  match b with
  | Some (BS _ s (Some d)) =>
    if (s <=? pos) || (pos <? 0) then Ok BSTR_ERR else
    x ← slice d 0 (pos + 1);
    Ok (last_of (is_char c) (rev x) pos)
  | _ => Ok BSTR_ERR
  end.

(** [charField]: eight words of 32 bits *)
Definition charField := list Z.
Definition no_chars : charField := replicate 8 0.

Definition add_char (cf : charField) (c : byte) : charField :=
  let i := Z.to_nat (Z.shiftr (bv c) 5) in
  <[i := Z.lor (default 0 (cf !! i)) (Z.shiftl 1 (Z.land (bv c) 31))]> cf.
Definition testInCharField (cf : charField) (c : byte) : bool :=
  Z.testbit (default 0 (cf !! Z.to_nat (Z.shiftr (bv c) 5))) (Z.land (bv c) 31).

Definition buildCharField (b1 : option bs) : res (option charField) :=
  match b1 with
  | Some (BS _ s (Some d)) => if s <=? 0 then Ok None else c ← slice d 0 s; Ok (Some (foldl add_char no_chars c))
  | _ => Ok None
  end.

(** on the 64 bits of an [unsigned long] *)
Definition invertCharField (cf : charField) : charField := map (fun x => u64 (Z.lnot x)) cf.

Definition binchr_any (inverted : bool) (b0 : option bs) (pos : Z) (b1 : option bs) : res Z :=
  match b0 with
  | Some (BS _ s (Some d)) =>
    if (pos <? 0) || (s <=? pos) then Ok BSTR_ERR else
    cf ← buildCharField b1;
    match cf with
    | None => Ok BSTR_ERR
    | Some cf =>
      let cf := if inverted then invertCharField cf else cf in
      x ← slice d pos (s - pos);
      Ok (index_of (testInCharField cf) x pos)
    end
  | _ => Ok BSTR_ERR
  end.

Definition binchr := binchr_any false.
Definition bninchr := binchr_any true.

Definition binchrr_any (inverted : bool) (b0 : option bs) (pos : Z) (b1 : option bs) : res Z :=
  match b0 with
  | Some (BS _ s (Some d)) =>
    if (pos <? 0) || (s <? pos) then Ok BSTR_ERR else
    let pos := if pos =? s then pos - 1 else pos in
    cf ← buildCharField b1;
    match cf with
    | None => Ok BSTR_ERR
    | Some cf =>
      let cf := if inverted then invertCharField cf else cf in
      x ← slice d 0 (pos + 1);
      Ok (last_of (testInCharField cf) (rev x) pos)
    end
  | _ => Ok BSTR_ERR
  end.

Definition binchrr := binchrr_any false.
Definition bninchrr := binchrr_any true.

End BString.
