(* ===== verification/BStringProps.v ===== *)
(** * BStringProps: the string library implements byte sequences

    A string of at most a quarter of a gigabyte holds a sequence of bytes: the content, a NUL and what is
    left of the buffer.  Each operation leaves a string that holds the sequence it promises, or, when there
    is no memory, the sequence it held before. *)

From Stdlib Require Import ZArith Lia.
From S2P Require Import Prelude BString.
Import BString.
Local Open Scope Z_scope.

Module BStringProps.

(** ** Buffers in pieces *)

Lemma zlen_replicate {A} n (x : A) : zlen (replicate n x) = Z.of_nat n.
Proof. unfold zlen. by rewrite length_replicate. Qed.

Lemma slice_mid a b c : slice (a ++ b ++ c) (zlen a) (zlen b) = Ok b.
Proof.
  unfold slice. pose proof (zlen_nonneg a). pose proof (zlen_nonneg b). pose proof (zlen_nonneg c). rewrite !zlen_app.
  rewrite (proj2 (Z.leb_le 0 _)), (proj2 (Z.leb_le 0 _)), (proj2 (Z.leb_le _ _)) by lia. cbn [andb]. f_equal.
  unfold zlen. rewrite !Nat2Z.id, drop_app_length, take_app_length. done.
Qed.

Lemma slice_front b c : slice (b ++ c) 0 (zlen b) = Ok b.
Proof. apply (slice_mid [] b c). Qed.

Lemma slice_all b : slice b 0 (zlen b) = Ok b.
Proof. rewrite <- (app_nil_r b) at 1. apply slice_front. Qed.

Lemma write_mid a b c s : zlen s = zlen b -> write (a ++ b ++ c) (zlen a) s = Ok (a ++ s ++ c).
Proof.
  intros Hl. unfold write. pose proof (zlen_nonneg a). pose proof (zlen_nonneg b). pose proof (zlen_nonneg c). rewrite !zlen_app.
  rewrite (proj2 (Z.leb_le 0 _)), (proj2 (Z.leb_le _ _)) by lia. cbn [andb]. f_equal.
  unfold zlen in *. rewrite !Nat2Z.id, take_app_length. f_equal. f_equal. assert (length s = length b) as -> by lia.
  by rewrite drop_app_add, drop_app_length.
Qed.

Lemma write_front b c s : zlen s = zlen b -> write (b ++ c) 0 s = Ok (s ++ c).
Proof. apply (write_mid [] b c s). Qed.

Lemma poke_mid a x c y : poke (a ++ x :: c) (zlen a) y = Ok (a ++ y :: c).
Proof. apply (write_mid a [x] c [y]). done. Qed.

(** a buffer in two pieces of given length *)
Lemma split_at (d : bytes) n : 0 <= n <= zlen d -> exists a b, d = a ++ b /\ zlen a = n.
Proof.
  intros Hn. exists (take (Z.to_nat n) d), (drop (Z.to_nat n) d). rewrite take_drop. split; [done|]. unfold zlen in *. rewrite length_take. lia.
Qed.

(** ** The size *)

Definition LIMIT : Z := 2 ^ 28.

Lemma bits_below j n : 0 <= j -> 0 <= n -> (forall i, n <= i -> Z.testbit j i = false) -> j < 2 ^ n.
Proof.
  intros Hj Hn Hb. destruct (Z.eq_dec j 0) as [Hz|Hz]; [subst j; by apply Z.pow_pos_nonneg|].
  apply Z.log2_lt_pow2; [lia|]. destruct (Z.lt_ge_cases (Z.log2 j) n) as [|Hge]; [done|]. specialize (Hb _ Hge). rewrite Z.bit_log2 in Hb by lia. done.
Qed.

Lemma bits_above j n i : 0 <= j < 2 ^ n -> n <= i -> Z.testbit j i = false.
Proof.
  intros Hj Hi. destruct (Z.eq_dec j 0) as [Hz|Hz]; [subst j; apply Z.bits_0|]. apply Z.bits_above_log2; [lia|].
  assert (Z.log2 j < n) by (apply Z.log2_lt_pow2; lia). lia.
Qed.

Lemma smear_le j k n : 0 <= j < 2 ^ n -> 0 <= k -> 0 <= n -> 0 <= smear j k < 2 ^ n.
Proof.
  intros Hj Hk Hn. unfold smear. assert (Hs : 0 <= Z.lor j (Z.shiftr j k)) by (apply Z.lor_nonneg; split; [lia|apply Z.shiftr_nonneg; lia]).
  split; [done|]. apply bits_below; [done|done|]. intros i Hi. rewrite Z.lor_spec, Z.shiftr_spec by lia. rewrite (bits_above j n i), (bits_above j n (i + k)) by lia. done.
Qed.

Lemma smear_ge j k : 0 <= j -> j <= smear j k.
Proof.
  intros Hj. unfold smear. assert (H0 : Z.ldiff j (Z.lor j (Z.shiftr j k)) = 0).
  { apply Z.bits_inj'. intros i Hi. rewrite Z.ldiff_spec, Z.lor_spec, Z.bits_0. by destruct (Z.testbit j i). }
  apply Z.ldiff_le in H0; [lia|]. apply Z.lor_nonneg. split; [done|apply Z.shiftr_nonneg; lia].
Qed.

Lemma snap_ok i : 0 < i < LIMIT -> i < snapUpSize i <= LIMIT.
Proof.
  unfold LIMIT, snapUpSize. intros Hi. destruct (Z.ltb_spec i 8); [cbn; lia|]. assert (u32 i = i) as -> by (unfold u32; rewrite Z.mod_small; lia).
  set (j := smear (smear (smear (smear (smear i 1) 2) 4) 8) 16).
  assert (Hj : i <= j < 2 ^ 28).
  { assert (B1 := smear_le i 1 28). assert (G1 := smear_ge i 1). assert (B2 := smear_le (smear i 1) 2 28). assert (G2 := smear_ge (smear i 1) 2).
    assert (B3 := smear_le (smear (smear i 1) 2) 4 28). assert (G3 := smear_ge (smear (smear i 1) 2) 4).
    assert (B4 := smear_le (smear (smear (smear i 1) 2) 4) 8 28). assert (G4 := smear_ge (smear (smear (smear i 1) 2) 4) 8).
    assert (B5 := smear_le (smear (smear (smear (smear i 1) 2) 4) 8) 16 28). assert (G5 := smear_ge (smear (smear (smear (smear i 1) 2) 4) 8) 16). unfold j. lia. }
  assert (u32 (j + 1) = j + 1) as -> by (unfold u32; rewrite Z.mod_small; lia). rewrite i32_small by lia. rewrite (proj2 (Z.leb_le _ _)) by lia. lia.
Qed.

(** ** Strings that hold a sequence *)

Definition cell (s rest : bytes) : bs := BS (zlen s + 1 + zlen rest) (zlen s) (Some (s ++ Byte.x00 :: rest)).
Definition holds (b : bs) (s : bytes) : Prop := exists rest, b = cell s rest /\ zlen s + 1 + zlen rest <= LIMIT.

Lemma holds_length b (s : bytes) : holds b s -> slen b = zlen s /\ 0 <= zlen s < mlen b /\ mlen b <= LIMIT.
Proof. intros (rest & -> & Hl). pose proof (zlen_nonneg s). pose proof (zlen_nonneg rest). cbn. lia. Qed.

Lemma cell_sound (s rest : bytes) d : broken (BS (zlen s + 1 + zlen rest) (zlen s) d) = false.
Proof. unfold broken. cbn [slen mlen]. pose proof (zlen_nonneg s). pose proof (zlen_nonneg rest). lia. Qed.

Lemma iadd_ok a b : INT_MIN <= a + b <= INT_MAX -> iadd a b = Ok (a + b).
Proof. intros H. unfold iadd, int_ok. by rewrite (proj2 (Z.leb_le _ _)), (proj2 (Z.leb_le _ _)) by lia. Qed.

Lemma imul_ok a b : INT_MIN <= a * b <= INT_MAX -> imul a b = Ok (a * b).
Proof. intros H. unfold imul, int_ok. by rewrite (proj2 (Z.leb_le _ _)), (proj2 (Z.leb_le _ _)) by lia. Qed.


(** writing behind a prefix *)
Lemma write_at p t c : zlen c <= zlen t -> write (p ++ t) (zlen p) c = Ok (p ++ c ++ drop (length c) t).
Proof.
  intros Hc. destruct (split_at t (zlen c)) as (y & z & -> & Hy); [pose proof (zlen_nonneg c); lia|]. rewrite (write_mid p y z c) by lia.
  assert (length c = length y) as -> by (unfold zlen in Hy; lia). by rewrite drop_app_length.
Qed.

(** the last step of every operation: the NUL behind the content *)
Lemma seal (rc : Z) p t m : zlen p + zlen t = m -> m <= LIMIT -> 0 < zlen t ->
  exists b, (x ← poke (p ++ t) (zlen p) Byte.x00; Ok (rc, Some (BS m (zlen p) (Some x)))) = Ok (rc, Some b) /\ holds b p /\ mlen b = m.
Proof.
  intros Hm Hl Ht. destruct t as [|c t]; [by cbn in Ht|]. rewrite zlen_cons in *. rewrite poke_mid, bind_ret. exists (cell p t).
  split_and!; [unfold cell; by replace m with (zlen p + 1 + zlen t) by lia|exists t; split; [done|lia]|cbn; lia].
Qed.

(** ** What the operations mean *)

(** [len] bytes at [pos] become [x]; a gap up to [pos] is filled *)
Definition pad (s : bytes) (pos : Z) (fill : byte) : bytes := s ++ replicate (Z.to_nat (pos - zlen s)) fill.
Definition splice (s : bytes) (pos len : Z) (x : bytes) (fill : byte) : bytes :=
  take (Z.to_nat pos) (pad s pos fill) ++ x ++ drop (Z.to_nat (pos + len)) s.

(** inside the string: three pieces *)
Lemma splice_inside p r q x fill : splice (p ++ r ++ q) (zlen p) (zlen r) x fill = p ++ x ++ q.
Proof.
  unfold splice, pad. rewrite <- zlen_app, !zlen_app. pose proof (zlen_nonneg r). pose proof (zlen_nonneg q).
  replace (Z.to_nat (zlen p - (zlen p + (zlen r + zlen q)))) with 0%nat by lia. cbn [replicate]. rewrite app_nil_r.
  unfold zlen. rewrite Nat2Z.id, take_app_length. replace (Z.to_nat (Z.of_nat (length p) + Z.of_nat (length r))) with (length (p ++ r)) by (rewrite length_app; lia).
  by rewrite (app_assoc p r q), drop_app_length.
Qed.

(** up to the end or past it *)
Lemma splice_end p r len x fill : zlen r <= len -> splice (p ++ r) (zlen p) len x fill = p ++ x.
Proof.
  intros Hr. unfold splice, pad. rewrite zlen_app. pose proof (zlen_nonneg r). replace (Z.to_nat (zlen p - (zlen p + zlen r))) with 0%nat by lia. cbn [replicate]. rewrite app_nil_r.
  rewrite (drop_ge (p ++ r)) by (unfold zlen in *; rewrite length_app; lia). unfold zlen. by rewrite Nat2Z.id, take_app_length, app_nil_r.
Qed.

Lemma splice_past s pos len x fill : zlen s <= pos -> 0 <= len -> splice s pos len x fill = pad s pos fill ++ x.
Proof.
  intros Hp Hn. unfold splice, pad. rewrite (drop_ge s), app_nil_r by (unfold zlen in *; lia). rewrite take_ge; [done|]. unfold zlen in *. rewrite length_app, length_replicate. lia.
Qed.

(** an argument: the string itself, or another one with its content and what is left of its buffer *)
Inductive source := Self | Text (x spare : bytes).
Definition to_arg (a : source) : arg := match a with Self => Same | Text x spare => Other (Some (cell x spare)) end.
Definition content (s : bytes) (a : source) : bytes := match a with Self => s | Text x _ => x end.

Lemma arg_content s rest a : exists m t, arg_of (Some (cell s rest)) (to_arg a) = Some (BS m (zlen (content s a)) (Some (content s a ++ Byte.x00 :: t))).
Proof. destruct a as [|x t]; cbn; eauto. Qed.

Section Memory.
Context (malloc realloc : Z -> bool) (junk : Z -> bytes) (junk_len : forall n, 0 <= n -> zlen (junk n) = n).

Definition memory : Prop := (forall n, malloc n = true) /\ (forall n, realloc n = true).

(** the new buffer *)
Lemma enlarge_ok d len : zlen d <= len -> exists t, enlarge junk d len = d ++ t /\ zlen t = len - zlen d.
Proof.
  intros Hd. pose proof (zlen_nonneg d). unfold enlarge. eexists. split; [done|]. pose proof (junk_len len ltac:(lia)). unfold zlen in *. rewrite length_drop. lia.
Qed.

(** what [balloc] puts at the place of the buffer *)
Lemma fresh_buffer_ok s t n : 0 < n -> zlen s < n ->
  exists x, (if zlen s =? 0 then Ok (Some (junk n)) else c ← slice (s ++ t) 0 (zlen s); x ← write (junk n) 0 c; Ok (Some x)) = Ok (Some (s ++ x)) /\ zlen s + zlen x = n.
Proof.
  intros Hn Hs. pose proof (junk_len n ltac:(lia)) as Hj. destruct (Z.eqb_spec (zlen s) 0) as [Hz|Hz].
  - exists (junk n). destruct s as [|? ?]; [done|rewrite zlen_cons in Hz; pose proof (zlen_nonneg s); lia].
  - pose proof (zlen_nonneg s). rewrite slice_front, bind_ret. destruct (split_at (junk n) (zlen s)) as (p & q & Ep & Hp); [lia|]. rewrite Ep, write_front by lia. rewrite bind_ret. exists q.
    split; [done|]. rewrite Ep, zlen_app in Hj. lia.
Qed.

(** [balloc] on a buffer with room behind the content, NUL or not *)
Lemma balloc_any s t len :
  0 < zlen t -> zlen s + zlen t <= LIMIT -> 0 < len < LIMIT ->
  let b := BS (zlen s + zlen t) (zlen s) (Some (s ++ t)) in
  exists rc b', balloc malloc realloc junk (Some b) len = Ok (rc, Some b') /\ (b' = b \/ holds b' s) /\ (rc = BSTR_OK /\ len < mlen b' \/ rc = BSTR_ERR /\ ~ memory).
Proof.
  intros Ht Hl Hlen b. pose proof (zlen_nonneg s). unfold balloc. unfold b at 1. assert (broken b = false) as Hbr by (unfold broken, b; cbn [slen mlen]; lia). fold b. rewrite Hbr. cbn [orb].
  rewrite (proj2 (Z.leb_gt _ _)) by lia. destruct (Z.ltb_spec len (zlen s + zlen t)) as [Hlt|Hge].
  { exists BSTR_OK, b. split_and!; [done|by left|left; cbn; lia]. }
  pose proof (snap_ok len Hlen) as Hsn. set (n := snapUpSize len) in *. rewrite (proj2 (Z.leb_gt _ _)) by lia.
  unfold LIMIT in Hl, Hsn. rewrite !imul_ok by (unfold INT_MIN, INT_MAX; lia). rewrite !bind_ret.
  assert (Hre : (if realloc n then Some (enlarge junk (s ++ t) n) else None) = None /\ ~ memory \/
      exists x, (if realloc n then Some (enlarge junk (s ++ t) n) else None) = Some (s ++ x) /\ zlen s + zlen x = n).
  { destruct (realloc n) eqn:Er; [|left; split; [done|intros [_ Hr]; by rewrite Hr in Er]]. right. destruct (enlarge_ok (s ++ t) n) as (t' & -> & Ht'); [rewrite zlen_app; lia|].
    rewrite zlen_app in Ht'. exists (t ++ t'). rewrite <- app_assoc, zlen_app. split; [done|lia]. }
  destruct (fresh_buffer_ok s t n) as (y & Ey & Hy); [lia..|]. rewrite Ey.
  assert (Hend : forall o, (o = None /\ ~ memory \/ exists x, o = Some (s ++ x) /\ zlen s + zlen x = n) ->
    exists rc b', match o with Some x => x ← poke x (zlen s) Byte.x00; Ok (BSTR_OK, Some (BS n (zlen s) (Some x))) | None => Ok (BSTR_ERR, Some b) end = Ok (rc, Some b') /\
      (b' = b \/ holds b' s) /\ (rc = BSTR_OK /\ len < mlen b' \/ rc = BSTR_ERR /\ ~ memory)).
  { intros o [(-> & Hm)|(x & -> & Hx)]; [exists BSTR_ERR, b; split_and!; [done|by left|by right]|]. destruct (seal BSTR_OK s x n Hx) as (b' & E & Hh & Hm); [unfold LIMIT; lia|lia|]. exists BSTR_OK, b'. split_and!; [exact E|by right|left; split; [done|lia]]. }
  destruct (7 * (zlen s + zlen t) <? 8 * zlen s); [|destruct (malloc n)]; rewrite bind_ret; [exact (Hend _ Hre)| |exact (Hend _ Hre)].
  exact (Hend (Some (s ++ y)) (or_intror (ex_intro _ y (conj eq_refl Hy)))).
Qed.

Lemma balloc_ok b s len :
  holds b s -> 0 < len < LIMIT ->
  exists rc b', balloc malloc realloc junk (Some b) len = Ok (rc, Some b') /\ holds b' s /\ (rc = BSTR_OK /\ len < mlen b' \/ rc = BSTR_ERR /\ ~ memory).
Proof.
  intros Hb Hlen. pose proof Hb as (rest & -> & Hl). pose proof (zlen_nonneg rest). destruct (balloc_any s (Byte.x00 :: rest) len) as (rc & b' & E & Hb' & Ho); [rewrite ?zlen_cons; lia..|].
  unfold cell in *. rewrite zlen_cons in *. replace (zlen s + (1 + zlen rest)) with (zlen s + 1 + zlen rest) in * by lia. exists rc, b'. split_and!; [exact E|by destruct Hb' as [->|]|done].
Qed.

(** ** Copies *)

(** the copy that the functions make of an argument that is the string itself *)
Lemma bstrcpy_ok b s : holds b s -> zlen s + 2 < LIMIT ->
  (exists c, bstrcpy malloc junk (Some b) = Ok (Some c) /\ holds c s) \/ bstrcpy malloc junk (Some b) = Ok None /\ ~ memory.
Proof.
  intros (rest & -> & Hl) Hs. pose proof (zlen_nonneg s). pose proof (snap_ok (zlen s + 1) ltac:(lia)) as Hsn. unfold bstrcpy, cell.
  rewrite (proj2 (Z.ltb_ge _ _)) by lia. destruct (malloc sizeof_tagbstring) eqn:E0; [|right; split; [done|intros [Hm _]; by rewrite Hm in E0]].
  cbn [negb]. rewrite iadd_ok by (unfold INT_MIN, INT_MAX, LIMIT in *; lia). rewrite bind_ret.
  assert (Hgo : forall j, zlen s + 1 <= j <= LIMIT -> exists c, (c ← slice (s ++ Byte.x00 :: rest) 0 (zlen s); x ← write (junk j) 0 c; x ← poke x (zlen s) Byte.x00;
      Ok (Some (BS j (zlen s) (Some x)))) = Ok (Some c) /\ holds c s).
  { intros j Hj. rewrite slice_front, bind_ret. pose proof (junk_len j ltac:(lia)) as Hjl. change (junk j) with ([] ++ junk j). change 0 with (zlen (@nil byte)) at 1.
    rewrite write_at by (cbn; lia). cbn [app]. rewrite bind_ret. destruct (seal 0 s (drop (length s) (junk j)) j) as (c & E & Hc & _); [unfold zlen in *; rewrite length_drop; lia|lia|unfold zlen in *; rewrite length_drop; lia|].
    exists c. split; [|done]. destruct (poke _ _ _) as [x|]; [|done].
    cbn in E |- *. by injection E as ->. }
  destruct (malloc (snapUpSize (zlen s + 1))) eqn:E1; [|destruct (malloc (zlen s + 1)) eqn:E2].
  - destruct (Hgo (snapUpSize (zlen s + 1))) as (c & E & Hc); [lia|]. left. eauto.
  - destruct (Hgo (zlen s + 1)) as (c & E & Hc); [lia|]. left. eauto.
  - right. split; [done|intros [Hm _]; by rewrite Hm in E1].
Qed.

(** an operation succeeds, or there is no memory and the content is what it was *)
Definition outcome (r : res (Z * option bs)) (s s' : bytes) : Prop :=
  exists rc b, r = Ok (rc, Some b) /\ (rc = BSTR_OK /\ holds b s' \/ rc = BSTR_ERR /\ holds b s /\ ~ memory).

Lemma aux_ok b s (a : arg) : holds b s -> zlen s + 2 < LIMIT ->
  let aux := if is_same a then c ← bstrcpy malloc junk (Some b); Ok (bool_decide (c <> None)) else Ok true in
  aux = Ok true \/ aux = Ok false /\ ~ memory.
Proof.
  intros Hb Hs. destruct a as [|o]; cbn [is_same]; [|by left]. destruct (bstrcpy_ok b s Hb Hs) as [(c & -> & _)|(-> & Hm)]; [by left|by right].
Qed.

(** [balloc] and then what needs the room *)
Lemma with_room b s s' len (k : option bs -> res (Z * option bs)) :
  holds b s -> 0 < len < LIMIT ->
  (forall t, 0 < zlen t -> len < zlen s + zlen t -> zlen s + zlen t <= LIMIT -> outcome (k (Some (BS (zlen s + zlen t) (zlen s) (Some (s ++ t))))) s s') ->
  outcome ('(rc, b) ← balloc malloc realloc junk (Some b) len; if negb (rc =? BSTR_OK) then Ok (BSTR_ERR, b) else k b) s s'.
Proof.
  intros Hb Hlen Hk. destruct (balloc_ok b s len Hb Hlen) as (rc & b' & -> & Hb' & [(-> & Hm)|(-> & Hm)]); rewrite bind_ret.
  - destruct Hb' as (rest & -> & Hl). cbn [mlen cell] in Hm. specialize (Hk (Byte.x00 :: rest)). rewrite zlen_cons in Hk. cbn [Z.eqb BSTR_OK negb]. unfold cell.
    replace (zlen s + 1 + zlen rest) with (zlen s + (1 + zlen rest)) by lia. pose proof (zlen_nonneg rest). apply Hk; lia.
  - exists BSTR_ERR, b'. eauto.
Qed.

Lemma sealed rc p t n m s : rc = BSTR_OK -> zlen p = n -> zlen p + zlen t = m -> m <= LIMIT -> 0 < zlen t ->
  outcome (x ← poke (p ++ t) n Byte.x00; Ok (rc, Some (BS m n (Some x)))) s p.
Proof. intros -> <- Hm Hl Ht. destruct (seal BSTR_OK p t m Hm Hl Ht) as (b & E & Hh & _). exists BSTR_OK, b. eauto. Qed.

(** ** Appending *)

Lemma zlen_drop (x t : bytes) : zlen x <= zlen t -> zlen (drop (length x) t) = zlen t - zlen x.
Proof. intros Hx. unfold zlen in *. rewrite length_drop. lia. Qed.

(** the content behind the string, then the NUL *)
Lemma put_behind rc s t x n m s0 : rc = BSTR_OK -> zlen s + zlen x = n -> zlen s + zlen t = m -> zlen x < zlen t -> m <= LIMIT ->
  outcome (y ← write (s ++ t) (zlen s) x; y ← poke y n Byte.x00; Ok (rc, Some (BS m n (Some y)))) s0 (s ++ x).
Proof.
  intros Hrc Hn Hm Hx Hl. rewrite write_at, bind_ret, app_assoc by lia. pose proof (zlen_drop x t ltac:(lia)). apply sealed; [done|rewrite zlen_app; lia|rewrite zlen_app; lia|lia|lia].
Qed.

Lemma concat_any b s (a : arg) x m t : holds b s -> arg_of (Some b) a = Some (BS m (zlen x) (Some (x ++ t))) -> zlen s + zlen x + 2 < LIMIT ->
  outcome (bconcat malloc realloc junk (Some b) a) s (s ++ x).
Proof.
  intros Hb Ea Hs. pose proof Hb as (rest & E & Hl). subst b. pose proof (zlen_nonneg s). pose proof (zlen_nonneg x). pose proof (zlen_nonneg rest).
  unfold cell in Ea. unfold bconcat, cell. rewrite Ea. rewrite (proj2 (Z.ltb_ge _ _)), (proj2 (Z.ltb_ge _ _)), (proj2 (Z.ltb_ge _ _)) by lia. cbn [orb].
  rewrite !iadd_ok, bind_ret by (unfold INT_MIN, INT_MAX, LIMIT in *; lia). rewrite iadd_ok, bind_ret by (unfold INT_MIN, INT_MAX, LIMIT in *; lia). rewrite slice_front, bind_ret.
  destruct (Z.leb_spec (zlen s + 1 + zlen rest) (zlen s + zlen x + 1)) as [Hle|Hgt]; [|rewrite bind_ret; cbn [negb]; apply put_behind; rewrite ?zlen_cons; done || lia].
  destruct (aux_ok _ s a Hb ltac:(lia)) as [Ex|(Ex & Hm)]; unfold cell in Ex; rewrite Ex, bind_ret; cbn [negb]; [|rewrite bind_ret; exists BSTR_ERR, (cell s rest); eauto].
  destruct (balloc_ok _ s (zlen s + zlen x + 1) Hb ltac:(lia)) as (rc & b' & Eb & Hb' & [(-> & Hm)|(-> & Hm)]); unfold cell in Eb; rewrite Eb, !bind_ret; cbn [Z.eqb BSTR_OK BSTR_ERR negb].
  - destruct Hb' as (r & -> & Hr). cbn [mlen cell] in Hm. unfold cell. apply put_behind; rewrite ?zlen_cons; done || lia.
  - exists BSTR_ERR, b'. eauto.
Qed.

Lemma concat_ok b s a : holds b s -> zlen s + zlen (content s a) + 2 < LIMIT -> outcome (bconcat malloc realloc junk (Some b) (to_arg a)) s (s ++ content s a).
Proof. intros Hb Hs. pose proof Hb as (rest & -> & Hl). destruct (arg_content s rest a) as (m & t & Ea). by eapply concat_any. Qed.

Lemma conchar_ok b s c : holds b s -> zlen s + 3 < LIMIT -> outcome (bconchar malloc realloc junk (Some b) c) s (s ++ [c]).
Proof.
  intros Hb Hs. pose proof Hb as (rest & E & Hl). pose proof (zlen_nonneg s). pose proof (zlen_nonneg rest). unfold bconchar. assert (slen b = zlen s) as -> by (by subst b). assert (mlen b = zlen s + 1 + zlen rest) as -> by (by subst b).
  rewrite (proj2 (Z.ltb_ge _ _)), (proj2 (Z.ltb_ge _ _)) by lia. cbn [orb]. rewrite iadd_ok, bind_ret by (unfold INT_MIN, INT_MAX, LIMIT in *; lia).
  apply with_room; [done|lia|]. intros t Ht0 Ht Hm. apply (put_behind 0 s t [c]); change (zlen [c]) with 1; done || lia.
Qed.

Lemma catblk_ok b s x len : holds b s -> 0 <= len <= zlen x -> zlen s + len + 2 < LIMIT ->
  outcome (bcatblk malloc realloc junk (Some b) (Some x) len) s (s ++ take (Z.to_nat len) x).
Proof.
  intros Hb Hlen Hs. destruct (split_at x len Hlen) as (y & z & -> & Hy). subst len. replace (take (Z.to_nat (zlen y)) (y ++ z)) with y by (unfold zlen; by rewrite Nat2Z.id, take_app_length).
  pose proof Hb as (rest & E & Hl). subst b. pose proof (zlen_nonneg s). pose proof (zlen_nonneg rest). unfold bcatblk, cell. rewrite cell_sound. rewrite (proj2 (Z.ltb_ge _ _)) by lia. cbn [orb].
  rewrite iadd_ok, bind_ret by (unfold INT_MIN, INT_MAX, LIMIT in *; lia). rewrite slice_front, bind_ret. destruct (Z.ltb_spec (zlen s + zlen y) (zlen s + 1 + zlen rest)).
  - apply put_behind; rewrite ?zlen_cons; done || lia.
  - apply (concat_any (cell s rest) s _ y (-1) []); [done| |lia]. cbn. unfold tbstr. rewrite i32_small, app_nil_r; [done|unfold LIMIT in Hs; lia].
Qed.

(** ** Assigning and cutting *)

Lemma done_with (r : res (Z * option bs)) b s s' : r = Ok (BSTR_OK, Some b) -> holds b s' -> outcome r s s'.
Proof. intros E Hb. exists BSTR_OK, b. eauto. Qed.

Lemma assign_any b s (a : arg) x m t : holds b s -> arg_of (Some b) a = Some (BS m (zlen x) (Some (x ++ t))) -> zlen s + zlen x + 2 < LIMIT ->
  outcome (bassign malloc realloc junk (Some b) a) s x.
Proof.
  intros Hb Ea Hs. pose proof Hb as (rest & E & Hl). pose proof (zlen_nonneg s). pose proof (zlen_nonneg x). pose proof (zlen_nonneg rest).
  unfold bassign. rewrite Ea. rewrite (proj2 (Z.ltb_ge _ _)) by lia. rewrite slice_front, bind_ret.
  assert (Hput : forall d, zlen x < zlen d -> zlen d <= LIMIT -> outcome (y ← write d 0 x; y ← poke y (zlen x) Byte.x00; Ok (BSTR_OK, Some (BS (zlen d) (zlen x) (Some y)))) s x).
  { intros d Hd Hm. apply (put_behind BSTR_OK [] d x); cbn; done || lia. }
  destruct (Z.eqb_spec (zlen x) 0) as [Hz|Hz]; cbn [negb].
  - rewrite E. unfold cell. rewrite (proj2 (Z.ltb_ge _ _)), (proj2 (Z.ltb_ge _ _)), (proj2 (Z.eqb_neq _ _)) by lia. cbn [orb]. rewrite bind_ret. cbn [Z.eqb BSTR_OK negb].
    specialize (Hput (s ++ Byte.x00 :: rest)). rewrite zlen_app, zlen_cons in Hput. replace (zlen s + 1 + zlen rest) with (zlen s + (1 + zlen rest)) by lia. apply Hput; lia.
  - apply with_room; [done|lia|]. intros t' Ht0 Ht Hm. specialize (Hput (s ++ t')). rewrite zlen_app in Hput. apply Hput; lia.
Qed.

Lemma assign_ok b s a : holds b s -> zlen s + zlen (content s a) + 2 < LIMIT -> outcome (bassign malloc realloc junk (Some b) (to_arg a)) s (content s a).
Proof. intros Hb Hs. pose proof Hb as (rest & -> & Hl). destruct (arg_content s rest a) as (m & t & Ea). by eapply assign_any. Qed.

Lemma trunc_ok b s n : holds b s -> 0 <= n -> outcome (btrunc (Some b) n) s (take (Z.to_nat n) s).
Proof.
  intros Hb Hn. pose proof Hb as (rest & E & Hl). subst b. pose proof (zlen_nonneg rest). unfold btrunc, cell. rewrite cell_sound, (proj2 (Z.ltb_ge _ _)) by lia. cbn [orb]. destruct (Z.ltb_spec n (zlen s)) as [Hlt|Hge].
  - destruct (split_at s n) as (p & q & -> & Hp); [lia|]. rewrite zlen_app in *. pose proof (zlen_nonneg q). replace (take (Z.to_nat n) (p ++ q)) with p by (subst n; unfold zlen; by rewrite Nat2Z.id, take_app_length).
    rewrite <- app_assoc. apply sealed; rewrite ?zlen_app, ?zlen_cons; done || lia.
  - rewrite take_ge by (unfold zlen in *; lia). by eapply done_with.
Qed.

(** [len] bytes from [pos] on go, as far as there are any *)
Definition without (s : bytes) (pos len : Z) : bytes := take (Z.to_nat pos) s ++ drop (Z.to_nat (pos + len)) s.

Lemma delete_ok b s pos len : holds b s -> 0 <= pos <= INT_MAX -> 0 <= len -> zlen s + len <= INT_MAX -> outcome (bdelete (Some b) pos len) s (without s pos len).
Proof.
  intros Hb Hpos Hlen Hmax. pose proof Hb as (rest & E & Hl). subst b. pose proof (zlen_nonneg rest). unfold bdelete, cell, without. rewrite (proj2 (Z.ltb_ge pos 0)) by lia. rewrite bind_ret, cell_sound, (proj2 (Z.ltb_ge len 0)) by lia. cbn [orb].
  destruct (Z.ltb_spec 0 len), (Z.ltb_spec pos (zlen s)); cbn [andb].
  - rewrite iadd_ok, bind_ret by (unfold INT_MIN; lia). destruct (split_at s pos) as (p & r & -> & Hp); [lia|]. rewrite zlen_app in *. pose proof (zlen_nonneg r).
    replace (take (Z.to_nat pos) (p ++ r)) with p by (subst pos; unfold zlen; by rewrite Nat2Z.id, take_app_length). destruct (Z.leb_spec (zlen p + zlen r) (pos + len)) as [Hle|Hgt].
    + rewrite (drop_ge (p ++ r)), app_nil_r by (unfold zlen in *; rewrite length_app; lia). rewrite <- app_assoc. apply sealed; rewrite ?zlen_app, ?zlen_cons; done || lia.
    + destruct (split_at r len) as (y & q & -> & Hy); [lia|]. rewrite zlen_app in *. replace (drop (Z.to_nat (pos + len)) (p ++ y ++ q)) with q.
      2:{ replace (Z.to_nat (pos + len)) with (length (p ++ y)) by (unfold zlen in *; rewrite length_app; lia). by rewrite app_assoc, drop_app_length. }
      rewrite app_assoc, <- (app_assoc (p ++ y)). replace (pos + len) with (zlen (p ++ y)) by (rewrite zlen_app; lia). replace (zlen p + (zlen y + zlen q) - zlen (p ++ y)) with (zlen q) by (rewrite zlen_app; lia).
      rewrite slice_mid, bind_ret, <- (app_assoc p). subst pos. pose proof (zlen_nonneg q). apply put_behind; rewrite ?zlen_app, ?zlen_cons; done || lia.
  - rewrite (take_ge s), (drop_ge s), app_nil_r by (unfold zlen in *; lia). by eapply done_with.
  - replace len with 0 by lia. rewrite Z.add_0_r, take_drop. by eapply done_with.
  - replace len with 0 by lia. rewrite Z.add_0_r, take_drop. by eapply done_with.
Qed.

(** ** Writing inside *)

Lemma zlen_pad s pos fill : zlen s <= pos -> zlen (pad s pos fill) = pos.
Proof. intros Hs. unfold pad. rewrite zlen_app, zlen_replicate. lia. Qed.

(** past the end: the gap, the content, the NUL *)
Lemma put_past rc s t pos x fill n m s0 : rc = BSTR_OK -> zlen s <= pos -> pos + zlen x = n -> zlen s + zlen t = m -> n < m -> m <= LIMIT ->
  outcome (y ← write (s ++ t) (zlen s) (replicate (Z.to_nat (pos - zlen s)) fill); y ← write y pos x; y ← poke y n Byte.x00; Ok (rc, Some (BS m n (Some y)))) s0 (pad s pos fill ++ x).
Proof.
  intros Hrc Hs Hn Hm Hlt Hl. pose proof (zlen_nonneg x). assert (Hg : zlen (replicate (Z.to_nat (pos - zlen s)) fill) = pos - zlen s) by (rewrite zlen_replicate; lia).
  rewrite write_at, bind_ret by lia. pose proof (zlen_drop (replicate (Z.to_nat (pos - zlen s)) fill) t ltac:(lia)) as Hd. pose proof (zlen_pad s pos fill Hs) as Hp. rewrite app_assoc. fold (pad s pos fill).
  rewrite <- Hp at 3. apply put_behind; rewrite ?Hp; done || lia.
Qed.

(** over what is there, and maybe further *)
Lemma set_room s t pos x fill : 0 <= pos -> 0 < zlen t -> pos + zlen x + 1 < zlen s + zlen t -> zlen s + zlen t <= LIMIT ->
  outcome (y ← (if zlen s <? pos then write (s ++ t) (zlen s) (replicate (Z.to_nat (pos - zlen s)) fill) else Ok (s ++ t)); y ← write y pos x;
    y ← poke y (Z.max (pos + zlen x) (Z.max pos (zlen s))) Byte.x00; Ok (BSTR_OK, Some (BS (zlen s + zlen t) (Z.max (pos + zlen x) (Z.max pos (zlen s))) (Some y))))
    s (splice s pos (zlen x) x fill).
Proof.
  intros Hpos Ht0 Ht Hm. pose proof (zlen_nonneg x). destruct (Z.ltb_spec (zlen s) pos) as [Hlt|Hge].
  { rewrite splice_past by lia. apply put_past; done || lia. }
  rewrite bind_ret. destruct (split_at s pos) as (p & r & -> & Hp); [lia|]. subst pos. rewrite zlen_app in *. rewrite <- app_assoc. pose proof (zlen_nonneg r). destruct (Z.le_gt_cases (zlen r) (zlen x)) as [Hle|Hgt].
  - rewrite splice_end by done. apply put_behind; rewrite ?zlen_app; done || lia.
  - destruct (split_at r (zlen x)) as (y & q & -> & Hy); [lia|]. rewrite zlen_app in *. rewrite <- (app_assoc y), write_mid, bind_ret by lia. rewrite <- Hy, splice_inside, Hy.
    rewrite !(app_assoc _ _ t). pose proof (zlen_nonneg q). apply sealed; rewrite ?zlen_app; done || lia.
Qed.

Lemma set_ok b s pos a fill : holds b s -> 0 <= pos -> zlen s + pos + zlen (content s a) + 2 < LIMIT ->
  outcome (bsetstr malloc realloc junk (Some b) pos (to_arg a) fill) s (splice s pos (zlen (content s a)) (content s a) fill).
Proof.
  intros Hb Hpos Hs. pose proof Hb as (rest & E & Hl). destruct (arg_content s rest a) as (m & t & Ea). set (x := content s a) in *. pose proof (zlen_nonneg s). pose proof (zlen_nonneg x). pose proof (zlen_nonneg rest).
  destruct (aux_ok b s (to_arg a) Hb ltac:(lia)) as [Ex|(Ex & Hm)]; rewrite E in Ex; unfold cell in Ea, Ex; unfold bsetstr; rewrite E; unfold cell; rewrite cell_sound, (proj2 (Z.ltb_ge pos 0)) by lia; cbn [orb];
    rewrite Ea; cbn [slen]; rewrite (proj2 (Z.ltb_ge (zlen x) 0)) by lia; rewrite slice_front, bind_ret, Ex, bind_ret; cbn [negb]; [|exists BSTR_ERR, (cell s rest); subst b; eauto].
  rewrite !iadd_ok, !bind_ret by (unfold INT_MIN, INT_MAX, LIMIT in *; lia). rewrite iadd_ok, bind_ret by (unfold INT_MIN, INT_MAX, LIMIT in *; lia).
  fold (cell s rest). rewrite <- E. apply with_room; [done|lia|]. intros t' Ht0 Ht Hm. by apply set_room.
Qed.

(** the two ways of [insert_at] *)
Lemma insert_ok b s pos x fill : holds b s -> 0 <= pos -> zlen s + pos + zlen x + 2 < LIMIT -> outcome (insert_at malloc realloc junk (Some b) pos x fill) s (splice s pos 0 x fill).
Proof.
  intros Hb Hpos Hs. pose proof Hb as (rest & E & Hl). pose proof (zlen_nonneg s). pose proof (zlen_nonneg x). unfold insert_at. rewrite E at 1. unfold cell.
  rewrite !iadd_ok, !bind_ret by (unfold INT_MIN, INT_MAX, LIMIT in *; lia).
  destruct (Z.ltb_spec (zlen s + zlen x) (pos + zlen x)); rewrite iadd_ok, bind_ret by (unfold INT_MIN, INT_MAX, LIMIT in *; lia).
  - apply with_room; [done|lia|]. intros t Ht0 Ht Hm. rewrite splice_past by lia. apply put_past; done || lia.
  - apply with_room; [done|lia|]. intros t Ht0 Ht Hm. destruct (split_at s pos) as (p & q & -> & Hp); [lia|]. subst pos. rewrite zlen_app in *. rewrite (splice_inside p [] q x fill : splice (p ++ q) (zlen p) 0 x fill = _).
    rewrite <- app_assoc. replace (zlen p + zlen q - zlen p) with (zlen q) by lia. rewrite slice_mid, bind_ret. pose proof (zlen_nonneg q).
    destruct (split_at (q ++ t) (zlen x)) as (y & z & Ez & Hy); [rewrite zlen_app; lia|]. rewrite Ez, app_assoc. assert (Hz : zlen q + zlen t = zlen y + zlen z) by (by rewrite <- !zlen_app, Ez).
    replace (zlen p + zlen x) with (zlen (p ++ y)) by (rewrite zlen_app; lia). rewrite write_at, bind_ret by lia. rewrite <- app_assoc, write_mid, bind_ret by done.
    pose proof (zlen_drop q z ltac:(lia)). rewrite !(app_assoc _ _ (drop (length q) z)). apply sealed; rewrite ?zlen_app; done || lia.
Qed.

Lemma binsert_ok b s pos a fill : holds b s -> 0 <= pos -> zlen s + pos + zlen (content s a) + 2 < LIMIT ->
  outcome (binsert malloc realloc junk (Some b) pos (to_arg a) fill) s (splice s pos 0 (content s a) fill).
Proof.
  intros Hb Hpos Hs. pose proof Hb as (rest & E & Hl). destruct (arg_content s rest a) as (m & t & Ea). rewrite <- E in Ea. set (x := content s a) in *. pose proof (zlen_nonneg s). pose proof (zlen_nonneg x). pose proof (zlen_nonneg rest).
  unfold binsert. rewrite Ea. assert (slen b = zlen s) as -> by (by subst b). assert (mlen b = zlen s + 1 + zlen rest) as -> by (by subst b).
  rewrite !(proj2 (Z.ltb_ge _ _)), (proj2 (Z.leb_gt _ _)) by lia. cbn [orb]. rewrite (bool_decide_eq_false_2 (Some _ = None)), andb_false_r by done.
  destruct (aux_ok b s (to_arg a) Hb ltac:(lia)) as [Ex|(Ex & Hm)]; rewrite Ex, bind_ret; cbn [negb]; [|exists BSTR_ERR, b; eauto].
  assert ((if zlen x =? 0 then Ok [] else src ← need NullDeref (Some (x ++ Byte.x00 :: t)); slice src 0 (zlen x)) = Ok x) as ->; [|rewrite bind_ret; by apply insert_ok].
  destruct (Z.eqb_spec (zlen x) 0) as [Hz|]; [|cbn [need]; by rewrite bind_ret, slice_front]. destruct x as [|? x']; [done|]. rewrite zlen_cons in Hz. pose proof (zlen_nonneg x'). lia.
Qed.

Lemma insertch_ok b s pos len fill : holds b s -> 0 <= pos -> 0 <= len -> zlen s + pos + len + 2 < LIMIT ->
  outcome (binsertch malloc realloc junk (Some b) pos len fill) s (splice s pos 0 (replicate (Z.to_nat len) fill) fill).
Proof.
  intros Hb Hpos Hlen Hs. pose proof Hb as (rest & E & Hl). pose proof (zlen_nonneg s). pose proof (zlen_nonneg rest). unfold binsertch. assert (slen b = zlen s) as -> by (by subst b). assert (mlen b = zlen s + 1 + zlen rest) as -> by (by subst b).
  rewrite !(proj2 (Z.ltb_ge _ _)), (proj2 (Z.leb_gt _ _)) by lia. cbn [orb]. apply insert_ok; [done|done|rewrite zlen_replicate; lia].
Qed.

(** the section lies inside: the tail moves, then the content *)
Lemma replace_room p r q t x m : zlen p + zlen r + zlen q + zlen t = m -> m <= LIMIT -> 0 < zlen t -> zlen p + zlen q + zlen x < m ->
  outcome (tail ← slice (p ++ r ++ q ++ t) (zlen p + zlen r) (zlen q); y ← (if zlen x =? zlen r then Ok (p ++ r ++ q ++ t) else write (p ++ r ++ q ++ t) (zlen p + zlen x) tail); y ← write y (zlen p) x;
    y ← poke y (zlen p + zlen q + zlen x) Byte.x00; Ok (BSTR_OK, Some (BS m (zlen p + zlen q + zlen x) (Some y)))) (p ++ r ++ q) (p ++ x ++ q).
Proof.
  intros Hm Hl Ht Hx. rewrite <- (zlen_app p r), (app_assoc p r (q ++ t)), slice_mid, bind_ret, <- (app_assoc p r (q ++ t)). pose proof (zlen_nonneg r). pose proof (zlen_nonneg q). pose proof (zlen_nonneg x). destruct (Z.eqb_spec (zlen x) (zlen r)) as [Heq|Hne].
  - rewrite bind_ret, write_mid, bind_ret by done. rewrite !(app_assoc _ _ t). apply sealed; rewrite ?zlen_app; done || lia.
  - destruct (split_at (r ++ q ++ t) (zlen x)) as (y & z & Ez & Hy); [rewrite !zlen_app; lia|]. rewrite Ez, app_assoc. assert (Hz : zlen r + (zlen q + zlen t) = zlen y + zlen z) by (by rewrite <- !zlen_app, Ez).
    replace (zlen p + zlen x) with (zlen (p ++ y)) by (rewrite zlen_app; lia). rewrite write_at, bind_ret by lia. rewrite <- app_assoc, write_mid, bind_ret by done.
    pose proof (zlen_drop q z ltac:(lia)). rewrite !(app_assoc _ _ (drop (length q) z)). apply sealed; rewrite ?zlen_app; done || lia.
Qed.

(** up to the end: what [bsetstr] leaves is cut *)
Lemma straddle s pos len x fill : 0 <= pos -> 0 <= len -> zlen s <= pos + len ->
  exists q, splice s pos (zlen x) x fill = splice s pos len x fill ++ q /\ zlen (splice s pos len x fill) = pos + zlen x /\ (zlen s <= pos + zlen x -> q = []).
Proof.
  intros Hpos Hlen Hs. pose proof (zlen_nonneg x). destruct (Z.le_gt_cases (zlen s) pos).
  - exists []. rewrite !splice_past by lia. rewrite app_nil_r, zlen_app, zlen_pad by lia. done.
  - destruct (split_at s pos) as (p & r & -> & Hp); [lia|]. subst pos. rewrite zlen_app in *. rewrite (splice_end p r len) by lia. rewrite zlen_app. destruct (Z.le_gt_cases (zlen r) (zlen x)).
    + exists []. rewrite splice_end, app_nil_r by lia. done.
    + destruct (split_at r (zlen x)) as (y & q & -> & Hy); [lia|]. rewrite zlen_app in *. exists q. rewrite <- Hy at 1. rewrite splice_inside, app_assoc. split_and!; [done..|]. pose proof (zlen_nonneg q). lia.
Qed.

Lemma replace_ok b s pos len a fill : holds b s -> 0 <= pos -> 0 <= len -> pos + len <= INT_MAX -> zlen s + pos + 2 * zlen (content s a) + 2 < LIMIT -> 
  outcome (breplace malloc realloc junk (Some b) pos len (to_arg a) fill) s (splice s pos len (content s a) fill).
Proof.
  intros Hb Hpos Hlen Hmax Hs. pose proof Hb as (rest & E & Hl). destruct (arg_content s rest a) as (m & t & Ea). set (x := content s a) in *. pose proof (zlen_nonneg s). pose proof (zlen_nonneg x). pose proof (zlen_nonneg rest).
  unfold breplace. rewrite E. unfold cell in *. rewrite Ea. rewrite cell_sound, (proj2 (Z.ltb_ge pos 0)), (proj2 (Z.ltb_ge len 0)), (proj2 (Z.ltb_ge (zlen x) 0)) by lia. cbn [orb]. rewrite (iadd_ok pos len), bind_ret by (unfold INT_MIN; lia).
  destruct (Z.leb_spec (zlen s) (pos + len)) as [Hle|Hgt].
  - destruct (straddle s pos len x fill) as (q & Eq & Hq & Hq0); [lia..|]. destruct (set_ok (cell s rest) s pos a fill) as (rc & b' & Eb & [(-> & Hb')|(-> & Hb' & Hm)]); [by exists rest|lia|fold x; lia| |];
      unfold cell in Eb; rewrite Eb, bind_ret; cbn [Z.ltb Z.compare BSTR_OK BSTR_ERR]; [|exists BSTR_ERR, b'; eauto].
    fold x in Hb'. rewrite Eq in Hb'. set (w := splice s pos len x fill) in *. destruct Hb' as (t' & -> & Ht'). rewrite zlen_app in *. pose proof (zlen_nonneg q). pose proof (zlen_nonneg t'). unfold cell.
    set (n := if is_same (to_arg a) then zlen (w ++ q) else zlen x). assert (Hn : zlen x <= n /\ (q <> [] -> n = zlen x) /\ n <= zlen w + zlen q).
    { unfold n. rewrite zlen_app. destruct a as [|y sp]; cbn [is_same to_arg content] in *; [|lia]. split_and!; [lia|intros Hne; destruct Hne; apply Hq0; subst x; lia|lia]. }
    rewrite iadd_ok, bind_ret by (unfold INT_MIN, INT_MAX, LIMIT in *; lia). rewrite zlen_app. destruct (Z.ltb_spec (pos + n) (zlen w + zlen q)) as [Hcut|Hno].
    + assert (Hn' : n = zlen x) by (apply Hn; intros ->; change (zlen []) with 0 in *; lia). rewrite <- app_assoc. apply sealed; rewrite ?zlen_app, ?zlen_cons; done || lia.
    + assert (q = []) as ->. { destruct q as [|c q']; [done|]. assert (n = zlen x) by (by apply Hn). rewrite zlen_cons in *. pose proof (zlen_nonneg q'). lia. }
      eapply done_with; [done|]. exists t'. rewrite app_nil_r. change (zlen []) with 0 in *. split; [by rewrite Z.add_0_r|lia].
  - destruct (aux_ok b s (to_arg a) Hb ltac:(lia)) as [Ex|(Ex & Hm)]; rewrite E in Ex; rewrite Ex, bind_ret; cbn [negb]; [|exists BSTR_ERR, (cell s rest); subst b; eauto].
    rewrite slice_front, bind_ret. destruct (split_at s pos) as (p & r & Es & Hp); [lia|]. assert (Hr : zlen s = zlen p + zlen r) by (by rewrite <- zlen_app, Es).
    destruct (split_at r len) as (r1 & q & E1 & Hr1); [lia|]. rewrite E1, zlen_app in Hr. subst r len pos.
    assert (Hgo : forall t m, 0 < zlen t -> zlen s + zlen t = m -> m <= LIMIT -> zlen s + zlen x - zlen r1 < m -> outcome (tail ← slice (s ++ t) (zlen p + zlen r1) (zlen s - (zlen p + zlen r1));
      y ← (if zlen x =? zlen r1 then Ok (s ++ t) else write (s ++ t) (zlen p + zlen x) tail); y ← write y (zlen p) x; y ← poke y (zlen s + zlen x - zlen r1) Byte.x00;
      Ok (BSTR_OK, Some (BS m (zlen s + zlen x - zlen r1) (Some y)))) s (splice s (zlen p) (zlen r1) x fill)).
    { intros t' m' Ht0 <- Hm Hx. replace (zlen s - (zlen p + zlen r1)) with (zlen q) by lia. replace (zlen s + zlen x - zlen r1) with (zlen p + zlen q + zlen x) in * by lia. rewrite Es, splice_inside, <- !app_assoc.
      apply replace_room; rewrite ?zlen_app; lia. }
    destruct (Z.ltb_spec (zlen r1) (zlen x)).
    + rewrite iadd_ok, bind_ret by (unfold INT_MIN, INT_MAX, LIMIT in *; lia). subst b. apply with_room; [done|lia|]. intros t' Ht0 Ht Hm. apply Hgo; done || lia.
    + rewrite bind_ret. cbn [Z.eqb BSTR_OK negb]. apply Hgo; rewrite ?zlen_cons; lia.
Qed.

(** ** Letters and blanks *)

Lemma map_ok f b s : holds b s -> outcome (map_content f (Some b)) s (map f s).
Proof.
  intros (rest & -> & Hl). unfold map_content, cell. rewrite cell_sound, slice_front, bind_ret. rewrite write_front by (unfold zlen; by rewrite length_map). rewrite bind_ret.
  assert (Hz : zlen (map f s) = zlen s) by (unfold zlen; by rewrite length_map). eapply done_with; [done|]. exists rest. unfold cell. by rewrite Hz.
Qed.

Definition lstrip (s : bytes) : bytes := drop (length (span wspace s)) s.
Definition rstrip (s : bytes) : bytes := take (length s - length (span wspace (rev s))) s.

Lemma span_le (p : byte -> bool) s : zlen (span p s) <= zlen s.
Proof. induction s as [|c s IH]; cbn; [done|]. destruct (p c); rewrite ?zlen_cons; [lia|]. change (zlen []) with 0. pose proof (zlen_nonneg s). lia. Qed.

Lemma clear_ok s0 d m : zlen d = m -> 0 < m -> m <= LIMIT -> outcome (clear m d) s0 [].
Proof. intros Hd H0 Hm. unfold clear. apply (sealed 0 [] d 0 m); done || (cbn; lia). Qed.

Lemma ltrim_ok b s : holds b s -> outcome (bltrimws (Some b)) s (lstrip s).
Proof.
  intros Hb. pose proof Hb as (rest & E & Hl). pose proof (zlen_nonneg s). pose proof (zlen_nonneg rest). pose proof (span_le wspace s). rewrite E. unfold bltrimws, cell. rewrite cell_sound, slice_front, bind_ret.
  destruct (Z.ltb_spec (zlen (span wspace s)) (zlen s)).
  - fold (cell s rest). rewrite <- E. assert (lstrip s = without s 0 (zlen (span wspace s))) as -> by (unfold lstrip, without; rewrite Z.add_0_l; unfold zlen; by rewrite Nat2Z.id).
    apply delete_ok; [done|unfold INT_MAX; lia|apply zlen_nonneg|unfold INT_MAX, LIMIT in *; lia].
  - assert (lstrip s = []) as -> by (unfold lstrip; apply drop_ge; unfold zlen in *; lia). apply clear_ok; rewrite ?zlen_app, ?zlen_cons; lia.
Qed.

Lemma rtrim_ok b s : holds b s -> outcome (brtrimws (Some b)) s (rstrip s).
Proof.
  intros Hb. pose proof Hb as (rest & E & Hl). pose proof (zlen_nonneg s). pose proof (zlen_nonneg rest). pose proof (span_le wspace (rev s)) as Hsp. unfold zlen in Hsp at 2. rewrite length_rev in Hsp. fold (zlen s) in Hsp.
  pose proof (zlen_nonneg (span wspace (rev s))). rewrite E. unfold brtrimws, cell. rewrite cell_sound, slice_front, bind_ret. unfold rstrip. set (k := span wspace (rev s)) in *.
  destruct (Z.ltb_spec 0 (zlen s - zlen k)).
  - rewrite (proj2 (Z.ltb_lt _ _)) by lia. destruct (split_at s (zlen s - zlen k)) as (p & q & Es & Hp); [lia|]. assert (zlen s = zlen p + zlen q) by (by rewrite <- zlen_app, <- Es).
    clearbody k. subst s. replace (length (p ++ q) - length k)%nat with (length p) by (unfold zlen in *; lia). rewrite take_app_length, <- app_assoc.
    pose proof (zlen_nonneg q). apply sealed; rewrite ?zlen_app, ?zlen_cons; done || lia.
  - replace (length s - length k)%nat with 0%nat by (unfold zlen in *; lia). apply clear_ok; rewrite ?zlen_app, ?zlen_cons; lia.
Qed.
End Memory.

(** ** Sequences of operations *)

Inductive op :=
| Concat (a : source) | Conchar (c : byte) | Catblk (x : bytes) (len : Z) | Assign (a : source) | Trunc (n : Z) | Delete (pos len : Z)
| Set_ (pos : Z) (a : source) (fill : byte) | Insert (pos : Z) (a : source) (fill : byte) | Insertch (pos len : Z) (fill : byte)
| Replace (pos len : Z) (a : source) (fill : byte) | Toupper | Tolower | Ltrim | Rtrim.

(** what it does to the bytes *)
Definition meaning (o : op) (s : bytes) : bytes :=
  match o with
  | Concat a => s ++ content s a
  | Conchar c => s ++ [c]
  | Catblk x len => s ++ take (Z.to_nat len) x
  | Assign a => content s a
  | Trunc n => take (Z.to_nat n) s
  | Delete pos len => without s pos len
  | Set_ pos a fill => splice s pos (zlen (content s a)) (content s a) fill
  | Insert pos a fill => splice s pos 0 (content s a) fill
  | Insertch pos len fill => splice s pos 0 (replicate (Z.to_nat len) fill) fill
  | Replace pos len a fill => splice s pos len (content s a) fill
  | Toupper => map upcase s
  | Tolower => map downcase s
  | Ltrim => lstrip s
  | Rtrim => rstrip s
  end.

(** the arguments are in range *)
Definition sane (o : op) : bool :=
  match o with
  | Catblk x len => (0 <=? len) && (len <=? zlen x)
  | Trunc n => 0 <=? n
  | Delete pos len => (0 <=? pos) && (pos <=? INT_MAX) && (0 <=? len) && (len <=? LIMIT)
  | Set_ pos _ _ | Insert pos _ _ => 0 <=? pos
  | Insertch pos len _ => (0 <=? pos) && (0 <=? len)
  | Replace pos len _ _ => (0 <=? pos) && (0 <=? len) && (pos + len <=? INT_MAX)
  | _ => true
  end.

(** how long a string of at most [n] bytes can become, or the scratch space can *)
Definition width (n : Z) (a : source) : Z := match a with Self => n | Text x _ => zlen x end.
Definition grow (n : Z) (o : op) : Z :=
  match o with
  | Concat a | Assign a => n + width n a
  | Conchar _ => n + 1
  | Catblk _ len => n + len
  | Set_ pos a _ | Insert pos a _ => n + pos + width n a
  | Insertch pos len _ => n + pos + len
  | Replace pos _ a _ => n + pos + 2 * width n a
  | _ => n
  end.

Section Run.
Context (malloc realloc : Z -> bool) (junk : Z -> bytes) (junk_len : forall n, 0 <= n -> zlen (junk n) = n).

Definition perform (o : op) (b : option bs) : res (Z * option bs) :=
  match o with
  | Concat a => bconcat malloc realloc junk b (to_arg a)
  | Conchar c => bconchar malloc realloc junk b c
  | Catblk x len => bcatblk malloc realloc junk b (Some x) len
  | Assign a => bassign malloc realloc junk b (to_arg a)
  | Trunc n => btrunc b n
  | Delete pos len => bdelete b pos len
  | Set_ pos a fill => bsetstr malloc realloc junk b pos (to_arg a) fill
  | Insert pos a fill => binsert malloc realloc junk b pos (to_arg a) fill
  | Insertch pos len fill => binsertch malloc realloc junk b pos len fill
  | Replace pos len a fill => breplace malloc realloc junk b pos len (to_arg a) fill
  | Toupper => btoupper b
  | Tolower => btolower b
  | Ltrim => bltrimws b
  | Rtrim => brtrimws b
  end.

(** the operations that succeeded *)
Fixpoint performs (ops : list op) (b : option bs) : res (list op * option bs) :=
  match ops with
  | [] => Ok ([], b)
  | o :: ops' => '(rc, b) ← perform o b; '(l, b) ← performs ops' b; Ok (if rc =? BSTR_OK then o :: l else l, b)
  end.

Lemma perform_ok o b s : holds b s -> sane o = true -> grow (zlen s) o + 2 < LIMIT -> outcome malloc realloc (perform o (Some b)) s (meaning o s).
Proof.
  intros Hb Hsane Hg. pose proof (holds_length b s Hb) as (_ & Hs & Hm). assert (HL : LIMIT + LIMIT <= INT_MAX) by (unfold LIMIT, INT_MAX; lia).
  assert (Hw : forall a, width (zlen s) a = zlen (content s a)) by (by intros [|x t]).
  destruct o as [a|c|x len|a|n|pos len|pos a f|pos a f|pos len f|pos len a f| | | |]; cbn [perform meaning sane grow] in *; rewrite ?Hw in Hg.
  - by apply concat_ok.
  - apply conchar_ok; [done..|lia].
  - apply catblk_ok; [done|done|lia|lia].
  - apply assign_ok; done.
  - apply trunc_ok; [done|lia].
  - apply delete_ok; [done|lia|lia|lia].
  - apply set_ok; [done|done|lia|lia].
  - apply binsert_ok; [done|done|lia|lia].
  - apply insertch_ok; [done|done|lia|lia|lia].
  - apply replace_ok; [done|done|lia|lia|lia|lia].
  - by apply map_ok.
  - by apply map_ok.
  - by apply ltrim_ok.
  - by apply rtrim_ok.
Qed.
End Run.

Lemma splice_le s pos len x fill : 0 <= pos -> 0 <= len -> zlen (splice s pos len x fill) <= zlen s + pos + zlen x.
Proof. intros Hp Hl. unfold splice, pad. rewrite !zlen_app. unfold zlen. rewrite length_take, length_app, length_replicate, length_drop. lia. Qed.

Lemma meaning_le o s : sane o = true -> zlen (meaning o s) <= grow (zlen s) o.
Proof.
  intros Hsane. assert (Hw : forall a, width (zlen s) a = zlen (content s a)) by (by intros [|x t]). pose proof (zlen_nonneg s).
  destruct o as [a|c|x len|a|n|pos len|pos a f|pos a f|pos len f|pos len a f| | | |]; cbn [meaning sane grow] in *; rewrite ?Hw, ?zlen_app; change (zlen [?c]) with 1.
  all: try pose proof (zlen_nonneg (content s a)). all: try (etrans; [apply splice_le; lia|]). all: rewrite ?zlen_replicate; try lia.
  all: unfold without, lstrip, rstrip, zlen; rewrite ?length_app, ?length_take, ?length_drop, ?length_map; cbn; lia.
Qed.

Lemma grow_mono o n m : n <= m -> grow n o <= grow m o.
Proof. intros Hn. destruct o as [[|]| | |[|]| | |? [|]|? [|]| |? ? [|]| | | |]; cbn [grow width]; lia. Qed.

Lemma grows_mono ops n m : n <= m -> foldl grow n ops <= foldl grow m ops.
Proof. revert n m. induction ops as [|o ops IH]; intros n m Hn; cbn [foldl]; [done|]. by apply IH, grow_mono. Qed.

Lemma grow_le o n : 0 <= n -> sane o = true -> n <= grow n o.
Proof. intros Hn Hsane. destruct o as [[|x]| |? len|[|x]| | |pos [|x]|pos [|x]|pos len|pos len [|x]| | | |]; cbn [grow width sane] in *; try pose proof (zlen_nonneg x); lia. Qed.

Lemma grows_le ops n : 0 <= n -> forallb sane ops = true -> n <= foldl grow n ops.
Proof.
  revert n. induction ops as [|o ops IH]; intros n Hn Hs; cbn [foldl]; [done|]. cbn in Hs. apply andb_true_iff in Hs as [H1 H2]. pose proof (grow_le o n Hn H1). etrans; [done|]. apply IH; [lia|done].
Qed.

(** C8: The string library implements byte sequences: however a string of up to a quarter of a gigabyte is appended to,
    assigned, cut, overwritten, inserted into, replaced in, trimmed or changed in case (also with itself as the
    argument), no access leaves its buffer and no addition overflows, its content is what the same operations
    make of the sequence, an operation that finds no memory leaves the content alone, and with memory none fails. *)
Theorem bstring_refines_bytes malloc realloc junk ops b s :
  (forall n, 0 <= n -> zlen (junk n) = n) -> holds b s -> forallb sane ops = true -> foldl grow (zlen s) ops + 2 < LIMIT ->
  exists l b', performs malloc realloc junk ops (Some b) = Ok (l, Some b') /\ holds b' (foldl (fun s o => meaning o s) s l) /\
    sublist l ops /\ (memory malloc realloc -> l = ops).
Proof.
  intros Hj. revert b s. induction ops as [|o ops IH]; intros b s Hb Hs Hg; [exists [], b; by split_and!|].
  cbn [forallb foldl] in Hs, Hg. apply andb_true_iff in Hs as [H1 H2]. pose proof (zlen_nonneg s). pose proof (grow_le o (zlen s) ltac:(lia) H1).
  pose proof (grows_le ops (grow (zlen s) o) ltac:(lia) H2). destruct (perform_ok malloc realloc junk Hj o b s Hb H1) as (rc & b1 & E & Hout); [lia|].
  cbn [performs]. rewrite E, bind_ret. destruct Hout as [(-> & Hb1)|(-> & Hb1 & Hno)].
  - pose proof (grows_mono ops _ _ (meaning_le o s H1)). destruct (IH b1 (meaning o s) Hb1 H2) as (l & b2 & -> & Hb2 & Hl & Hm); [lia|]. rewrite bind_ret. exists (o :: l), b2.
    split_and!; [done|done|by constructor|intros Hmem; by rewrite Hm].
  - pose proof (grows_mono ops (zlen s) (grow (zlen s) o) ltac:(lia)). destruct (IH b1 s Hb1 H2) as (l & b2 & -> & Hb2 & Hl & Hm); [lia|]. rewrite bind_ret. exists l, b2.
    split_and!; [done|done|by constructor|done].
Qed.

Lemma bstring_refines_bytes_witness :
  exists b', performs (fun _ => true) (fun _ => true) (fun n => replicate (Z.to_nat n) Byte.xff)
      [Concat (Text [Byte.x61; Byte.x62] []); Insert 1 Self Byte.x20; Replace 0 2 (Text [Byte.x7a] []) Byte.x20] (Some (cell [] [])) =
    Ok ([Concat (Text [Byte.x61; Byte.x62] []); Insert 1 Self Byte.x20; Replace 0 2 (Text [Byte.x7a] []) Byte.x20], Some b') /\ holds b' [Byte.x7a; Byte.x62; Byte.x62].
Proof.
  edestruct (bstring_refines_bytes (fun _ => true) (fun _ => true) (fun n => replicate (Z.to_nat n) Byte.xff)
    [Concat (Text [Byte.x61; Byte.x62] []); Insert 1 Self Byte.x20; Replace 0 2 (Text [Byte.x7a] []) Byte.x20] (cell [] []) []) as (l & b' & E & Hb & _ & Hm).
  - intros n Hn. unfold zlen. rewrite length_replicate. lia.
  - exists []. by vm_compute.
  - reflexivity.
  - reflexivity.
  - rewrite Hm in E, Hb by done. exists b'. split; [exact E|exact Hb].
Defined.
End BStringProps.
