(* ===== verification/BStringSearch.v ===== *)
(** * BStringSearch: the searches find what they promise

    [search_loop] is the loop of [binstr], [binstrr] and their caseless versions: it goes from a start position by
    steps of one and stops at the first position where the pattern is. *)

From Stdlib Require Import ZArith Lia.
From S2P Require Import Prelude BString BStringProps.
Import BString BStringProps.
Local Open Scope Z_scope.

Module BStringSearch.

(** the pattern [d0] is at [i] in [d1] *)
Definition found_at (same : byte -> byte -> bool) (d0 d1 : bytes) (i : Z) : Prop :=
  0 <= i /\ i + zlen d0 <= zlen d1 /\ forall j a b, d0 !! j = Some a -> d1 !! (Z.to_nat i + j)%nat = Some b -> same a b = true.

Lemma peek_ok d i : 0 <= i < zlen d -> exists c, peek d i = Ok c /\ d !! Z.to_nat i = Some c.
Proof.
  intros Hi. destruct (lookup_lt_is_Some_2 d (Z.to_nat i)) as [c Hc]; [unfold zlen in Hi; lia|]. exists c. split; [|done]. unfold peek. rewrite (proj2 (Z.ltb_ge _ _)) by lia. by rewrite Hc.
Qed.

Section Search.
Context (same : byte -> byte -> bool) (d0 d1 : bytes).

(** one position: the pattern is there, or the loop comes to the end of it or goes on *)
Lemma compare_ok last step i k : forall j fuel,
  zlen d0 - j = Z.of_nat k -> 0 <= j < zlen d0 -> 0 <= i -> i + zlen d0 <= zlen d1 ->
  (forall j' a b, (j' < Z.to_nat j)%nat -> d0 !! j' = Some a -> d1 !! (Z.to_nat i + j')%nat = Some b -> same a b = true) ->
  search_loop (k + fuel) same d0 d1 (zlen d0) last step i j = Ok i /\ found_at same d0 d1 i \/
  exists f, (fuel <= f)%nat /\ search_loop (k + fuel) same d0 d1 (zlen d0) last step i j = (if i =? last then Ok BSTR_ERR else search_loop f same d0 d1 (zlen d0) last step (i + step) 0) /\
    ~ found_at same d0 d1 i.
Proof.
  induction k as [|k IH]; intros j fuel Hk Hj Hi Hr Hpre; [lia|]. cbn [Nat.add search_loop]. destruct (peek_ok d0 j Hj) as (a & -> & Ha). destruct (peek_ok d1 (i + j)) as (b & -> & Hb); [lia|]. rewrite !bind_ret.
  replace (Z.to_nat (i + j)) with (Z.to_nat i + Z.to_nat j)%nat in Hb by lia. destruct (same a b) eqn:Es.
  - assert (Hpre' : forall j' a b, (j' < Z.to_nat (j + 1))%nat -> d0 !! j' = Some a -> d1 !! (Z.to_nat i + j')%nat = Some b -> same a b = true).
    { intros j' a' b' Hj' Ha' Hb'. destruct (decide (j' = Z.to_nat j)) as [->|Hne]; [congruence|]. apply (Hpre j'); [lia|done|done]. }
    destruct (Z.leb_spec (zlen d0) (j + 1)); [|apply IH; [lia..|done]]. left. split; [done|]. split_and!; [done|done|]. intros j' a' b' Ha' Hb'. apply (Hpre' j'); [|done|done]. apply lookup_lt_Some in Ha'. unfold zlen in *. lia.
  - right. exists (k + fuel)%nat. split_and!; [lia|done|]. intros (_ & _ & Hall). by rewrite (Hall _ _ _ Ha Hb) in Es.
Qed.

(** the positions [i], [i + step], ... up to [last], which is [n] steps away *)
Lemma search_ok step last : d0 <> [] -> forall n i fuel,
  last = i + step * Z.of_nat n -> (forall m, 0 <= m <= Z.of_nat n -> 0 <= i + step * m /\ i + step * m + zlen d0 <= zlen d1) -> step <> 0 -> ((n + 1) * length d0 < fuel)%nat ->
  (exists m, 0 <= m <= Z.of_nat n /\ search_loop fuel same d0 d1 (zlen d0) last step i 0 = Ok (i + step * m) /\ found_at same d0 d1 (i + step * m) /\
     forall m', 0 <= m' < m -> ~ found_at same d0 d1 (i + step * m')) \/
  search_loop fuel same d0 d1 (zlen d0) last step i 0 = Ok BSTR_ERR /\ forall m', 0 <= m' <= Z.of_nat n -> ~ found_at same d0 d1 (i + step * m').
Proof.
  intros Hne. assert (H0 : 0 < zlen d0) by (destruct d0; [done|rewrite zlen_cons; pose proof (zlen_nonneg l); lia]). induction n as [|n IH]; intros i fuel Hlast Hr Hst Hfuel;
    destruct (Hr 0 ltac:(lia)) as [Hi Hie]; rewrite Z.mul_0_r, Z.add_0_r in Hi, Hie; replace fuel with (length d0 + (fuel - length d0))%nat by lia;
    destruct (compare_ok last step i (length d0) 0 (fuel - length d0)) as [(E & Hf)|(f & Hf & E & Hno)]; [unfold zlen; lia|lia|done|done|lia| | |unfold zlen; lia|lia|done|done|lia| |].
  1, 3: left; exists 0; rewrite Z.mul_0_r, Z.add_0_r; split_and!; [lia|lia|exact E|done|lia].
  - right. rewrite E, (proj2 (Z.eqb_eq _ _)) by lia. split; [done|]. intros m' Hm'. by replace (i + step * m') with i by lia.
  - rewrite E, (proj2 (Z.eqb_neq _ _)) by nia. destruct (IH (i + step) f) as [(m & Hm & E' & Hfm & Hbefore)|(E' & Hnone)]; [lia| |done|lia| |].
    + intros m Hm. specialize (Hr (m + 1) ltac:(lia)). replace (i + step + step * m) with (i + step * (m + 1)) by lia. exact Hr.
    + left. exists (m + 1). replace (i + step * (m + 1)) with (i + step + step * m) by lia. split_and!; [lia|lia|exact E'|done|]. intros m' Hm'.
      destruct (Z.eq_dec m' 0) as [->|Hz]; [by rewrite Z.mul_0_r, Z.add_0_r|]. replace (i + step * m') with (i + step + step * (m' - 1)) by lia. apply Hbefore. lia.
    + right. split; [exact E'|]. intros m' Hm'. destruct (Z.eq_dec m' 0) as [->|Hz]; [by rewrite Z.mul_0_r, Z.add_0_r|]. replace (i + step * m') with (i + step + step * (m' - 1)) by lia. apply Hnone. lia.
Qed.
End Search.

Lemma readable_ok b s : holds b s -> readable (Some b) = Some (Ok s).
Proof. intros (rest & -> & _). unfold readable, cell. pose proof (zlen_nonneg s). rewrite (proj2 (Z.ltb_ge _ _)) by lia. by rewrite slice_front. Qed.

Lemma empty_found same d1 i : 0 <= i <= zlen d1 -> found_at same [] d1 i.
Proof. intros Hi. split_and!; [lia|change (zlen []) with 0; lia|]. intros j a b Hj. by rewrite lookup_nil in Hj. Qed.

(** enough fuel for every position and every byte of the pattern *)
Lemma fuel_ok n ll k : 0 <= n -> 0 <= ll -> Z.of_nat k <= n -> ((k + 1) * Z.to_nat ll < search_fuel n ll)%nat.
Proof. intros Hn Hl Hk. unfold search_fuel. nia. Qed.

(** [binstr] and [binstrcaseless] find the first occurrence: the search from a position always returns, with the first
    position from there on where the pattern is, or with an error when it is nowhere. *)
Theorem search_finds_first same b1 x b2 y pos :
  holds b1 x -> holds b2 y -> 0 <= pos ->
  exists r, find_forward same (Some b1) pos (Some b2) = Ok r /\
    (pos <= r /\ found_at same y x r /\ (forall i, pos <= i < r -> ~ found_at same y x i) \/ r = BSTR_ERR /\ forall i, pos <= i -> ~ found_at same y x i).
Proof.
  intros H1 H2 Hpos. unfold find_forward. rewrite (readable_ok _ _ H1), (readable_ok _ _ H2), !bind_ret. pose proof (zlen_nonneg x). pose proof (zlen_nonneg y).
  destruct (Z.eqb_spec (zlen y) 0) as [Hy|Hy].
  { assert (y = []) as -> by (destruct y; [done|rewrite zlen_cons in Hy; pose proof (zlen_nonneg y); lia]). destruct (Z.eqb_spec (zlen x) pos).
    { exists pos. split; [done|]. left. split_and!; [lia|apply empty_found; lia|lia]. }
    rewrite (proj2 (Z.ltb_ge pos 0)), orb_false_r by lia. destruct (Z.ltb_spec (zlen x) pos).
    - exists BSTR_ERR. split; [done|]. right. split; [done|]. intros i Hi (_ & Hlen & _). change (zlen []) with 0 in Hlen. lia.
    - exists pos. split; [done|]. left. split_and!; [lia|apply empty_found; lia|lia]. }
  assert (Hnone : zlen x - zlen y + 1 <= pos -> forall i, pos <= i -> ~ found_at same y x i) by (intros Hl i Hi (_ & Hlen & _); lia).
  destruct (Z.eqb_spec (zlen x) pos); [exists BSTR_ERR; split; [done|]; right; split; [done|apply Hnone; lia]|].
  rewrite (proj2 (Z.ltb_ge pos 0)), orb_false_r by lia. destruct (Z.ltb_spec (zlen x) pos); [exists BSTR_ERR; split; [done|]; right; split; [done|apply Hnone; lia]|].
  destruct (Z.leb_spec (zlen x - zlen y + 1) pos); [exists BSTR_ERR; split; [done|]; right; split; [done|by apply Hnone]|].
  destruct (search_ok same y x 1 (zlen x - zlen y + 1 - 1) ltac:(by intros ->) (Z.to_nat (zlen x - zlen y - pos)) pos (search_fuel (zlen x) (zlen y))) as [(m & Hm & E & Hf & Hb)|(E & Hno)].
  - lia.
  - intros m Hm. lia.
  - lia.
  - pose proof (fuel_ok (zlen x) (zlen y) (Z.to_nat (zlen x - zlen y - pos))). unfold zlen in *. rewrite Nat2Z.id in *. lia.
  - exists (pos + 1 * m). split; [exact E|]. left. split_and!; [lia|done|]. intros i Hi. replace i with (pos + 1 * (i - pos)) by lia. apply Hb. lia.
  - exists BSTR_ERR. split; [exact E|]. right. split; [done|]. intros i Hi Hfi. pose proof Hfi as (_ & Hlen & _). apply (Hno (i - pos)); [lia|]. by replace (pos + 1 * (i - pos)) with i by lia.
Qed.

Lemma search_finds_first_witness :
  binstr (Some (cell [Byte.x61; Byte.x62; Byte.x61; Byte.x62] [])) 1 (Some (cell [Byte.x61; Byte.x62] [])) = Ok 2 /\
  found_at same_byte [Byte.x61; Byte.x62] [Byte.x61; Byte.x62; Byte.x61; Byte.x62] 2.
Proof.
  assert (E : binstr (Some (cell [Byte.x61; Byte.x62; Byte.x61; Byte.x62] [])) 1 (Some (cell [Byte.x61; Byte.x62] [])) = Ok 2) by reflexivity. split; [exact E|].
  destruct (search_finds_first same_byte (cell [Byte.x61; Byte.x62; Byte.x61; Byte.x62] []) [Byte.x61; Byte.x62; Byte.x61; Byte.x62] (cell [Byte.x61; Byte.x62] []) [Byte.x61; Byte.x62] 1) as (r & E' & Hr).
  - exists []. by vm_compute.
  - exists []. by vm_compute.
  - lia.
  - unfold binstr in E. rewrite E in E'. injection E' as <-. destruct Hr as [(_ & Hf & _)|(Hr & _)]; [exact Hf|discriminate Hr].
Defined.

(** [binstrr] and [binstrrcaseless]: the last occurrence that starts at the position or before it *)
Lemma search_finds_last same b1 x b2 y pos :
  holds b1 x -> holds b2 y -> 0 <= pos <= zlen x ->
  exists r, find_backward same (Some b1) pos (Some b2) = Ok r /\
    (r <= pos /\ found_at same y x r /\ (forall i, r < i <= pos -> ~ found_at same y x i) \/ r = BSTR_ERR /\ forall i, i <= pos -> ~ found_at same y x i).
Proof.
  intros H1 H2 Hpos. unfold find_backward. rewrite (readable_ok _ _ H1), (readable_ok _ _ H2), !bind_ret. pose proof (zlen_nonneg y). rewrite (proj2 (Z.ltb_ge (zlen x) pos)), (proj2 (Z.ltb_ge pos 0)) by lia. cbn [orb].
  destruct (Z.eqb_spec (zlen y) 0) as [Hy|Hy].
  { assert (y = []) as -> by (destruct y; [done|rewrite zlen_cons in Hy; pose proof (zlen_nonneg y); lia]). exists pos. split; [by destruct (zlen x =? pos)|]. left. split_and!; [lia|by apply empty_found|lia]. }
  rewrite andb_false_r. destruct (Z.ltb_spec (zlen x - zlen y) 0); [exists BSTR_ERR; split; [done|]; right; split; [done|]; intros i Hi (? & Hlen & _); lia|].
  set (i0 := if zlen x - zlen y + 1 <=? pos then zlen x - zlen y else pos). assert (Hi0 : i0 = Z.min (zlen x - zlen y) pos) by (unfold i0; destruct (Z.leb_spec (zlen x - zlen y + 1) pos); lia). clearbody i0.
  destruct (search_ok same y x (-1) 0 ltac:(by intros ->) (Z.to_nat i0) i0 (search_fuel (zlen x) (zlen y))) as [(m & Hm & E & Hf & Hb)|(E & Hno)].
  - lia.
  - intros m Hm. lia.
  - lia.
  - pose proof (fuel_ok (zlen x) (zlen y) (Z.to_nat i0)). unfold zlen in *. rewrite Nat2Z.id in *. lia.
  - exists (i0 + -1 * m). split; [exact E|]. left. split_and!; [lia|done|]. intros i Hi Hfi. pose proof Hfi as (_ & Hlen & _). apply (Hb (i0 - i)); [lia|]. by replace (i0 + -1 * (i0 - i)) with i by lia.
  - exists BSTR_ERR. split; [exact E|]. right. split; [done|]. intros i Hi Hfi. pose proof Hfi as (? & Hlen & _). apply (Hno (i0 - i)); [lia|]. by replace (i0 + -1 * (i0 - i)) with i by lia.
Qed.
End BStringSearch.
