(* ===== verification/BStringMake.v ===== *)
(** * BStringMake: making strings, reading streams, and where the string library fails *)

From Stdlib Require Import ZArith Lia.
From S2P Require Import Prelude NodeRep BString BStringProps.
Import BString BStringProps.
Local Open Scope Z_scope.

Module BStringMake.

Section Memory.
Context (malloc realloc : Z -> bool) (junk : Z -> bytes) (junk_len : forall n, 0 <= n -> zlen (junk n) = n).

(** a new string that holds [s], or no memory *)
Definition made (r : res (option bs)) (s : bytes) : Prop := (exists b, r = Ok (Some b) /\ holds b s) \/ r = Ok None /\ ~ memory malloc realloc.

Lemma no_malloc n : malloc n = false -> ~ memory malloc realloc.
Proof. intros E [Hm _]. by rewrite Hm in E. Qed.

(** the content at the front of fresh memory *)
Lemma fill_fresh n (s : bytes) : zlen s + 1 <= n <= LIMIT -> exists t, junk n = t ++ drop (length t) (junk n) /\ zlen t = zlen s /\ zlen (drop (length t) (junk n)) = n - zlen s.
Proof.
  intros Hn. pose proof (zlen_nonneg s). pose proof (junk_len n ltac:(lia)) as Hj. destruct (split_at (junk n) (zlen s)) as (t & u & E & Ht); [lia|]. exists t. rewrite E, drop_app_length. rewrite E, zlen_app in Hj. split_and!; [done|done|lia].
Qed.

Lemma blk2bstr_ok x len : 0 <= len <= zlen x -> len + 2 < LIMIT -> made (blk2bstr malloc junk (Some x) len) (take (Z.to_nat len) x).
Proof.
  intros Hlen Hl. destruct (split_at x len Hlen) as (y & z & -> & Hy). subst len. replace (take (Z.to_nat (zlen y)) (y ++ z)) with y by (unfold zlen; by rewrite Nat2Z.id, take_app_length).
  unfold blk2bstr. rewrite (proj2 (Z.ltb_ge _ _)) by lia. destruct (malloc sizeof_tagbstring) eqn:E0; [|right; split; [done|by eapply no_malloc]]. cbn [negb].
  set (k := 2 - (if zlen y =? 0 then 0 else 1)). assert (Hk : 1 <= k <= 2) by (unfold k; destruct (zlen y =? 0); lia).
  rewrite iadd_ok, bind_ret by (unfold INT_MIN, INT_MAX, LIMIT in *; lia). pose proof (snap_ok (zlen y + k) ltac:(lia)) as Hsn. set (n := snapUpSize (zlen y + k)) in *.
  destruct (malloc n) eqn:E1; [|right; split; [done|by eapply no_malloc]]. cbn [negb]. rewrite slice_front, bind_ret. destruct (fill_fresh n y ltac:(lia)) as (t & Ej & Ht & Hd). rewrite Ej, write_front, bind_ret by lia.
  destruct (seal 0 y (drop (length t) (junk n)) n) as (b & E & Hb & _); [lia..|]. left. exists b. split; [|done]. destruct (poke _ _ _) as [w|]; [|done]. cbn in E |- *. by injection E as ->.
Qed.

(** with the capacity that was asked for *)
Lemma bfromcstralloc_room s m : zlen (cstr s) + 2 < LIMIT -> default 0 m <= LIMIT ->
  (exists b, bfromcstralloc malloc junk m (Some s) = Ok (Some b) /\ holds b (cstr s) /\ default 0 m <= mlen b) \/ bfromcstralloc malloc junk m (Some s) = Ok None /\ ~ memory malloc realloc.
Proof.
  intros Hl Hm. unfold bfromcstralloc. set (c := cstr s) in *. pose proof (zlen_nonneg c). assert (HL : LIMIT < 2 ^ 31) by (unfold LIMIT; lia).
  set (k := 2 - (if zlen c =? 0 then 0 else 1)). assert (Hk : 1 <= k <= 2) by (unfold k; destruct (zlen c =? 0); lia).
  rewrite !i32_small by lia. pose proof (snap_ok (zlen c + k) ltac:(lia)) as Hsn. set (n := snapUpSize (zlen c + k)) in *. rewrite (proj2 (Z.leb_gt _ _)) by lia.
  destruct (malloc sizeof_tagbstring) eqn:E0; [|right; split; [done|by eapply no_malloc]]. cbn [negb].
  set (i := match m with Some m => if n <? m then m else n | None => n end). assert (Hi : n <= i <= LIMIT /\ default 0 m <= i) by (unfold i; destruct m as [m|]; [cbn in Hm |- *; destruct (Z.ltb_spec n m); lia|cbn; lia]). clearbody i.
  destruct (malloc i) eqn:E1; [|right; split; [done|by eapply no_malloc]]. cbn [negb]. assert (Hc : zlen (c ++ [Byte.x00]) = zlen c + 1) by (by rewrite zlen_app).
  destruct (fill_fresh i (c ++ [Byte.x00]) ltac:(lia)) as (t & Ej & Ht & Hd). rewrite Ej, write_front, bind_ret by lia. left. eexists. split; [done|]. split; [|cbn; lia].
  exists (drop (length t) (junk i)). unfold cell. rewrite <- app_assoc. split; [f_equal; lia|lia].
Qed.

Lemma bfromcstralloc_ok s m : zlen (cstr s) + 2 < LIMIT -> default 0 m <= LIMIT -> made (bfromcstralloc malloc junk m (Some s)) (cstr s).
Proof. intros Hl Hm. destruct (bfromcstralloc_room s m Hl Hm) as [(b & E & Hb & _)|H]; [left; eauto|by right]. Qed.

(** the middle, cut to the string *)
Definition middle (s : bytes) (lft len : Z) : bytes := take (Z.to_nat (len + Z.min 0 lft)) (drop (Z.to_nat lft) s).

(** what [clamp] leaves is the middle *)
Lemma clamp_ok s lft len : INT_MIN <= len + Z.min 0 lft -> len <= INT_MAX ->
  exists l k, clamp (zlen s) lft len = Ok (l, k) /\ l = Z.max 0 lft /\ k <= zlen s - l /\ middle s lft len = take (Z.to_nat k) (drop (Z.to_nat l) s).
Proof.
  intros Hmin Hlen. unfold clamp.
  assert ((if lft <? 0 then l ← iadd len lft; Ok (0, l) else Ok (lft, len)) = Ok (Z.max 0 lft, len + Z.min 0 lft)) as ->.
  { destruct (Z.ltb_spec lft 0); [|by rewrite Z.max_r, Z.min_l, Z.add_0_r by lia]. rewrite Z.max_l, Z.min_r in * by lia. rewrite iadd_ok by lia. by rewrite bind_ret. }
  rewrite !bind_ret. set (l := Z.max 0 lft). set (k := if zlen s - l <? len + Z.min 0 lft then zlen s - l else len + Z.min 0 lft).
  assert (Hk : k = Z.min (zlen s - l) (len + Z.min 0 lft)) by (unfold k; destruct (Z.ltb_spec (zlen s - l) (len + Z.min 0 lft)); lia). clearbody k. exists l, k. split_and!; [done|done|lia|].
  unfold middle. replace (Z.to_nat l) with (Z.to_nat lft) by lia. destruct (Z.le_gt_cases (len + Z.min 0 lft) (zlen s - l)); [by replace k with (len + Z.min 0 lft) by lia|].
  rewrite !take_ge; [done|..]; rewrite length_drop; unfold zlen in *; lia.
Qed.

Lemma bmidstr_ok b s lft len : holds b s -> zlen s + 2 < LIMIT -> INT_MIN <= len + Z.min 0 lft -> lft <= INT_MAX -> len <= INT_MAX -> made (bmidstr malloc junk (Some b) lft len) (middle s lft len).
Proof.
  intros (rest & -> & Hl) Hs Hmin Hlft Hlen. pose proof (zlen_nonneg s). unfold bmidstr, cell. rewrite (proj2 (Z.ltb_ge _ _)) by lia. destruct (clamp_ok s lft len Hmin Hlen) as (l & k & -> & Hl0 & Hk & Hmid). rewrite bind_ret.
  rewrite Hmid. destruct (Z.leb_spec k 0).
  - replace (Z.to_nat k) with 0%nat by lia. rewrite take_0. apply (bfromcstralloc_ok [] None); [reflexivity|done].
  - destruct (split_at s l) as (p & q & -> & Hp); [lia|]. rewrite zlen_app in *. destruct (split_at q k) as (y & z & -> & Hy); [lia|]. rewrite <- Hp at 1. rewrite <- Hy at 1. rewrite <- !app_assoc.
    rewrite slice_mid, bind_ret. replace (Z.to_nat l) with (length p) by (unfold zlen in *; lia). rewrite drop_app_length. replace (Z.to_nat k) with (length y) by (unfold zlen in *; lia). rewrite take_app_length.
    pose proof (blk2bstr_ok y k ltac:(lia) ltac:(lia)) as Hmade. by rewrite take_ge in Hmade by (unfold zlen in *; lia).
Qed.

(** ** Reading a stream *)

Lemma breada_loop_ok fuel : forall rest s t n,
  0 < zlen t -> zlen s + zlen t <= LIMIT -> zlen s < n -> n <= zlen s + BS_BUFF_SZ -> zlen s + zlen rest + BS_BUFF_SZ + 2 < LIMIT -> (length rest < fuel)%nat ->
  exists rc b rest', breada_loop malloc realloc junk fuel (Some (BS (zlen s + zlen t) (zlen s) (Some (s ++ t)))) rest (zlen s) n = Ok (rc, Some b, rest') /\
    (rc = 0 /\ holds b (s ++ rest) /\ rest' = [] \/ rc = BSTR_ERR /\ ~ memory malloc realloc).
Proof.
  induction fuel as [|fuel IH]; intros rest s t n Ht Hl Hn Hn' Hlim Hf; [lia|]. pose proof (zlen_nonneg s). pose proof (zlen_nonneg rest). cbn [breada_loop]. unfold BS_BUFF_SZ in *.
  rewrite (iadd_ok n 1), bind_ret by (unfold INT_MIN, INT_MAX, LIMIT in *; lia).
  destruct (balloc_any malloc realloc junk junk_len s t (n + 1) Ht Hl ltac:(lia)) as (rc & b' & E & Hb' & [(-> & Hm)|(-> & Hm)]); rewrite E, bind_ret; cbn [Z.eqb BSTR_OK BSTR_ERR negb]; [|exists BSTR_ERR, b', rest; split; [done|by right]].
  assert (exists t', b' = BS (zlen s + zlen t') (zlen s) (Some (s ++ t')) /\ n + 1 < zlen s + zlen t' /\ zlen s + zlen t' <= LIMIT) as (t' & -> & Ht' & Hl').
  { destruct Hb' as [->|(r & -> & Hr)]; [by exists t|]. exists (Byte.x00 :: r). unfold cell in *. cbn [mlen] in Hm. rewrite zlen_cons. split_and!; [f_equal; lia|lia|lia]. }
  clear E Hb' Hm. set (got := take (Z.to_nat (n - zlen s)) rest). assert (Hgot : zlen got = Z.min (n - zlen s) (zlen rest)) by (unfold got, zlen; rewrite length_take; unfold zlen in *; lia).
  rewrite write_at, bind_ret by lia. pose proof (zlen_drop got t' ltac:(lia)) as Hd. rewrite app_assoc. destruct (Z.ltb_spec (zlen s + zlen got) n) as [Hlt|Hge].
  - assert (Hall : got = rest) by (apply take_ge; unfold zlen in *; lia). destruct (seal 0 (s ++ got) (drop (length got) t') (zlen s + zlen t')) as (b & Eb & Hb & _); [rewrite zlen_app; lia|lia|lia|]. rewrite zlen_app in Eb.
    exists 0, b, []. rewrite Hall in *. rewrite drop_all. split; [|by left]. destruct (poke _ _ _) as [w|]; [|done]. cbn in Eb |- *. by injection Eb as ->.
  - assert (Hn1 : zlen (s ++ got) = n) by (rewrite zlen_app; lia). rewrite iadd_ok, bind_ret by (unfold INT_MIN, INT_MAX, LIMIT in *; destruct (n <? 1024); lia).
    replace (zlen s + zlen t') with (zlen (s ++ got) + zlen (drop (length got) t')) by (rewrite zlen_app; lia). rewrite <- (zlen_app s got).
    assert (Hrest : zlen (drop (length got) rest) = zlen rest - zlen got) by (apply zlen_drop; lia).
    destruct (IH (drop (length got) rest) (s ++ got) (drop (length got) t') (n + (if n <? 1024 then n else 1024))) as (rc & b & rest' & E & Ho).
    1-6: unfold zlen in *; destruct (Z.ltb_spec n 1024); lia.
    rewrite E. exists rc, b, rest'. split; [done|]. rewrite <- app_assoc in Ho. replace (got ++ drop (length got) rest) with rest in Ho; [done|].
    unfold got. rewrite length_take. rewrite <- (take_drop (Z.to_nat (n - zlen s)) rest) at 1. f_equal. f_equal. unfold zlen in *. lia.
Qed.

Lemma breada_ok b s rest : holds b s -> zlen s + zlen rest + BS_BUFF_SZ + 2 < LIMIT ->
  exists rc b' rest', breada malloc realloc junk (Some b) rest = Ok (rc, Some b', rest') /\ (rc = 0 /\ holds b' (s ++ rest) /\ rest' = [] \/ rc = BSTR_ERR /\ ~ memory malloc realloc).
Proof.
  intros Hb Hl. pose proof Hb as (r & E & Hr). pose proof (zlen_nonneg s). pose proof (zlen_nonneg rest). pose proof (zlen_nonneg r). unfold breada. assert (broken b = false) as -> by (subst b; apply cell_sound).
  assert (slen b = zlen s) as -> by (by subst b). unfold BS_BUFF_SZ in *. rewrite iadd_ok, bind_ret by (unfold INT_MIN, INT_MAX, LIMIT in *; lia). subst b. unfold cell.
  replace (zlen s + 1 + zlen r) with (zlen s + zlen (Byte.x00 :: r)) by (rewrite zlen_cons; lia). apply breada_loop_ok; rewrite ?zlen_cons; unfold BS_BUFF_SZ; lia.
Qed.
End Memory.

(** [bread] reads a stream to its end: for every stream that leaves some room below a quarter of a gigabyte it returns,
    and unless there is no memory the string holds exactly the bytes of the stream and nothing is left to read. *)
Theorem bread_reads_all malloc realloc junk stream :
  (forall n, 0 <= n -> zlen (junk n) = n) -> zlen stream + 1026 < LIMIT ->
  exists o rest, bread malloc realloc junk stream = Ok (o, rest) /\
    ((exists b, o = Some b /\ holds b stream /\ rest = []) \/ o = None /\ ~ memory malloc realloc).
Proof.
  intros Hj Hl. unfold bread. destruct (bfromcstralloc_ok malloc realloc junk Hj [] None) as [(b & E & Hb)|(E & Hm)]; [reflexivity|done| |]; unfold bfromcstr; rewrite E, bind_ret; [|exists None, stream; split; [done|by right]].
  destruct (breada_ok malloc realloc junk Hj b [] stream Hb) as (rc & b' & rest & -> & Ho); [unfold BS_BUFF_SZ; change (zlen []) with 0; lia|]. rewrite bind_ret.
  destruct Ho as [(-> & Hb' & ->)|(-> & Hm)]; cbn [Z.ltb Z.compare BSTR_ERR]; [exists (Some b'), []; split; [done|left; eauto]|exists None, rest; split; [done|by right]].
Qed.

Lemma bread_reads_all_witness :
  exists b, bread (fun _ => true) (fun _ => true) (fun n => replicate (Z.to_nat n) Byte.xff) (replicate 40 Byte.x61) = Ok (Some b, []) /\ holds b (replicate 40 Byte.x61).
Proof.
  destruct (bread_reads_all (fun _ => true) (fun _ => true) (fun n => replicate (Z.to_nat n) Byte.xff) (replicate 40 Byte.x61)) as (o & rest & E & Ho).
  - intros n Hn. unfold zlen. rewrite length_replicate. lia.
  - reflexivity.
  - destruct Ho as [(b & -> & Hb & ->)|(_ & Hm)]; [|exfalso; apply Hm; split; intros n; reflexivity]. exists b. split; [exact E|exact Hb].
Defined.

(** what a C string became is the C string again *)
Lemma cstr_roundtrip malloc junk s z :
  (forall n, 0 <= n -> zlen (junk n) = n) -> (forall n, malloc n = true) -> zlen (cstr s) + 2 < LIMIT ->
  (b ← bfromcstr malloc junk (Some s); bstr2cstr malloc b z) = Ok (Some (cstr s ++ [Byte.x00])).
Proof.
  intros Hj Hm Hl. destruct (bfromcstralloc_ok malloc malloc junk Hj s None Hl) as [(b & E & (rest & -> & Hb))|(_ & Hno)]; [done| |by destruct Hno].
  unfold bfromcstr. rewrite E, bind_ret. pose proof (zlen_nonneg (cstr s)). unfold bstr2cstr, cell. rewrite (proj2 (Z.ltb_ge _ _)) by lia.
  rewrite iadd_ok, bind_ret by (unfold INT_MIN, INT_MAX, LIMIT in *; lia). rewrite Hm. cbn [negb]. rewrite slice_front, bind_ret. do 3 f_equal.
  pose proof (NodeRep.cstr_nul_free s) as Hno.
  clear - Hno. induction (cstr s) as [|c l IH]; [done|]. apply not_elem_of_cons in Hno as [Hc Hno]. cbn. rewrite bool_decide_eq_false_2 by congruence. f_equal. by apply IH.
Qed.

(** ** Where the library fails *)

Lemma zlen_take n (x : bytes) : 0 <= n <= zlen x -> zlen (take (Z.to_nat n) x) = n.
Proof. intros Hn. unfold zlen in *. rewrite length_take. lia. Qed.

(** A size that [snapUpSize] cannot raise: [balloc] says that a buffer of that size is enough, and [bassign] writes the NUL behind it. *)
Lemma bassign_writes_past malloc realloc junk N s d m src :
  0 < N -> snapUpSize N = N -> zlen d = N -> 0 <= s <= N -> N <= zlen src ->
  bassign malloc realloc junk (Some (BS N s (Some d))) (Other (Some (BS m N (Some src)))) = Fault OutOfBounds.
Proof.
  intros H0 Hsnap Hd Hs Hsrc. unfold bassign. cbn [arg_of].
  rewrite (proj2 (Z.ltb_ge N 0)), (proj2 (Z.eqb_neq N 0)) by lia. cbn [negb]. unfold slice. rewrite (proj2 (Z.leb_le (0 + _) _)), (proj2 (Z.leb_le 0 N)) by lia. cbn [andb Z.leb Z.compare].
  rewrite bind_ret, drop_0. unfold balloc. assert (broken (BS N s (Some d)) = false) as -> by (unfold broken; cbn [slen mlen]; lia). rewrite (proj2 (Z.leb_gt N 0)), (proj2 (Z.ltb_ge N N)) by lia. cbn [orb].
  rewrite Hsnap, (proj2 (Z.leb_le N N)), bind_ret by lia. cbn [Z.eqb BSTR_OK negb].
  pose proof (write_at [] d (take (Z.to_nat N) src)) as Hw. cbn [app] in Hw. change (zlen []) with 0 in Hw. pose proof (zlen_take N src ltac:(lia)) as Ht. rewrite Hw by lia. rewrite bind_ret.
  unfold poke, write at 1. assert (Hall : zlen (take (Z.to_nat N) src ++ drop (length (take (Z.to_nat N) src)) d) = N) by (rewrite zlen_app, zlen_drop by lia; lia).
  rewrite Hall. change (zlen [Byte.x00]) with 1. rewrite (proj2 (Z.leb_gt (N + 1) _)), andb_false_r by lia. done.
Qed.

(** a gigabyte is such a size *)
Example snap_gigabyte : snapUpSize (2 ^ 30) = 2 ^ 30.
Proof. vm_compute. reflexivity. Qed.

(** [bconcat] adds the lengths without a check *)
Lemma bconcat_overflows malloc realloc junk m0 d0 s0 m1 s1 d1 :
  0 <= s0 <= m0 -> 0 <= s1 -> INT_MAX < s0 + s1 -> bconcat malloc realloc junk (Some (BS m0 s0 (Some d0))) (Other (Some (BS m1 s1 (Some d1)))) = Fault SignedOverflow.
Proof.
  intros H0 H1 Hm. unfold bconcat. cbn [arg_of]. rewrite (proj2 (Z.ltb_ge s0 0)), (proj2 (Z.ltb_ge (m0 - s0) 0)), (proj2 (Z.ltb_ge s1 0)) by lia. cbn [orb]. unfold iadd, int_ok. by rewrite (proj2 (Z.leb_gt (s0 + s1) _)), andb_false_r by lia.
Qed.

(** A C string that does not fit, appended when there is no memory: [bcatcstr] reports the error but it has overwritten the NUL;
    the length is the capacity, and a reader of the C string leaves the buffer. *)
Example bcatcstr_loses_nul :
  bcatcstr (fun _ => false) (fun _ => false) (fun n => replicate (Z.to_nat n) Byte.xff) (Some (cell [Byte.x61; Byte.x62] [Byte.x00])) (Some [Byte.x63; Byte.x64; Byte.x65]) =
  Ok (BSTR_ERR, Some (BS 4 4 (Some [Byte.x61; Byte.x62; Byte.x63; Byte.x64]))).
Proof. reflexivity. Qed.
End BStringMake.
