(* ===== verification/BStringList.v ===== *)
(** * BStringList: lines, lists and caseless comparison of [src/src/myriad/bstring/bstrlib.c]

    Reading lines from a stream, splitting a string into a list and joining a list, and the
    comparisons that ignore case, on the representation of [BString]. *)

From Stdlib Require Import ZArith Lia.
From S2P Require Import Prelude Heap Message Routing NodeRep BString BStringProps BStringMake.
Import BString BStringProps BStringMake.
Local Open Scope Z_scope.

Module BStringList.

(** ** Comparing without case *)

(** the first letters that differ, and then the characters themselves are subtracted *)
Fixpoint icmp_loop (x y : bytes) : Z :=
  match x, y with
  | a :: x', b :: y' => if sv (downcase a) - sv (downcase b) =? 0 then icmp_loop x' y' else bv a - bv b
  | a :: _, [] => if sv (downcase a) =? 0 then 256 else sv (downcase a)
  | [], b :: _ => if sv (downcase b) =? 0 then -256 else - sv (downcase b)
  | [], [] => 0
  end.

Definition bstricmp (b0 b1 : option bs) : res Z :=
  match readable b0, readable b1 with
  | Some r0, Some r1 => x ← r0; y ← r1; Ok (icmp_loop x y)
  | _, _ => Ok Routing.Routing.SHRT_MIN
  end.

(** the limit [n] cuts both strings *)
Definition bstrnicmp (b0 b1 : option bs) (n : Z) : res Z :=
  match readable b0, readable b1 with
  | Some r0, Some r1 =>
    if n <? 0 then Ok Routing.Routing.SHRT_MIN else
    x ← r0; y ← r1; Ok (icmp_loop (take (Z.to_nat n) x) (take (Z.to_nat n) y))
  | _, _ => Ok Routing.Routing.SHRT_MIN
  end.

Definition bstrncmp (b0 b1 : option bs) (n : Z) : res Z :=
  match readable b0, readable b1 with
  | Some r0, Some r1 => x ← r0; y ← r1; Ok (Routing.Routing.bstrcmp_loop (take (Z.to_nat n) x) (take (Z.to_nat n) y))
  | _, _ => Ok Routing.Routing.SHRT_MIN
  end.

Fixpoint all_same (x y : bytes) : bool :=
  match x, y with
  | a :: x', b :: y' => same_letter a b && all_same x' y'
  | _, _ => true
  end.

Definition biseqcaseless (b0 b1 : option bs) : res Z :=
  match readable b0, readable b1 with
  | Some r0, Some r1 => x ← r0; y ← r1; Ok (if negb (zlen x =? zlen y) then 0 else if all_same x y then 1 else 0)
  | _, _ => Ok BSTR_ERR
  end.

Definition bisstemeqcaselessblk (b0 : option bs) (blk : option bytes) (len : Z) : res Z :=
  match readable b0, blk with
  | Some r0, Some blk =>
    if len <? 0 then Ok BSTR_ERR else
    x ← r0;
    if zlen x <? len then Ok 0 else
    y ← slice blk 0 len;
    Ok (if all_same (take (Z.to_nat len) x) y then 1 else 0)
  | _, _ => Ok BSTR_ERR
  end.

Fixpoint same_cstr (x s : bytes) : bool :=
  match x, s with
  | [], [] => true
  | [], _ :: _ => false
  | _ :: _, [] => false
  | a :: x', b :: s' => same_letter a b && same_cstr x' s'
  end.

Definition biseqcstrcaseless (b : option bs) (s : option bytes) : res Z :=
  match readable b, s with
  | Some r, Some s => x ← r; Ok (if same_cstr x (cstr s) then 1 else 0)
  | _, _ => Ok BSTR_ERR
  end.

Section Memory.
Context (malloc realloc : Z -> bool) (junk : Z -> bytes).

(** ** Lines *)

(** [c == terminator] compares an [int] with a [char], which is signed *)
Definition terminates (terminator c : byte) : bool := bv c =? sv terminator.

(** the loop: the result is [None] when there was no memory, or else where it stopped and whether at the end *)
Fixpoint gets_loop (b : option bs) (stream : bytes) (d e : Z) (terminator : byte) : res (option (Z * bool) * option bs * bytes) :=
  match stream with
  | [] => Ok (Some (d, true), b, [])
  | c :: rest =>
    '(ok, b, e) ← (if e <? d then
        match b with
        | Some (BS m _ x) =>
          d2 ← iadd d 2;
          '(rc, b) ← balloc malloc realloc junk (Some (BS m d x)) d2;
          match b with Some s => Ok (rc =? BSTR_OK, b, mlen s - 2) | None => Fault NullDeref end
        | None => Fault NullDeref
        end
      else Ok (true, b, e));
    if negb ok then Ok (None, b, rest) else
    match b with
    | Some (BS m s (Some x)) =>
      x ← poke x d c;
      let b := Some (BS m s (Some x)) in
      if terminates terminator c then Ok (Some (d + 1, false), b, rest) else gets_loop b rest (d + 1) e terminator
    | _ => Fault NullDeref
    end
  end.

Definition gets_from (b : option bs) (start : Z) (stream : bytes) (terminator : byte) : res (Z * option bs * bytes) :=
  match b with
  | None => Ok (BSTR_ERR, b, stream)
  | Some s =>
    if broken s then Ok (BSTR_ERR, b, stream) else
    '(o, b, rest) ← gets_loop b stream start (mlen s - 2) terminator;
    match o, b with
    | None, _ => Ok (BSTR_ERR, b, rest)
    | Some (d, ended), Some (BS m _ (Some x)) =>
      x ← poke x d Byte.x00;
      Ok (if (d =? 0) && ended then 1 else 0, Some (BS m d (Some x)), rest)
    | _, _ => Fault NullDeref
    end
  end.

Definition bassigngets (b : option bs) (stream : bytes) (terminator : byte) : res (Z * option bs * bytes) := gets_from b 0 stream terminator.
Definition bgetsa (b : option bs) (stream : bytes) (terminator : byte) : res (Z * option bs * bytes) :=
  gets_from b (match b with Some s => slen s | None => 0 end) stream terminator.

Definition bgets (stream : bytes) (terminator : byte) : res (option bs * bytes) :=
  b ← bfromcstr malloc junk (Some []);
  match b with
  | None => Ok (None, stream)
  | Some _ =>
    '(ret, b, rest) ← bgetsa b stream terminator;
    if (ret <? 0) || (match b with Some s => slen s <=? 0 | None => true end) then Ok (None, rest) else Ok (b, rest)
  end.

(** ** Splitting *)

(** [str->data[i]] for [i < str->slen] *)
Definition content_of (b : bs) : res bytes := if slen b =? 0 then Ok [] else d ← need NullDeref (data b); slice d 0 (slen b).

(** the callback gets the offset and the length of each piece *)
Fixpoint split_loop {G} (fuel : nat) (at_ : byte -> bool) (str : bytes) (cb : G -> Z -> Z -> res (Z * G)) (g : G) (p : Z) : res (Z * G) :=
  match fuel with
  | O => Fault NoFuel
  | S f =>
    let i := p + zlen (span (fun c => negb (at_ c)) (drop (Z.to_nat p) str)) in
    '(ret, g) ← cb g p (i - p);
    if ret <? 0 then Ok (ret, g) else
    if i + 1 <=? zlen str then split_loop f at_ str cb g (i + 1) else Ok (0, g)
  end.

Definition bsplitcb {G} (str : option bs) (splitChar : byte) (pos : Z) (cb : G -> Z -> Z -> res (Z * G)) (g : G) : res (Z * G) :=
  match str with
  | None => Ok (BSTR_ERR, g)
  | Some s =>
    if (pos <? 0) || (slen s <? pos) then Ok (BSTR_ERR, g) else
    d ← content_of s;
    split_loop (S (S (length d))) (same_byte splitChar) d cb g pos
  end.

Definition bsplitscb {G} (str splitStr : option bs) (pos : Z) (cb : G -> Z -> Z -> res (Z * G)) (g : G) : res (Z * G) :=
  match str, splitStr with
  | Some s, Some t =>
    if (pos <? 0) || (slen s <? pos) || (slen t <? 0) then Ok (BSTR_ERR, g) else
    if slen t =? 0 then '(ret, g) ← cb g 0 (slen s); Ok (if 0 <? ret then 0 else ret, g) else
    if slen t =? 1 then x ← need NullDeref (data t); c ← peek x 0; bsplitcb str c pos cb g else
    cf ← buildCharField splitStr;
    cf ← need BadPointer cf;
    d ← content_of s;
    split_loop (S (S (length d))) (testInCharField cf) d cb g pos
  | _, _ => Ok (BSTR_ERR, g)
  end.

(** a list with its capacity; an entry is NULL when there was no memory for it *)
Record bstrList := BL { bl_mlen : Z; bl_entry : list (option bs) }.

Definition BLE_SZ : Z := 8.

(** [while (qty >= mlen) mlen += mlen] *)
Fixpoint double (fuel : nat) (qty mlen : Z) : res Z :=
  match fuel with
  | O => Fault NoFuel
  | S f => if mlen <=? qty then m ← iadd mlen mlen; double f qty m else Ok mlen
  end.

Definition bscb (b : option bs) (g : bstrList) (ofs len : Z) : res (Z * bstrList) :=
  let qty := zlen (bl_entry g) in
  '(ok, m) ← (if bl_mlen g <=? qty then
      m ← imul (bl_mlen g) 2;
      m ← double 32 qty m;
      Ok (realloc (BLE_SZ + 8 * m), m)
    else Ok (true, bl_mlen g));
  if negb ok then Ok (BSTR_ERR, g) else
  e ← bmidstr malloc junk b ofs len;
  Ok (0, BL m (bl_entry g ++ [e])).

(** the strings are gone, and the list with them *)
Definition bstrListDestroy (g : option bstrList) : Z := match g with Some _ => BSTR_OK | None => BSTR_ERR end.

Definition bsplit (str : option bs) (splitChar : byte) : res (option bstrList) :=
  match readable str with
  | None => Ok None
  | Some _ =>
    if negb (malloc (BLE_SZ + 8 * 4)) then Ok None else
    '(ret, g) ← bsplitcb str splitChar 0 (bscb str) (BL 4 []);
    Ok (if ret <? 0 then None else Some g)
  end.

Definition bsplits (str splitStr : option bs) : res (option bstrList) :=
  match readable str, readable splitStr with
  | Some _, Some _ =>
    if negb (malloc (BLE_SZ + 8 * 4)) then Ok None else
    '(ret, g) ← bsplitscb str splitStr 0 (bscb str) (BL 4 []);
    Ok (if ret <? 0 then None else Some g)
  | _, _ => Ok None
  end.

(** ** Joining *)

(** the length of all entries and a NUL; [None]: an invalid entry *)
Fixpoint join_len (c : Z) (l : list (option bs)) : res (option Z) :=
  match l with
  | [] => Ok (Some c)
  | None :: _ => Fault NullDeref
  | Some b :: l' => if slen b <? 0 then Ok None else c ← iadd c (slen b); join_len c l'
  end.

Fixpoint join_loop (first : bool) (sep : option bytes) (x : bytes) (c : Z) (l : list (option bs)) : res (bytes * Z) :=
  match l with
  | [] => Ok (x, c)
  | None :: _ => Fault NullDeref
  | Some b :: l' =>
    '(x, c) ← match sep with
      | Some s => if first : bool then Ok (x, c) else x ← write x c s; Ok (x, c + zlen s)
      | None => Ok (x, c)
      end;
    v ← content_of b;
    x ← write x c v;
    join_loop false sep x (c + zlen v) l'
  end.

Definition bjoin (bl : option bstrList) (sep : option bs) : res (option bs) :=
  match bl with
  | None => Ok None
  | Some g =>
    if (match sep with Some s => (slen s <? 0) || bool_decide (data s = None) | None => false end) then Ok None else
    c ← join_len 1 (bl_entry g);
    match c with
    | None => Ok None
    | Some c =>
      sp ← match sep with Some s => v ← content_of s; Ok (Some v) | None => Ok None end;
      c ← match sp with Some v => k ← imul (zlen (bl_entry g) - 1) (zlen v); iadd c k | None => Ok c end;
      if negb (malloc sizeof_tagbstring) then Ok None else
      if negb (malloc (u64 c)) then Ok None else
      '(x, n) ← join_loop true sp (junk (u64 c)) 0 (bl_entry g);
      x ← poke x n Byte.x00;
      Ok (Some (BS c (c - 1) (Some x)))
    end
  end.
End Memory.
End BStringList.
