(* ===== verification/BStringListProps.v ===== *)
(** * BStringListProps: splitting and joining are inverse, lines are read whole *)

From Stdlib Require Import ZArith Lia.
From S2P Require Import Prelude NodeRep BString BStringProps BStringSearch BStringMake BStringList.
Import BString BStringProps BStringMake BStringList.
Local Open Scope Z_scope.

Module BStringListProps.

(** ** Fields *)

(** the pieces between the characters that satisfy [p] *)
Fixpoint fields (p : byte -> bool) (s : bytes) : list bytes :=
  match s with
  | [] => [[]]
  | x :: s' => if p x then [] :: fields p s' else match fields p s' with f :: fs => (x :: f) :: fs | [] => [[x]] end
  end.

Fixpoint join (sep : bytes) (l : list bytes) : bytes :=
  match l with [] => [] | [f] => f | f :: l' => f ++ sep ++ join sep l' end.

Lemma fields_cons p s : exists f fs, fields p s = f :: fs.
Proof. destruct s as [|x s]; cbn; [eauto|]. destruct (p x); [eauto|]. destruct (fields p s); eauto. Qed.

Lemma join_fields c s : join [c] (fields (same_byte c) s) = s.
Proof.
  induction s as [|x s IH]; [done|]. cbn [fields]. destruct (fields_cons (same_byte c) s) as (f & fs & E). rewrite E in *. unfold same_byte at 1. case_bool_decide as Hc.
  - subst x. cbn [join app]. f_equal. exact IH.
  - destruct fs; cbn [join app] in *; by rewrite IH.
Qed.

(** the first field is what the loop skips *)
Lemma fields_span p s : let f := span (fun c => negb (p c)) s in
  (s = f /\ fields p s = [f]) \/ exists c r, s = f ++ c :: r /\ p c = true /\ fields p s = f :: fields p r.
Proof.
  induction s as [|x s IH]; cbn; [by left|]. destruct (p x) eqn:Ex; cbn [negb].
  - right. exists x, s. done.
  - destruct IH as [(E & Ef)|(c & r & E & Hc & Ef)].
    + left. rewrite Ef. split; [by f_equal|done].
    + right. exists c, r. rewrite Ef. split_and!; [by rewrite E at 1|done|done].
Qed.

Lemma join_cons sep f g l : join sep (f :: g :: l) = f ++ sep ++ join sep (g :: l).
Proof. done. Qed.

Lemma join_len_ge sep l f : f ∈ l -> zlen f <= zlen (join sep l).
Proof.
  induction l as [|g l IH]; [set_solver|]. intros [->|Hf]%elem_of_cons; destruct l as [|h l]; rewrite ?join_cons, ?zlen_app; try (cbn; lia).
  - pose proof (zlen_nonneg sep). pose proof (zlen_nonneg (join sep (h :: l))). lia.
  - set_solver.
  - specialize (IH Hf). pose proof (zlen_nonneg sep). pose proof (zlen_nonneg g). lia.
Qed.

Definition entries (l : list (option bs)) (fs : list bytes) : Prop := Forall2 (fun o f => exists b, o = Some b /\ holds b f) l fs.

Section Memory.
Context (malloc realloc : Z -> bool) (junk : Z -> bytes) (junk_len : forall n, 0 <= n -> zlen (junk n) = n).
Context (mem : memory malloc realloc).

Lemma made_ok (r : res (option bs)) s : made malloc realloc r s -> exists b, r = Ok (Some b) /\ holds b s.
Proof. intros [H|(_ & H)]; [done|by destruct H]. Qed.

(** one entry more *)
Lemma bscb_ok b s g fs pre f suf : holds b s -> zlen s + 2 < LIMIT -> s = pre ++ f ++ suf -> entries (bl_entry g) fs -> zlen (bl_entry g) <= bl_mlen g -> 0 < bl_mlen g <= 2 ^ 29 ->
  exists g', bscb malloc realloc junk (Some b) g (zlen pre) (zlen f) = Ok (0, g') /\ entries (bl_entry g') (fs ++ [f]) /\
    zlen (bl_entry g') = zlen (bl_entry g) + 1 /\ zlen (bl_entry g') <= bl_mlen g' /\ 0 < bl_mlen g' /\ (bl_mlen g' = bl_mlen g \/ bl_mlen g' = 2 * zlen (bl_entry g)).
Proof.
  intros Hb Hs -> He Hc Hm. destruct mem as [Hmal Hrea]. unfold bscb.
  assert (exists m, (if bl_mlen g <=? zlen (bl_entry g) then m ← imul (bl_mlen g) 2; m ← double 32 (zlen (bl_entry g)) m; Ok (realloc (BLE_SZ + 8 * m), m) else Ok (true, bl_mlen g)) = Ok (true, m) /\
    zlen (bl_entry g) < m /\ (m = bl_mlen g \/ m = 2 * zlen (bl_entry g))) as (m & -> & Hlt & Hmm).
  { destruct (Z.leb_spec (bl_mlen g) (zlen (bl_entry g))); [|exists (bl_mlen g); split_and!; [done|lia|by left]]. exists (2 * zlen (bl_entry g)). rewrite imul_ok, bind_ret by (unfold INT_MIN, INT_MAX; lia). cbn [double].
    rewrite (proj2 (Z.leb_gt _ _)), bind_ret, Hrea by lia. split_and!; [do 2 f_equal; lia|lia|by right]. }
  rewrite bind_ret. cbn [negb]. pose proof (zlen_nonneg pre). pose proof (zlen_nonneg f). rewrite !zlen_app in Hs. pose proof (zlen_nonneg suf).
  destruct (made_ok _ _ (bmidstr_ok malloc realloc junk junk_len b (pre ++ f ++ suf) (zlen pre) (zlen f) Hb ltac:(rewrite !zlen_app; lia)
    ltac:(unfold INT_MIN; lia) ltac:(unfold INT_MAX, LIMIT in *; lia) ltac:(unfold INT_MAX, LIMIT in *; lia))) as (e & E & He').
  rewrite E, bind_ret. exists (BL m (bl_entry g ++ [Some e])). cbn [bl_entry bl_mlen]. assert (Hz : zlen (bl_entry g ++ [Some e]) = zlen (bl_entry g) + 1) by (by rewrite zlen_app).
  pose proof (zlen_nonneg (bl_entry g)). split_and!; [done| |lia|lia|lia|lia].
  apply Forall2_app; [done|]. constructor; [|constructor]. exists e. split; [done|]. assert (Hmid : middle (pre ++ f ++ suf) (zlen pre) (zlen f) = f); [|by rewrite Hmid in He'].
  unfold middle. rewrite Z.min_l, Z.add_0_r by lia. unfold zlen. by rewrite !Nat2Z.id, drop_app_length, take_app_length.
Qed.

(** the loop from a position on gives the fields of what is behind it *)
Lemma split_ok (p : byte -> bool) b s : holds b s -> zlen s + 2 < LIMIT -> forall fuel pre rest g fs,
  s = pre ++ rest -> entries (bl_entry g) fs -> zlen (bl_entry g) <= zlen pre -> zlen (bl_entry g) <= bl_mlen g -> 0 < bl_mlen g -> bl_mlen g <= 4 \/ bl_mlen g <= 2 * zlen (bl_entry g) -> (length rest < fuel)%nat ->
  exists g', split_loop fuel p s (bscb malloc realloc junk (Some b)) g (zlen pre) = Ok (0, g') /\ entries (bl_entry g') (fs ++ fields p rest).
Proof.
  intros Hb Hs. induction fuel as [|fuel IH]; intros pre rest g fs -> He Hq Hc H0 Hm Hf; [lia|]. cbn [split_loop].
  assert (drop (Z.to_nat (zlen pre)) (pre ++ rest) = rest) as -> by (unfold zlen; by rewrite Nat2Z.id, drop_app_length).
  pose proof (fields_span p rest) as Hsp. set (f := span (fun c => negb (p c)) rest) in *. cbv zeta in Hsp. replace (zlen pre + zlen f - zlen pre) with (zlen f) by lia.
  assert (Hcap : 0 < bl_mlen g <= 2 ^ 29) by (rewrite zlen_app in Hs; pose proof (zlen_nonneg rest); unfold LIMIT in Hs; lia). pose proof (zlen_nonneg f).
  assert (exists suf, rest = f ++ suf) as (suf & Esuf) by (destruct Hsp as [(E & _)|(c & r & E & _)]; [exists []; by rewrite app_nil_r|by eexists]).
  destruct (bscb_ok b (pre ++ rest) g fs pre f suf Hb Hs ltac:(by rewrite Esuf) He Hc Hcap) as (g' & -> & He' & Hn & Hc' & H0' & Hm'). rewrite bind_ret. cbn [Z.ltb Z.compare].
  destruct Hsp as [(E & Ef)|(c & r & E & Hpc & Ef)].
  - rewrite E, zlen_app, (proj2 (Z.leb_gt _ _)) by lia. rewrite E, Ef in *. exists g'. done.
  - assert (Hr : zlen rest = zlen f + (1 + zlen r)) by (by rewrite E, zlen_app, zlen_cons). pose proof (zlen_nonneg r). rewrite zlen_app, Hr, (proj2 (Z.leb_le _ _)) by lia.
    replace (zlen pre + zlen f + 1) with (zlen (pre ++ f ++ [c])) by (rewrite !zlen_app; change (zlen [c]) with 1; lia).
    destruct (IH (pre ++ f ++ [c]) r g' (fs ++ [f])) as (g'' & Eg & He''); [by rewrite E, <- !app_assoc|done|rewrite !zlen_app; change (zlen [c]) with 1; lia|done|done|lia|unfold zlen in *; lia|].
    exists g''. rewrite Ef. rewrite <- app_assoc in He''. done.
Qed.

Lemma bsplit_ok b s c : holds b s -> zlen s + 2 < LIMIT -> exists g, bsplit malloc realloc junk (Some b) c = Ok (Some g) /\ entries (bl_entry g) (fields (same_byte c) s).
Proof.
  intros Hb Hs. unfold bsplit. rewrite (BStringSearch.BStringSearch.readable_ok _ _ Hb). destruct mem as [Hmal _]. rewrite Hmal. cbn [negb]. unfold bsplitcb.
  destruct (holds_length b s Hb) as (Hl & Hz & _). rewrite Hl, (proj2 (Z.ltb_ge (zlen s) 0)) by lia. cbn [Z.ltb Z.compare orb].
  assert (content_of b = Ok s) as ->. { unfold content_of. rewrite Hl. destruct Hb as (r & -> & _). destruct (Z.eqb_spec (zlen s) 0) as [H0|]; [|cbn [need data cell]; by rewrite bind_ret, slice_front]. destruct s as [|x s']; [done|rewrite zlen_cons in H0; pose proof (zlen_nonneg s'); lia]. }
  rewrite bind_ret. destruct (split_ok (same_byte c) b s Hb Hs (S (S (length s))) [] s (BL 4 []) []) as (g & E & He); [done|by apply Forall2_nil|done|done|done|by left|lia|].
  change (zlen []) with 0 in E. rewrite E.
  rewrite bind_ret. cbn [Z.ltb Z.compare]. eauto.
Qed.

(** ** Joining *)

Lemma content_ok b s : holds b s -> content_of b = Ok s.
Proof.
  intros Hb. destruct (holds_length b s Hb) as (Hl & _). unfold content_of. rewrite Hl. destruct Hb as (r & -> & _).
  destruct (Z.eqb_spec (zlen s) 0) as [H0|]; [|cbn [need data cell]; by rewrite bind_ret, slice_front]. destruct s as [|x s']; [done|rewrite zlen_cons in H0; pose proof (zlen_nonneg s'); lia].
Qed.

Definition total (fs : list bytes) : Z := zlen (mjoin fs).

Lemma total_cons f fs : total (f :: fs) = zlen f + total fs.
Proof. unfold total. cbn. apply zlen_app. Qed.

Lemma join_total sep fs : fs <> [] -> zlen (join sep fs) = total fs + (zlen fs - 1) * zlen sep.
Proof.
  induction fs as [|f [|g fs] IH]; intros Hne; [done|rewrite total_cons; change (total []) with 0; change (zlen [f]) with 1; cbn [join]; lia|]. rewrite join_cons, !zlen_app, total_cons, zlen_cons, IH by done. lia.
Qed.

Lemma join_len_ok l fs c : entries l fs -> 0 <= c -> c + total fs <= INT_MAX -> join_len c l = Ok (Some (c + total fs)).
Proof.
  intros He. revert c. induction He as [|o f l fs (b & -> & Hb) He IH]; intros c Hc Hm; [cbn; by rewrite Z.add_0_r|]. cbn [join_len]. rewrite total_cons in *.
  destruct (holds_length b f Hb) as (Hl & Hz & _). rewrite Hl, (proj2 (Z.ltb_ge _ _)) by lia. assert (0 <= total fs) by (apply zlen_nonneg). rewrite iadd_ok, bind_ret by (unfold INT_MIN; lia).
  rewrite IH by lia. do 2 f_equal. lia.
Qed.

(** what has been written is a prefix of the buffer *)
Lemma join_loop_ok sep l fs : entries l fs -> forall first done_ t, zlen (join sep fs) + (if first : bool then 0 else zlen sep) <= zlen t \/ fs = [] ->
  let out := done_ ++ (if first || bool_decide (fs = []) then [] else sep) ++ join sep fs in
  exists t', join_loop first (Some sep) (done_ ++ t) (zlen done_) l = Ok (out ++ t', zlen out) /\ zlen done_ + zlen t = zlen out + zlen t'.
Proof.
  intros He. induction He as [|o f l fs (b & -> & Hb) He IH]; intros first dn t Hr.
  { exists t. rewrite bool_decide_eq_true_2, orb_true_r by done. cbn [app join]. by rewrite app_nil_r. }
  destruct Hr as [Hr|]; [|done]. cbn [join_loop]. rewrite bool_decide_eq_false_2, orb_false_r by done. set (sp := if first then [] else sep).
  assert (Hjoin : zlen f <= zlen (join sep (f :: fs)) /\ (fs <> [] -> zlen (join sep (f :: fs)) = zlen f + zlen sep + zlen (join sep fs))) by (split; [apply join_len_ge; set_solver|destruct fs as [|g fs]; [done|]; intros _; rewrite join_cons, !zlen_app; lia]).
  assert (Hsp : zlen sp = if first then 0 else zlen sep) by (by destruct first). pose proof (zlen_nonneg sep). pose proof (zlen_nonneg f).
  assert ((if first then Ok (dn ++ t, zlen dn) else x ← write (dn ++ t) (zlen dn) sep; Ok (x, zlen dn + zlen sep)) = Ok ((dn ++ sp) ++ drop (length sp) t, zlen (dn ++ sp))) as ->.
  { unfold sp. destruct first; [by rewrite app_nil_r|]. rewrite write_at, bind_ret by lia. by rewrite <- app_assoc, zlen_app. }
  rewrite bind_ret, (content_ok b f Hb), bind_ret. assert (Hd : zlen (drop (length sp) t) = zlen t - zlen sp) by (apply zlen_drop; destruct first; lia).
  rewrite write_at, bind_ret by (destruct first; lia). pose proof (zlen_drop f (drop (length sp) t) ltac:(destruct first; lia)) as Hd'. rewrite (app_assoc _ f), <- (zlen_app (dn ++ sp) f).
  destruct (IH false ((dn ++ sp) ++ f) (drop (length f) (drop (length sp) t))) as (t' & -> & Hz).
  { destruct fs as [|g fs]; [by right|left]. destruct Hjoin as [_ Hj]. rewrite Hj in Hr by done. destruct first; lia. }
  exists t'. assert (Hout : ((dn ++ sp) ++ f) ++ (if false || bool_decide (fs = []) then [] else sep) ++ join sep fs = dn ++ sp ++ join sep (f :: fs)).
  { destruct fs as [|g fs]; cbn [orb]; rewrite ?bool_decide_eq_true_2, ?bool_decide_eq_false_2, ?join_cons by done; cbn [join app]; by rewrite ?app_nil_r, <- ?app_assoc. }
  rewrite Hout in *. rewrite !zlen_app in *. split; [done|lia].
Qed.

Lemma bjoin_ok g fs sb sep : entries (bl_entry g) fs -> fs <> [] -> holds sb sep -> zlen (join sep fs) + 1 <= LIMIT ->
  exists b, bjoin malloc junk (Some g) (Some sb) = Ok (Some b) /\ holds b (join sep fs).
Proof.
  intros He Hne Hsb Hl. destruct mem as [Hmal _]. unfold bjoin. destruct (holds_length sb sep Hsb) as (Hs & Hsz & _). rewrite Hs, (proj2 (Z.ltb_ge _ _)) by lia.
  assert (bool_decide (data sb = None) = false) as -> by (destruct Hsb as (r & -> & _); done). cbn [orb]. pose proof (join_total sep fs Hne) as Ht. assert (0 <= total fs) by apply zlen_nonneg.
  assert (Hq : zlen (bl_entry g) = zlen fs) by (unfold zlen; by rewrite (Forall2_length He)). assert (0 <= (zlen fs - 1) * zlen sep) by (destruct fs; [done|rewrite zlen_cons; pose proof (zlen_nonneg fs); nia]).
  rewrite (join_len_ok _ fs 1 He) by (unfold INT_MAX, LIMIT in *; lia). rewrite bind_ret, (content_ok sb sep Hsb), !bind_ret, Hq. rewrite imul_ok, bind_ret by (unfold INT_MIN, INT_MAX, LIMIT in *; lia).
  rewrite iadd_ok, bind_ret by (unfold INT_MIN, INT_MAX, LIMIT in *; lia). replace (1 + total fs + (zlen fs - 1) * zlen sep) with (zlen (join sep fs) + 1) by lia.
  pose proof (zlen_nonneg (join sep fs)). rewrite u64_small by (unfold LIMIT in *; lia). rewrite !Hmal. cbn [negb].
  destruct (join_loop_ok sep _ fs He true [] (junk (zlen (join sep fs) + 1))) as (t' & E & Hz); [left; rewrite junk_len by lia; lia|]. cbn [orb app] in E, Hz. change (zlen []) with 0 in E, Hz. rewrite E, bind_ret.
  rewrite junk_len in Hz by lia. destruct (seal 0 (join sep fs) t' (zlen (join sep fs) + 1)) as (b & Eb & Hb & _); [lia..|].
  exists b. split; [|done]. replace (zlen (join sep fs) + 1 - 1) with (zlen (join sep fs)) by lia. destruct (poke _ _ _) as [x|]; [|done]. cbn in Eb |- *. by injection Eb as ->.
Qed.

(** ** Lines *)

(** up to the terminator, which belongs to the line; what is left; whether the stream ended first *)
Fixpoint first_line (terminator : byte) (stream : bytes) : bytes * bytes * bool :=
  match stream with
  | [] => ([], [], true)
  | c :: r => if terminates terminator c then ([c], r, false) else let '(ln, rest, ended) := first_line terminator r in (c :: ln, rest, ended)
  end.

Lemma gets_loop_ok terminator : forall stream s t sl m ln rest ended,
  zlen s + zlen t = m -> 0 < zlen t -> m <= LIMIT -> zlen s + zlen stream + 3 < LIMIT -> first_line terminator stream = (ln, rest, ended) ->
  exists m' sl' t', gets_loop malloc realloc junk (Some (BS m sl (Some (s ++ t)))) stream (zlen s) (m - 2) terminator =
      Ok (Some (zlen (s ++ ln), ended), Some (BS m' sl' (Some ((s ++ ln) ++ t'))), rest) /\
    zlen (s ++ ln) + zlen t' = m' /\ 0 < zlen t' /\ m' <= LIMIT.
Proof.
  induction stream as [|c stream IH]; intros s t sl m ln rest ended Hm Ht Hl Hs Hf.
  { cbn in Hf. injection Hf as <- <- <-. exists m, sl, t. by rewrite app_nil_r. }
  cbn [gets_loop]. rewrite zlen_cons in Hs. pose proof (zlen_nonneg s). pose proof (zlen_nonneg stream).
  assert (exists m1 sl1 c1 t1, (if m - 2 <? zlen s then d2 ← iadd (zlen s) 2; '(rc, b) ← balloc malloc realloc junk (Some (BS m (zlen s) (Some (s ++ t)))) d2;
        match b with Some s => Ok (rc =? BSTR_OK, b, mlen s - 2) | None => Fault NullDeref end else Ok (true, Some (BS m sl (Some (s ++ t))), m - 2)) =
      Ok (true, Some (BS m1 sl1 (Some (s ++ c1 :: t1))), m1 - 2) /\ zlen s + (1 + zlen t1) = m1 /\ 0 < zlen t1 /\ m1 <= LIMIT) as (m1 & sl1 & c1 & t1 & -> & Hm1 & Ht1 & Hl1).
  { destruct (Z.ltb_spec (m - 2) (zlen s)) as [Hlt|Hge].
    - rewrite iadd_ok, bind_ret by (unfold INT_MIN, INT_MAX, LIMIT in *; lia). subst m. destruct (balloc_any malloc realloc junk junk_len s t (zlen s + 2) Ht Hl ltac:(lia)) as (rc & b' & -> & Hb & [(-> & Hbig)|(_ & Hno)]); [|by destruct Hno].
      rewrite bind_ret. cbn [Z.eqb BSTR_OK]. destruct Hb as [->|(r & -> & Hr)]; [cbn [mlen] in Hbig; lia|]. unfold cell in *. cbn [mlen] in *. exists (zlen s + 1 + zlen r), (zlen s), Byte.x00, r. split_and!; [done|lia|lia|lia].
    - destruct t as [|c1 t1]; [by cbn in Ht|]. rewrite zlen_cons in *. exists m, sl, c1, t1. split_and!; [done|lia|lia|lia]. }
  rewrite bind_ret. cbn [negb]. rewrite poke_mid, bind_ret. cbn [first_line] in Hf. assert (Es : s ++ c :: t1 = (s ++ [c]) ++ t1) by (by rewrite <- app_assoc). rewrite Es.
  assert (Hsc : zlen s + 1 = zlen (s ++ [c])) by (by rewrite zlen_app). rewrite Hsc. destruct (terminates terminator c).
  - injection Hf as <- <- <-. exists m1, sl1, t1. split_and!; [done|lia|lia|lia].
  - destruct (first_line terminator stream) as [[ln' rest'] ended'] eqn:El. injection Hf as <- <- <-. destruct (IH (s ++ [c]) t1 sl1 m1 ln' rest' ended') as (m' & sl' & t' & E & Hok); [lia|lia|lia|lia|done|].
    assert (Ec : (s ++ [c]) ++ ln' = s ++ c :: ln') by (by rewrite <- app_assoc). rewrite Ec in E, Hok. exists m', sl', t'. split; [exact E|exact Hok].
Qed.

(** [bgets] returns the next line with its terminator and leaves the stream behind it; NULL only at the end of the stream *)
Lemma bgets_line terminator stream ln rest ended : first_line terminator stream = (ln, rest, ended) -> zlen stream + 3 < LIMIT ->
  exists o, bgets malloc realloc junk stream terminator = Ok (o, rest) /\ match o with Some b => holds b ln /\ ln <> [] | None => stream = [] end.
Proof.
  intros Hf Hl. unfold bgets. destruct (made_ok _ _ (bfromcstralloc_ok malloc realloc junk junk_len [] None eq_refl ltac:(done))) as (b & E & Hb). unfold bfromcstr. rewrite E, bind_ret.
  unfold bgetsa, gets_from. destruct Hb as (r & -> & Hr). unfold cell. cbn [slen]. change (zlen (cstr [])) with 0 in *. assert (Hbr : forall d, broken (BS (0 + 1 + zlen r) 0 d) = false) by (intros d; apply (cell_sound [] r)).
  rewrite Hbr. cbn [mlen].
  destruct (gets_loop_ok terminator stream [] (Byte.x00 :: r) 0 (0 + 1 + zlen r) ln rest ended) as (m' & sl' & t' & El & Hm & Ht & Hl'); [rewrite zlen_cons; change (zlen []) with 0; lia|rewrite zlen_cons; pose proof (zlen_nonneg r); lia|done|done|done|].
  cbn [app] in El, Hm. change (zlen []) with 0 in El. change (cstr [] ++ Byte.x00 :: r) with (Byte.x00 :: r). rewrite El, bind_ret.
  destruct (seal 0 ln t' m' Hm Hl' Ht) as (b' & Eb & Hb' & _). destruct (poke (ln ++ t') (zlen ln) Byte.x00) as [x|]; [|done]. cbn in Eb. injection Eb as <-. rewrite !bind_ret.
  pose proof (zlen_nonneg ln). assert (((if (zlen ln =? 0) && ended then 1 else 0) <? 0) = false) as -> by (by destruct ((zlen ln =? 0) && ended)). cbn [orb slen].
  destruct (Z.leb_spec (zlen ln) 0) as [H0|H0].
  - exists None. split; [done|]. destruct stream as [|c st]; [done|]. cbn in Hf. destruct (terminates terminator c), (first_line terminator st) as [[a1 a2] a3]; injection Hf as <- <- <-; rewrite zlen_cons in H0; try pose proof (zlen_nonneg a1); try change (zlen []) with 0 in H0; lia.
  - eexists. split; [done|]. split; [done|]. by intros ->.
Qed.
End Memory.

(** Splitting a string at a character and joining the pieces with that character gives the string again, whatever is in it. *)
Theorem split_join malloc realloc junk b s c sb :
  (forall n, 0 <= n -> zlen (junk n) = n) -> memory malloc realloc -> holds b s -> holds sb [c] -> zlen s + 2 < LIMIT ->
  exists g b', bsplit malloc realloc junk (Some b) c = Ok (Some g) /\ entries (bl_entry g) (fields (same_byte c) s) /\
    bjoin malloc junk (Some g) (Some sb) = Ok (Some b') /\ holds b' s.
Proof.
  intros Hj Hmem Hb Hsb Hs. destruct (bsplit_ok malloc realloc junk Hj Hmem b s c Hb Hs) as (g & E & He). pose proof (join_fields c s) as Hjf.
  destruct (bjoin_ok malloc realloc junk Hj Hmem g _ sb [c] He) as (b' & E' & Hb'); [destruct (fields_cons (same_byte c) s) as (f & fs & ->); done|done|rewrite Hjf; lia|].
  rewrite Hjf in Hb'. exists g, b'. done.
Qed.

(** [bsplit] stores a piece there is no memory for as NULL, and [bjoin] follows it *)
Example join_null malloc junk g sep : bl_entry g = [None] -> bjoin malloc junk (Some g) (Some (cell sep [])) = Fault NullDeref.
Proof. intros E. unfold bjoin, cell. pose proof (zlen_nonneg sep). cbn [slen data]. rewrite (proj2 (Z.ltb_ge _ _)), E by lia. done. Qed.

(** the sign of [bstricmp] is that of the characters, not of the letters: a is before B, and behind it *)
Example icmp_no_order : icmp_loop (lit "a") (lit "B") = 31 /\ icmp_loop (lit "a") (lit "b") = -1.
Proof. done. Qed.

(** a terminator above 127 is negative as a [char] and never equals what was read *)
Example high_terminator_unseen c : terminates Byte.xff c = false.
Proof. by destruct c. Qed.
End BStringListProps.
