(* ===== verification/BStringFormat.v ===== *)
(** * BStringFormat: formatted strings of [src/src/myriad/bstring/bstrlib.c]

    [bformata], [bassignformat] and [bformat] print into a buffer whose size they do not know: they try with
    [vsnprintf], look at the length of what came out and try again with a greater buffer.  The text that the format
    and its arguments stand for is an argument here; what is modelled is how much of it arrives.  The last section
    connects the functions to the sequences with which the other files print. *)

From Stdlib Require Import ZArith Lia.
From S2P Require Import Prelude Node NodeRep BString BStringProps BStringMake.
Import BString BStringProps BStringMake.
Local Open Scope Z_scope.

Module BStringFormat.

Definition START_VSNBUFF : Z := 16.

(** C99: at most [n - 1] bytes and a NUL; the result is the length of the whole text, or negative when no [int] can hold it *)
Definition vsnprintf (x : bytes) (n : Z) (out : bytes) : res (Z * bytes) :=
  x ← write x 0 (take (Z.to_nat (n - 1)) out ++ [Byte.x00]);
  Ok (if int_ok (zlen out) then zlen out else -1, x).

Section Memory.
Context (malloc realloc : Z -> bool) (junk : Z -> bytes).

(** the loop; [None] when there is no memory and the buffer is gone *)
Fixpoint format_loop (fuel : nat) (buff : option bs) (n : Z) (out : bytes) : res (option bs) :=
  match fuel with
  | O => Fault NoFuel
  | S f =>
    match buff with
    | Some (BS m _ (Some x)) =>
      n1 ← iadd n 1;
      '(r, x) ← vsnprintf x n1 out;
      x ← poke x n Byte.x00;
      let buff := BS m (i32 (zlen (cstr x))) (Some x) in
      if slen buff <? n then Ok (Some buff) else
      n ← (if n <? r then Ok r else iadd n n);
      n2 ← iadd n 2;
      '(rc, buff) ← balloc malloc realloc junk (Some buff) n2;
      if negb (rc =? BSTR_OK) then Ok None else format_loop f buff n out
    | _ => Fault NullDeref
    end
  end.

(** an [int] can be doubled less often *)
Definition format_fuel : nat := 40.

Definition format_buffer (fmt : bytes) (out : bytes) : res (option bs) :=
  let n := i32 (2 * zlen (cstr fmt)) in
  let n := if n <? START_VSNBUFF then START_VSNBUFF else n in
  n2 ← iadd n 2;
  buff ← bfromcstralloc malloc junk (Some n2) (Some []);
  match buff with
  | Some _ => format_loop format_fuel buff n out
  | None =>
    buff ← bfromcstralloc malloc junk (Some 3) (Some []);
    match buff with Some _ => format_loop format_fuel buff 1 out | None => Ok None end
  end.

(** [out] is what [fmt] and the arguments that follow it print *)
Definition bformata (b : option bs) (fmt : option bytes) (out : bytes) : res (Z * option bs) :=
  match b, fmt with
  | Some (BS m s (Some d)), Some fmt =>
    if broken (BS m s (Some d)) then Ok (BSTR_ERR, b) else
    buff ← format_buffer fmt out;
    match buff with None => Ok (BSTR_ERR, b) | Some _ => bconcat malloc realloc junk b (Other buff) end
  | _, _ => Ok (BSTR_ERR, b)
  end.

Definition bassignformat (b : option bs) (fmt : option bytes) (out : bytes) : res (Z * option bs) :=
  match b, fmt with
  | Some (BS m s (Some d)), Some fmt =>
    if broken (BS m s (Some d)) then Ok (BSTR_ERR, b) else
    buff ← format_buffer fmt out;
    match buff with None => Ok (BSTR_ERR, b) | Some _ => bassign malloc realloc junk b (Other buff) end
  | _, _ => Ok (BSTR_ERR, b)
  end.

Definition bformat (fmt : option bytes) (out : bytes) : res (option bs) :=
  match fmt with None => Ok None | Some fmt => format_buffer fmt out end.

End Memory.

(** ** One attempt *)

Lemma cstr_app_nul (a r : bytes) : cstr (a ++ Byte.x00 :: r) = cstr a.
Proof. induction a as [|c a IH]; [done|]. cbn. by rewrite IH. Qed.

Lemma cstr_take n (s : bytes) : cstr (take n s) = take n (cstr s).
Proof. revert n. induction s as [|c s IH]; intros [|n]; [done..|]. cbn. destruct (bool_decide (c = Byte.x00)); [done|]. cbn. by rewrite IH. Qed.

(** a NUL stands behind a C string, if there is one at all *)
Lemma cstr_split (x : bytes) : Byte.x00 ∈ x -> exists rest, x = cstr x ++ Byte.x00 :: rest.
Proof.
  induction x as [|c x IH]; [by intros H%elem_of_nil|]. intros H. cbn. destruct (bool_decide_reflect (c = Byte.x00)) as [->|Hc]; [by exists x|].
  destruct IH as [rest E]; [by apply elem_of_cons in H as [H|H]; [congruence|]|]. exists rest. cbn. by rewrite <- E.
Qed.

Lemma cstr_short (s : bytes) : zlen (cstr s) <= zlen s.
Proof. induction s as [|c s IH]; [done|]. cbn [cstr]. pose proof (zlen_nonneg s). rewrite zlen_cons. destruct (bool_decide _); [change (zlen []) with 0|rewrite zlen_cons]; lia. Qed.

(** the text and then NULs, wherever the second one goes *)
Lemma attempt_ok (x out : bytes) n : 0 <= n -> n + 1 <= zlen x ->
  exists x1 x2, write x 0 (take (Z.to_nat n) out ++ [Byte.x00]) = Ok x1 /\ poke x1 n Byte.x00 = Ok x2 /\ zlen x2 = zlen x /\
    cstr x2 = take (Z.to_nat n) (cstr out) /\ Byte.x00 ∈ x2.
Proof.
  intros Hn Hx. rewrite <- cstr_take. assert (Hc : zlen (take (Z.to_nat n) out) <= n) by (unfold zlen; rewrite length_take; lia). set (c := take _ out) in *. clearbody c.
  assert (Hc1 : zlen (c ++ [Byte.x00]) = zlen c + 1) by (by rewrite zlen_app).
  pose proof (write_at [] x (c ++ [Byte.x00])) as Hw. cbn [app] in Hw. change (zlen []) with 0 in Hw. rewrite Hw by lia. clear Hw.
  pose proof (zlen_drop (c ++ [Byte.x00]) x ltac:(lia)) as Hd. rewrite <- app_assoc. cbn [app]. set (t := drop _ x) in *. clearbody t. pose proof (zlen_nonneg c). exists (c ++ Byte.x00 :: t).
  destruct (Z.eq_dec n (zlen c)) as [->|Hne].
  - exists (c ++ Byte.x00 :: t). rewrite poke_mid, cstr_app_nul, zlen_app, zlen_cons. split_and!; [done|done|lia|done|set_solver].
  - destruct (split_at t (n - zlen c - 1)) as (u & v & -> & Hu); [lia|]. rewrite zlen_app in Hd. destruct v as [|z v]; [change (zlen []) with 0 in Hd; lia|].
    exists (c ++ Byte.x00 :: u ++ Byte.x00 :: v). replace n with (zlen (c ++ Byte.x00 :: u)) by (rewrite zlen_app, zlen_cons; lia).
    pose proof (poke_mid (c ++ Byte.x00 :: u) z v Byte.x00) as Hp. rewrite <- !app_assoc in Hp. cbn [app] in Hp. rewrite Hp, cstr_app_nul. rewrite !zlen_app, !zlen_cons, !zlen_app, !zlen_cons in *. split_and!; [done|done|lia|done|set_solver].
Qed.

Section Format.
Context (malloc realloc : Z -> bool) (junk : Z -> bytes) (junk_len : forall n, 0 <= n -> zlen (junk n) = n).

(** what one attempt leaves in the buffer, and what comes after it *)
Lemma attempts_ok out f buff c n : zlen out < LIMIT -> holds buff c -> 1 <= n -> n + 2 < LIMIT -> n + 1 <= mlen buff ->
  exists buff', holds buff' (take (Z.to_nat n) (cstr out)) /\ mlen buff' = mlen buff /\
    format_loop malloc realloc junk (S f) (Some buff) n out =
      if zlen (cstr out) <? n then Ok (Some buff') else
      let n := if n <? zlen out then zlen out else n + n in
      '(rc, b) ← balloc malloc realloc junk (Some buff') (n + 2); if negb (rc =? BSTR_OK) then Ok None else format_loop malloc realloc junk f b n out.
Proof.
  intros Hout (rest & -> & Hl) Hn Hlim Hm. cbn [mlen cell] in *. assert (HL : LIMIT < 2 ^ 30) by (unfold LIMIT; lia). pose proof (zlen_nonneg out). pose proof (cstr_short out). pose proof (zlen_nonneg (cstr out)).
  destruct (attempt_ok (c ++ Byte.x00 :: rest) out n) as (x1 & x2 & E1 & E2 & Hx & Hcs & Hnul); [lia|rewrite zlen_app, zlen_cons; lia|]. destruct (cstr_split x2 Hnul) as [rest2 Ex].
  rewrite Hcs in Ex. set (o := take (Z.to_nat n) (cstr out)) in *. assert (Hlen : zlen o = Z.min n (zlen (cstr out))) by (unfold o, zlen; rewrite length_take; lia).
  rewrite zlen_app, zlen_cons in Hx. assert (Hx2 : zlen x2 = zlen o + 1 + zlen rest2) by (rewrite Ex, zlen_app, zlen_cons; lia).
  exists (cell o rest2). split_and!; [exists rest2; split; [done|lia]|cbn; lia|]. cbn [format_loop]. unfold cell.
  rewrite (iadd_ok n 1), bind_ret by (unfold INT_MIN, INT_MAX; lia). unfold vsnprintf. replace (n + 1 - 1) with n by lia. rewrite E1, !bind_ret, E2, bind_ret. cbn [slen]. rewrite Hcs, i32_small by lia.
  assert (int_ok (zlen out) = true) as -> by (unfold int_ok, INT_MIN, INT_MAX; lia). replace (zlen o <? n) with (zlen (cstr out) <? n) by (apply eq_true_iff_eq; rewrite !Z.ltb_lt; lia).
  destruct (zlen (cstr out) <? n) eqn:Elt; [f_equal; f_equal; rewrite <- Ex; f_equal; lia|]. apply Z.ltb_ge in Elt. set (n' := if n <? zlen out then zlen out else n + n).
  assert ((if n <? zlen out then Ok (zlen out) else iadd n n) = Ok n') as -> by (unfold n'; destruct (n <? zlen out); [done|apply iadd_ok; unfold INT_MIN, INT_MAX; lia]).
  rewrite bind_ret, iadd_ok, bind_ret by (unfold n', INT_MIN, INT_MAX; destruct (n <? zlen out); lia). cbn zeta. rewrite <- Ex. by replace (zlen o + 1 + zlen rest2) with (zlen c + 1 + zlen rest) by lia.
Qed.

(** three attempts are enough: the second has room for the text, and the third for one more byte *)
Lemma format_loop_ok out : 2 * zlen out + 3 < LIMIT -> forall f buff c n,
  holds buff c -> 1 <= n -> n + 2 < LIMIT -> n + 1 <= mlen buff -> (zlen out < n \/ zlen out = n /\ (1 <= f)%nat \/ (2 <= f)%nat) ->
  made malloc realloc (format_loop malloc realloc junk (S f) (Some buff) n out) (cstr out).
Proof.
  intros Hout. pose proof (zlen_nonneg out). pose proof (cstr_short out). induction f as [|f IH]; intros buff c n Hb Hn Hlim Hm Hf;
    (match goal with |- context [format_loop _ _ _ (S ?k)] => destruct (attempts_ok out k buff c n ltac:(lia) Hb Hn Hlim Hm) as (buff' & Hb' & Hm' & ->) end); (destruct (Z.ltb_spec (zlen (cstr out)) n) as [Hlt|Hge];
      [left; exists buff'; split; [done|]; by rewrite take_ge in Hb' by (unfold zlen in *; lia)|]); [lia|].
  cbn zeta. set (n' := if n <? zlen out then zlen out else n + n). assert (Hn' : n' = zlen out /\ n < zlen out \/ n' = n + n /\ zlen out = n) by (unfold n'; destruct (Z.ltb_spec n (zlen out)); lia). clearbody n'.
  destruct (balloc_ok malloc realloc junk junk_len buff' _ (n' + 2) Hb' ltac:(lia)) as (rc & b & -> & Hbb & [(-> & Hmm)|(-> & Hmm)]); rewrite bind_ret; cbn [Z.eqb BSTR_OK BSTR_ERR negb]; [|by right].
  eapply IH; [exact Hbb|lia|lia|lia|lia].
Qed.

Lemma format_buffer_ok fmt out : 2 * zlen out + 3 < LIMIT -> 2 * zlen (cstr fmt) + 2 < LIMIT -> made malloc realloc (format_buffer malloc realloc junk fmt out) (cstr out).
Proof.
  intros Hout Hfmt. assert (HL : LIMIT < 2 ^ 30) by (unfold LIMIT; lia). assert (HL' : 100 < LIMIT) by (unfold LIMIT; lia). pose proof (zlen_nonneg (cstr fmt)). unfold format_buffer. rewrite i32_small by lia.
  set (n := if 2 * zlen (cstr fmt) <? START_VSNBUFF then START_VSNBUFF else 2 * zlen (cstr fmt)). assert (Hn : 16 <= n /\ n + 2 < LIMIT) by (unfold n, START_VSNBUFF; destruct (Z.ltb_spec (2 * zlen (cstr fmt)) 16); lia). clearbody n.
  rewrite iadd_ok, bind_ret by (unfold INT_MIN, INT_MAX; lia).
  destruct (bfromcstralloc_room malloc realloc junk junk_len [] (Some (n + 2))) as [(b & E & Hb & Hm)|(E & Hno)]; [reflexivity|cbn; lia| |]; cbn [default id] in *; rewrite E, bind_ret.
  - apply format_loop_ok with (c := []); [done|done|lia|lia|lia|]. right. right. unfold format_fuel. lia.
  - destruct (bfromcstralloc_room malloc realloc junk junk_len [] (Some 3)) as [(b & E' & Hb & Hm)|(E' & _)]; [reflexivity|cbn; lia| |]; cbn [default id] in *; rewrite E', bind_ret; [|by right].
    apply format_loop_ok with (c := []); [done|done|lia|lia|lia|]. right. right. unfold format_fuel. lia.
Qed.

Lemma bformata_ok b s fmt out : holds b s -> zlen s + 2 * zlen out + 3 < LIMIT -> 2 * zlen (cstr fmt) + 2 < LIMIT ->
  outcome malloc realloc (bformata malloc realloc junk (Some b) (Some fmt) out) s (s ++ cstr out).
Proof.
  intros Hb Hl Hfmt. pose proof (zlen_nonneg s). pose proof (zlen_nonneg out). pose proof (cstr_short out). pose proof Hb as (rest & E & _). unfold bformata. rewrite E at 1. unfold cell at 1. rewrite cell_sound.
  destruct (format_buffer_ok fmt out ltac:(lia) Hfmt) as [(x & -> & (r & -> & Hr))|(-> & Hno)]; rewrite bind_ret; [|exists BSTR_ERR, b; eauto].
  apply (concat_ok malloc realloc junk junk_len b s (Text (cstr out) r) Hb). cbn. lia.
Qed.

Lemma bassignformat_ok b s fmt out : holds b s -> zlen s + 2 * zlen out + 3 < LIMIT -> 2 * zlen (cstr fmt) + 2 < LIMIT ->
  outcome malloc realloc (bassignformat malloc realloc junk (Some b) (Some fmt) out) s (cstr out).
Proof.
  intros Hb Hl Hfmt. pose proof (zlen_nonneg s). pose proof (zlen_nonneg out). pose proof (cstr_short out). pose proof Hb as (rest & E & _). unfold bassignformat. rewrite E at 1. unfold cell at 1. rewrite cell_sound.
  destruct (format_buffer_ok fmt out ltac:(lia) Hfmt) as [(x & -> & (r & -> & Hr))|(-> & Hno)]; rewrite bind_ret; [|exists BSTR_ERR, b; eauto].
  apply (assign_ok malloc realloc junk junk_len b s (Text (cstr out) r) Hb). cbn. lia.
Qed.
End Format.

(** ** What is printed *)

(** C11: the formatting functions print all of their text and return: whatever the text is, however often the buffer
    was too small for it, [bformata] appends it up to its first NUL, [bassignformat] puts it in the place of the content and
    [bformat] makes a string of it, unless there is no memory, and then the content is what it was; every access is within
    the buffers, and no [int] overflows. *)
Theorem formats_whole_text malloc realloc junk b s fmt out :
  (forall n, 0 <= n -> zlen (junk n) = n) -> holds b s -> zlen s + 2 * zlen out + 3 < LIMIT -> 2 * zlen (cstr fmt) + 2 < LIMIT ->
  outcome malloc realloc (bformata malloc realloc junk (Some b) (Some fmt) out) s (s ++ cstr out) /\
  outcome malloc realloc (bassignformat malloc realloc junk (Some b) (Some fmt) out) s (cstr out) /\
  made malloc realloc (bformat malloc realloc junk (Some fmt) out) (cstr out).
Proof.
  intros Hj Hb Hl Hfmt. pose proof (zlen_nonneg s). pose proof (zlen_nonneg out).
  split_and!; [by apply bformata_ok|by apply bassignformat_ok|apply format_buffer_ok; [done|lia|done]].
Qed.

(** a text of forty bytes, a format of two *)
Lemma formats_whole_text_witness :
  exists b, bformata (fun _ => true) (fun _ => true) (fun n => replicate (Z.to_nat n) Byte.xff) (Some (cell [Byte.x61] [])) (Some (lit "%s")) (replicate 40 Byte.x62) = Ok (BSTR_OK, Some b) /\
    holds b (Byte.x61 :: replicate 40 Byte.x62).
Proof.
  destruct (formats_whole_text (fun _ => true) (fun _ => true) (fun n => replicate (Z.to_nat n) Byte.xff) (cell [Byte.x61] []) [Byte.x61] (lit "%s") (replicate 40 Byte.x62)) as ((rc & b & E & Ho) & _).
  - intros n Hn. unfold zlen. rewrite length_replicate. lia.
  - exists []. by vm_compute.
  - reflexivity.
  - reflexivity.
  - destruct Ho as [(-> & Hb)|(_ & _ & Hm)]; [|exfalso; apply Hm; split; intros n; reflexivity]. exists b. split; [exact E|exact Hb].
Defined.

(** the sequences with which the trees are printed are what the strings hold *)
Lemma bformata_prints malloc realloc junk b s fmt out :
  (forall n, 0 <= n -> zlen (junk n) = n) -> memory malloc realloc -> holds b s -> zlen s + 2 * zlen out + 3 < LIMIT -> 2 * zlen (cstr fmt) + 2 < LIMIT ->
  exists b', bformata malloc realloc junk (Some b) (Some fmt) out = Ok (BSTR_OK, Some b') /\ holds b' (Node.Node.bformata s out).
Proof.
  intros Hj Hm Hb Hl Hfmt. destruct (bformata_ok malloc realloc junk Hj b s fmt out Hb Hl Hfmt) as (rc & b' & E' & [(-> & Hb')|(_ & _ & Hno)]); [eauto|done].
Qed.
End BStringFormat.
