(* ===== verification/BStringReplaceProps.v ===== *)
(** * BStringReplaceProps: find and replace computes the replacement of all occurrences

    The content behind the start position is cut into the pieces between the occurrences, the occurrences and what is
    behind the last one.  Each loop of the engine is followed along these pieces. *)

From Stdlib Require Import ZArith Lia.
From S2P Require Import Prelude BString BStringProps BStringSearch BStringReplace.
Import BString BStringProps BStringSearch BStringReplace.
Local Open Scope Z_scope.

Module BStringReplaceProps.

(** ** Occurrences *)

Section Occurrences.
Context (same : byte -> byte -> bool) (y : bytes).
Abbreviation at_front := (starts same).

Lemma starts_spec (s : bytes) : at_front y s = true <-> zlen y <= zlen s /\ forall j a b, y !! j = Some a -> s !! j = Some b -> same a b = true.
Proof.
  revert s. induction y as [|c y' IH]; intros [|d s]; cbn [starts].
  - split; [intros _|done]. split; [done|]. intros j a b Hj. by rewrite lookup_nil in Hj.
  - split; [intros _|done]. split; [pose proof (zlen_nonneg (d :: s)); change (zlen []) with 0; lia|]. intros j a b Hj. by rewrite lookup_nil in Hj.
  - split; [done|]. intros [H _]. rewrite zlen_cons in H. pose proof (zlen_nonneg y'). change (zlen []) with 0 in H. lia.
  - rewrite andb_true_iff, IH, !zlen_cons. split.
    + intros (Hc & Hl & Hall). split; [lia|]. intros [|j] a b Ha Hb; cbn in Ha, Hb; [congruence|eauto].
    + intros (Hl & Hall). split_and!; [by apply (Hall 0%nat)|lia|]. intros j a b Ha Hb. by apply (Hall (S j)).
Qed.

Lemma found_spec (s : bytes) i : found_at same y s i <-> 0 <= i <= zlen s /\ at_front y (drop (Z.to_nat i) s) = true.
Proof.
  rewrite starts_spec. unfold found_at. pose proof (zlen_nonneg y). split.
  - intros (Hi & Hl & Hall). split_and!; [lia|lia|unfold zlen in *; rewrite length_drop; lia|]. intros j a b Ha Hb. rewrite lookup_drop in Hb. eauto.
  - intros (Hi & Hl & Hall). split_and!; [lia|unfold zlen in *; rewrite length_drop in Hl; lia|]. intros j a b Ha Hb. rewrite <- lookup_drop in Hb. eauto.
Qed.

(** behind a prefix *)
Lemma found_behind (p s : bytes) i : 0 <= i -> found_at same y (p ++ s) (zlen p + i) <-> found_at same y s i.
Proof.
  intros Hi. rewrite !found_spec, zlen_app. pose proof (zlen_nonneg p). replace (Z.to_nat (zlen p + i)) with (length p + Z.to_nat i)%nat by (unfold zlen; lia). rewrite drop_app_add. split; intros [? ?]; (split; [lia|done]).
Qed.

(** pieces and occurrences, and what is behind the last one *)
Inductive parts : bytes -> list (bytes * bytes) -> bytes -> Prop :=
  | parts_end t : (forall i, ~ found_at same y t i) -> parts t [] t
  | parts_next g m s gs t : zlen m = zlen y -> at_front y (m ++ s) = true -> (forall i, i < zlen g -> ~ found_at same y (g ++ m ++ s) i) -> parts s gs t ->
    parts (g ++ m ++ s) ((g, m) :: gs) t.

Lemma first_occurrence (s : bytes) : y <> [] ->
  (forall i, ~ found_at same y s i) \/
  exists g m s', s = g ++ m ++ s' /\ zlen m = zlen y /\ at_front y (m ++ s') = true /\ forall i, i < zlen g -> ~ found_at same y s i.
Proof.
  intros Hne. induction s as [|c s IH].
  { left. intros i (Hi & Hl & _). destruct y as [|a y']; [done|]. rewrite zlen_cons in Hl. pose proof (zlen_nonneg y'). change (zlen []) with 0 in Hl. lia. }
  assert (Hback : forall i, found_at same y (c :: s) i -> i = 0 \/ 0 < i /\ found_at same y s (i - 1)).
  { intros i Hi. pose proof Hi as (Hi0 & _ & _). destruct (Z.eq_dec i 0) as [|Hz]; [by left|]. right. split; [lia|]. apply (found_behind [c] s (i - 1)); [lia|]. change (zlen [c]) with 1. by replace (1 + (i - 1)) with i by lia. }
  destruct (at_front y (c :: s)) eqn:Es.
  - right. pose proof (proj1 (starts_spec _) Es) as [Hl _]. destruct (split_at (c :: s) (zlen y)) as (m & s' & E & Hm); [pose proof (zlen_nonneg y); lia|]. exists [], m, s'. cbn [app]. rewrite E in *. split_and!; [done|done|done|].
    intros i Hi (Hi0 & _). change (zlen []) with 0 in Hi. lia.
  - assert (H0 : ~ found_at same y (c :: s) 0) by (intros [_ H]%found_spec; change (Z.to_nat 0) with 0%nat in H; rewrite drop_0 in H; congruence).
    destruct IH as [Hno|(g & m & s' & -> & Hm & Hs & Hno)].
    + left. intros i Hi. destruct (Hback i Hi) as [->|[_ Hf]]; [done|by eapply Hno].
    + right. exists (c :: g), m, s'. split_and!; [done|done|done|]. intros i Hi Hf. rewrite zlen_cons in Hi. destruct (Hback i Hf) as [->|[_ Hf']]; [done|]. eapply (Hno (i - 1)); [lia|done].
Qed.

Lemma parts_exist (s : bytes) : y <> [] -> exists gs t, parts s gs t.
Proof.
  intros Hne. remember (length s) as n eqn:En. revert s En. induction n as [n IH] using lt_wf_ind; intros s ->. destruct (first_occurrence s Hne) as [Hno|(g & m & s' & -> & Hm & Hs & Hno)].
  - exists [], s. by constructor.
  - destruct (IH (length s') ltac:(rewrite !length_app; destruct y; [done|rewrite zlen_cons in Hm; unfold zlen in Hm; lia]) s' eq_refl) as (gs & t & Hp). exists ((g, m) :: gs), t. by constructor.
Qed.

Definition old (gs : list (bytes * bytes)) : bytes := concat ((fun p => p.1 ++ p.2) <$> gs).
Definition new (r : bytes) (gs : list (bytes * bytes)) : bytes := concat ((fun p => p.1 ++ r) <$> gs).

Lemma parts_old s gs t : parts s gs t -> s = old gs ++ t.
Proof. induction 1 as [|g m s gs t _ _ _ _ ->]; [done|]. unfold old. cbn. by rewrite <- !app_assoc. Qed.

Lemma parts_len s gs t : parts s gs t -> Forall (fun p => zlen p.2 = zlen y) gs.
Proof. induction 1; by constructor. Qed.

(** the reference function along the pieces *)
Lemma replaced_end r t : (forall i, ~ found_at same y t i) -> replaced same y r 0 t = t.
Proof.
  induction t as [|c t IH]; intros Hno; [done|]. cbn [replaced]. destruct (at_front y (c :: t)) eqn:Es.
  - exfalso. apply (Hno 0). rewrite found_spec. split; [pose proof (zlen_nonneg (c :: t)); lia|done].
  - rewrite IH; [done|]. intros i Hi. pose proof Hi as (Hi0 & _). apply (Hno (1 + i)). by apply (found_behind [c] t i).
Qed.

Lemma replaced_skip r (m s : bytes) : replaced same y r (length m) (m ++ s) = replaced same y r 0 s.
Proof. induction m as [|c m IH]; [done|exact IH]. Qed.

Lemma replaced_next r g m s : zlen m = zlen y -> y <> [] -> at_front y (m ++ s) = true -> (forall i, i < zlen g -> ~ found_at same y (g ++ m ++ s) i) ->
  replaced same y r 0 (g ++ m ++ s) = g ++ r ++ replaced same y r 0 s.
Proof.
  intros Hm Hne Hs. induction g as [|c g IH]; intros Hno; cbn [app].
  - destruct m as [|c m]; [destruct y; [done|rewrite zlen_cons in Hm; unfold zlen in Hm; cbn in Hm; lia]|]. cbn [replaced app] in *. rewrite Hs. f_equal. rewrite !zlen_cons in Hm.
    replace (length y - 1)%nat with (length m) by (unfold zlen in Hm; lia). apply replaced_skip.
  - cbn [replaced]. rewrite zlen_cons in Hno. pose proof (zlen_nonneg g). destruct (at_front y (c :: g ++ m ++ s)) eqn:Es.
    + exfalso. apply (Hno 0); [lia|]. rewrite found_spec. split; [pose proof (zlen_nonneg ((c :: g) ++ m ++ s)); lia|done].
    + rewrite IH; [done|]. intros i Hi Hf. pose proof Hf as (Hi0 & _). apply (Hno (1 + i)); [lia|]. by apply (found_behind [c] (g ++ m ++ s) i).
Qed.

Lemma parts_new r s gs t : y <> [] -> parts s gs t -> replaced same y r 0 s = new r gs ++ t.
Proof.
  intros Hne. induction 1 as [t Hno|g m s gs t Hm Hs Hno Hp IH]; [by apply replaced_end|]. rewrite replaced_next, IH by done. unfold new. cbn. by rewrite <- !app_assoc.
Qed.

(** the search from the end of a prefix finds the end of the first piece *)
Lemma find_part b auxf p s gs t : holds b (p ++ s) -> holds auxf y -> parts s gs t ->
  find_forward same (Some b) (zlen p) (Some auxf) = Ok (match gs with [] => BSTR_ERR | (g, _) :: _ => zlen p + zlen g end).
Proof.
  intros Hb Hf Hp. destruct (search_finds_first same b (p ++ s) auxf y (zlen p) Hb Hf (zlen_nonneg p)) as (i & -> & Hi). f_equal. inversion Hp as [t' Hno|g m s' gs' t' Hm Hs Hno Hp']; subst.
  - destruct Hi as [(Hi & Hfi & _)|[-> _]]; [|done]. exfalso. apply (Hno (i - zlen p)). apply (found_behind p t (i - zlen p)); [lia|]. by replace (zlen p + (i - zlen p)) with i by lia.
  - assert (Hat : found_at same y (p ++ g ++ m ++ s') (zlen p + zlen g)).
    { apply found_behind; [apply zlen_nonneg|]. rewrite <- (Z.add_0_r (zlen g)). apply found_behind; [lia|]. rewrite found_spec. split; [pose proof (zlen_nonneg (m ++ s')); lia|done]. }
    pose proof (zlen_nonneg g). destruct Hi as [(Hi & Hfi & Hbef)|[_ Hnone]]; [|exfalso; apply (Hnone (zlen p + zlen g)); [lia|done]].
    destruct (Z.lt_trichotomy i (zlen p + zlen g)) as [Hlt|[->|Hgt]]; [|done|exfalso; apply (Hbef (zlen p + zlen g)); [lia|done]].
    exfalso. apply (Hno (i - zlen p)); [lia|]. apply (found_behind p (g ++ m ++ s') (i - zlen p)); [lia|]. by replace (zlen p + (i - zlen p)) with i by lia.
Qed.
End Occurrences.

(** ** Moving bytes *)

(** [c] over the front of [u] *)
Lemma write_down w u v c : zlen c <= zlen u -> exists u', write (w ++ u ++ v) (zlen w) c = Ok (w ++ c ++ u' ++ v) /\ zlen u' = zlen u - zlen c.
Proof.
  intros Hc. destruct (split_at u (zlen c)) as (a & u' & -> & Ha); [pose proof (zlen_nonneg c); lia|]. exists u'. rewrite zlen_app. split; [|lia]. rewrite <- (app_assoc a). by rewrite write_mid.
Qed.

(** [c] over the end of [u] *)
Lemma write_up w u v c n : zlen c <= zlen u -> n = zlen w + zlen u - zlen c -> exists u', write (w ++ u ++ v) n c = Ok (w ++ u' ++ c ++ v) /\ zlen u' = zlen u - zlen c.
Proof.
  intros Hc ->. destruct (split_at u (zlen u - zlen c)) as (u' & a & -> & Hu); [pose proof (zlen_nonneg c); lia|]. exists u'. rewrite zlen_app in *. split; [|lia].
  replace (zlen w + (zlen u' + zlen a) - zlen c) with (zlen (w ++ u')) by (rewrite zlen_app; lia). rewrite <- (app_assoc u'), (app_assoc w u'), write_mid by lia. by rewrite <- !app_assoc.
Qed.

(** a piece goes down over what was left over *)
Lemma move_piece (w z g v : bytes) pos i : pos = zlen w + zlen z -> i = pos + zlen g ->
  exists z', (if negb (zlen z =? 0) && (pos <? i) then c ← slice (w ++ z ++ g ++ v) pos (i - pos); write (w ++ z ++ g ++ v) (pos - zlen z) c else Ok (w ++ z ++ g ++ v)) = Ok (w ++ g ++ z' ++ v) /\ zlen z' = zlen z.
Proof.
  intros -> ->. pose proof (zlen_nonneg z). pose proof (zlen_nonneg g). destruct (Z.eqb_spec (zlen z) 0) as [Hz|Hz]; cbn [negb andb].
  { exists []. destruct z as [|c z]; [done|]. rewrite zlen_cons in Hz. pose proof (zlen_nonneg z). lia. }
  destruct (Z.ltb_spec (zlen w + zlen z) (zlen w + zlen z + zlen g)) as [Hg|Hg].
  - replace (zlen w + zlen z + zlen g - (zlen w + zlen z)) with (zlen g) by lia. assert (slice (w ++ z ++ g ++ v) (zlen w + zlen z) (zlen g) = Ok g) as -> by (rewrite (app_assoc w), <- zlen_app; apply slice_mid). rewrite bind_ret. replace (zlen w + zlen z - zlen z) with (zlen w) by lia.
    destruct (write_down w (z ++ g) v g) as (z' & E & Hz'); [rewrite zlen_app; lia|]. rewrite <- app_assoc in E. exists z'. rewrite zlen_app in Hz'. split; [exact E|lia].
  - exists z. destruct g as [|c g]; [done|]. rewrite zlen_cons in Hg. pose proof (zlen_nonneg g). lia.
Qed.

(** the replacement goes over what is left over and the occurrence *)
Lemma put_down (w u v r : bytes) : zlen r <= zlen u -> exists u', (if negb (zlen r =? 0) then write (w ++ u ++ v) (zlen w) r else Ok (w ++ u ++ v)) = Ok (w ++ r ++ u' ++ v) /\ zlen u' = zlen u - zlen r.
Proof.
  intros Hr. destruct (Z.eqb_spec (zlen r) 0) as [Hz|Hz]; cbn [negb]; [|by apply write_down]. exists u. destruct r as [|c r]; [split; [done|change (zlen (@nil byte)) with 0; lia]|]. rewrite zlen_cons in Hz. pose proof (zlen_nonneg r). lia.
Qed.

(** a piece goes up over the room behind it *)
Lemma move_up (w h z D : bytes) s l : s = zlen w -> l = zlen h ->
  exists z', (if negb (l =? 0) then c ← slice (w ++ h ++ z ++ D) s l; write (w ++ h ++ z ++ D) (s + zlen z) c else Ok (w ++ h ++ z ++ D)) = Ok (w ++ z' ++ h ++ D) /\ zlen z' = zlen z.
Proof.
  intros -> ->. destruct (Z.eqb_spec (zlen h) 0) as [Hh|Hh]; cbn [negb].
  - exists z. destruct h as [|c h]; [done|]. rewrite zlen_cons in Hh. pose proof (zlen_nonneg h). lia.
  - rewrite slice_mid, bind_ret. pose proof (zlen_nonneg z). destruct (write_up w (h ++ z) D h (zlen w + zlen z)) as (z' & E & Hz'); [rewrite zlen_app; lia..|]. rewrite <- app_assoc in E. exists z'. rewrite zlen_app in Hz'. split; [exact E|lia].
Qed.

(** ** The loops *)

Section Loops.
Context (same : byte -> byte -> bool) (y r : bytes) (auxf : bs) (Hf : holds auxf y) (Hne : y <> []).

Lemma some_byte : 0 < zlen y.
Proof. clear Hf. destruct y as [|a y']; [done|]. rewrite zlen_cons. pose proof (zlen_nonneg y'). lia. Qed.

Lemma parts_count s gs t : parts same y s gs t -> Z.of_nat (length gs) <= zlen s.
Proof.
  pose proof some_byte. induction 1 as [|g m s gs t Hm _ _ _ IH]; [apply zlen_nonneg|]. cbn [length]. rewrite !zlen_app. pose proof (zlen_nonneg g). lia.
Qed.

(** the buffer as a string that holds its content *)
Lemma buffer_holds (p s rest : bytes) m n : m = zlen p + zlen s + 1 + zlen rest -> n = zlen p + zlen s -> m <= LIMIT -> holds (BS m n (Some (p ++ s ++ Byte.x00 :: rest))) (p ++ s).
Proof. intros -> -> Hl. exists rest. unfold cell. rewrite zlen_app, <- app_assoc. split; [done|lia]. Qed.

Lemma auxf_len : slen auxf = zlen y.
Proof. apply (holds_length _ _ Hf). Qed.

Lemma next_pos (p g m s rest : bytes) : zlen m = zlen y -> zlen p + zlen (g ++ m ++ s) + 1 + zlen rest <= LIMIT -> iadd (zlen p + zlen g) (slen auxf) = Ok (zlen p + zlen g + zlen y).
Proof.
  intros Hm Hl. rewrite auxf_len. rewrite !zlen_app in Hl. pose proof (zlen_nonneg p). pose proof (zlen_nonneg g). pose proof (zlen_nonneg s). pose proof (zlen_nonneg rest). pose proof (zlen_nonneg y).
  apply iadd_ok. unfold INT_MIN, INT_MAX, LIMIT in *. lia.
Qed.

Lemma same_loop_ok s gs t : parts same y s gs t -> zlen r = zlen y -> forall (p rest : bytes) m n fuel,
  m = zlen p + zlen s + 1 + zlen rest -> n = zlen p + zlen s -> m <= LIMIT -> (length gs < fuel)%nat ->
  same_loop (find_forward same) fuel m n (p ++ s ++ Byte.x00 :: rest) auxf r (zlen p) = Ok (p ++ new r gs ++ t ++ Byte.x00 :: rest).
Proof.
  intros Hp Hr. induction Hp as [t Hno|g w s gs t Hw Hs Hno Hp IH]; intros p rest m n fuel Hm Hn Hl Hfu; destruct fuel as [|fuel]; [lia| |lia|]; cbn [same_loop].
  - rewrite (find_part same y _ auxf p t [] t (buffer_holds p t rest m n Hm Hn Hl) Hf) by (by constructor). done.
  - rewrite (find_part same y _ auxf p _ _ t (buffer_holds p _ rest m n Hm Hn Hl) Hf (parts_next same y g w s gs t Hw Hs Hno Hp)). rewrite bind_ret.
    pose proof (zlen_nonneg p). pose proof (zlen_nonneg g). rewrite (proj2 (Z.ltb_ge (zlen p + zlen g) 0)) by lia. rewrite <- zlen_app, <- !app_assoc, (app_assoc p g), write_mid, bind_ret by lia.
    rewrite zlen_app, (next_pos p g w s rest) by lia. rewrite bind_ret. replace (zlen p + zlen g + zlen y) with (zlen ((p ++ g) ++ r)) by (rewrite !zlen_app; lia).
    rewrite (app_assoc (p ++ g) r), (IH ((p ++ g) ++ r) rest m n fuel); [|rewrite !zlen_app in *; lia|rewrite !zlen_app in *; lia|done|cbn in Hfu; lia].
    f_equal. unfold new. cbn. by rewrite <- !app_assoc.
Qed.

(** [z] is what is left over between the two ends *)
Lemma shrink_loop_ok s gs t : parts same y s gs t -> zlen r < zlen y -> forall (w z rest : bytes) m n fuel,
  m = zlen w + zlen z + zlen s + 1 + zlen rest -> n = zlen w + zlen z + zlen s -> m <= LIMIT -> (length gs < fuel)%nat ->
  exists z', shrink_loop (find_forward same) fuel m n (w ++ z ++ s ++ Byte.x00 :: rest) auxf r (zlen y - zlen r) (zlen w + zlen z) (zlen z) =
    Ok (w ++ new r gs ++ z' ++ t ++ Byte.x00 :: rest, zlen w + zlen (new r gs) + zlen z', zlen z') /\ zlen z' = zlen z + Z.of_nat (length gs) * (zlen y - zlen r).
Proof.
  intros Hp Hr. induction Hp as [t Hno|g k s gs t Hk Hs Hno Hp IH]; intros w z rest m n fuel Hm Hn Hl Hfu; destruct fuel as [|fuel]; [lia| |lia|]; cbn [shrink_loop];
    pose proof (zlen_nonneg w); pose proof (zlen_nonneg z); pose proof (zlen_nonneg rest); rewrite <- (zlen_app w z), (app_assoc w z).
  - exists z. rewrite (find_part same y _ auxf (w ++ z) t [] t) by (done || (by constructor) || (apply buffer_holds; rewrite ?zlen_app; lia)). rewrite bind_ret, zlen_app. cbn [Z.ltb Z.compare BSTR_ERR].
    change (new r []) with (@nil byte). change (zlen (@nil byte)) with 0. rewrite Z.add_0_r, <- app_assoc. cbn [length]. split; [done|lia].
  - rewrite (find_part same y _ auxf (w ++ z) _ _ t) by (done || (by constructor) || (apply buffer_holds; rewrite ?zlen_app in *; lia)). rewrite bind_ret. pose proof (zlen_nonneg g). pose proof (zlen_nonneg r). pose proof (zlen_nonneg s).
    rewrite (zlen_app w z). rewrite (proj2 (Z.ltb_ge (zlen w + zlen z + zlen g) 0)) by lia. rewrite <- !app_assoc.
    destruct (move_piece w z g (k ++ s ++ Byte.x00 :: rest) (zlen w + zlen z) (zlen w + zlen z + zlen g) eq_refl eq_refl) as (z1 & -> & Hz1). rewrite bind_ret.
    replace (zlen w + zlen z + zlen g - zlen z) with (zlen (w ++ g)) by (rewrite zlen_app; lia). destruct (put_down (w ++ g) (z1 ++ k) (s ++ Byte.x00 :: rest) r) as (z2 & E & Hz2); [rewrite zlen_app; lia|].
    rewrite <- !app_assoc in E. rewrite E, bind_ret. clear E. rewrite zlen_app in Hz2. rewrite !zlen_app in Hm, Hn. rewrite (iadd_ok (zlen z)), bind_ret by (unfold INT_MIN, INT_MAX, LIMIT in *; lia).
    rewrite auxf_len, iadd_ok, bind_ret by (unfold INT_MIN, INT_MAX, LIMIT in *; lia).
    destruct (IH (w ++ g ++ r) z2 rest m n fuel) as (z' & E & Hz'); [rewrite !zlen_app; lia|rewrite !zlen_app; lia|done|cbn in Hfu; lia|].
    exists z'. rewrite <- !app_assoc in E. replace (zlen z + (zlen y - zlen r)) with (zlen z2) by lia. replace (zlen w + zlen z + zlen g + zlen y) with (zlen (w ++ g ++ r) + zlen z2) by (rewrite !zlen_app; lia).
    rewrite E. change (new r ((g, k) :: gs)) with ((g ++ r) ++ new r gs). rewrite !zlen_app, <- !app_assoc. cbn [length]. split; [do 2 f_equal; f_equal; lia|lia].
Qed.

(** where the occurrences are *)
Fixpoint places (base : Z) (gs : list (bytes * bytes)) : list Z :=
  match gs with [] => [] | (g, k) :: gs => (base + zlen g) :: places (base + zlen g + zlen k) gs end.

Lemma places_length base gs : length (places base gs) = length gs.
Proof. revert base. induction gs as [|[g k] gs IH]; intros base; [done|]. cbn. by rewrite IH. Qed.

Lemma places_snoc gs g k : forall base, places base (gs ++ [(g, k)]) = places base gs ++ [base + zlen (old gs) + zlen g].
Proof.
  induction gs as [|[g' k'] gs IH]; intros base; [change (zlen (old [])) with 0; cbn; do 2 f_equal; lia|]. cbn [places app]. rewrite IH.
  change (old ((g', k') :: gs)) with ((g' ++ k') ++ old gs). rewrite !zlen_app. do 2 f_equal. f_equal. f_equal. lia.
Qed.

(** the array grows while there are places to remember *)
Lemma grow_ok malloc realloc (d : list Z) mlen cap : 0 < mlen <= cap -> zlen d < mlen -> zlen d < 2 ^ 26 ->
  let grown := if mlen <=? zlen d + 1 then mlen ← iadd mlen mlen; let sl := i32 (u64 (sizeof_pointer * mlen)) in Ok (if (sl <? mlen) || negb (realloc sl) then None else Some (mlen, sl / sizeof_int)) else Ok (Some (mlen, cap)) in
  (exists mlen' cap', grown = Ok (Some (mlen', cap')) /\ 0 < mlen' <= cap' /\ zlen d + 1 < mlen') \/ grown = Ok None /\ ~ memory malloc realloc.
Proof.
  intros Hm Hd Hl. pose proof (zlen_nonneg d). cbn zeta. destruct (Z.leb_spec mlen (zlen d + 1)) as [Hle|Hgt]; [|left; exists mlen, cap; split_and!; [done|lia..]].
  rewrite iadd_ok, bind_ret by (unfold INT_MIN, INT_MAX; lia). unfold sizeof_pointer, sizeof_int. unfold u64. rewrite Z.mod_small by lia. rewrite i32_small by lia. rewrite (proj2 (Z.ltb_ge (8 * (mlen + mlen)) _)) by lia. cbn [orb].
  destruct (realloc (8 * (mlen + mlen))) eqn:Er; cbn [negb]; [|right; split; [done|intros [_ Hr]; by rewrite Hr in Er]].
  left. exists (mlen + mlen), (8 * (mlen + mlen) / 4). split; [done|]. assert (8 * (mlen + mlen) / 4 = 2 * (mlen + mlen)) as -> by (replace (8 * (mlen + mlen)) with (2 * (mlen + mlen) * 4) by lia; apply Z.div_mul; lia). lia.
Qed.

Lemma places_loop_ok malloc realloc s gs t : parts same y s gs t -> zlen y < zlen r -> forall (p : bytes) b (d : list Z) acc mlen cap fuel,
  holds b (p ++ s) -> 0 <= acc -> acc + Z.of_nat (length gs) * (zlen r - zlen y) < LIMIT -> 0 < mlen <= cap -> zlen d < mlen -> zlen d + Z.of_nat (length gs) < 2 ^ 26 -> (length gs < fuel)%nat ->
  (exists cap', places_loop realloc (find_forward same) fuel b auxf (zlen y - zlen r) (zlen p) acc d mlen cap = Ok (Some (d ++ places (zlen p) gs, acc + Z.of_nat (length gs) * (zlen r - zlen y), cap')) /\
     zlen (d ++ places (zlen p) gs) < cap') \/
  places_loop realloc (find_forward same) fuel b auxf (zlen y - zlen r) (zlen p) acc d mlen cap = Ok None /\ ~ memory malloc realloc.
Proof.
  intros Hp Hr. induction Hp as [t Hno|g k s gs t Hk Hs Hno Hp IH]; intros p b d acc mlen cap fuel Hb Ha Hacc Hm Hd Hcnt Hfu; destruct fuel as [|fuel]; [lia| |lia|]; cbn [places_loop].
  - left. exists cap. rewrite (find_part same y _ auxf p t [] t Hb Hf) by (by constructor). cbn [places length]. rewrite app_nil_r, Z.mul_0_l, Z.add_0_r. split; [done|lia].
  - rewrite (find_part same y _ auxf p _ _ t Hb Hf (parts_next same y g k s gs t Hk Hs Hno Hp)). rewrite bind_ret. pose proof (holds_length _ _ Hb) as (_ & Hlen & Hml). rewrite !zlen_app in Hlen.
    pose proof (zlen_nonneg p). pose proof (zlen_nonneg g). pose proof (zlen_nonneg s). pose proof (zlen_nonneg y). rewrite (proj2 (Z.ltb_ge (zlen p + zlen g) 0)) by lia. cbn [length] in *.
    destruct (grow_ok malloc realloc d mlen cap Hm Hd ltac:(lia)) as [(mlen' & cap' & E & Hm' & Hd')|(E & Hno')]; cbn zeta in E; rewrite E, bind_ret; [|by right]. clear E.
    rewrite (proj2 (Z.leb_gt cap' (zlen d))) by lia. assert (Hrest : 0 <= Z.of_nat (length gs) * (zlen r - zlen y)) by nia. rewrite (iadd_ok acc), bind_ret by (unfold INT_MIN, INT_MAX, LIMIT in *; lia). rewrite auxf_len, iadd_ok, bind_ret by (unfold INT_MIN, INT_MAX, LIMIT in *; lia).
    rewrite (proj2 (Z.ltb_ge (zlen p + zlen g + zlen y) 0)), (proj2 (Z.ltb_ge (acc + - (zlen y - zlen r)) 0)) by lia. cbn [orb].
    assert (Hd1 : zlen (d ++ [zlen p + zlen g]) = zlen d + 1) by (by rewrite zlen_app).
    destruct (IH (p ++ g ++ k) b (d ++ [zlen p + zlen g]) (acc + - (zlen y - zlen r)) mlen' cap' fuel) as [(c & E & Hc)|(E & Hno')].
    1-7: rewrite <- ?app_assoc, ?Hd1; done || lia.
    + left. exists c. rewrite !zlen_app, Hk, Z.add_assoc, <- app_assoc in E, Hc. cbn [places]. rewrite Hk. split; [|exact Hc]. rewrite E. do 4 f_equal. lia.
    + right. rewrite !zlen_app, Hk, Z.add_assoc in E. done.
Qed.

Lemma old_snoc gs g k : old (gs ++ [(g, k)]) = old gs ++ g ++ k.
Proof. unfold old. rewrite fmap_app, concat_app. cbn. by rewrite app_nil_r. Qed.
Lemma new_snoc gs g k : new r (gs ++ [(g, k)]) = new r gs ++ g ++ r.
Proof. unfold new. rewrite fmap_app, concat_app. cbn. by rewrite app_nil_r. Qed.

Lemma two_lookups (A more : list Z) a b n : length A = n -> (A ++ a :: b :: more) !! n = Some a /\ (A ++ a :: b :: more) !! S n = Some b.
Proof. intros <-. split; [by apply list_lookup_middle|]. rewrite lookup_app_r by lia. by replace (S (length A) - length A)%nat with 1%nat by lia. Qed.

(** the pieces go up, the last one first; [h] is the one behind the last occurrence, [z] the room and [D] what has been placed *)
Lemma expand_loop_ok gs : Forall (fun p => zlen p.2 = zlen y) gs -> zlen y < zlen r -> forall (p h z D : bytes) (more : list Z),
  zlen z = Z.of_nat (length gs) * (zlen r - zlen y) -> zlen (p ++ old gs ++ h) < LIMIT ->
  expand_loop (length gs) (places (zlen p) gs ++ [zlen (p ++ old gs ++ h)] ++ more) (p ++ old gs ++ h ++ z ++ D) (zlen y) r (zlen y - zlen r) (zlen z) = Ok (p ++ new r gs ++ h ++ D).
Proof.
  intros Hgs Hr. induction gs as [|[g k] gs IH] using rev_ind; intros p h z D more Hz Hl.
  { cbn [length expand_loop]. destruct z as [|c z]; [done|]. rewrite zlen_cons in Hz. pose proof (zlen_nonneg z). cbn in Hz. lia. }
  apply Forall_app in Hgs as [Hgs Hk]. apply list.Forall_cons in Hk as [Hk _]. cbn [snd] in Hk. rewrite length_app in *. cbn [length] in *. rewrite Nat.add_1_r in *. cbn [expand_loop].
  rewrite places_snoc, <- app_assoc. cbn [app]. destruct (two_lookups (places (zlen p) gs) more (zlen p + zlen (old gs) + zlen g) (zlen (p ++ old (gs ++ [(g, k)]) ++ h)) (length gs) (places_length _ _)) as [-> ->]. cbn [need]. rewrite !bind_ret.
  rewrite old_snoc in *. rewrite <- !app_assoc in *. set (P := p ++ old gs ++ g ++ k). pose proof (zlen_nonneg k). pose proof (zlen_nonneg h). pose proof (zlen_nonneg p). pose proof (zlen_nonneg (old gs)). pose proof (zlen_nonneg g).
  assert (HP : zlen P = zlen p + zlen (old gs) + zlen g + zlen y) by (unfold P; rewrite !zlen_app; lia). rewrite !zlen_app in Hl. rewrite iadd_ok, bind_ret by (unfold INT_MIN, INT_MAX, LIMIT in *; lia). rewrite <- HP.
  assert (p ++ old gs ++ g ++ k ++ h ++ z ++ D = P ++ h ++ z ++ D) as -> by (unfold P; by rewrite <- !app_assoc).
  destruct (move_up P h z D (zlen P) (zlen (p ++ old gs ++ g ++ k ++ h) - zlen P) eq_refl) as (z1 & -> & Hz1); [rewrite !zlen_app; lia|]. rewrite bind_ret.
  assert (P ++ z1 ++ h ++ D = (p ++ old gs ++ g) ++ (k ++ z1) ++ h ++ D) as -> by (unfold P; by rewrite <- !app_assoc).
  rewrite (proj2 (Z.eqb_neq (zlen r) 0)) by (pose proof (zlen_nonneg y); lia). cbn [negb].
  destruct (write_up (p ++ old gs ++ g) (k ++ z1) (h ++ D) r (zlen P + zlen z - zlen r)) as (z2 & -> & Hz2); [rewrite !zlen_app; nia|rewrite !zlen_app; lia|].
  rewrite bind_ret. rewrite zlen_app in Hz2. replace (zlen z + (zlen y - zlen r)) with (zlen z2) by lia. rewrite <- !app_assoc.
  specialize (IH Hgs p g z2 (r ++ h ++ D) (zlen (p ++ old gs ++ g ++ k ++ h) :: more) ltac:(lia) ltac:(rewrite !zlen_app; lia)). cbn [app] in IH.
  replace (zlen (p ++ old gs ++ g)) with (zlen p + zlen (old gs) + zlen g) in IH by (rewrite !zlen_app; lia). rewrite IH. f_equal. rewrite new_snoc. by rewrite <- !app_assoc.
Qed.
End Loops.

(** ** The engine *)

Section Engine.
Context (malloc realloc : Z -> bool) (junk : Z -> bytes) (junk_len : forall n, 0 <= n -> zlen (junk n) = n).

Definition fits (a : source) : Prop := match a with Self => True | Text x spare => zlen x + 1 + zlen spare <= LIMIT end.

Lemma unalias_ok b s a pos : holds b s -> fits a -> 0 <= pos < zlen s -> zlen s + 2 < LIMIT ->
  (exists x, unalias malloc junk (Some b) (to_arg a) pos (zlen s) = Ok (Some x) /\ holds x (content s a)) \/ unalias malloc junk (Some b) (to_arg a) pos (zlen s) = Ok None /\ ~ memory malloc realloc.
Proof.
  intros Hb Hfit Hpos Hl. unfold unalias. destruct a as [|x spare]; cbn [to_arg arg_of is_same content].
  - pose proof (holds_length _ _ Hb) as (-> & _ & _). rewrite (proj2 (Z.ltb_lt (pos - zlen s) 0)), (proj2 (Z.ltb_lt 0 (zlen s))) by lia. cbn [andb]. apply bstrcpy_ok; done.
  - left. eexists. split; [done|]. by exists spare.
Qed.

Lemma zlen_new (y r : bytes) gs : Forall (fun p => zlen p.2 = zlen y) gs -> zlen (new r gs) = zlen (old gs) + Z.of_nat (length gs) * (zlen r - zlen y).
Proof.
  induction 1 as [|[g k] gs Hk _ IH]; [done|]. cbn [snd length] in *. change (new r ((g, k) :: gs)) with ((g ++ r) ++ new r gs). change (old ((g, k) :: gs)) with ((g ++ k) ++ old gs). rewrite !zlen_app. lia.
Qed.

Section Branches.
Context (same : byte -> byte -> bool) (y r : bytes) (auxf : bs) (Hf : holds auxf y) (Hne : y <> []).
Context (p s t rest : bytes) (gs : list (bytes * bytes)) (Hp : parts same y s gs t) (Hl : zlen (p ++ s) + 1 + zlen rest <= LIMIT).
Let b := cell (p ++ s) rest.
Let fuel := S (Z.to_nat (zlen (p ++ s))).

Lemma enough : (length gs < fuel)%nat.
Proof. pose proof (parts_count same y Hne s gs t Hp). pose proof (zlen_nonneg p). unfold fuel. rewrite zlen_app. lia. Qed.

Lemma same_branch : zlen r = zlen y ->
  outcome malloc realloc (x ← same_loop (find_forward same) fuel (mlen b) (slen b) ((p ++ s) ++ Byte.x00 :: rest) auxf r (zlen p); Ok (0, Some (BS (mlen b) (slen b) (Some x)))) (p ++ s) (p ++ new r gs ++ t).
Proof.
  intros Hr. pose proof enough. rewrite zlen_app in Hl. rewrite <- app_assoc. rewrite (same_loop_ok same y r auxf Hf s gs t Hp Hr p rest) by (unfold b; cbn [mlen slen cell]; rewrite ?zlen_app; done || lia). rewrite bind_ret.
  eapply done_with; [done|]. pose proof (zlen_new y r gs (parts_len _ _ _ _ _ Hp)) as Hn. rewrite Hr, Z.sub_diag, Z.mul_0_r in Hn. pose proof (parts_old _ _ _ _ _ Hp) as Hs. apply (f_equal zlen) in Hs. rewrite zlen_app in Hs.
  rewrite (app_assoc (new r gs)). apply buffer_holds; unfold b; cbn [mlen slen cell]; rewrite ?zlen_app; lia.
Qed.

Lemma shrink_branch : zlen r < zlen y ->
  outcome malloc realloc ('(x, pos, acc) ← shrink_loop (find_forward same) fuel (mlen b) (slen b) ((p ++ s) ++ Byte.x00 :: rest) auxf r (zlen y - zlen r) (zlen p) 0;
    if acc =? 0 then Ok (0, Some (BS (mlen b) (slen b) (Some x))) else
    x ← (if pos <? slen b then c ← slice x pos (slen b - pos); write x (pos - acc) c else Ok x);
    x ← poke x (slen b - acc) Byte.x00;
    Ok (0, Some (BS (mlen b) (slen b - acc) (Some x)))) (p ++ s) (p ++ new r gs ++ t).
Proof.
  intros Hr. pose proof enough. unfold b. cbn [mlen slen cell]. rewrite zlen_app in *. rewrite <- app_assoc.
  destruct (shrink_loop_ok same y r auxf Hf s gs t Hp Hr p [] rest (zlen p + zlen s + 1 + zlen rest) (zlen p + zlen s) fuel) as (z & E & Hz); change (zlen (@nil byte)) with 0 in *; [lia..|].
  rewrite Z.add_0_r in E. cbn [app] in E. rewrite E, bind_ret. clear E. pose proof (parts_old _ _ _ _ _ Hp) as Hs. pose proof (zlen_new y r gs (parts_len _ _ _ _ _ Hp)) as Hn.
  assert (Hlen : zlen s = zlen (old gs) + zlen t) by (by rewrite Hs, zlen_app). destruct (Z.eqb_spec (zlen z) 0) as [Hz0|Hz0].
  - eapply done_with; [done|]. destruct z as [|c z]; [|rewrite zlen_cons in Hz0; pose proof (zlen_nonneg z); lia]. cbn [app]. rewrite (app_assoc (new r gs)). apply buffer_holds; rewrite ?zlen_app; lia.
  - pose proof (move_piece (p ++ new r gs) z t (Byte.x00 :: rest) (zlen p + zlen (new r gs) + zlen z) (zlen p + zlen s)) as Hmv. rewrite !zlen_app in Hmv. rewrite (proj2 (Z.eqb_neq (zlen z) 0)) in Hmv by done. cbn [negb andb] in Hmv. rewrite <- !app_assoc in Hmv.
    destruct Hmv as (z' & -> & Hz'); [lia..|]. rewrite bind_ret, (app_assoc p (new r gs) t), (app_assoc _ t). pose proof (zlen_nonneg z). pose proof (zlen_nonneg rest). apply sealed; rewrite ?zlen_app, ?zlen_cons; done || lia.
Qed.

Lemma expand_branch : zlen y < zlen r -> zlen s < 2 ^ 26 -> zlen (p ++ new r gs ++ t) + 2 < LIMIT ->
  outcome malloc realloc (places ← places_loop realloc (find_forward same) fuel b auxf (zlen y - zlen r) (zlen p) 0 [] 32 32;
      match places with
      | None => Ok (BSTR_ERR, Some b)
      | Some (ds, acc, cap) =>
        if cap <=? zlen ds then Fault OutOfBounds else
        n ← iadd (slen b) acc; n1 ← iadd n 1;
        '(rc, b') ← balloc malloc realloc junk (Some b) n1;
        if negb (rc =? BSTR_OK) then Ok (rc, b') else
        match b' with
        | Some (BS m _ (Some x)) => x ← expand_loop (length ds) (ds ++ [slen b]) x (zlen y) r (zlen y - zlen r) acc; x ← poke x n Byte.x00; Ok (BSTR_OK, Some (BS m n (Some x)))
        | _ => Fault NullDeref
        end
      end) (p ++ s) (p ++ new r gs ++ t).
Proof.
  intros Hr Hs26 Hres. pose proof enough. assert (Hb : holds b (p ++ s)) by (by exists rest). pose proof (parts_count same y Hne s gs t Hp) as Hcnt. pose proof (parts_old _ _ _ _ _ Hp) as Hs. pose proof (parts_len _ _ _ _ _ Hp) as Hgs. pose proof (zlen_new y r gs Hgs) as Hn.
  assert (Hlen : zlen s = zlen (old gs) + zlen t) by (by rewrite Hs, zlen_app). rewrite !zlen_app in Hres. pose proof (zlen_nonneg p). pose proof (zlen_nonneg t). pose proof (zlen_nonneg (old gs)). pose proof (zlen_nonneg rest).
  destruct (places_loop_ok same y r auxf Hf malloc realloc s gs t Hp Hr p b [] 0 32 32 fuel Hb) as [(cap & -> & Hcap)|(-> & Hno)]; [lia|lia|lia|done|change (zlen (@nil Z)) with 0; lia|done| |]; rewrite bind_ret; [|exists BSTR_ERR, b; eauto].
  cbn [app] in *. rewrite (proj2 (Z.leb_gt cap _)) by lia. assert (Hgrow : 0 <= Z.of_nat (length gs) * (zlen r - zlen y)) by nia. set (acc := Z.of_nat (length gs) * (zlen r - zlen y)) in *. rewrite Z.add_0_l. assert (slen b = zlen p + zlen s) as -> by (unfold b; cbn; apply zlen_app).
  rewrite (iadd_ok _ acc), bind_ret by (unfold INT_MIN, INT_MAX, LIMIT in *; lia). rewrite iadd_ok, bind_ret by (unfold INT_MIN, INT_MAX, LIMIT in *; lia).
  destruct (balloc_ok malloc realloc junk junk_len b (p ++ s) (zlen p + zlen s + acc + 1) Hb ltac:(lia)) as (rc & b' & -> & Hb' & [(-> & Hm)|(-> & Hm)]); rewrite bind_ret; cbn [Z.eqb BSTR_OK BSTR_ERR negb]; [|exists BSTR_ERR, b'; eauto].
  destruct Hb' as (rest' & -> & Hl'). cbn [mlen cell] in Hm. unfold cell. rewrite zlen_app in *. destruct (split_at (Byte.x00 :: rest') acc) as (z & D & Ez & Hz); [rewrite zlen_cons; lia|]. rewrite Ez, places_length.
  assert (HD : 1 + zlen rest' = zlen z + zlen D) by (rewrite <- zlen_app, <- Ez, zlen_cons; lia).
  assert (expand_loop (length gs) (places (zlen p) gs ++ [zlen p + zlen s]) ((p ++ s) ++ z ++ D) (zlen y) r (zlen y - zlen r) acc = Ok (p ++ new r gs ++ t ++ D)) as ->.
  { pose proof (expand_loop_ok y r gs Hgs Hr p t z D [] Hz) as Hx. rewrite !zlen_app, Hz, <- Hlen, app_nil_r in Hx. rewrite <- Hx by lia. rewrite Hs at 2. by rewrite <- !app_assoc. }
  rewrite bind_ret, (app_assoc (new r gs)), (app_assoc p).
  apply sealed; rewrite ?zlen_app; done || lia.
Qed.
End Branches.

(** the three ways together *)
Lemma engine_ok same b s find repl pos : holds b s -> fits find -> fits repl -> content s find <> [] -> 0 <= pos -> zlen s < 2 ^ 26 ->
  zlen (substituted same (content s find) (content s repl) pos s) + 2 < LIMIT ->
  outcome malloc realloc (findreplaceengine malloc realloc junk (find_forward same) (Some b) (to_arg find) (to_arg repl) pos) s (substituted same (content s find) (content s repl) pos s).
Proof.
  intros Hb Hff Hfr Hne Hpos Hs26 Hres. set (y := content s find) in *. set (r := content s repl) in *. pose proof Hb as (rest & E & Hl). pose proof (zlen_nonneg r). pose proof (some_byte y Hne).
  destruct (arg_content s rest find) as (fm & ft & Ef). destruct (arg_content s rest repl) as (rm & rt & Er). fold y in Ef. fold r in Er.
  unfold findreplaceengine. rewrite E at 1. unfold cell at 1. unfold cell at 1 in Ef. unfold cell at 1 in Er. rewrite Ef, Er. rewrite cell_sound, (proj2 (Z.ltb_ge pos 0)), (proj2 (Z.leb_gt (zlen y) 0)), (proj2 (Z.ltb_ge (zlen r) 0)) by lia. cbn [orb]. unfold substituted in *.
  destruct (Z.ltb_spec (zlen s - zlen y) pos) as [Hfar|Hnear].
  { rewrite replaced_end, take_drop in *; [by eapply done_with| |]; intros i (Hi & Hli & _); unfold zlen in *; rewrite length_drop in Hli; lia. }
  assert (H26 : 2 ^ 26 + 2 < LIMIT) by (unfold LIMIT; lia).
  destruct (unalias_ok b s find pos Hb Hff ltac:(lia) ltac:(lia)) as [(auxf & -> & Hf)|(-> & Hno)]; rewrite bind_ret; [|exists BSTR_ERR, b; eauto]. fold y in Hf.
  destruct (unalias_ok b s repl pos Hb Hfr ltac:(lia) ltac:(lia)) as [(auxr & -> & Hr)|(-> & Hno)]; rewrite bind_ret; [|exists BSTR_ERR, b; eauto]. fold r in Hr.
  rewrite (auxf_len y auxf Hf), (auxf_len r auxr Hr). destruct Hr as (rr & -> & _). cbn [data cell need]. rewrite bind_ret, slice_front, bind_ret.
  destruct (split_at s pos) as (p & s' & Es & Hp); [lia|]. destruct (parts_exist same y s' Hne) as (gs & t & Hparts).
  assert (E1 : take (Z.to_nat pos) s = p) by (rewrite Es, <- Hp; unfold zlen; by rewrite Nat2Z.id, take_app_length).
  assert (E2 : drop (Z.to_nat pos) s = s') by (rewrite Es, <- Hp; unfold zlen; by rewrite Nat2Z.id, drop_app_length).
  rewrite E1, E2, (parts_new same y r s' gs t Hne Hparts) in *. clear E1 E2. rewrite <- Hp, E. clear E Hb Ef Er Hp. rewrite Es in *. fold r y.
  destruct (Z.eqb_spec (zlen y - zlen r) 0) as [Heq|Hneq]; [by apply (same_branch same y r auxf Hf Hne p s' t rest gs Hparts Hl); lia|].
  destruct (Z.ltb_spec 0 (zlen y - zlen r)) as [Hlt|Hge]; [by apply (shrink_branch same y r auxf Hf Hne p s' t rest gs Hparts Hl); lia|].
  apply (expand_branch same y r auxf Hf Hne p s' t rest gs Hparts Hl); [lia| |done]. rewrite zlen_app in Hs26. pose proof (zlen_nonneg p). lia.
Qed.
End Engine.

(** C9: find and replace is the replacement of all occurrences: from the start position on, each first occurrence of the one
    string, in the order of the content and without overlap, becomes the other one, whether that is shorter, longer or of
    the same length, case is ignored or not, and one or both of them are the string itself; the function returns,
    stays within the buffers and does not overflow, and if there is no memory the content is what it was. *)
Theorem replaces_all malloc realloc junk same b s find repl pos :
  (forall n, 0 <= n -> zlen (junk n) = n) -> holds b s -> fits find -> fits repl -> content s find <> [] -> 0 <= pos -> zlen s < 2 ^ 26 ->
  zlen (substituted same (content s find) (content s repl) pos s) + 2 < LIMIT ->
  outcome malloc realloc (findreplaceengine malloc realloc junk (find_forward same) (Some b) (to_arg find) (to_arg repl) pos) s
    (substituted same (content s find) (content s repl) pos s).
Proof. intros Hj. by apply engine_ok. Qed.

(** a letter by two, ignoring case *)
Lemma replaces_all_witness :
  exists b, bfindreplacecaseless (fun _ => true) (fun _ => true) (fun n => replicate (Z.to_nat n) Byte.xff) (Some (cell (lit "aXxbX") [])) (Other (Some (cell (lit "x") []))) (Other (Some (cell (lit "yz") []))) 1 = Ok (BSTR_OK, Some b) /\
    holds b (lit "ayzyzbyz").
Proof.
  destruct (replaces_all (fun _ => true) (fun _ => true) (fun n => replicate (Z.to_nat n) Byte.xff) same_letter (cell (lit "aXxbX") []) (lit "aXxbX") (Text (lit "x") []) (Text (lit "yz") []) 1) as (rc & b & E & Ho).
  - intros n Hn. unfold zlen. rewrite length_replicate. lia.
  - exists []. by vm_compute.
  - by vm_compute.
  - by vm_compute.
  - by vm_compute.
  - lia.
  - reflexivity.
  - reflexivity.
  - destruct Ho as [(-> & Hb)|(_ & _ & Hm)]; [|exfalso; apply Hm; split; intros n; reflexivity]. exists b. split; [exact E|exact Hb].
Defined.

(** the other two ways, and the string as its own replacement *)
Example replace_ways : let junk n := replicate (Z.to_nat n) Byte.xff in
  (exists b, bfindreplace (fun _ => true) (fun _ => true) junk (Some (cell (lit "ababa") [])) (Other (Some (cell (lit "ab") []))) (Other (Some (cell [] []))) 0 = Ok (BSTR_OK, Some b) /\ holds b (lit "a")) /\
  (exists b, bfindreplace (fun _ => true) (fun _ => true) junk (Some (cell (lit "aaa") [])) (Other (Some (cell (lit "aa") []))) (Other (Some (cell (lit "bc") []))) 0 = Ok (BSTR_OK, Some b) /\ holds b (lit "bca")) /\
  (exists b, bfindreplace (fun _ => true) (fun _ => true) junk (Some (cell (lit "ab") [])) (Other (Some (cell (lit "b") []))) Same 0 = Ok (BSTR_OK, Some b) /\ holds b (lit "aab")).
Proof.
  intros junk. assert (Hj : forall n, 0 <= n -> zlen (junk n) = n) by (intros n Hn; unfold zlen, junk; rewrite length_replicate; lia).
  assert (Hok : forall s y r b, outcome (fun _ => true) (fun _ => true) b s (substituted same_byte y r 0 s) -> exists b', b = Ok (BSTR_OK, Some b') /\ holds b' (substituted same_byte y r 0 s)).
  { intros s y r b (rc & b' & E & [(-> & Hb)|(_ & _ & Hm)]); [eauto|]. exfalso. apply Hm. by split. }
  split_and!; [apply (Hok (lit "ababa") (lit "ab") [])|apply (Hok (lit "aaa") (lit "aa") (lit "bc"))|apply (Hok (lit "ab") (lit "b") (lit "ab"))].
  - apply (engine_ok (fun _ => true) (fun _ => true) junk Hj same_byte _ (lit "ababa") (Text (lit "ab") []) (Text [] []) 0); [exists []; by vm_compute|by vm_compute..].
  - apply (engine_ok (fun _ => true) (fun _ => true) junk Hj same_byte _ (lit "aaa") (Text (lit "aa") []) (Text (lit "bc") []) 0); [exists []; by vm_compute|by vm_compute..].
  - apply (engine_ok (fun _ => true) (fun _ => true) junk Hj same_byte _ (lit "ab") (Text (lit "b") []) Self 0); [exists []; by vm_compute|by vm_compute..].
Qed.
End BStringReplaceProps.
