(* ===== verification/BStringStream.v ===== *)
(** * BStringStream: buffered streams of [src/src/myriad/bstring/bstrlib.c]

    A [bStream] puts a buffer in front of a function that reads: what has been read and not yet asked for is kept for
    the next call.  [rest] is what the reading function has not delivered yet; how much of it one call delivers
    is a parameter, so that short reads are included. *)

From Stdlib Require Import ZArith Lia.
From S2P Require Import Prelude BString BStringProps.
Import BString.
Local Open Scope Z_scope.

Module BStringStream.

(** [parm] is the handle of the stream below; [readFnPtr] says whether there is a function *)
Record bStream := MkStream { buff : option bs; parm : Z; readFnPtr : bool; isEOF : bool; maxBuffSz : Z }.

Definition set_buff (b : option bs) (s : bStream) : bStream := MkStream b (parm s) (readFnPtr s) (isEOF s) (maxBuffSz s).
Definition set_eof (s : bStream) : bStream := MkStream (buff s) (parm s) (readFnPtr s) true (maxBuffSz s).

Section Stream.
Context (malloc realloc : Z -> bool) (junk : Z -> bytes).
(** how many bytes a call that asks for [n] gets of what is left *)
Context (chunk : bytes -> Z -> Z).

Definition sizeof_bStream : Z := 32.

(** ** Opening and closing *)

Definition bsopen (readPtr : bool) (parm : Z) : res (option bStream) :=
  if negb readPtr then Ok None else
  if negb (malloc sizeof_bStream) then Ok None else
  b ← bfromcstr malloc junk (Some []);
  Ok (Some (MkStream b parm readPtr false BS_BUFF_SZ)).

Definition bsbufflength (s : option bStream) (sz : Z) : Z * option bStream :=
  match s with
  | None => (BSTR_ERR, s)
  | Some st =>
    if sz <? 0 then (BSTR_ERR, s) else
    (maxBuffSz st, if 0 <? sz then Some (MkStream (buff st) (parm st) (readFnPtr st) (isEOF st) sz) else s)
  end.

Definition bseof (s : option bStream) : res Z :=
  match s with
  | None => Ok BSTR_ERR
  | Some st =>
    if negb (readFnPtr st) then Ok BSTR_ERR else
    if negb (isEOF st) then Ok 0 else
    b ← need NullDeref (buff st);
    Ok (if slen b =? 0 then 1 else 0)
  end.

(** the handle, and what is left of the buffer *)
Definition bsclose (s : option bStream) : option Z * option bs :=
  match s with
  | None => (None, None)
  | Some st => (Some (parm st), match buff st with Some _ => (bdestroy (buff st)).2 | None => None end)
  end.

(** ** Reading *)

Definition fnread (st : bStream) (rest : bytes) (n : Z) : res bytes :=
  if readFnPtr st then Ok (take (Z.to_nat (Z.min n (chunk rest n))) rest) else Fault NullDeref.

(** [for (i = 0; !stop (b[i]); i++)] *)
Fixpoint scan (stop : byte -> bool) (x : bytes) (i : Z) : res Z :=
  match x with
  | [] => Fault OutOfBounds
  | c :: x' => if stop c then Ok i else scan stop x' (i + 1)
  end.

(** the loop that reads into [r]: [bm] and [bx] are the buffer of the stream, [bl] its length on entry, [rlo] the length that [r] had *)
Fixpoint readln_loop (fuel : nat) (stop : byte -> bool) (sentinel : byte) (r : option bs) (st : bStream) (bm bl : Z) (bx : bytes) (rlo : Z) (rest : bytes) : res (Z * option bs * bStream * bytes) :=
  match fuel with
  | O => Fault NoFuel
  | S f =>
    match r with
    | Some (BS _ rs _) =>
      n ← iadd rs (maxBuffSz st);
      n1 ← iadd n 1;
      '(rc, r) ← balloc malloc realloc junk r n1;
      if negb (rc =? BSTR_OK) then Ok (BSTR_ERR, r, set_buff (Some (BS bm bl (Some bx))) st, rest) else
      match r with
      | Some (BS rm _ (Some rx)) =>
        got ← fnread st rest (maxBuffSz st);
        rx ← write rx rs got;
        let rest := drop (length got) rest in
        let l := zlen got in
        if l <=? 0 then
          rx ← poke rx rs Byte.x00;
          Ok (if rs =? rlo then BSTR_ERR else 0, Some (BS rm rs (Some rx)), set_eof (set_buff (Some (BS bm 0 (Some bx))) st), rest)
        else
          rx ← poke rx (rs + l) sentinel;
          i ← scan stop (drop (Z.to_nat rs) rx) 0;
          if i <? l then
            let i := i + 1 in
            over ← slice rx (rs + i) (l - i);
            bx ← write bx 0 over;
            rx ← poke rx (rs + i) Byte.x00;
            Ok (BSTR_OK, Some (BS rm (rs + i) (Some rx)), set_buff (Some (BS bm (l - i) (Some bx))) st, rest)
          else readln_loop f stop sentinel (Some (BS rm (rs + l) (Some rx))) st bm bl bx rlo rest
      | _ => Fault NullDeref
      end
    | None => Fault NullDeref
    end
  end.

(** [bsreadlna] and [bsreadlnsa] from [l = s->buff->slen] on *)
Definition readln_from (stop : byte -> bool) (sentinel : byte) (r : option bs) (st : bStream) (rest : bytes) : res (Z * option bs * bStream * bytes) :=
  match r, buff st with
  | Some rr, Some (BS _ l _) =>
    n ← iadd (maxBuffSz st) 1;
    '(rc, bf) ← balloc malloc realloc junk (buff st) n;
    if negb (rc =? BSTR_OK) then Ok (BSTR_ERR, r, set_buff bf st, rest) else
    match bf with
    | Some (BS bm _ (Some bx)) =>
      bx ← poke bx l sentinel;
      i ← scan stop bx 0;
      if i <? l then
        '(ret, r) ← bconcat malloc realloc junk r (Other (Some (BS (-1) (i + 1) (Some bx))));
        bf ← (if ret =? BSTR_OK then '(_, bf) ← bdelete (Some (BS bm l (Some bx))) 0 (i + 1); Ok bf else Ok (Some (BS bm l (Some bx))));
        Ok (0, r, set_buff bf st, rest)
      else
        '(rc, r) ← bconcat malloc realloc junk r (Other (Some (BS (-1) l (Some bx))));
        if negb (rc =? BSTR_OK) then Ok (BSTR_ERR, r, set_buff (Some (BS bm l (Some bx))) st, rest) else
        readln_loop (S (length rest)) stop sentinel r st bm l bx (slen rr) rest
    | _ => Fault NullDeref
    end
  | _, _ => Fault NullDeref
  end.

(** the pointers that all readers test; [None] is the error *)
Definition live (r : option bs) (s : option bStream) : option (bs * bStream) :=
  match r, s with
  | Some rr, Some st => match buff st with Some _ => Some (rr, st) | None => None end
  | _, _ => None
  end.

(** the result of a reader, with the stream as a pointer *)
Definition back (x : res (Z * option bs * bStream * bytes)) : res (Z * option bs * option bStream * bytes) :=
  '(rc, r, st, rest) ← x; Ok (rc, r, Some st, rest).

Definition bsreadlna (r : option bs) (s : option bStream) (terminator : byte) (rest : bytes) : res (Z * option bs * option bStream * bytes) :=
  match live r s with
  | Some (rr, st) => if broken rr then Ok (BSTR_ERR, r, s, rest) else back (readln_from (fun c => bool_decide (c = terminator)) terminator r st rest)
  | None => Ok (BSTR_ERR, r, s, rest)
  end.

Definition bsreadlnsa (r : option bs) (s : option bStream) (term : option bs) (rest : bytes) : res (Z * option bs * option bStream * bytes) :=
  match live r s, term with
  | Some (rr, st), Some (BS _ n (Some td)) =>
    if broken rr then Ok (BSTR_ERR, r, s, rest) else
    if n =? 1 then c ← peek td 0; bsreadlna r s c rest else
    if n <? 1 then Ok (BSTR_ERR, r, s, rest) else
    cf ← buildCharField term;
    match cf with
    | None => Ok (BSTR_ERR, r, s, rest)
    | Some cf => c ← peek td 0; back (readln_from (testInCharField cf) c r st rest)
    end
  | _, _ => Ok (BSTR_ERR, r, s, rest)
  end.

(** the loop of [bsreada]: [l] bytes of [bx] are there, [n] is the length that [r] shall have *)
Fixpoint reada_loop (fuel : nat) (r : option bs) (st : bStream) (bm l : Z) (bx : bytes) (n : Z) (rest : bytes) : res (Z * option bs * bStream * bytes) :=
  match fuel with
  | O => Fault NoFuel
  | S f =>
    match r with
    | Some (BS _ rs _) =>
      let result (r : option bs) := match r with Some b => if slen b =? 0 then BSTR_ERR else 0 | None => BSTR_ERR end in
      have ← iadd l rs;
      if n <=? have then
        '(ret, r) ← bconcat malloc realloc junk r (Other (Some (BS (-1) (n - rs) (Some bx))));
        bf ← (if ret =? BSTR_OK then '(_, bf) ← bdelete (Some (BS bm l (Some bx))) 0 (n - rs); Ok bf else Ok (Some (BS bm l (Some bx))));
        Ok (result r, r, set_buff bf st, rest)
      else
        '(rc, r) ← bconcat malloc realloc junk r (Other (Some (BS (-1) l (Some bx))));
        if negb (rc =? BSTR_OK) then Ok (result r, r, (if l =? 0 then set_eof else fun s => s) (set_buff (Some (BS bm l (Some bx))) st), rest) else
        match r with
        | Some (BS _ rs _) =>
          let ask := if maxBuffSz st <? n - rs then maxBuffSz st else n - rs in
          got ← fnread st rest ask;
          bx ← write bx 0 got;
          let rest := drop (length got) rest in
          if 0 <? zlen got then reada_loop f r st bm (zlen got) bx n rest
          else Ok (result r, r, set_eof (set_buff (Some (BS bm 0 (Some bx))) st), rest)
        | None => Fault NullDeref
        end
    | None => Fault NullDeref
    end
  end.

Definition bsreada (r : option bs) (s : option bStream) (n : Z) (rest : bytes) : res (Z * option bs * option bStream * bytes) :=
  match live r s with
  | Some (rr, st) =>
    if broken rr || (n <=? 0) then Ok (BSTR_ERR, r, s, rest) else
    n ← iadd n (slen rr);
    if n <=? 0 then Ok (BSTR_ERR, r, s, rest) else
    let l := match buff st with Some b => slen b | None => 0 end in
    sz ← iadd (maxBuffSz st) 1;
    '(rc, bf) ← balloc malloc realloc junk (buff st) sz;
    if negb (rc =? BSTR_OK) then Ok (BSTR_ERR, r, Some (set_buff bf st), rest) else
    match bf with
    | Some (BS bm _ (Some bx)) => back (reada_loop (S (S (length rest))) r st bm l bx n rest)
    | _ => Fault NullDeref
    end
  | None => Ok (BSTR_ERR, r, s, rest)
  end.

(** what the readers that do not append do first: room in the buffer, and [r->slen = 0] *)
Definition anew (r : option bs) (s : option bStream) (rest : bytes) (k : option bs -> option bStream -> res (Z * option bs * option bStream * bytes)) : res (Z * option bs * option bStream * bytes) :=
  match live r s with
  | Some (rr, st) =>
    sz ← iadd (maxBuffSz st) 1;
    '(rc, bf) ← balloc malloc realloc junk (buff st) sz;
    let s := Some (set_buff bf st) in
    if negb (rc =? BSTR_OK) then Ok (BSTR_ERR, r, s, rest) else k (Some (BS (mlen rr) 0 (data rr))) s
  | None => Ok (BSTR_ERR, r, s, rest)
  end.

Definition no_room (r : option bs) : bool := match r with Some rr => mlen rr <=? 0 | None => true end.

Definition bsreadln (r : option bs) (s : option bStream) (terminator : byte) (rest : bytes) : res (Z * option bs * option bStream * bytes) :=
  if no_room r then Ok (BSTR_ERR, r, s, rest) else anew r s rest (fun r s => bsreadlna r s terminator rest).

Definition bsreadlns (r : option bs) (s : option bStream) (term : option bs) (rest : bytes) : res (Z * option bs * option bStream * bytes) :=
  match live r s, term with
  | Some _, Some (BS _ n (Some td)) =>
    if no_room r then Ok (BSTR_ERR, r, s, rest) else
    if n =? 1 then c ← peek td 0; bsreadln r s c rest else
    if n <? 1 then Ok (BSTR_ERR, r, s, rest) else
    anew r s rest (fun r s => bsreadlnsa r s term rest)
  | _, _ => Ok (BSTR_ERR, r, s, rest)
  end.

Definition bsread (r : option bs) (s : option bStream) (n : Z) (rest : bytes) : res (Z * option bs * option bStream * bytes) :=
  if no_room r || (n <=? 0) then Ok (BSTR_ERR, r, s, rest) else anew r s rest (fun r s => bsreada r s n rest).

(** ** Putting back and looking *)

Definition bsunread (s : option bStream) (b : option bs) : res (Z * option bStream) :=
  match s with
  | Some st =>
    match buff st with
    | Some _ => '(rc, bf) ← binsert malloc realloc junk (buff st) 0 (Other b) Byte.x3f; Ok (rc, Some (set_buff bf st))
    | None => Ok (BSTR_ERR, s)
    end
  | None => Ok (BSTR_ERR, s)
  end.

Definition bspeek (r : option bs) (s : option bStream) : res (Z * option bs) :=
  match s with
  | Some st => match buff st with Some _ => bassign malloc realloc junk r (Other (buff st)) | None => Ok (BSTR_ERR, r) end
  | None => Ok (BSTR_ERR, r)
  end.

(** ** Splitting a stream *)

Definition BSSSC_BUFF_LEN : Z := 256.

(** the callback, which is not NULL, sees the offset and the piece; it can use the stream *)
Section Split.
Context {G : Type} (cb : G -> Z -> bs -> option bStream -> bytes -> res (Z * G * option bStream * bytes)).

(** [while (bsreada (buff, s, BSSSC_BUFF_LEN) >= 0)] *)
Fixpoint drain_loop (fuel : nat) (b : option bs) (s : option bStream) (rest : bytes) : res (option bs * option bStream * bytes) :=
  match fuel with
  | O => Fault NoFuel
  | S f =>
    '(rc, b, s, rest) ← bsreada b s BSSSC_BUFF_LEN rest;
    if 0 <=? rc then drain_loop f b s rest else Ok (b, s, rest)
  end.

Fixpoint ssplit_loop (fuel : nat) (chrs : charField) (b : option bs) (s : option bStream) (p i : Z) (g : G) (rest : bytes) : res (Z * G * option bStream * bytes) :=
  match fuel with
  | O => Fault NoFuel
  | S f =>
    x ← need NullDeref b;
    '(b, s, rest) ← (if slen x <=? i then '(_, b, s, rest) ← bsreada b s BSSSC_BUFF_LEN rest; Ok (b, s, rest) else Ok (b, s, rest));
    x ← need NullDeref b;
    if slen x <=? i then
      '(ret, g, s, rest) ← cb g p x s rest;
      Ok (if 0 <? ret then 0 else ret, g, s, rest)
    else
      match x with
      | BS m n (Some d) =>
        c ← peek d i;
        if testInCharField chrs c then
          t ← slice d (i + 1) (n - (i + 1));
          '(ret, s) ← bsunread s (Some (BS (-1) (n - (i + 1)) (Some t)));
          if ret <? 0 then Ok (ret, g, s, rest) else
          d ← poke d i Byte.x00;
          '(ret, g, s, rest) ← cb g p (BS m i (Some d)) s rest;
          if ret <? 0 then Ok (ret, g, s, rest) else
          d ← poke d i c;
          p ← iadd p (i + 1);
          ssplit_loop f chrs (Some (BS m 0 (Some d))) s p 0 g rest
        else ssplit_loop f chrs b s p (i + 1) g rest
      | _ => Fault NullDeref
      end
  end.

(** a [splitStr] without data leaves the set of characters undefined *)
Definition bssplitscb (fuel : nat) (s : option bStream) (splitStr : option bs) (g : G) (rest : bytes) : res (Z * G * option bStream * bytes) :=
  match s, splitStr with
  | Some st, Some sp =>
    if negb (readFnPtr st) || (slen sp <? 0) then Ok (BSTR_ERR, g, s, rest) else
    b ← bfromcstr malloc junk (Some []);
    match b with
    | None => Ok (BSTR_ERR, g, s, rest)
    | Some _ =>
      if slen sp =? 0 then
        '(b, s, rest) ← drain_loop fuel b s rest;
        x ← need NullDeref b;
        '(ret, g, s, rest) ← cb g 0 x s rest;
        Ok (if 0 <? ret then 0 else ret, g, s, rest)
      else
        cf ← buildCharField splitStr;
        chrs ← need Uninitialised cf;
        ssplit_loop fuel chrs b s 0 0 g rest
    end
  | _, _ => Ok (BSTR_ERR, g, s, rest)
  end.
End Split.
End Stream.

End BStringStream.
