(* ===== verification/BStringStreamProps.v ===== *)
(** * BStringStreamProps: a buffered stream is a queue of bytes

    What is in the buffer and what has not been read yet make one sequence.  Every reader takes from its front what it
    promises, however the function below delivers, and leaves the rest; what is put back comes first again. *)

From Stdlib Require Import ZArith Lia.
From S2P Require Import Prelude BString BStringProps BStringMake BStringStream.
Import BString BStringProps BStringMake BStringStream.
Local Open Scope Z_scope.

Module BStringStreamProps.

(** ** Strings without a NUL behind the content

    The stream writes sentinels into its buffer and into the string it reads to. *)

Definition loose (b : bs) (s : bytes) : Prop := exists t, b = BS (zlen s + zlen t) (zlen s) (Some (s ++ t)) /\ 0 < zlen t /\ zlen s + zlen t <= LIMIT.

Lemma holds_loose b s : holds b s -> loose b s.
Proof. intros (rest & -> & Hl). exists (Byte.x00 :: rest). rewrite zlen_cons. pose proof (zlen_nonneg rest). split_and!; [unfold cell; f_equal; lia|lia|lia]. Qed.

Lemma loose_sound b s : loose b s -> broken b = false /\ slen b = zlen s /\ zlen s < mlen b /\ mlen b <= LIMIT.
Proof. intros (t & -> & Ht & Hl). pose proof (zlen_nonneg s). unfold broken. cbn [slen mlen]. lia. Qed.

(** the content cut off *)
Lemma loose_empty b s : loose b s -> loose (BS (mlen b) 0 (data b)) [].
Proof. intros (t & -> & Ht & Hl). exists (s ++ t). cbn [mlen data app]. rewrite zlen_app. pose proof (zlen_nonneg s). change (zlen []) with 0. split_and!; [f_equal; lia|lia|lia]. Qed.

Section Memory.
Context (malloc realloc : Z -> bool) (junk : Z -> bytes) (junk_len : forall n, 0 <= n -> zlen (junk n) = n) (Hmem : memory malloc realloc).

Lemma balloc_loose b s len : loose b s -> 0 < len < LIMIT -> exists b', balloc malloc realloc junk (Some b) len = Ok (BSTR_OK, Some b') /\ loose b' s /\ len < mlen b'.
Proof.
  intros Hb Hlen. pose proof Hb as (t & E & Ht & Hl). destruct (balloc_any malloc realloc junk junk_len s t len Ht Hl Hlen) as (rc & b' & E' & Hb' & [(-> & Hm)|(_ & Hno)]); [|done].
  exists b'. subst b. split_and!; [exact E'|destruct Hb' as [->|Hh]; [by exists t|by apply holds_loose]|done].
Qed.

Lemma concat_loose b s (x t : bytes) m : loose b s -> zlen s + zlen x + 2 < LIMIT ->
  exists b', bconcat malloc realloc junk (Some b) (Other (Some (BS m (zlen x) (Some (x ++ t))))) = Ok (0, Some b') /\ holds b' (s ++ x).
Proof.
  intros Hb Hs. cut (outcome malloc realloc (bconcat malloc realloc junk (Some b) (Other (Some (BS m (zlen x) (Some (x ++ t)))))) s (s ++ x)).
  { intros (rc & b' & E & [(-> & Hb')|(_ & _ & Hno)]); [eauto|done]. }
  pose proof Hb as (u & E & Hu & Hl). pose proof (zlen_nonneg s). pose proof (zlen_nonneg x). unfold bconcat. rewrite E at 1. cbn [arg_of]. rewrite (proj2 (Z.ltb_ge (zlen s) 0)), (proj2 (Z.ltb_ge (_ - _) 0)), (proj2 (Z.ltb_ge (zlen x) 0)) by lia. cbn [orb].
  rewrite (iadd_ok (zlen s)), bind_ret by (unfold INT_MIN, INT_MAX, LIMIT in *; lia). rewrite iadd_ok, bind_ret by (unfold INT_MIN, INT_MAX, LIMIT in *; lia). rewrite slice_front, bind_ret.
  assert (exists v, (if zlen s + zlen u <=? zlen s + zlen x + 1 then aux ← (if is_same (Other (Some (BS m (zlen x) (Some (x ++ t))))) then c ← bstrcpy malloc junk (Some b); Ok (bool_decide (c <> None)) else Ok true);
        if negb aux then Ok (false, Some b) else '(rc, b0) ← balloc malloc realloc junk (Some b) (zlen s + zlen x + 1); Ok (rc =? BSTR_OK, b0) else Ok (true, Some b)) = Ok (true, Some (BS (zlen s + zlen v) (zlen s) (Some (s ++ v)))) /\
      zlen x < zlen v /\ zlen s + zlen v <= LIMIT) as (v & -> & Hv & Hlv).
  { destruct (Z.leb_spec (zlen s + zlen u) (zlen s + zlen x + 1)); [|exists u; rewrite E; split_and!; [done|lia|lia]]. cbn [is_same]. rewrite bind_ret. cbn [negb].
    destruct (balloc_loose b s (zlen s + zlen x + 1) Hb ltac:(lia)) as (b' & -> & (v & -> & Hv & Hlv) & Hm). rewrite bind_ret. exists v. cbn [mlen] in Hm. split_and!; [done|lia|lia]. }
  rewrite bind_ret. cbn [negb]. by apply put_behind.
Qed.

(** the front taken off *)
Lemma delete_front b (x s : bytes) : loose b (x ++ s) -> 0 < zlen x -> exists b', bdelete (Some b) 0 (zlen x) = Ok (BSTR_OK, Some b') /\ holds b' s.
Proof.
  intros (t & -> & Ht & Hl) Hx. pose proof (zlen_nonneg s). rewrite zlen_app in *. unfold bdelete. cbn [Z.ltb Z.compare]. rewrite bind_ret. unfold broken. cbn [slen mlen].
  rewrite (proj2 (Z.ltb_ge (zlen x) 0)), (proj2 (Z.ltb_ge (zlen x + zlen s) 0)), (proj2 (Z.leb_gt (zlen x + zlen s + zlen t) 0)), (proj2 (Z.ltb_ge (zlen x + zlen s + zlen t) _)), (proj2 (Z.ltb_lt 0 (zlen x))), (proj2 (Z.ltb_lt 0 (zlen x + zlen s))) by lia. cbn [orb andb].
  rewrite iadd_ok, bind_ret by (unfold INT_MIN, INT_MAX, LIMIT in *; lia). rewrite Z.add_0_l. destruct (Z.leb_spec (zlen x + zlen s) (zlen x)) as [Hle|Hgt].
  - assert (s = []) as -> by (destruct s; [done|rewrite zlen_cons in Hle; pose proof (zlen_nonneg s); lia]). rewrite app_nil_r in *. change (zlen []) with 0 in *.
    destruct (seal BSTR_OK [] (x ++ t) (zlen x + 0 + zlen t)) as (b' & E & Hb' & _); [rewrite zlen_app; change (zlen []) with 0; lia|lia|rewrite zlen_app; lia|]. exists b'. split; [exact E|done].
  - replace (zlen x + zlen s - zlen x) with (zlen s) by lia. rewrite <- app_assoc, slice_mid, bind_ret.
    destruct (put_behind malloc realloc BSTR_OK [] (x ++ s ++ t) s (zlen s) (zlen x + zlen s + zlen t) s) as (rc & b' & Eb & [(-> & Hb')|(_ & _ & Hno)]); [done|done|rewrite !zlen_app; change (zlen []) with 0; lia|rewrite !zlen_app; lia|done| |done].
    exists b'. split; [exact Eb|done].
Qed.

(** ** Reading from below *)

Context (chunk : bytes -> Z -> Z) (chunk_ok : forall rest n, rest <> [] -> 0 < n -> 0 < chunk rest n).

Lemma fnread_ok st rest n : readFnPtr st = true -> 0 < n ->
  exists got rest', fnread chunk st rest n = Ok got /\ rest = got ++ rest' /\ drop (length got) rest = rest' /\ zlen got <= n /\ (got = [] -> rest = []).
Proof.
  intros Hr Hn. unfold fnread. rewrite Hr. set (k := Z.to_nat (Z.min n (chunk rest n))). exists (take k rest), (drop k rest). split_and!; [done|by rewrite take_drop| | |].
  - rewrite length_take. destruct (Nat.le_ge_cases k (length rest)); [by rewrite Nat.min_l|]. rewrite Nat.min_r by done. by rewrite !drop_ge by lia.
  - unfold zlen. rewrite length_take. unfold k. lia.
  - intros E. destruct rest as [|c rest]; [done|]. exfalso. pose proof (chunk_ok (c :: rest) n ltac:(done) Hn). destruct k eqn:Ek; [unfold k in Ek; lia|]. by cbn in E.
Qed.

(** ** Lines *)

Fixpoint cut_line (stop : byte -> bool) (q : bytes) : bytes * bytes :=
  match q with
  | [] => ([], [])
  | c :: q' => if stop c then ([c], q') else let '(l, r) := cut_line stop q' in (c :: l, r)
  end.

Section Line.
Context (stop : byte -> bool).
Abbreviation plain := (Forall (fun c => stop c = false)).

Lemma cut_plain a q : plain a -> cut_line stop (a ++ q) = (a ++ (cut_line stop q).1, (cut_line stop q).2).
Proof. induction 1 as [|c a Hc _ IH]; [cbn [app]; apply surjective_pairing|]. cbn. by rewrite Hc, IH. Qed.

Lemma cut_found a c q : plain a -> stop c = true -> cut_line stop (a ++ c :: q) = (a ++ [c], q).
Proof. intros Ha Hc. rewrite cut_plain by done. cbn. by rewrite Hc. Qed.

(** the search stops at the sentinel at the latest *)
Lemma scan_ok snt more got : stop snt = true -> forall k,
  (exists a c d, got = a ++ c :: d /\ plain a /\ stop c = true /\ scan stop (got ++ snt :: more) k = Ok (k + zlen a)) \/ plain got /\ scan stop (got ++ snt :: more) k = Ok (k + zlen got).
Proof.
  intros Hs. induction got as [|c got IH]; intros k; cbn [app scan].
  - right. rewrite Hs, Z.add_0_r. by split.
  - destruct (stop c) eqn:Hc; [left; exists [], c, got; rewrite Z.add_0_r; by split_and!|]. destruct (IH (k + 1)) as [(a & d & e & -> & Ha & Hd & E)|(Ha & E)].
    + left. exists (c :: a), d, e. rewrite E, zlen_cons. split_and!; [done|by constructor|done|f_equal; lia].
    + right. rewrite E, zlen_cons. split; [by constructor|f_equal; lia].
Qed.

(** a reader has put [R] into the string and left [q] in the stream *)
Definition gives (x : res (Z * option bs * bStream * bytes)) (st : bStream) (rc : Z) (R q : bytes) : Prop :=
  exists r bf c rest eof, x = Ok (rc, Some r, MkStream (Some bf) (parm st) true eof (maxBuffSz st), rest) /\ holds r R /\ loose bf c /\ q = c ++ rest /\ (eof = true -> rest = []).

(** the over-read bytes at the front of the buffer *)
Lemma keep_over bm (bx d : bytes) : zlen bx = bm -> zlen d < bm <= LIMIT -> exists bx', write bx 0 d = Ok bx' /\ loose (BS bm (zlen d) (Some bx')) d.
Proof.
  intros Hbx Hd. pose proof (write_at [] bx d ltac:(lia)) as E. pose proof (zlen_drop d bx ltac:(lia)). eexists. split; [exact E|]. exists (drop (length d) bx). cbn [app]. split_and!; [f_equal; lia|lia|lia].
Qed.

Lemma readln_loop_ok snt : stop snt = true -> forall fuel R r st bm bl bx rlo rest,
  loose r R -> readFnPtr st = true -> 0 < maxBuffSz st -> zlen bx = bm -> maxBuffSz st < bm <= LIMIT -> zlen R + zlen rest + maxBuffSz st + 3 < LIMIT -> rlo <= zlen R -> (length rest < fuel)%nat -> (isEOF st = true -> rest = []) ->
  gives (readln_loop malloc realloc junk chunk fuel stop snt (Some r) st bm bl bx rlo rest) st (if zlen R + zlen (cut_line stop rest).1 =? rlo then BSTR_ERR else 0) (R ++ (cut_line stop rest).1) (cut_line stop rest).2.
Proof.
  intros Hs. induction fuel as [|fuel IH]; intros R r st bm bl bx rlo rest Hr Hfn Hmax Hbx Hbm Hl Hrlo Hfu Heof; [lia|]. pose proof (zlen_nonneg R). pose proof (zlen_nonneg rest). cbn [readln_loop].
  pose proof (loose_sound _ _ Hr) as (_ & Esl & _). destruct r as [rm rs rd]. cbn [slen] in Esl. subst rs.
  rewrite (iadd_ok (zlen R)), bind_ret by (unfold INT_MIN, INT_MAX, LIMIT in *; lia). rewrite iadd_ok, bind_ret by (unfold INT_MIN, INT_MAX, LIMIT in *; lia).
  destruct (balloc_loose _ R (zlen R + maxBuffSz st + 1) Hr ltac:(lia)) as (r1 & -> & (t & -> & Ht & Hlt) & Hm). rewrite bind_ret. cbn [Z.eqb BSTR_OK negb]. cbn [mlen] in Hm.
  destruct (fnread_ok st rest (maxBuffSz st) Hfn Hmax) as (got & rest' & -> & Er & Ed & Hgot & Hnone). rewrite bind_ret, write_at, bind_ret, Ed by lia. pose proof (zlen_drop got t ltac:(lia)) as Ht2. set (t2 := drop (length got) t) in *. clearbody t2.
  pose proof (zlen_nonneg got). destruct (Z.leb_spec (zlen got) 0) as [Hz|Hz].
  - assert (got = []) as -> by (destruct got; [done|rewrite zlen_cons in Hz; pose proof (zlen_nonneg got); lia]). rewrite (Hnone eq_refl) in *. cbn [cut_line fst snd]. change (zlen []) with 0 in *. cbn [app] in *. rewrite app_nil_r, Z.add_0_r.
    destruct (seal (if zlen R =? rlo then BSTR_ERR else 0) R t2 (zlen R + zlen t)) as (r' & E & Hr' & _); [lia..|]. destruct (keep_over bm bx []) as (bx' & Ebx & Hlo); [done|change (zlen []) with 0; lia|].
    assert (Hbuf : loose (BS bm 0 (Some bx)) []) by (exists bx; cbn [app]; rewrite Hbx; split_and!; [done|lia|change (zlen []) with 0; lia]).
    exists r', (BS bm 0 (Some bx)), [], [], true. destruct (poke _ _ _) as [w|]; [|done]. cbn in E. injection E as E. rewrite bind_ret. subst rest'. unfold set_eof, set_buff. cbn [buff parm readFnPtr maxBuffSz]. rewrite Hfn, E. by split_and!.
  - destruct t2 as [|c0 t3]; [change (zlen []) with 0 in Ht2; lia|]. pose proof (poke_mid (R ++ got) c0 t3 snt) as Hp. rewrite <- !app_assoc, zlen_app in Hp. rewrite Hp, bind_ret. clear Hp.
    replace (drop (Z.to_nat (zlen R)) (R ++ got ++ snt :: t3)) with (got ++ snt :: t3) by (unfold zlen; by rewrite Nat2Z.id, drop_app_length). rewrite zlen_cons in Ht2. pose proof (zlen_nonneg t3).
    assert (Heof' : isEOF st = true -> rest' = []) by (intros He; specialize (Heof He); rewrite Er in Heof; by apply app_eq_nil in Heof as [_ ?]).
    destruct (scan_ok snt t3 got Hs 0) as [(a & c & d & Eg & Ha & Hc & ->)|(Ha & ->)]; rewrite bind_ret, Z.add_0_l.
    + rewrite Eg in *. rewrite zlen_app, zlen_cons in *. pose proof (zlen_nonneg a). pose proof (zlen_nonneg d). rewrite (proj2 (Z.ltb_lt (zlen a) _)) by lia. assert (cut_line stop rest = (a ++ [c], d ++ rest')) as -> by (rewrite Er, <- app_assoc; by apply cut_found). cbn [fst snd].
      assert (Hrc : (zlen R + zlen (a ++ [c]) =? rlo) = false) by (rewrite zlen_app; change (zlen [c]) with 1; lia). rewrite Hrc. set (X := R ++ a ++ [c]).
      assert (HX : zlen X = zlen R + (zlen a + 1)) by (unfold X; rewrite !zlen_app; change (zlen [c]) with 1; lia). assert (EX : R ++ (a ++ c :: d) ++ snt :: t3 = X ++ d ++ snt :: t3) by (unfold X; rewrite <- !app_assoc; done).
      rewrite EX, <- HX. replace (zlen a + (1 + zlen d) - (zlen a + 1)) with (zlen d) by lia. rewrite slice_mid, bind_ret. destruct (keep_over bm bx d Hbx ltac:(lia)) as (bx' & -> & Hlo). rewrite bind_ret.
      destruct (seal BSTR_OK X (d ++ snt :: t3) (zlen R + zlen t)) as (r' & E & Hr' & _); [rewrite zlen_app, zlen_cons; lia|lia|rewrite zlen_app, zlen_cons; lia|].
      exists r', (BS bm (zlen d) (Some bx')), d, rest', (isEOF st). destruct (poke _ _ _) as [w|]; [|done]. cbn in E. injection E as E. rewrite bind_ret, E. unfold set_buff. rewrite Hfn. by split_and!.
    + rewrite Z.ltb_irrefl. assert (cut_line stop rest = (got ++ (cut_line stop rest').1, (cut_line stop rest').2)) as -> by (rewrite Er; by apply cut_plain). cbn [fst snd]. rewrite zlen_app, app_assoc, Z.add_assoc, <- (zlen_app R got). rewrite app_assoc. rewrite Er, zlen_app in Hl.
      apply IH; [|done|done|done|done|rewrite zlen_app; lia|rewrite zlen_app; lia|rewrite Er, length_app in Hfu; unfold zlen in Hz; lia|done].
      exists (snt :: t3). rewrite zlen_app, zlen_cons. split_and!; [f_equal; lia|lia|lia].
Qed.

(** what a stream still has to give: the content of its buffer and what is left below *)
Definition streams (st : bStream) (rest q : bytes) : Prop :=
  exists bf c, buff st = Some bf /\ loose bf c /\ q = c ++ rest /\ readFnPtr st = true /\ 0 < maxBuffSz st /\ (isEOF st = true -> rest = []).

(** room for a read in the buffer *)
Lemma buffer_room st bf c : buff st = Some bf -> loose bf c -> 0 < maxBuffSz st -> maxBuffSz st + 3 < LIMIT ->
  exists t, iadd (maxBuffSz st) 1 = Ok (maxBuffSz st + 1) /\ balloc malloc realloc junk (buff st) (maxBuffSz st + 1) = Ok (BSTR_OK, Some (BS (zlen c + zlen t) (zlen c) (Some (c ++ t)))) /\
    maxBuffSz st + 1 < zlen c + zlen t /\ zlen c + zlen t <= LIMIT /\ 0 < zlen t.
Proof.
  intros -> Hb Hmax Hl. destruct (balloc_loose bf c (maxBuffSz st + 1) Hb ltac:(lia)) as (b' & E & (t & -> & Ht & Hlt) & Hm). exists t. cbn [mlen] in Hm. split_and!; [apply iadd_ok; unfold INT_MIN, INT_MAX, LIMIT in *; lia|exact E|lia|lia|lia].
Qed.

Lemma readln_from_ok snt R r st rest q : stop snt = true -> loose r R -> streams st rest q -> zlen R + zlen q + maxBuffSz st + 3 < LIMIT ->
  gives (readln_from malloc realloc junk chunk stop snt (Some r) st rest) st (if zlen (cut_line stop q).1 =? 0 then BSTR_ERR else 0) (R ++ (cut_line stop q).1) (cut_line stop q).2.
Proof.
  intros Hs Hr (bf & c & Eb & Hb & -> & Hfn & Hmax & Heof) Hl. rewrite zlen_app in Hl. pose proof (zlen_nonneg R). pose proof (zlen_nonneg c). pose proof (zlen_nonneg rest). unfold readln_from.
  destruct (buffer_room st bf c Eb Hb Hmax ltac:(lia)) as (t & -> & Eba & Hm & Hlt & Ht). rewrite Eb at 1. pose proof (loose_sound _ _ Hb) as (_ & Esl & _). destruct bf as [fm fs fd]. cbn [slen] in Esl. subst fs.
  rewrite bind_ret, Eba, bind_ret. cbn [Z.eqb BSTR_OK negb]. destruct t as [|c0 t]; [done|]. rewrite poke_mid, bind_ret. rewrite zlen_cons in *. pose proof (zlen_nonneg t).
  destruct (scan_ok snt t c Hs 0) as [(a & ch & d & -> & Ha & Hc & ->)|(Ha & ->)]; rewrite bind_ret, Z.add_0_l.
  - assert (cut_line stop ((a ++ ch :: d) ++ rest) = (a ++ [ch], d ++ rest)) as -> by (rewrite <- app_assoc; by apply cut_found). cbn [fst snd]. rewrite zlen_app, zlen_cons in *. assert (Hx : zlen (a ++ [ch]) = zlen a + 1) by (by rewrite zlen_app). pose proof (zlen_nonneg a). pose proof (zlen_nonneg d).
    rewrite (proj2 (Z.ltb_lt (zlen a) _)) by lia. rewrite <- Hx. assert ((a ++ ch :: d) ++ snt :: t = (a ++ [ch]) ++ d ++ snt :: t) as -> by (by rewrite <- !app_assoc).
    destruct (concat_loose r R (a ++ [ch]) (d ++ snt :: t) (-1) Hr ltac:(lia)) as (r' & -> & Hr'). rewrite bind_ret. cbn [Z.eqb BSTR_OK]. rewrite (app_assoc (a ++ [ch]) d).
    destruct (delete_front (BS (zlen a + (1 + zlen d) + (1 + zlen t)) (zlen a + (1 + zlen d)) (Some (((a ++ [ch]) ++ d) ++ snt :: t))) (a ++ [ch]) d) as (bf' & -> & Hbf').
    { exists (snt :: t). rewrite zlen_app, Hx, zlen_cons. split_and!; [f_equal; lia|lia|lia]. }
    { lia. }
    rewrite !bind_ret. rewrite (proj2 (Z.eqb_neq (zlen (a ++ [ch])) 0)) by lia. exists r', bf', d, rest, (isEOF st). unfold set_buff. rewrite Hfn. split_and!; [done|done|by apply holds_loose|done|done].
  - rewrite Z.ltb_irrefl, cut_plain by done. cbn [fst snd]. destruct (concat_loose r R c (snt :: t) (-1) Hr ltac:(lia)) as (r' & -> & Hr'). rewrite bind_ret. cbn [Z.eqb BSTR_OK negb].
    pose proof (loose_sound _ _ Hr) as (_ & -> & _). rewrite app_assoc.
    replace (zlen (c ++ (cut_line stop rest).1) =? 0) with (zlen (R ++ c) + zlen (cut_line stop rest).1 =? zlen R) by (rewrite !zlen_app; apply eq_true_iff_eq; rewrite !Z.eqb_eq; lia).
    apply readln_loop_ok; [done|by apply holds_loose|done|done|rewrite zlen_app, zlen_cons; lia|lia|rewrite zlen_app; lia|rewrite zlen_app; lia|lia|done].
Qed.
End Line.

(** ** A given number of bytes *)

Lemma reada_loop_ok fuel : forall (R : bytes) r st (c u : bytes) n (rest : bytes),
  loose r R -> readFnPtr st = true -> 0 < maxBuffSz st -> 0 < zlen u -> maxBuffSz st < zlen c + zlen u -> zlen c + zlen u <= LIMIT -> zlen R < n -> n + 2 < LIMIT -> zlen R + zlen c + 2 < LIMIT -> (length rest + (if (zlen c =? 0)%Z then 1 else 0) < fuel)%nat -> (isEOF st = true -> rest = []) ->
  let q := c ++ rest in let k := Z.to_nat (n - zlen R) in
  gives (reada_loop malloc realloc junk chunk fuel (Some r) st (zlen c + zlen u) (zlen c) (c ++ u) n rest) st (if zlen (R ++ take k q) =? 0 then BSTR_ERR else 0) (R ++ take k q) (drop k q).
Proof.
  induction fuel as [|fuel IH]; intros R r st c u n rest Hr Hfn Hmax Hu Hmu Hlu Hn Hnl Hl Hfu Heof q k; [lia|]. pose proof (zlen_nonneg R). pose proof (zlen_nonneg c). cbn [reada_loop].
  pose proof (loose_sound _ _ Hr) as (_ & Esl & _). destruct r as [rm rs rd]. cbn [slen] in Esl. subst rs. rewrite iadd_ok, bind_ret by (unfold INT_MIN, INT_MAX, LIMIT in *; lia).
  destruct (Z.leb_spec n (zlen c + zlen R)) as [Hle|Hgt].
  - destruct (split_at c (n - zlen R)) as (x & d & -> & Hx); [lia|]. rewrite zlen_app in *. rewrite <- Hx, <- app_assoc. pose proof (zlen_nonneg d).
    destruct (concat_loose _ R x (d ++ u) (-1) Hr ltac:(lia)) as (r' & -> & Hr'). rewrite bind_ret. cbn [Z.eqb BSTR_OK]. rewrite (app_assoc x d u).
    destruct (delete_front (BS (zlen x + zlen d + zlen u) (zlen x + zlen d) (Some ((x ++ d) ++ u))) x d) as (bf' & -> & Hbf'); [exists u; rewrite zlen_app; split_and!; [done|lia|lia]|lia|]. rewrite !bind_ret.
    assert (take k q = x /\ drop k q = d ++ rest) as [-> ->].
    { unfold k, q. rewrite <- Hx, <- app_assoc. unfold zlen. by rewrite Nat2Z.id, take_app_length, drop_app_length. }
    pose proof (holds_length _ _ Hr') as (-> & _). exists r', bf', d, rest, (isEOF st). unfold set_buff. rewrite Hfn. split_and!; [done|done|by apply holds_loose|done|done].
  - destruct (concat_loose _ R c u (-1) Hr ltac:(lia)) as (r' & -> & Hr'). rewrite bind_ret. cbn [Z.eqb BSTR_OK negb]. pose proof (holds_length _ _ Hr') as (Esl' & _). destruct r' as [rm' rs' rd']. cbn [slen] in Esl'. subst rs'.
    rewrite zlen_app. set (ask := if maxBuffSz st <? n - (zlen R + zlen c) then maxBuffSz st else n - (zlen R + zlen c)). assert (Hask : 0 < ask <= maxBuffSz st /\ ask <= n - (zlen R + zlen c)) by (unfold ask; destruct (Z.ltb_spec (maxBuffSz st) (n - (zlen R + zlen c))); lia). clearbody ask.
    destruct (fnread_ok st rest ask Hfn ltac:(lia)) as (got & rest' & -> & Er & Ed & Hgot & Hnone). rewrite bind_ret, Ed. pose proof (zlen_nonneg got).
    pose proof (write_at [] (c ++ u) got ltac:(rewrite zlen_app; lia)) as Ew. cbn [app] in Ew. change (zlen []) with 0 in Ew. rewrite Ew, bind_ret. clear Ew. pose proof (zlen_drop got (c ++ u) ltac:(rewrite zlen_app; lia)) as Hdr. rewrite zlen_app in Hdr. set (v := drop _ (c ++ u)) in *. clearbody v.
    assert (Htk : take k q = c ++ take (Z.to_nat (n - zlen (R ++ c))) rest /\ drop k q = drop (Z.to_nat (n - zlen (R ++ c))) rest).
    { unfold k, q. rewrite zlen_app. replace (Z.to_nat (n - zlen R)) with (length c + Z.to_nat (n - (zlen R + zlen c)))%nat by (unfold zlen in *; lia). by rewrite take_app_add, drop_app_add. }
    destruct Htk as [-> ->]. destruct (Z.ltb_spec 0 (zlen got)) as [Hz|Hz].
    + replace (zlen c + zlen u) with (zlen got + zlen v) by lia. rewrite app_assoc, Er.
      rewrite zlen_app in Hr'. apply (IH (R ++ c) (BS rm' (zlen R + zlen c) rd') st got v n rest'); [by apply holds_loose|done|done|lia|lia|lia|rewrite zlen_app; lia|done|rewrite zlen_app; lia| |].
      * rewrite (proj2 (Z.eqb_neq (zlen got) 0)) by lia. rewrite Er, length_app in Hfu. unfold zlen in Hz. destruct (zlen c =? 0); lia.
      * intros He. specialize (Heof He). rewrite Er in Heof. by apply app_eq_nil in Heof as [_ ?].
    + assert (got = []) as -> by (destruct got; [done|rewrite zlen_cons in Hz; pose proof (zlen_nonneg got); lia]). pose proof (Hnone eq_refl) as Hr0. cbn [app] in Er. rewrite <- Er. clear q k Ed Hnone Er. subst rest. rewrite take_nil, drop_nil, app_nil_r. cbn [slen app]. rewrite zlen_app.
      exists (BS rm' (zlen R + zlen c) rd'), (BS (zlen c + zlen u) 0 (Some v)), [], [], true. unfold set_eof, set_buff. cbn [buff parm readFnPtr maxBuffSz]. rewrite Hfn. change (zlen []) with 0 in *.
      split_and!; [done|by rewrite <- zlen_app|exists v; change (zlen []) with 0; split_and!; [f_equal; lia|lia|lia]|done|done].
Qed.

(** ** The operations *)

Definition delivers (x : res (Z * option bs * option bStream * bytes)) (st : bStream) (rc : Z) (R q : bytes) : Prop :=
  exists r st' rest, x = Ok (rc, Some r, Some st', rest) /\ holds r R /\ streams st' rest q /\ parm st' = parm st /\ maxBuffSz st' = maxBuffSz st.

Lemma gives_back x st rc R q : gives x st rc R q -> 0 < maxBuffSz st -> delivers (back x) st rc R q.
Proof.
  intros (r & bf & c & rest & eof & -> & Hr & Hbf & -> & Heof) Hmax. unfold back. rewrite bind_ret. eexists r, _, rest. split_and!; [done|done| |done|done]. exists bf, c. by split_and!.
Qed.

Lemma live_ok r st rest q : streams st rest q -> live (Some r) (Some st) = Some (r, st).
Proof. intros (bf & c & Eb & _). unfold live. by rewrite Eb. Qed.

Lemma readlna_ok R r st rest q t : loose r R -> streams st rest q -> zlen R + zlen q + maxBuffSz st + 3 < LIMIT ->
  let l := cut_line (fun c => bool_decide (c = t)) q in
  delivers (bsreadlna malloc realloc junk chunk (Some r) (Some st) t rest) st (if zlen l.1 =? 0 then BSTR_ERR else 0) (R ++ l.1) l.2.
Proof.
  intros Hr Hst Hl. cbn zeta. unfold bsreadlna. rewrite (live_ok r st rest q Hst). pose proof (loose_sound _ _ Hr) as (-> & _). pose proof Hst as (? & ? & _ & _ & _ & _ & Hmax & _).
  apply gives_back; [|done]. apply readln_from_ok; [|done..]. by apply bool_decide_eq_true.
Qed.

(** [charField] is a set *)
Lemma char_bits c : bv c = 32 * Z.shiftr (bv c) 5 + Z.land (bv c) 31 /\ 0 <= Z.land (bv c) 31 < 32 /\ 0 <= Z.shiftr (bv c) 5 < 8.
Proof.
  pose proof (bv_range c). change 31 with (Z.ones 5). rewrite Z.land_ones, Z.shiftr_div_pow2 by lia. change (2 ^ 5) with 32. split; [apply Z.div_mod; lia|]. split; [apply Z.mod_pos_bound; lia|]. split; [apply Z.div_pos; lia|apply Z.div_lt_upper_bound; lia].
Qed.

Lemma test_add cf a c : length cf = 8%nat -> testInCharField (add_char cf a) c = bool_decide (a = c) || testInCharField cf c.
Proof.
  intros Hl. unfold testInCharField, add_char, charField in *. cbn zeta. destruct (char_bits a) as (Ea & Ha & Hia). destruct (char_bits c) as (Ec & Hc & Hic). set (i := Z.shiftr (bv a) 5) in *. set (j := Z.shiftr (bv c) 5) in *. destruct (Z.eq_dec i j) as [Eij|Hij].
  - rewrite Eij, list_lookup_insert_eq by lia. cbn [default]. unfold id. rewrite Z.lor_spec, Z.shiftl_spec, orb_comm by lia. f_equal. destruct (bool_decide_reflect (a = c)) as [->|Hne]; [by rewrite Z.sub_diag|].
    assert (Hd : Z.land (bv c) 31 <> Z.land (bv a) 31) by (intros E; apply Hne, bv_inj; lia). destruct (Z.lt_trichotomy (Z.land (bv c) 31 - Z.land (bv a) 31) 0) as [Hlt|[Hz|Hgt]]; [by apply Z.testbit_neg_r|lia|].
    change 1 with (2 ^ 0). by rewrite Z.pow2_bits_false by lia.
  - rewrite list_lookup_insert_ne by lia. rewrite bool_decide_eq_false_2; [done|]. intros ->. by apply Hij.
Qed.

Lemma test_field cs c : testInCharField (foldl add_char no_chars cs) c = bool_decide (c ∈ cs).
Proof.
  assert (H : forall cf, length cf = 8%nat -> testInCharField (foldl add_char cf cs) c = bool_decide (c ∈ cs) || testInCharField cf c).
  { induction cs as [|a cs IH]; intros cf Hl; [done|]. cbn [foldl]. rewrite IH by (unfold add_char, charField; by rewrite length_insert). rewrite test_add, orb_assoc by done. f_equal. apply eq_true_iff_eq. rewrite orb_true_iff, !bool_decide_eq_true, elem_of_cons. naive_solver. }
  rewrite H by done. unfold testInCharField, no_chars, charField. destruct (char_bits c) as (_ & _ & Hi). rewrite lookup_replicate_2 by lia. cbn [default]. unfold id. by rewrite Z.bits_0, orb_false_r.
Qed.

Lemma cut_ext f g q : (forall c, f c = g c) -> cut_line f q = cut_line g q.
Proof. intros H. induction q as [|c q IH]; [done|]. cbn. by rewrite H, IH. Qed.

(** the characters of a string as a set *)
Definition among (set : bytes) (c : byte) : bool := bool_decide (c ∈ set).

Lemma peek_front c (l : bytes) : peek (c :: l) 0 = Ok c.
Proof. done. Qed.

(** the set has its first character, which is the only one or the sentinel *)
Lemma readlnsa_ok R r st rest q set spare : set <> [] -> loose r R -> streams st rest q -> zlen R + zlen q + maxBuffSz st + 3 < LIMIT ->
  let l := cut_line (among set) q in
  delivers (bsreadlnsa malloc realloc junk chunk (Some r) (Some st) (Some (cell set spare)) rest) st (if zlen l.1 =? 0 then BSTR_ERR else 0) (R ++ l.1) l.2.
Proof.
  intros Hne Hr Hst Hl. cbn zeta. unfold bsreadlnsa, cell. rewrite (live_ok r st rest q Hst). pose proof (loose_sound _ _ Hr) as (-> & _). pose proof Hst as (? & ? & _ & _ & _ & _ & Hmax & _). destruct set as [|c set]; [done|]. rewrite zlen_cons. pose proof (zlen_nonneg set).
  destruct (Z.eqb_spec (1 + zlen set) 1) as [H1|H1].
  - assert (set = []) as -> by (destruct set; [done|rewrite zlen_cons in H1; pose proof (zlen_nonneg set); lia]). cbn [app]. rewrite peek_front, bind_ret.
    rewrite (cut_ext (among [c]) (fun x => bool_decide (x = c))); [by apply readlna_ok|]. intros x'. unfold among. apply bool_decide_ext. by rewrite list_elem_of_singleton.
  - rewrite (proj2 (Z.ltb_ge (1 + zlen set) 1)) by lia. unfold buildCharField. rewrite (proj2 (Z.leb_gt (1 + zlen set) 0)) by lia. replace (1 + zlen set) with (zlen (c :: set)) by apply zlen_cons. rewrite slice_front, !bind_ret. cbn [app]. rewrite peek_front, bind_ret.
    rewrite (cut_ext (among (c :: set)) (testInCharField (foldl add_char no_chars (c :: set)))) by (intros x'; by rewrite test_field). apply gives_back; [|done]. apply readln_from_ok; [|done..]. rewrite test_field. apply bool_decide_eq_true. set_solver.
Qed.

Lemma reada_ok R r st rest q n : loose r R -> streams st rest q -> 0 < n -> zlen R + zlen q + n + maxBuffSz st + 3 < LIMIT ->
  let got := take (Z.to_nat n) q in
  delivers (bsreada malloc realloc junk chunk (Some r) (Some st) n rest) st (if zlen (R ++ got) =? 0 then BSTR_ERR else 0) (R ++ got) (drop (Z.to_nat n) q).
Proof.
  intros Hr Hst Hn Hl. cbn zeta. unfold bsreada. rewrite (live_ok r st rest q Hst). pose proof (loose_sound _ _ Hr) as (-> & -> & _). destruct Hst as (bf & c & Eb & Hb & -> & Hfn & Hmax & Heof). rewrite zlen_app in Hl. pose proof (zlen_nonneg R). pose proof (zlen_nonneg c). pose proof (zlen_nonneg rest).
  rewrite (proj2 (Z.leb_gt n 0)) by lia. cbn [orb]. rewrite (iadd_ok n (zlen R)), bind_ret by (unfold INT_MIN, INT_MAX, LIMIT in *; lia). rewrite (proj2 (Z.leb_gt (n + zlen R) 0)) by lia.
  destruct (buffer_room st bf c Eb Hb Hmax ltac:(lia)) as (u & -> & Eba & Hm & Hlt & Hu). rewrite bind_ret, Eba, bind_ret. cbn [Z.eqb BSTR_OK negb]. rewrite Eb. pose proof (loose_sound _ _ Hb) as (_ & -> & _).
  apply gives_back; [|done]. replace (Z.to_nat n) with (Z.to_nat (n + zlen R - zlen R)) by (f_equal; lia). apply reada_loop_ok; [done..|lia|lia|lia|lia|lia| |done]. destruct (zlen c =? 0); lia.
Qed.

(** a reader that starts with an empty string *)
Lemma anew_ok R r st rest q k (Q : res (Z * option bs * option bStream * bytes) -> Prop) : loose r R -> streams st rest q -> maxBuffSz st + 3 < LIMIT ->
  (forall r' st', loose r' [] -> streams st' rest q -> parm st' = parm st -> maxBuffSz st' = maxBuffSz st -> Q (k (Some r') (Some st'))) -> Q (anew malloc realloc junk (Some r) (Some st) rest k).
Proof.
  intros Hr Hst Hl Hk. unfold anew. rewrite (live_ok r st rest q Hst). destruct Hst as (bf & c & Eb & Hb & -> & Hfn & Hmax & Heof).
  destruct (buffer_room st bf c Eb Hb Hmax Hl) as (u & -> & Eba & Hm & Hlt & Hu). rewrite bind_ret, Eba, bind_ret. cbn [Z.eqb BSTR_OK negb]. apply Hk; [by eapply loose_empty| |done|done].
  eexists _, c. split_and!; [done|by exists u|done|done|done|done].
Qed.

Lemma has_room r R : loose r R -> no_room (Some r) = false.
Proof. intros Hr. pose proof (loose_sound _ _ Hr) as (_ & _ & H & _). pose proof (zlen_nonneg R). unfold no_room. lia. Qed.

(** in front of what is in the buffer *)
Lemma unread_ok st rest q (x spare : bytes) m : streams st rest q -> zlen q + zlen x + 2 < LIMIT ->
  exists st', bsunread malloc realloc junk (Some st) (Some (BS m (zlen x) (Some (x ++ spare)))) = Ok (0, Some st') /\ streams st' rest (x ++ q) /\ parm st' = parm st /\ maxBuffSz st' = maxBuffSz st.
Proof.
  intros (bf & c & Eb & Hb & -> & Hfn & Hmax & Heof) Hl. rewrite zlen_app in Hl. pose proof (zlen_nonneg rest). pose proof (zlen_nonneg c). pose proof (zlen_nonneg x). unfold bsunread. rewrite Eb.
  cut (outcome malloc realloc (binsert malloc realloc junk (Some bf) 0 (Other (Some (BS m (zlen x) (Some (x ++ spare))))) Byte.x3f) c (x ++ c)).
  { intros (rc & b' & -> & [(-> & Hb')|(_ & _ & Hno)]); [|done]. rewrite bind_ret. eexists. split_and!; [done| |done|done]. exists b', (x ++ c). split_and!; [done|by apply holds_loose|by rewrite app_assoc|done|done|done]. }
  pose proof Hb as (u & E & Hu & Hlu). unfold binsert. cbn [arg_of]. pose proof (loose_sound _ _ Hb) as (_ & -> & Hm1 & Hm2). rewrite (proj2 (Z.ltb_ge (zlen c) 0)), (proj2 (Z.ltb_ge (zlen x) 0)), (proj2 (Z.ltb_ge (mlen bf) (zlen c))), (proj2 (Z.leb_gt (mlen bf) 0)) by lia. cbn [Z.ltb Z.compare orb].
  rewrite (bool_decide_eq_false_2 (Some _ = None)), andb_false_r by done. cbn [is_same]. rewrite bind_ret. cbn [negb need].
  assert ((if zlen x =? 0 then Ok [] else src ← Ok (x ++ spare); slice src 0 (zlen x)) = Ok x) as ->.
  { rewrite bind_ret, slice_front. destruct (Z.eqb_spec (zlen x) 0) as [Hz|]; [|done]. destruct x as [|c0 x]; [done|]. rewrite zlen_cons in Hz. pose proof (zlen_nonneg x). lia. }
  rewrite bind_ret. unfold insert_at. rewrite E at 1. rewrite (iadd_ok (zlen c)), bind_ret by (unfold INT_MIN, INT_MAX, LIMIT in *; lia). rewrite (iadd_ok 0), bind_ret by (unfold INT_MIN, INT_MAX, LIMIT in *; lia).
  rewrite (proj2 (Z.ltb_ge (zlen c + zlen x) (0 + zlen x))) by lia. rewrite (iadd_ok (zlen c + zlen x)), bind_ret by (unfold INT_MIN, INT_MAX, LIMIT in *; lia).
  destruct (balloc_loose bf c (zlen c + zlen x + 1) Hb ltac:(lia)) as (b' & -> & (v & -> & Hv & Hlv) & Hm). rewrite bind_ret. cbn [Z.eqb BSTR_OK negb]. cbn [mlen] in Hm. rewrite Z.sub_0_r, slice_front, bind_ret, Z.add_0_l.
  destruct (split_at (c ++ v) (zlen x)) as (y & z & Ez & Hy); [rewrite zlen_app; lia|]. assert (Hz : zlen c + zlen v = zlen y + zlen z) by (by rewrite <- !zlen_app, Ez). rewrite Ez, <- Hy, write_at, bind_ret by lia. rewrite write_front, bind_ret by done.
  pose proof (zlen_drop c z ltac:(lia)). rewrite app_assoc. apply sealed; rewrite ?zlen_app; done || lia.
Qed.

Lemma look_ok st rest q r R : holds r R -> streams st rest q -> zlen R + zlen q + 2 < LIMIT ->
  exists r' c, bspeek malloc realloc junk (Some r) (Some st) = Ok (BSTR_OK, Some r') /\ holds r' c /\ exists q', q = c ++ q'.
Proof.
  intros Hr (bf & c & Eb & (t & -> & Ht & Hl') & -> & _) Hl. rewrite zlen_app in Hl. pose proof (zlen_nonneg rest). unfold bspeek. rewrite Eb.
  destruct (assign_any malloc realloc junk junk_len r R (Other (Some (BS (zlen c + zlen t) (zlen c) (Some (c ++ t))))) c _ t Hr eq_refl ltac:(lia)) as (rc & r' & -> & [(-> & Hr')|(_ & _ & Hno)]); [|done]. exists r', c. split_and!; [done|done|by exists rest].
Qed.
End Memory.
End BStringStreamProps.
