(* ===== verification/BStringQueue.v ===== *)
(** * BStringQueue: sequences of reads refine a queue, and splitting a stream

    The operations on a stream as one step each, in any order, and [bssplitscb], which uses two of them. *)

From Stdlib Require Import ZArith Lia.
From S2P Require Import Prelude BString BStringProps BStringMake BStringStream BStringStreamProps.
Import BString BStringProps BStringMake BStringStream BStringStreamProps.
Local Open Scope Z_scope.

Module BStringQueue.

(** ** The specification *)

Inductive op :=
  | Readln (t : byte) | Readlna (t : byte) | Readlns (set : bytes) | Readlnsa (set : bytes)
  | Read (n : Z) | Reada (n : Z) | Unread (x : bytes) | Peek.

Definition status (s : bytes) : Z := if zlen s =? 0 then BSTR_ERR else 0.
Definition the (t c : byte) : bool := bool_decide (c = t).

(** [R] is the string that is read to, [q] what the stream has to give *)
Inductive queue_step : op -> bytes -> bytes -> Z -> bytes -> bytes -> Prop :=
  | q_readln t R q : let l := cut_line (the t) q in queue_step (Readln t) R q (status l.1) l.1 l.2
  | q_readlna t R q : let l := cut_line (the t) q in queue_step (Readlna t) R q (status l.1) (R ++ l.1) l.2
  | q_readlns set R q : let l := cut_line (among set) q in queue_step (Readlns set) R q (status l.1) l.1 l.2
  | q_readlnsa set R q : let l := cut_line (among set) q in queue_step (Readlnsa set) R q (status l.1) (R ++ l.1) l.2
  | q_read n R q : let x := take (Z.to_nat n) q in queue_step (Read n) R q (status x) x (drop (Z.to_nat n) q)
  | q_reada n R q : let x := R ++ take (Z.to_nat n) q in queue_step (Reada n) R q (status x) x (drop (Z.to_nat n) q)
  | q_unread x R q : queue_step (Unread x) R q 0 R (x ++ q)
  | q_peek R c q : queue_step Peek R (c ++ q) 0 c (c ++ q).

Inductive queue_run : list op -> bytes -> bytes -> list Z -> bytes -> bytes -> Prop :=
  | run_nil R q : queue_run [] R q [] R q
  | run_cons o ops R q rc R1 q1 rcs R2 q2 : queue_step o R q rc R1 q1 -> queue_run ops R1 q1 rcs R2 q2 -> queue_run (o :: ops) R q (rc :: rcs) R2 q2.

(** sets are not empty and numbers positive *)
Definition op_ok (K : Z) (o : op) : Prop :=
  match o with Readlns set | Readlnsa set => set <> [] | Read n | Reada n => 0 < n <= K | _ => True end.

(** what an operation adds to the stream *)
Definition added (o : op) : Z := match o with Unread x => zlen x | _ => 0 end.
Fixpoint all_added (ops : list op) : Z := match ops with [] => 0 | o :: ops => added o + all_added ops end.

Section Run.
Context (malloc realloc : Z -> bool) (junk : Z -> bytes) (chunk : bytes -> Z -> Z).

(** ** The operations of the library *)

Definition run_op (o : op) (r : option bs) (s : option bStream) (rest : bytes) : res (Z * option bs * option bStream * bytes) :=
  match o with
  | Readln t => bsreadln malloc realloc junk chunk r s t rest
  | Readlna t => bsreadlna malloc realloc junk chunk r s t rest
  | Readlns set => bsreadlns malloc realloc junk chunk r s (Some (cell set [])) rest
  | Readlnsa set => bsreadlnsa malloc realloc junk chunk r s (Some (cell set [])) rest
  | Read n => bsread malloc realloc junk chunk r s n rest
  | Reada n => bsreada malloc realloc junk chunk r s n rest
  | Unread x => '(rc, s) ← bsunread malloc realloc junk s (Some (cell x [])); Ok (rc, r, s, rest)
  | Peek => '(rc, r) ← bspeek malloc realloc junk r s; Ok (rc, r, s, rest)
  end.

Fixpoint run_ops (ops : list op) (r : option bs) (s : option bStream) (rest : bytes) : res (list Z * option bs * option bStream * bytes) :=
  match ops with
  | [] => Ok ([], r, s, rest)
  | o :: ops =>
    '(rc, r, s, rest) ← run_op o r s rest;
    '(rcs, r, s, rest) ← run_ops ops r s rest;
    Ok (rc :: rcs, r, s, rest)
  end.

Context (junk_len : forall n, 0 <= n -> zlen (junk n) = n) (Hmem : memory malloc realloc) (chunk_ok : forall rest n, rest <> [] -> 0 < n -> 0 < chunk rest n).

(** a reader that starts anew is the reader that appends to nothing *)
Lemma delivers_anew r R st rest q rc R' q' k : holds r R -> streams st rest q -> maxBuffSz st + 3 < LIMIT ->
  (forall r' st', loose r' [] -> streams st' rest q -> maxBuffSz st' = maxBuffSz st -> delivers (k (Some r') (Some st')) st' rc R' q') ->
  delivers (anew malloc realloc junk (Some r) (Some st) rest k) st rc R' q'.
Proof.
  intros Hr Hst Hl Hk. apply (anew_ok malloc realloc junk junk_len Hmem R r st rest q); [by apply holds_loose|done|done|]. intros r' st' Hr' Hst' Hp Hm. destruct (Hk r' st' Hr' Hst' Hm) as (x & y & z & E & Hx & Hy & Hpy & Hmy).
  exists x, y, z. split_and!; [done|done|done|congruence|congruence].
Qed.

Lemma readln_ok r R st rest q t : holds r R -> streams st rest q -> zlen R + zlen q + maxBuffSz st + 3 < LIMIT ->
  let l := cut_line (the t) q in delivers (bsreadln malloc realloc junk chunk (Some r) (Some st) t rest) st (status l.1) l.1 l.2.
Proof.
  intros Hr Hst Hl. pose proof (zlen_nonneg R). pose proof (zlen_nonneg q). cbn zeta. unfold bsreadln. rewrite (has_room r R (holds_loose _ _ Hr)). apply (delivers_anew r R st rest q); [done|done|lia|]. intros r' st' Hr' Hst' Hm.
  apply (readlna_ok malloc realloc junk junk_len Hmem chunk chunk_ok []); [done|done|rewrite Hm; change (zlen []) with 0; lia].
Qed.

(** a set of one character goes to [bsreadln] *)
Lemma readlns_ok r R st rest q set spare : set <> [] -> holds r R -> streams st rest q -> zlen R + zlen q + maxBuffSz st + 3 < LIMIT ->
  let l := cut_line (among set) q in delivers (bsreadlns malloc realloc junk chunk (Some r) (Some st) (Some (cell set spare)) rest) st (status l.1) l.1 l.2.
Proof.
  intros Hne Hr Hst Hl. pose proof (zlen_nonneg R). pose proof (zlen_nonneg q). cbn zeta. unfold bsreadlns, cell. rewrite (live_ok r st rest q Hst), (has_room r R (holds_loose _ _ Hr)). destruct set as [|c set]; [done|]. pose proof (zlen_nonneg set).
  destruct (Z.eqb_spec (zlen (c :: set)) 1) as [Hone|Hone]; rewrite zlen_cons in Hone.
  - assert (set = []) as -> by (destruct set; [done|rewrite zlen_cons in Hone; pose proof (zlen_nonneg set); lia]). cbn [app]. rewrite peek_front, bind_ret. rewrite (cut_ext (among [c]) (the c)); [by apply (readln_ok r R)|].
    intros x'. unfold among, the. apply bool_decide_ext. by rewrite list_elem_of_singleton.
  - rewrite (proj2 (Z.ltb_ge (zlen (c :: set)) 1)) by (rewrite zlen_cons; lia). apply (delivers_anew r R st rest q); [done|done|lia|]. intros r' st' Hr' Hst' Hm.
    apply (readlnsa_ok malloc realloc junk junk_len Hmem chunk chunk_ok [] r' st' rest q (c :: set) spare); [done|done|done|rewrite Hm; change (zlen []) with 0; lia].
Qed.

Lemma read_ok r R st rest q n : 0 < n -> holds r R -> streams st rest q -> zlen R + zlen q + n + maxBuffSz st + 3 < LIMIT ->
  let x := take (Z.to_nat n) q in delivers (bsread malloc realloc junk chunk (Some r) (Some st) n rest) st (status x) x (drop (Z.to_nat n) q).
Proof.
  intros Hn Hr Hst Hl. pose proof (zlen_nonneg R). pose proof (zlen_nonneg q). cbn zeta. unfold bsread. rewrite (has_room r R (holds_loose _ _ Hr)), (proj2 (Z.leb_gt n 0)) by lia. cbn [orb]. apply (delivers_anew r R st rest q); [done|done|lia|]. intros r' st' Hr' Hst' Hm.
  apply (reada_ok malloc realloc junk junk_len Hmem chunk chunk_ok []); [done|done|done|rewrite Hm; change (zlen []) with 0; lia].
Qed.

(** ** One operation *)

Lemma run_op_ok K o r R st rest q : op_ok K o -> holds r R -> streams st rest q -> zlen R + zlen q + added o + K + maxBuffSz st + 3 < LIMIT -> 0 <= K ->
  exists rc R' q', queue_step o R q rc R' q' /\ delivers (run_op o (Some r) (Some st) rest) st rc R' q'.
Proof.
  intros Ho Hr Hst Hl HK. pose proof (holds_loose _ _ Hr) as Hlo. pose proof (zlen_nonneg R). pose proof (zlen_nonneg q). pose proof Hst as (? & ? & _ & _ & _ & _ & Hmax & _). destruct o as [t|t|set|set|n|n|x'|]; cbn [added op_ok run_op] in *.
  - eexists _, _, _. split; [constructor|]. apply (readln_ok r R); [done|done|lia].
  - eexists _, _, _. split; [constructor|]. apply readlna_ok; [done..|lia].
  - eexists _, _, _. split; [constructor|]. apply (readlns_ok r R); [done|done|done|lia].
  - eexists _, _, _. split; [constructor|]. apply readlnsa_ok; [done..|lia].
  - eexists _, _, _. split; [constructor|]. apply (read_ok r R); [lia|done|done|lia].
  - eexists _, _, _. split; [constructor|]. apply reada_ok; [done..|lia|lia].
  - eexists _, _, _. split; [constructor|]. destruct (unread_ok malloc realloc junk junk_len Hmem st rest q x' [Byte.x00] (zlen x' + 1 + zlen (@nil byte)) Hst ltac:(lia)) as (st' & E & Hst' & Hp & Hm). unfold cell. rewrite E, bind_ret. exists r, st', rest. by split_and!.
  - destruct (look_ok malloc realloc junk junk_len Hmem st rest q r R Hr Hst ltac:(lia)) as (r' & c & -> & Hr' & q' & ->). rewrite bind_ret. exists BSTR_OK, c, (c ++ q'). split; [constructor|]. exists r', st, rest. by split_and!.
Qed.

(** the string and the queue together have at most the bytes they had, those put back and, after a look, those of the queue twice *)
Lemma cut_length stop q : zlen (cut_line stop q).1 + zlen (cut_line stop q).2 = zlen q.
Proof. induction q as [|c q IH]; [done|]. cbn [cut_line]. destruct (stop c); [cbn [fst snd]; rewrite !zlen_cons; change (zlen (@nil byte)) with 0; lia|]. destruct (cut_line stop q) as [l r]. cbn [fst snd] in *. rewrite !zlen_cons. lia. Qed.

Lemma step_size o R q rc R' q' : queue_step o R q rc R' q' -> zlen q' <= zlen q + added o /\ (zlen R' + zlen q' <= zlen R + zlen q + added o \/ zlen R' + zlen q' <= 2 * zlen q).
Proof.
  pose proof (zlen_nonneg R). destruct 1 as [t R q l|t R q l|set R q l|set R q l|n R q x|n R q x|x R q|R c q]; cbn [added]; try (pose proof (cut_length (the t) q); fold l in H0; pose proof (zlen_nonneg l.1); rewrite ?zlen_app; lia);
    try (pose proof (cut_length (among set) q); fold l in H0; pose proof (zlen_nonneg l.1); rewrite ?zlen_app; lia).
  - unfold x, zlen. rewrite length_take, length_drop. lia.
  - unfold x, zlen. rewrite length_app, length_take, length_drop. lia.
  - rewrite zlen_app. lia.
  - rewrite zlen_app. pose proof (zlen_nonneg q). pose proof (zlen_nonneg c). lia.
Qed.

Lemma all_added_nonneg ops : 0 <= all_added ops.
Proof. induction ops as [|o ops IH]; [done|]. cbn. assert (0 <= added o) by (destruct o; cbn; done || apply zlen_nonneg). lia. Qed.

Lemma run_ops_ok K ops : Forall (op_ok K) ops -> 0 <= K -> forall r R st rest q,
  holds r R -> streams st rest q -> zlen R + zlen q + all_added ops <= K -> 2 * (zlen q + all_added ops) <= K -> 2 * K + maxBuffSz st + 3 < LIMIT ->
  exists rcs R' q' r' st' rest', queue_run ops R q rcs R' q' /\ run_ops ops (Some r) (Some st) rest = Ok (rcs, Some r', Some st', rest') /\ holds r' R' /\ streams st' rest' q' /\ parm st' = parm st.
Proof.
  intros Hops HK. induction Hops as [|o ops Ho Hops IH]; intros r R st rest q Hr Hst H1 H2 Hl.
  { exists [], R, q, r, st, rest. split_and!; [constructor|done..]. }
  cbn [all_added] in *. pose proof (all_added_nonneg ops). assert (0 <= added o) by (destruct o; cbn; done || apply zlen_nonneg).
  destruct (run_op_ok K o r R st rest q Ho Hr Hst ltac:(lia) HK) as (rc & R1 & q1 & Hq & (r1 & st1 & rest1 & E & Hr1 & Hst1 & Hp1 & Hm1)). pose proof (step_size _ _ _ _ _ _ Hq) as [Hs1 Hs2].
  destruct (IH r1 R1 st1 rest1 q1 Hr1 Hst1) as (rcs & R2 & q2 & r2 & st2 & rest2 & Hq2 & E2 & Hr2 & Hst2 & Hp2); [lia|lia|lia|].
  exists (rc :: rcs), R2, q2, r2, st2, rest2. cbn [run_ops]. rewrite E, bind_ret, E2, bind_ret. split_and!; [by econstructor|done|done|done|congruence].
Qed.
End Run.

(** ** Opening, the end, closing *)

(** a stream that has just been opened gives what is below *)
Lemma open_streams malloc realloc junk handle rest : (forall n, 0 <= n -> zlen (junk n) = n) -> memory malloc realloc ->
  exists st, bsopen malloc junk true handle = Ok (Some st) /\ streams st rest rest /\ parm st = handle /\ maxBuffSz st = BS_BUFF_SZ.
Proof.
  intros Hj [Hm Hr]. unfold bsopen. rewrite Hm. cbn [negb]. destruct (bfromcstralloc_ok malloc realloc junk Hj [] None) as [(b & E & Hb)|(_ & Hno)]; [reflexivity|done| |by destruct Hno].
  unfold bfromcstr. rewrite E, bind_ret. eexists. split_and!; [done| |done|done]. exists b, []. split_and!; [done|by apply holds_loose|done|done|done|done].
Qed.

(** [bseof] says 1 only when everything has been read *)
Lemma eof_empty st rest q : streams st rest q -> exists e, bseof (Some st) = Ok e /\ (e = 1 -> q = []) /\ (e = 1 \/ e = 0).
Proof.
  intros (bf & c & Eb & Hb & -> & Hfn & _ & Heof). unfold bseof. rewrite Hfn, Eb. cbn [negb need]. destruct (isEOF st) eqn:Ee; cbn [negb]; [|exists 0; split_and!; [done|done|by right]]. rewrite bind_ret. pose proof (loose_sound _ _ Hb) as (_ & -> & _).
  destruct (Z.eqb_spec (zlen c) 0) as [Hz|]; [|exists 0; split_and!; [done|done|by right]]. exists 1. split_and!; [done| |by left]. intros _. rewrite Heof by done. destruct c as [|x c]; [done|]. rewrite zlen_cons in Hz. pose proof (zlen_nonneg c). lia.
Qed.

(** the handle comes back, and the buffer is freed *)
Lemma close_frees st rest q : streams st rest q -> bsclose (Some st) = (Some (parm st), None).
Proof. intros (bf & c & Eb & Hb & _). unfold bsclose. rewrite Eb. destruct Hb as (t & E & Ht & Hl). subst bf. unfold bdestroy. by rewrite (proj1 (loose_sound _ c (ex_intro _ t (conj eq_refl (conj Ht Hl))))). Qed.

(** C10: a stream is a queue of bytes: any sequence of operations, reading lines up to a character or one of a set, reading numbers of
    bytes, appending or anew, putting back and looking, gives for every way in which the function below delivers what the same sequence
    gives on the content of the buffer followed by what is left below; nothing is lost, repeated or out of order, every access is
    within the buffers, and every loop ends. *)
Theorem stream_refines_queue malloc realloc junk chunk K ops r R st rest q :
  (forall n, 0 <= n -> zlen (junk n) = n) -> memory malloc realloc -> (forall rest n, rest <> [] -> 0 < n -> 0 < chunk rest n) ->
  holds r R -> streams st rest q -> Forall (op_ok K) ops -> zlen R + 2 * (zlen q + all_added ops) <= K -> 2 * K + maxBuffSz st + 3 < LIMIT ->
  exists rcs R' q' r' st' rest', queue_run ops R q rcs R' q' /\ run_ops malloc realloc junk chunk ops (Some r) (Some st) rest = Ok (rcs, Some r', Some st', rest') /\
    holds r' R' /\ streams st' rest' q' /\ parm st' = parm st.
Proof.
  intros Hj Hm Hc Hr Hst Hops H1 H2. pose proof (zlen_nonneg R). pose proof (zlen_nonneg q). pose proof (all_added_nonneg ops). by apply (run_ops_ok malloc realloc junk chunk Hj Hm Hc K); [..|lia|lia|done]; [..|lia|done|done].
Qed.


(** ** A run: a line, two bytes, one of them back, and the rest; the function below delivers two bytes at a time *)

Definition ready (q : bytes) : bStream := MkStream (Some (cell q [])) 7 true false 4.

Lemma ready_streams q rest : zlen q + 1 <= LIMIT -> streams (ready q) rest (q ++ rest).
Proof.
  intros Hl. exists (cell q []), q. split_and!; [done| |done|done|done|done]. apply holds_loose. exists []. split; [done|]. change (zlen []) with 0. lia.
Qed.

Definition some_ops : list op := [Readln Byte.x0a; Read 2; Unread (lit "x"); Readlnsa (lit ";,"); Reada 9].

Lemma stream_refines_queue_witness :
  exists r st', run_ops (fun _ => true) (fun _ => true) (fun n => replicate (Z.to_nat n) Byte.xff) (fun _ n => 2) some_ops (Some (cell [] [])) (Some (ready (lit "a"))) (lit "b" ++ [Byte.x0a] ++ lit "cde,fg") =
    Ok ([0; 0; 0; 0; 0], Some r, Some st', []) /\ exists R q, queue_run some_ops [] (lit "ab" ++ [Byte.x0a] ++ lit "cde,fg") [0; 0; 0; 0; 0] R q /\ holds r R /\ streams st' [] q.
Proof.
  destruct (stream_refines_queue (fun _ => true) (fun _ => true) (fun n => replicate (Z.to_nat n) Byte.xff) (fun _ n => 2) 100 some_ops (cell [] []) [] (ready (lit "a")) (lit "b" ++ [Byte.x0a] ++ lit "cde,fg") (lit "ab" ++ [Byte.x0a] ++ lit "cde,fg"))
    as (rcs & R & q & r & st' & rest & Hq & E & Hr & Hst & _).
  - intros n Hn. unfold zlen. rewrite length_replicate. lia.
  - by split.
  - intros rest n _ Hn. lia.
  - exists []. by vm_compute.
  - apply (ready_streams (lit "a") (lit "b" ++ [Byte.x0a] ++ lit "cde,fg")). vm_compute. discriminate.
  - repeat constructor; vm_compute; discriminate.
  - vm_compute. discriminate.
  - reflexivity.
  - assert (Er : exists r0 st0, run_ops (fun _ => true) (fun _ => true) (fun n => replicate (Z.to_nat n) Byte.xff) (fun _ n => 2) some_ops (Some (cell [] [])) (Some (ready (lit "a"))) (lit "b" ++ [Byte.x0a] ++ lit "cde,fg") = Ok ([0; 0; 0; 0; 0], Some r0, Some st0, [])) by (eexists _, _; vm_compute; reflexivity).
    destruct Er as (r0 & st0 & Er). rewrite Er in E. injection E as <- <- <- <-. exists r0, st0. split; [exact Er|]. exists R, q. split_and!; [exact Hq|exact Hr|exact Hst].
Defined.
End BStringQueue.
