(* ===== verification/BStringSplit.v ===== *)
(** * BStringSplit: splitting a stream at a set of characters

    [bssplitscb] on a stream gives the callback the same pieces as [bsplitscb] on a string with the whole content; with an
    empty set it does not come back. *)

From Stdlib Require Import ZArith Lia.
From S2P Require Import Prelude BString BStringProps BStringMake BStringList BStringListProps BStringStream BStringStreamProps BStringQueue.
Import BString BStringProps BStringMake BStringListProps BStringStream BStringStreamProps.
Local Open Scope Z_scope.

Module BStringSplit.

(** ** Fields *)

Section Fields.
Context (p : byte -> bool).
Abbreviation plain := (Forall (fun c => p c = false)).

Lemma fields_plain a : plain a -> fields p a = [a].
Proof. induction 1 as [|c a Hc _ IH]; [done|]. cbn [fields]. by rewrite Hc, IH. Qed.

Lemma fields_at a c r : plain a -> p c = true -> fields p (a ++ c :: r) = a :: fields p r.
Proof. intros Ha Hc. induction Ha as [|x a Hx _ IH]; cbn [app fields]; [by rewrite Hc|]. by rewrite Hx, IH. Qed.
End Fields.

Section Split.
Context (malloc realloc : Z -> bool) (junk : Z -> bytes) (junk_len : forall n, 0 <= n -> zlen (junk n) = n) (Hmem : memory malloc realloc).
Context (chunk : bytes -> Z -> Z) (chunk_ok : forall rest n, rest <> [] -> 0 < n -> 0 < chunk rest n).
Context {G : Type} (cb : G -> Z -> bs -> option bStream -> bytes -> res (Z * G * option bStream * bytes)).

(** a callback that goes on and leaves the stream alone *)
Definition carries_on (step : G -> Z -> bytes -> G) : Prop := forall g ofs b f s rest, holds b f -> cb g ofs b s rest = Ok (0, step g ofs f, s, rest).

(** one call for each field, with its offset *)
Fixpoint walk (step : G -> Z -> bytes -> G) (g : G) (ofs : Z) (fs : list bytes) : G :=
  match fs with [] => g | f :: fs => walk step (step g ofs f) (ofs + zlen f + 1) fs end.

Section Loop.
Context (step : G -> Z -> bytes -> G) (Hcb : carries_on step) (set : bytes).
Abbreviation stop := (among set).
Abbreviation plain := (Forall (fun c => stop c = false)).
Abbreviation loop fuel b st ofs i g rest := (ssplit_loop malloc realloc junk chunk cb fuel (foldl add_char no_chars set) (Some b) (Some st) ofs i g rest).

(** the loop from a byte on that has not been looked at *)
Definition splits (n : nat) (a y q : bytes) (ofs : Z) : Prop := forall b st g rest fuel,
  loose b (a ++ y) -> streams st rest q -> ofs + zlen (a ++ y ++ q) + BSSSC_BUFF_LEN + maxBuffSz st + 3 < LIMIT -> (n < fuel)%nat ->
  exists st' rest', loop fuel b st ofs (zlen a) g rest = Ok (0, walk step g ofs (fields stop (a ++ y ++ q)), Some st', rest') /\ streams st' rest' [] /\ parm st' = parm st.

(** the buffer has a byte that has not been looked at *)
Lemma split_byte n a c y q ofs : 0 <= ofs -> plain a ->
  (stop c = true -> splits n [] [] (y ++ q) (ofs + zlen a + 1)) -> (stop c = false -> splits n (a ++ [c]) y q ofs) -> splits (S n) a (c :: y) q ofs.
Proof.
  intros Hofs Ha Hsep Hgo b st g rest fuel Hb Hst Hl Hf. destruct fuel as [|fuel]; [lia|]. cbn [ssplit_loop need]. rewrite bind_ret. pose proof (loose_sound _ _ Hb) as (_ & -> & _). pose proof (zlen_nonneg a). pose proof (zlen_nonneg y). pose proof (zlen_nonneg q).
  rewrite !zlen_app, zlen_cons in Hl. rewrite !zlen_app, zlen_cons. rewrite (proj2 (Z.leb_gt (zlen a + (1 + zlen y)) (zlen a))) by lia. rewrite bind_ret. cbn [need]. rewrite bind_ret. pose proof (loose_sound _ _ Hb) as (_ & -> & _). rewrite zlen_app, zlen_cons.
  rewrite (proj2 (Z.leb_gt (zlen a + (1 + zlen y)) (zlen a))) by lia. destruct Hb as (t & -> & Ht & Hlt). rewrite zlen_app, zlen_cons in *. rewrite <- !app_assoc. cbn [app].
  assert (peek (a ++ c :: y ++ t) (zlen a) = Ok c) as ->.
  { unfold peek. rewrite (proj2 (Z.ltb_ge (zlen a) 0)) by lia. unfold zlen. rewrite Nat2Z.id. by rewrite list_lookup_middle. }
  rewrite bind_ret, test_field. fold (stop c). destruct (stop c) eqn:Ec.
  - assert (slice (a ++ c :: y ++ t) (zlen a + 1) (zlen a + (1 + zlen y) - (zlen a + 1)) = Ok y) as ->.
    { replace (zlen a + 1) with (zlen (a ++ [c])) by (by rewrite zlen_app). replace (zlen a + (1 + zlen y) - zlen (a ++ [c])) with (zlen y) by (rewrite zlen_app; change (zlen [c]) with 1; lia).
      replace (a ++ c :: y ++ t) with ((a ++ [c]) ++ y ++ t) by (by rewrite <- app_assoc). apply slice_mid. }
    rewrite bind_ret. replace (zlen a + (1 + zlen y) - (zlen a + 1)) with (zlen y) by lia. destruct (unread_ok malloc realloc junk junk_len Hmem st rest q y [] (-1) Hst) as (st1 & E1 & Hst1 & Hp1 & Hm1); [unfold BSSSC_BUFF_LEN in Hl; pose proof Hst as (? & ? & _ & _ & _ & _ & ? & _); lia|].
    rewrite app_nil_r in E1. rewrite E1, bind_ret. cbn [Z.ltb Z.compare]. rewrite poke_mid, bind_ret.
    rewrite (Hcb g ofs (BS (zlen a + (1 + zlen y) + zlen t) (zlen a) (Some (a ++ Byte.x00 :: y ++ t))) a (Some st1) rest), bind_ret.
    2:{ exists (y ++ t). unfold cell. rewrite zlen_app. split; [f_equal; lia|lia]. }
    cbn [Z.ltb Z.compare]. rewrite poke_mid, bind_ret. rewrite iadd_ok, bind_ret by (unfold INT_MIN, INT_MAX, LIMIT, BSSSC_BUFF_LEN in *; pose proof Hst as (? & ? & _ & _ & _ & _ & ? & _); lia).
    destruct (Hsep eq_refl (BS (zlen a + (1 + zlen y) + zlen t) 0 (Some (a ++ c :: y ++ t))) st1 (step g ofs a) rest fuel) as (st' & rest' & E & Hst' & Hp').
    + exists (a ++ c :: y ++ t). cbn [app]. rewrite zlen_app, zlen_cons, zlen_app. change (zlen []) with 0. split_and!; [f_equal; lia|lia|lia].
    + done.
    + cbn [app]. rewrite zlen_app, Hm1. lia.
    + lia.
    + exists st', rest'. cbn [app] in E. change (zlen []) with 0 in E. replace (ofs + (zlen a + 1)) with (ofs + zlen a + 1) by lia. rewrite E, fields_at by done. split_and!; [done|done|congruence].
  - destruct (Hgo eq_refl (BS (zlen a + (1 + zlen y) + zlen t) (zlen a + (1 + zlen y)) (Some (a ++ c :: y ++ t))) st g rest fuel) as (st' & rest' & E & Hst' & Hp').
    + exists t. rewrite <- !app_assoc. cbn [app]. rewrite zlen_app, zlen_cons. split_and!; [f_equal; lia|lia|lia].
    + done.
    + rewrite <- !app_assoc, !zlen_app. change (zlen [c]) with 1. lia.
    + lia.
    + exists st', rest'. rewrite <- !app_assoc in E. cbn [app] in E. rewrite zlen_app in E. change (zlen [c]) with 1 in E. rewrite E. by split_and!.
Qed.

(** the buffer has been looked at to its end *)
Lemma split_refill n a q ofs : 0 <= ofs -> splits n a (take (Z.to_nat BSSSC_BUFF_LEN) q) (drop (Z.to_nat BSSSC_BUFF_LEN) q) ofs -> q <> [] -> splits n a [] q ofs.
Proof.
  intros Hofs Hgo Hne b st g rest fuel Hb Hst Hl Hf. destruct fuel as [|fuel]; [lia|]. cbn [app] in Hl. rewrite app_nil_r in Hb. pose proof (zlen_nonneg a). pose proof Hst as (? & ? & _ & _ & _ & _ & Hmax & _). rewrite zlen_app in Hl.
  destruct (reada_ok malloc realloc junk junk_len Hmem chunk chunk_ok a b st rest q BSSSC_BUFF_LEN Hb Hst ltac:(done) ltac:(lia)) as (b' & st1 & rest1 & E & Hb' & Hst1 & Hp1 & Hm1).
  destruct (Hgo b' st1 g rest1 (S fuel)) as (st' & rest' & E' & Hst' & Hp'); [by apply holds_loose|done|rewrite take_drop, zlen_app, Hm1; lia|done|]. rewrite take_drop in E'. exists st', rest'. split_and!; [|done|congruence]. cbn [app]. rewrite <- E'.
  cbn [ssplit_loop need]. rewrite !bind_ret. pose proof (loose_sound _ _ Hb) as (_ & -> & _). pose proof (holds_length _ _ Hb') as (Hlen & _). rewrite Hlen, (proj2 (Z.leb_le (zlen a) (zlen a))) by lia.
  assert (Hpos : zlen a < zlen (a ++ take (Z.to_nat BSSSC_BUFF_LEN) q)).
  { rewrite zlen_app. destruct q as [|c q]; [done|]. change (Z.to_nat BSSSC_BUFF_LEN) with (S 255). cbn [take]. rewrite zlen_cons. pose proof (zlen_nonneg (take 255 q)). lia. }
  rewrite (proj2 (Z.leb_gt _ (zlen a))) by exact Hpos. rewrite E. by rewrite !bind_ret.
Qed.

Lemma split_end a ofs : 0 <= ofs -> plain a -> splits 0 a [] [] ofs.
Proof.
  intros Hofs Ha b st g rest fuel Hb Hst Hl Hf. destruct fuel as [|fuel]; [lia|]. cbn [app] in Hl. rewrite app_nil_r in *. pose proof (zlen_nonneg a). pose proof Hst as (? & ? & _ & _ & _ & _ & Hmax & _).
  destruct (reada_ok malloc realloc junk junk_len Hmem chunk chunk_ok a b st rest [] BSSSC_BUFF_LEN Hb Hst ltac:(done) ltac:(change (zlen (@nil byte)) with 0; lia)) as (b' & st1 & rest1 & E & Hb' & Hst1 & Hp1 & Hm1).
  rewrite take_nil, app_nil_r in *. rewrite drop_nil in Hst1. exists st1, rest1. split_and!; [|done|done]. cbn [ssplit_loop need]. rewrite !bind_ret. pose proof (loose_sound _ _ Hb) as (_ & -> & _). rewrite Z.leb_refl, E, !bind_ret. cbn [need]. rewrite bind_ret.
  pose proof (holds_length _ _ Hb') as (-> & _). rewrite Z.leb_refl, (Hcb g ofs b' a (Some st1) rest1 Hb'), bind_ret by done. cbn [app]. rewrite ?app_nil_r, fields_plain by done. done.
Qed.

Lemma split_all n : forall a y q ofs, length (y ++ q) = n -> 0 <= ofs -> plain a -> splits n a y q ofs.
Proof.
  assert (Hbyte : forall n a c y q ofs, (forall a y q ofs, length (y ++ q) = n -> 0 <= ofs -> plain a -> splits n a y q ofs) -> length (y ++ q) = n -> 0 <= ofs -> plain a -> splits (S n) a (c :: y) q ofs).
  { intros m a c y q ofs IH Hn Hofs Ha. pose proof (zlen_nonneg a). apply split_byte; [done|done|intros _; apply IH; [done|lia|done]|]. intros Hc. apply IH; [done|done|]. apply Forall_app. split; [done|by constructor]. }
  induction n as [|n IH]; intros a y q ofs Hn Hofs Ha.
  - apply nil_length_inv, app_eq_nil in Hn as [-> ->]. by apply split_end.
  - destruct y as [|c y]; [|cbn in Hn; apply Hbyte; [done|lia|done|done]]. cbn [app] in Hn. destruct q as [|c q]; [done|]. apply split_refill; [done| |done]. change (Z.to_nat BSSSC_BUFF_LEN) with (S 255). cbn [take drop]. cbn in Hn.
    apply Hbyte; [done|rewrite take_drop; lia|done|done].
Qed.
End Loop.
End Split.

(** C12: splitting a stream: for every set of characters that is not empty and every callback that goes on, [bssplitscb] returns 0 after it has called
    the callback once for each piece of the whole content between these characters, in order and with the offset of the piece,
    and the stream is at its end; the pieces are those into which [bsplits] cuts a string. *)
Theorem stream_splits_fields {G} malloc realloc junk chunk (cb : G -> Z -> bs -> option bStream -> bytes -> res (Z * G * option bStream * bytes)) step set st rest q g fuel :
  (forall n, 0 <= n -> zlen (junk n) = n) -> memory malloc realloc -> (forall rest n, rest <> [] -> 0 < n -> 0 < chunk rest n) -> carries_on cb step ->
  set <> [] -> streams st rest q -> zlen q + 256 + maxBuffSz st + 3 < LIMIT -> (length q < fuel)%nat ->
  exists st' rest', bssplitscb malloc realloc junk chunk cb fuel (Some st) (Some (cell set [])) g rest = Ok (0, walk step g 0 (fields (among set) q), Some st', rest') /\
    streams st' rest' [] /\ parm st' = parm st.
Proof.
  intros Hj Hm Hc Hcb Hne Hst Hl Hf. unfold bssplitscb. cbn [slen cell]. assert (Hs : 0 < zlen set) by (destruct set as [|c set]; [done|]; rewrite zlen_cons; pose proof (zlen_nonneg set); lia).
  pose proof Hst as (bf & c & _ & _ & _ & Hfn & Hmax & _). rewrite Hfn, (proj2 (Z.ltb_ge (zlen set) 0)) by lia. cbn [negb orb]. destruct (bfromcstralloc_ok malloc realloc junk Hj [] None) as [(b & E & Hb)|(_ & Hno)]; [reflexivity|done| |done].
  unfold bfromcstr. rewrite E, bind_ret, (proj2 (Z.eqb_neq (zlen set) 0)) by lia. unfold buildCharField, cell at 1. rewrite (proj2 (Z.leb_gt (zlen set) 0)), slice_front, bind_ret by lia. cbn [need]. rewrite !bind_ret. cbn [need]. rewrite bind_ret.
  destruct (split_all malloc realloc junk Hj Hm chunk Hc cb step Hcb set (length q) [] [] q 0 eq_refl ltac:(done) ltac:(done) b st g rest fuel) as (st' & rest' & E' & H'); [by apply holds_loose|done|cbn [app]; unfold BSSSC_BUFF_LEN; lia|lia|].
  exists st', rest'. split; [exact E'|done].
Qed.

(** ** An empty set *)

Lemma drain_diverges malloc realloc junk chunk : (forall n, 0 <= n -> zlen (junk n) = n) -> memory malloc realloc -> (forall rest n, rest <> [] -> 0 < n -> 0 < chunk rest n) ->
  forall fuel b R st rest q, holds b R -> streams st rest q -> R ++ q <> [] -> zlen (R ++ q) + 256 + maxBuffSz st + 3 < LIMIT -> drain_loop malloc realloc junk chunk fuel (Some b) (Some st) rest = Fault NoFuel.
Proof.
  intros Hj Hm Hc fuel. induction fuel as [|fuel IH]; intros b R st rest q Hb Hst Hne Hl; [done|]. cbn [drain_loop]. rewrite zlen_app in Hl.
  destruct (reada_ok malloc realloc junk Hj Hm chunk Hc R b st rest q BSSSC_BUFF_LEN (holds_loose _ _ Hb) Hst ltac:(done) ltac:(unfold BSSSC_BUFF_LEN; lia)) as (b' & st1 & rest1 & E & Hb' & Hst1 & Hp1 & Hm1).
  rewrite E, bind_ret. rewrite (proj2 (Z.eqb_neq (zlen (R ++ _)) 0)).
  - cbn [Z.leb Z.compare]. apply (IH b' _ st1 rest1 _ Hb' Hst1); rewrite <- app_assoc, take_drop; [done|]. rewrite zlen_app, Hm1. lia.
  - intros Hz. apply Hne. destruct R as [|c R]; [|rewrite zlen_app, zlen_cons in Hz; pose proof (zlen_nonneg R); pose proof (zlen_nonneg (take (Z.to_nat BSSSC_BUFF_LEN) q)); lia]. destruct q as [|c q]; [done|]. cbn [app] in Hz.
    change (Z.to_nat BSSSC_BUFF_LEN) with (S 255) in Hz. cbn [take] in Hz. rewrite zlen_cons in Hz. pose proof (zlen_nonneg (take 255 q)). lia.
Qed.

(** C34: an empty [splitStr] is meant to give the whole stream to the callback once; on a stream that has at least one byte [bssplitscb] does not
    come back: the loop that reads the stream ends when [bsreada] fails, and that only happens while nothing has been read. *)
Theorem empty_split_diverges {G} malloc realloc junk chunk (cb : G -> Z -> bs -> option bStream -> bytes -> res (Z * G * option bStream * bytes)) sp st rest q g fuel :
  (forall n, 0 <= n -> zlen (junk n) = n) -> memory malloc realloc -> (forall rest n, rest <> [] -> 0 < n -> 0 < chunk rest n) ->
  slen sp = 0 -> streams st rest q -> q <> [] -> zlen q + 256 + maxBuffSz st + 3 < LIMIT ->
  bssplitscb malloc realloc junk chunk cb fuel (Some st) (Some sp) g rest = Fault NoFuel.
Proof.
  intros Hj Hm Hc Hsp Hst Hq Hl. unfold bssplitscb. rewrite Hsp. pose proof Hst as (bf & c & _ & _ & _ & Hfn & Hmax & _). rewrite Hfn. cbn [negb orb Z.ltb Z.compare Z.eqb].
  destruct (bfromcstralloc_ok malloc realloc junk Hj [] None) as [(b & E & Hb)|(_ & Hno)]; [reflexivity|done| |done]. unfold bfromcstr. rewrite E, bind_ret. by rewrite (drain_diverges malloc realloc junk chunk Hj Hm Hc fuel b [] st rest q).
Qed.

(** ** Runs *)

Import BStringQueue.

(** the pieces with their offsets *)
Definition note (g : list (Z * bytes)) (ofs : Z) (f : bytes) : list (Z * bytes) := g ++ [(ofs, f)].
Definition collect (g : list (Z * bytes)) (ofs : Z) (b : bs) (s : option bStream) (rest : bytes) : res (Z * list (Z * bytes) * option bStream * bytes) :=
  d ← need NullDeref (data b); f ← slice d 0 (slen b); Ok (0, note g ofs f, s, rest).

Lemma collects : carries_on collect note.
Proof. intros g ofs b f s rest (r & -> & _). unfold collect, cell. cbn [data slen need]. by rewrite bind_ret, slice_front, bind_ret. Qed.

Lemma stream_splits_fields_witness :
  exists st' rest', bssplitscb (fun _ => true) (fun _ => true) (fun n => replicate (Z.to_nat n) Byte.xff) (fun _ _ => 2) collect 9 (Some (ready (lit "a"))) (Some (cell (lit ";,") [])) [] (lit "b,c;;d") =
    Ok (0, [(0, lit "ab"); (3, lit "c"); (5, []); (6, lit "d")], Some st', rest') /\ streams st' rest' [].
Proof.
  destruct (stream_splits_fields (fun _ => true) (fun _ => true) (fun n => replicate (Z.to_nat n) Byte.xff) (fun _ _ => 2) collect note (lit ";,") (ready (lit "a")) (lit "b,c;;d") (lit "ab,c;;d") [] 9) as (st' & rest' & E & Hst & _).
  - intros n Hn. unfold zlen. rewrite length_replicate. lia.
  - by split.
  - intros rest n _ _. lia.
  - exact collects.
  - done.
  - apply (ready_streams (lit "a") (lit "b,c;;d")). vm_compute. discriminate.
  - reflexivity.
  - vm_compute. lia.
  - exists st', rest'. split; [exact E|exact Hst].
Defined.

Lemma empty_split_diverges_witness :
  bssplitscb (fun _ => true) (fun _ => true) (fun n => replicate (Z.to_nat n) Byte.xff) (fun _ n => n) collect 100 (Some (ready (lit "a"))) (Some (cell [] [])) [] (lit "b") = Fault NoFuel.
Proof.
  apply (empty_split_diverges (fun _ => true) (fun _ => true) (fun n => replicate (Z.to_nat n) Byte.xff) (fun _ n => n) collect (cell [] []) (ready (lit "a")) (lit "b") (lit "ab") [] 100).
  - intros n Hn. unfold zlen. rewrite length_replicate. lia.
  - by split.
  - intros rest n _ Hn. exact Hn.
  - reflexivity.
  - apply (ready_streams (lit "a") (lit "b")). vm_compute. discriminate.
  - done.
  - reflexivity.
Defined.

(** ** When memory runs out *)

(** [bsopen] does not look whether there was memory for the buffer: the stream looks open, and at its end [bseof] follows the NULL pointer *)
Example open_without_buffer : exists s, bsopen (fun n => n =? sizeof_bStream) (fun n => replicate (Z.to_nat n) Byte.xff) true 7 = Ok (Some s) /\ buff s = None /\ bseof (Some (set_eof s)) = Fault NullDeref.
Proof. eexists. split_and!; reflexivity. Qed.

(** [bsreadlna] returns success although there was no memory for the line, which is still in the stream *)
Example readln_hides_failure :
  bsreadlna (fun _ => false) (fun _ => false) (fun n => replicate (Z.to_nat n) Byte.xff) (fun _ n => n) (Some (cell [] [])) (Some (MkStream (Some (cell (lit "ab;c") (replicate 8 Byte.x00))) 7 true false 4)) Byte.x3b [] =
  Ok (0, Some (cell [] []), Some (MkStream (Some (BS 13 4 (Some (lit "ab;c" ++ [Byte.x3b] ++ replicate 8 Byte.x00)))) 7 true false 4), []).
Proof. vm_compute. reflexivity. Qed.

(** [bsreada] takes a failure to append nothing for the end of the stream, with bytes left below *)
Example reada_false_end :
  exists s, bsreada (fun _ => false) (fun _ => false) (fun n => replicate (Z.to_nat n) Byte.xff) (fun _ n => n) (Some (cell [] [])) (Some (MkStream (Some (cell [] (replicate 8 Byte.x00))) 7 true false 4)) 3 (lit "abc") =
    Ok (BSTR_ERR, Some (cell [] []), Some s, lit "abc") /\ bseof (Some s) = Ok 1.
Proof. eexists. split; vm_compute; reflexivity. Qed.
End BStringSplit.
