(* ===== verification/BStringMacros.v ===== *)
(** * BStringMacros: the macros of [src/src/myriad/bstring/bstrlib.h] and write protection

    Access to length, data and characters, strings that refer to memory of others, and the protection of a string by a
    negative capacity. *)

From Stdlib Require Import ZArith Lia.
From S2P Require Import Prelude Node BString BStringProps BStringSearch BStringMake BStringFormat BStringReplace.
Import BString BStringProps BStringMake BStringFormat BStringReplace.
Local Open Scope Z_scope.

Module BStringMacros.

(** ** Access *)

Definition blengthe (b : option bs) (e : Z) : Z := match b with Some x => if slen x <? 0 then e else slen x | None => e end.
Definition blength (b : option bs) : Z := blengthe b 0.

(** the data from an offset on; [e] when there is none *)
Definition bdataofse (b : option bs) (o : Z) (e : option bytes) : res (option bytes) :=
  match b with
  | Some (BS _ _ (Some d)) => if (0 <=? o) && (o <=? zlen d) then Ok (Some (drop (Z.to_nat o) d)) else Fault OutOfBounds
  | _ => Ok e
  end.
Definition bdataofs (b : option bs) (o : Z) : res (option bytes) := bdataofse b o None.
Definition bdatae (b : option bs) (e : option bytes) : res (option bytes) := bdataofse b 0 e.
Definition bdata (b : option bs) : res (option bytes) := bdataofs b 0.

(** the position is compared as an unsigned number *)
Definition bchare (b : option bs) (p : Z) (e : byte) : res byte :=
  if u32 p <? u32 (blength b) then x ← need NullDeref b; d ← need NullDeref (data x); peek d p else Ok e.
Definition bchar (b : option bs) (p : Z) : res byte := bchare b p Byte.x00.

Definition bstrchr (b : option bs) (c : Z) : res Z := bstrchrp b c 0.
Definition bstrrchr (b : option bs) (c : Z) : res Z := bstrrchrp b c (blength b - 1).

(** [free]: whether there was something to free *)
Definition bcstrfree (s : option bytes) : Z := match s with Some _ => BSTR_OK | None => BSTR_ERR end.

(** ** Strings in the memory of others *)

(** [q] is a literal in line [line]; a NUL is behind it *)
Definition bsStatic (line : Z) (q : bytes) : bs := BS (- line) (zlen q) (Some (q ++ [Byte.x00])).

Definition btfromcstr (s : option bytes) : bs := match s with Some s => BS (-1) (i32 (zlen (cstr s))) (Some s) | None => BS (-1) 0 None end.
Definition blk2tbstr (s : option bytes) (l : Z) : bs := BS (-1) l s.

Definition bmid2tbstr (line : Z) (b : option bs) (p l : Z) : res bs :=
  let none := BS (- line) 0 (Some [Byte.x00]) in
  match b with
  | Some (BS _ n (Some d)) =>
    if n <? 0 then Ok none else
    '(lft, len) ← clamp n p l;
    if len <=? 0 then Ok none else
    if lft <=? zlen d then Ok (BS (- line) len (Some (drop (Z.to_nat lft) d))) else Fault OutOfBounds
  | _ => Ok none
  end.

(** ** Protection *)

Definition bwriteprotect (t : bs) : bs := if 0 <=? mlen t then BS (-1) (slen t) (data t) else t.
Definition bwriteallow (t : bs) : bs := if mlen t =? -1 then BS (slen t + (if slen t =? 0 then 1 else 0)) (slen t) (data t) else t.
Definition biswriteprotected (t : bs) : bool := mlen t <=? 0.

(** ** What they are on sequences *)

Lemma blength_ok b s : holds b s -> blength (Some b) = Node.Node.blength (Some s).
Proof. intros Hb. pose proof (holds_length b s Hb) as (Hl & Hs & _). unfold blength, blengthe. cbn. rewrite Hl. by rewrite (proj2 (Z.ltb_ge (zlen s) 0)) by lia. Qed.

(** a position that is an [int]: negative ones are too great *)
Lemma bchar_ok b s p : holds b s -> INT_MIN <= p <= INT_MAX -> bchar (Some b) p = Ok (Node.Node.bchar (Some s) p).
Proof.
  intros Hb Hp. pose proof (holds_length b s Hb) as (Hl & Hs & Hm). unfold bchar, bchare, blength, blengthe. rewrite Hl, (proj2 (Z.ltb_ge (zlen s) 0)) by lia. unfold INT_MIN, INT_MAX, LIMIT in *.
  assert (u32 (zlen s) = zlen s) as -> by (unfold u32; apply Z.mod_small; lia). unfold Node.Node.bchar. destruct (Z.leb_spec 0 p) as [H0|H0].
  - assert (u32 p = p) as -> by (unfold u32; apply Z.mod_small; lia). cbn [andb]. destruct (Z.ltb_spec p (zlen s)); [|done]. destruct Hb as (rest & -> & _). unfold cell. cbn [need]. rewrite bind_ret. cbn [data need]. rewrite bind_ret. unfold peek. rewrite (proj2 (Z.ltb_ge p 0)) by lia.
    rewrite lookup_app_l by (unfold zlen in *; lia). destruct (lookup_lt_is_Some_2 s (Z.to_nat p)) as [c Hc]; [unfold zlen in *; lia|]. by rewrite Hc.
  - cbn [andb]. assert (u32 p = p + 2 ^ 32) as -> by (unfold u32; rewrite <- (Z.mod_add p 1) by lia; apply Z.mod_small; lia). by rewrite (proj2 (Z.ltb_ge (p + 2 ^ 32) (zlen s))) by lia.
Qed.

(** the reference has the content that [bmidstr] copies *)
Lemma bmid2tbstr_ok line b s p l : holds b s -> INT_MIN <= l + Z.min 0 p -> l <= INT_MAX ->
  exists t rest, bmid2tbstr line (Some b) p l = Ok t /\ data t = Some (middle s p l ++ rest) /\ slen t = zlen (middle s p l) /\ mlen t = - line.
Proof.
  intros (rest & -> & Hl) Hmin Hmax. pose proof (zlen_nonneg s). pose proof (zlen_nonneg rest). unfold bmid2tbstr, cell. rewrite (proj2 (Z.ltb_ge (zlen s) 0)) by lia. destruct (clamp_ok s p l Hmin Hmax) as (lft & k & -> & Hl0 & Hk & ->). rewrite bind_ret.
  destruct (Z.leb_spec k 0) as [Hk0|Hk0].
  - replace (Z.to_nat k) with 0%nat by lia. eexists _, [Byte.x00]. split_and!; done.
  - rewrite zlen_app, zlen_cons, (proj2 (Z.leb_le lft (zlen s + (1 + zlen rest)))) by lia. destruct (split_at s lft) as (a & m & -> & Ha); [lia|]. rewrite zlen_app in *. destruct (split_at m k) as (x & y & -> & Hx); [lia|].
    eexists _, (y ++ Byte.x00 :: rest). split; [done|]. cbn [data slen mlen]. replace (Z.to_nat lft) with (length a) by (unfold zlen in Ha; lia). replace (Z.to_nat k) with (length x) by (unfold zlen in Hx; lia).
    rewrite <- app_assoc, !drop_app_length, take_app_length. split_and!; [by rewrite <- app_assoc|done|done].
Qed.

(** a protected string is one again after it has been allowed, with the capacity of its content *)
Lemma protect_allow b s : holds b s ->
  biswriteprotected (bwriteprotect b) = true /\ biswriteprotected (bwriteallow (bwriteprotect b)) = false /\ bwriteallow (bwriteprotect b) = BS (Z.max 1 (zlen s)) (zlen s) (data b).
Proof.
  intros Hb. pose proof (holds_length b s Hb) as (Hl & Hs & Hm). unfold bwriteprotect. rewrite (proj2 (Z.leb_le 0 (mlen b))) by lia. unfold bwriteallow, biswriteprotected. cbn [mlen slen data Z.eqb]. rewrite Hl.
  split; [done|]. destruct (Z.eqb_spec (zlen s) 0) as [->|]; [done|]. split; [cbn; lia|]. f_equal. lia.
Qed.

(** ** Nobody writes to a protected string *)

Section Guarded.
Context (malloc realloc : Z -> bool) (junk : Z -> bytes) (m : Z) (s t : bytes) (Hm : m < 0).
(** the string of a [bsStatic], a reference or a protected string *)
Abbreviation g := (BS m (zlen s) (Some (s ++ t))).

Lemma guarded_broken : broken g = true.
Proof. unfold broken. cbn [slen mlen]. lia. Qed.

Lemma guarded_alloc len : balloc malloc realloc junk (Some g) len = Ok (BSTR_ERR, Some g).
Proof. unfold balloc. by rewrite guarded_broken. Qed.

Lemma guarded_content a : exists k u, arg_of (Some g) (to_arg a) = Some (BS k (zlen (content s a)) (Some (content s a ++ u))).
Proof. destruct a as [|x spare]; cbn; eauto. Qed.

(** each operation fails and leaves it alone *)
Lemma guarded_op o : sane o = true -> perform malloc realloc junk o (Some g) = Ok (BSTR_ERR, Some g).
Proof.
  intros Ho. pose proof guarded_broken as Hb. pose proof (zlen_nonneg s). assert (Hneg : (m - zlen s <? 0) = true) by lia. assert (Hlt : (m <? zlen s) = true) by lia.
  destruct o as [a|c|x len|a|n|pos len|pos a f|pos a f|pos len f|pos len a f| | | |]; cbn [perform sane] in *.
  - destruct (guarded_content a) as (k & u & E). unfold bconcat. rewrite E. by rewrite Hneg, orb_true_r.
  - unfold bconchar. cbn [slen mlen]. by rewrite Hneg, orb_true_r.
  - unfold bcatblk. by rewrite Hb.
  - destruct (guarded_content a) as (k & u & E). unfold bassign. rewrite E. pose proof (zlen_nonneg (content s a)). rewrite (proj2 (Z.ltb_ge (zlen (content s a)) 0)) by lia. rewrite slice_front, bind_ret, guarded_alloc.
    destruct (zlen (content s a) =? 0); cbn [negb]; [|by rewrite bind_ret]. by rewrite Hlt, bind_ret.
  - unfold btrunc. by rewrite Hb, orb_true_r.
  - unfold bdelete. rewrite (proj2 (Z.ltb_ge pos 0)) by lia. rewrite bind_ret. by rewrite Hb, orb_true_r.
  - unfold bsetstr. by rewrite Hb, orb_true_r.
  - destruct (guarded_content a) as (k & u & E). unfold binsert. rewrite E. cbn [slen mlen]. by rewrite Hlt, !orb_true_r.
  - unfold binsertch. cbn [slen mlen]. by rewrite Hlt, !orb_true_r.
  - destruct (guarded_content a) as (k & u & E). unfold breplace. rewrite E. rewrite (proj2 (Z.ltb_ge pos 0)), (proj2 (Z.ltb_ge len 0)) by lia. cbn [orb]. rewrite (iadd_ok pos len), bind_ret by (unfold INT_MIN, INT_MAX in *; lia). by rewrite Hb, orb_true_r.
  - unfold btoupper, map_content. by rewrite Hb.
  - unfold btolower, map_content. by rewrite Hb.
  - unfold bltrimws. by rewrite Hb.
  - unfold brtrimws. by rewrite Hb.
Qed.

Lemma guarded_ops ops : Forall (fun o => sane o = true) ops -> performs malloc realloc junk ops (Some g) = Ok ([], Some g).
Proof. induction 1 as [|o ops Ho _ IH]; [done|]. cbn [performs]. by rewrite guarded_op, bind_ret, IH, bind_ret. Qed.

Lemma guarded_replace find repl pos instr : findreplaceengine malloc realloc junk instr (Some g) (to_arg find) (to_arg repl) pos = Ok (BSTR_ERR, Some g).
Proof.
  pose proof guarded_broken as Hb. destruct (guarded_content find) as (k & u & E). destruct (guarded_content repl) as (k' & u' & E'). unfold findreplaceengine. rewrite E, E'. by rewrite Hb, !orb_true_r.
Qed.

Lemma guarded_format fmt out : bformata malloc realloc junk (Some g) fmt out = Ok (BSTR_ERR, Some g) /\ bassignformat malloc realloc junk (Some g) fmt out = Ok (BSTR_ERR, Some g).
Proof. pose proof guarded_broken as Hb. unfold bformata, bassignformat. rewrite Hb. by destruct fmt. Qed.
End Guarded.

(** C13: nobody writes to a protected string: whatever has a negative capacity, a string after [bwriteprotect], a literal of [bsStatic] or a reference into
    the memory of others, is refused and left as it is by every sequence of the writing operations, also as an argument of itself, by
    find and replace and by the formatting functions, with or without memory. *)
Theorem protected_unchanged malloc realloc junk p s t ops :
  mlen p < 0 -> slen p = zlen s -> data p = Some (s ++ t) -> Forall (fun o => sane o = true) ops ->
  performs malloc realloc junk ops (Some p) = Ok ([], Some p) /\
  (forall find repl pos, bfindreplace malloc realloc junk (Some p) (to_arg find) (to_arg repl) pos = Ok (BSTR_ERR, Some p) /\
     bfindreplacecaseless malloc realloc junk (Some p) (to_arg find) (to_arg repl) pos = Ok (BSTR_ERR, Some p)) /\
  (forall fmt out, bformata malloc realloc junk (Some p) fmt out = Ok (BSTR_ERR, Some p) /\ bassignformat malloc realloc junk (Some p) fmt out = Ok (BSTR_ERR, Some p)).
Proof.
  destruct p as [m n d]. cbn [mlen slen data]. intros Hm -> -> Hops. split_and!; [by apply guarded_ops| |].
  - intros find repl pos. split; by apply guarded_replace.
  - intros fmt out. by apply guarded_format.
Qed.

Lemma protected_unchanged_witness :
  let p := bwriteprotect (cell (lit "name") []) in
  performs (fun _ => true) (fun _ => true) (fun n => replicate (Z.to_nat n) Byte.xff) [Concat Self; Trunc 1; Delete 0 2; Insert 1 Self Byte.x20; Toupper] (Some p) = Ok ([], Some p).
Proof.
  apply (protected_unchanged (fun _ => true) (fun _ => true) (fun n => replicate (Z.to_nat n) Byte.xff) (bwriteprotect (cell (lit "name") [])) (lit "name") [Byte.x00]).
  - reflexivity.
  - reflexivity.
  - reflexivity.
  - repeat constructor.
Defined.
End BStringMacros.
